(* ===== verification/_CoqProject ===== *)
-Q . S2P
Prelude.v
Ring.v
Kmonad.v
Spinlock.v
Riscv.v
Mem.v
KString.v
Kalloc.v
Vm.v
VmWalk.v
VmMap.v
VmSpace.v
VmAlloc.v
VmFree.v
VmCopy.v
Block.v
Sleeplock.v
Bio.v
BioRing.v
BioCache.v
BioSpec.v
Log.v
LogSpec.v
LogRun.v
LogCrash.v
LogSpace.v
FsLayout.v
Fs.v
FsDir.v
Tx.v
Transaction.v
FsBlock.v
FsFormat.v
FsInode.v
FsRead.v
FsBmap.v
FsWrite.v
FsFile.v
FsPath.v
FsLookup.v
Pipe.v
PipeSpec.v
File.v
FileWrite.v
Proc.v
SleepWake.v
Sched.v
ProcSpec.v
Syscall.v
Exec.v
ExecSpec.v
Sysfile.v
Printf.v
Csr.v
Asm.v
Plic.v
Uart.v
Console.v
ConsoleSpec.v
Virtio.v
VirtioSpec.v
VirtioSys.v
Trap.v
TrapSpec.v
TrapUser.v
Boot.v
Mkfs.v
MkfsMap.v
MkfsSpec.v
MkfsRun.v
MkfsImage.v
Ulib.v
Grep.v
Umalloc.v
Sh.v
