(* ===== verification/Prelude.v ===== *)
(** * xv6-riscv: a verification library

    The program is xv6, a Unix-like teaching kernel for RISC-V
    multiprocessors (src/kernel), its user programs (src/user) and the
    program that builds a disk image (src/mkfs).  This library translates the
    kernel's C code into Rocq definitions, function by function and with the
    source's names, and proves what the parts promise each other.

    ** The model

    Numbers are [Z]; wherever the C type's width matters, the conversion is
    written out ([u8] .. [u64], [i16] .. [i64] in this file).  Memory is a
    finite map of bytes ([Mem]), blocks and kernel buffers are lists of bytes
    ([Block]).  Kernel code that runs with locks is a computation of the
    monad [K] ([Kmonad]): it returns, panics, goes to sleep or runs out of
    fuel, with the spinlocks held and the channels woken as its context.  A
    computation stands for one activation: from the entry of the function, or
    from the head of the loop that called [sleep], to its return or to the
    next [sleep].  Under a lock this is what other CPUs can observe; where
    interleavings are the point (spinlocks, sleep and wakeup, the scheduler,
    pipes), the code is a step relation over explicit program counters or
    activations instead.  Every loop has fuel that exceeds its number of
    turns (the length of the array it scans, or the number of bytes left plus
    one); [wp], the total-correctness triple of most theorems, excludes
    running out of fuel, so the bounds are proved to be enough.  [wlp], used
    where a theorem says what is left alone, allows panics.

    ** The parts and their files

    - machine: [Prelude], [Kmonad], [Riscv] (riscv.h, memlayout.h, param.h),
      [Mem], [Block];
    - string.c: [KString];
    - spinlock.c: [Spinlock], every memory access a step, any number of harts;
    - kalloc.c: [Kalloc], the free list threaded through free pages;
    - vm.c: [Vm] (the code); [VmWalk], [VmMap], [VmSpace] (page tables as
      trees and as maps from pages to frames and flags), [VmAlloc], [VmFree],
      [VmCopy] (growth, destruction, copies to and from user space);
    - sleeplock.c: [Sleeplock];
    - bio.c: [Bio] (the code, on a block device given by the class
      [BlockDev]); [BioRing] (the doubly linked ring), [BioCache],
      [BioSpec] (the cache as a client sees it);
    - log.c: [Log]; [LogSpec], [LogRun] (what each function does),
      [LogCrash] (crashes and recovery), [LogSpace] (reservations);
      [Transaction] ([begin_op] .. [end_op] as one atomic change);
    - fs.c: [FsLayout], [Fs], [FsDir] (the code); [Tx] (the view of the disk
      inside a transaction), [FsBlock] (the bitmap), [FsFormat], [FsInode]
      (inodes on disk), [FsRead], [FsBmap], [FsWrite], [FsFile] (a file as
      the list of its bytes), [FsPath], [FsLookup] (names);
    - pipe.c: [Pipe] (the code), [PipeSpec];
    - file.c: [File] (the code), [FileWrite] ([filewrite] over transactions);
    - proc.c: [Proc] (the code), [SleepWake], [Sched], [ProcSpec];
    - syscall.c, sysproc.c: [Syscall]; sysfile.c: [Sysfile]; exec.c: [Exec]
      (the code), [ExecSpec];
    - printf.c of the kernel and of the user library: [Printf];
    - uart.c: [Uart]; console.c: [Console] (the code), [ConsoleSpec];
    - ulib.c: [Ulib]; grep.c: [Grep]; sh.c: [Sh] (the parser);
    - umalloc.c: [Umalloc];
    - virtio_disk.c: [Virtio] (the code and the virtio specification),
      [VirtioSpec] (the invariant of rings and descriptors), [VirtioSys] (the
      driver, its callers and the device); rings of elements: [Ring];
    - mkfs/mkfs.c: [Mkfs] (the code); [MkfsMap] (which block belongs to which
      file), [MkfsSpec] (contents), [MkfsRun] (each function), [MkfsImage] (the
      image);
    - riscv.h (control registers), start.c: [Csr]; plic.c: [Plic]; trap.c,
      forkret of proc.c and syscall.c's dispatcher: [Trap] (the code),
      [TrapSpec];
    - trampoline.S, kernelvec.S, swtch.S, entry.S: [Asm]; entry.S and start.c
      together: [Boot]; the assembly and the C code of a system call
      together: [TrapUser];
    A [struct] is a record with the source's fields, an array a list, a
    pointer into a table the index of the entry ([option nat] where it may
    be null), a pointer into memory a [Z].  Each file's comment says how its
    state corresponds to the code.

    ** What the theorems show

    - Atomicity: a crash at any disk write of a commit, of a recovery or of a
      [filewrite] transaction leaves, after recovery, all or nothing of it
      ([LogCrash], [FileWrite]); an operation that keeps to its reservation
      finds room in the log ([LogSpace]).
    - Files: [readi], [writei] and [filewrite] read and splice the bytes of a
      file and leave other files, inodes and the bitmap right ([FsFile],
      [FsBlock], [FileWrite]).
    - Buffers: the cache is coherent and recycles the least recently used
      buffer ([BioSpec]).
    - Memory: pages are never shared or lost; address spaces grow, shrink
      and are freed exactly; copies touch only what the user may touch
      ([Kalloc], [VmAlloc], [VmFree], [VmCopy]).
    - Concurrency: mutual exclusion and interrupt state of spinlocks
      ([Spinlock]); no lost wakeups ([SleepWake], [PipeSpec]); a process runs
      on one CPU at a time ([Sched]); pipes are FIFO queues ([PipeSpec]).
    - Processes: exit, wait, kill and exec ([ProcSpec], [ExecSpec]).
    - Names: paths are split and directories searched as specified ([FsPath],
      [FsLookup]).
    - Output: the two [printf]s agree and print numbers exactly ([Printf]).
    - Terminal: what is typed is edited, echoed and read a line at a time
      ([ConsoleSpec]).
    - User programs: grep selects the lines that match ([Grep]); the blocks
      that malloc hands out never overlap and none is lost ([Umalloc]);
      the shell parses what is written ([Sh]).
    - Disk: driver and device together are a [BlockDev], and each block is
      written atomically, which is what [Bio] and [LogCrash] rely on
      ([VirtioSys]).
    - Image: what mkfs builds is a file system the kernel can use, and holds
      the files it was given ([MkfsImage]).
    - Traps: registers survive traps and context switches ([Asm]); a process
      is entered only with the hart set up for it, the timer preempts, and a
      trap in the kernel is undone ([TrapSpec]); a system call is a function
      call to the user program ([TrapUser]); a hart boots into main ([Boot]).
    ** Not modelled

    - main.c: the order of the initialisation calls.  In the model of the C
      code [swtch] is the end of an activation; that the registers of a thread
      come back is shown for the assembly ([Asm]).
    - The buffer cache and what is built on it use the class [BlockDev] (a
      read returns the last block written); [VirtioSys] shows that the driver
      is one, but the two are not run together.
    - Disk errors: a status other than 0 makes [virtio_disk_intr] panic.
    - The device switch of [File] is a parameter; [console_devsw] of [Console]
      says what console.c puts there.
    - The other user programs, usertests.c and mkfs.c, which run outside the kernel.
    *)
From Stdlib Require Export ZArith Lia.
From stdpp Require Export strings numbers base tactics list gmap sets.
Open Scope Z_scope.

(** ** Machine integers

    C integers are kept as [Z]; every place where the source relies on the
    width of the type applies one of these conversions. *)

Definition u8 (z : Z) : Z := z mod 0x100.
Definition u16 (z : Z) : Z := z mod 0x10000.
Definition u32 (z : Z) : Z := z mod 0x100000000.
Definition u64 (z : Z) : Z := z mod 0x10000000000000000.

(** Conversion to a two's complement signed type ([short], [int], [long]). *)
Definition i16 (z : Z) : Z := (z + 0x8000) mod 0x10000 - 0x8000.
Definition i32 (z : Z) : Z := (z + 0x80000000) mod 0x100000000 - 0x80000000.
Definition i64 (z : Z) : Z :=
  (z + 0x8000000000000000) mod 0x10000000000000000 - 0x8000000000000000.

(** [lia] with the division and modulo facts added. *)
Ltac zlia := Z.to_euclidean_division_equations; lia.

Ltac unfold_ints := unfold u8, u16, u32, u64, i16, i32, i64 in *.

Lemma u8_range z : 0 <= u8 z < 0x100.
Proof. unfold u8; zlia. Qed.
Lemma u32_range z : 0 <= u32 z < 0x100000000.
Proof. unfold u32; zlia. Qed.
Lemma u64_range z : 0 <= u64 z < 0x10000000000000000.
Proof. unfold u64; zlia. Qed.
Lemma i32_range z : -0x80000000 <= i32 z < 0x80000000.
Proof. unfold i32; zlia. Qed.
Lemma u8_id z : 0 <= z < 0x100 -> u8 z = z.
Proof. apply Z.mod_small. Qed.
Lemma u32_id z : 0 <= z < 0x100000000 -> u32 z = z.
Proof. apply Z.mod_small. Qed.
Lemma u64_id z : 0 <= z < 0x10000000000000000 -> u64 z = z.
Proof. apply Z.mod_small. Qed.
Lemma i32_id z : -0x80000000 <= z < 0x80000000 -> i32 z = z.
Proof. intros. unfold i32. rewrite Z.mod_small; lia. Qed.

(** ** Bit fields

    The masks and shifts of the source are turned into divisions and
    remainders, which [lia] understands. *)

Lemma land_ones_mod a n m : 0 <= n -> m = Z.ones n -> Z.land a m = a mod 2 ^ n.
Proof. intros Hn ->. by apply Z.land_ones. Qed.

Lemma shiftr_div a n : 0 <= n -> Z.shiftr a n = a / 2 ^ n.
Proof. apply Z.shiftr_div_pow2. Qed.

Lemma shiftl_mul a n : 0 <= n -> Z.shiftl a n = a * 2 ^ n.
Proof. apply Z.shiftl_mul_pow2. Qed.

(** Clearing the low [n] bits of a [w]-bit number with an inverted mask. *)
Lemma land_clear_low a n w :
  0 <= n <= w -> 0 <= a < 2 ^ w ->
  Z.land a ((Z.lnot (Z.ones n)) mod 2 ^ w) = a / 2 ^ n * 2 ^ n.
Proof.
  intros Hn Ha.
  rewrite <- (Z.land_ones (Z.lnot (Z.ones n)) w) by lia.
  rewrite (Z.land_comm (Z.lnot _)), Z.land_assoc, Z.land_ones, Z.mod_small by lia.
  rewrite <- Z.ldiff_land, Z.ldiff_ones_r, shiftr_div, shiftl_mul by lia. done.
Qed.

(** A number below [2 ^ n] has no bit at or above [n]. *)
Lemma testbit_small b n i : 0 <= b < 2 ^ n -> 0 <= n <= i -> Z.testbit b i = false.
Proof. intros Hb Hi. rewrite <- (Z.mod_small b (2 ^ n)) by lia. by apply Z.mod_pow2_bits_high. Qed.

(** Disjoint bit fields: [lor] is addition. *)
Lemma lor_add_disjoint a b n :
  0 <= n -> 0 <= b < 2 ^ n -> Z.lor (a * 2 ^ n) b = a * 2 ^ n + b.
Proof.
  intros Hn Hb. rewrite <- shiftl_mul by lia.
  assert (Hd : Z.land (Z.shiftl a n) b = 0).
  { apply Z.bits_inj'; intros i Hi. rewrite Z.land_spec, Z.bits_0.
    destruct (Z.lt_ge_cases i n).
    - by rewrite Z.shiftl_spec_low by lia.
    - by rewrite (testbit_small b n), andb_false_r by lia. }
  rewrite <- Z.lxor_lor by done. symmetry. by apply Z.add_nocarry_lxor.
Qed.

(** Bounded operands have a bounded [lor]. *)
Lemma lor_small a b n : 0 <= n -> 0 <= a < 2 ^ n -> 0 <= b < 2 ^ n -> 0 <= Z.lor a b < 2 ^ n.
Proof.
  intros Hn Ha Hb. replace (Z.lor a b) with (Z.lor a b mod 2 ^ n).
  - apply Z.mod_pos_bound. lia.
  - rewrite <- Z.land_ones, Z.land_lor_distr_l, !Z.land_ones, !Z.mod_small by lia. done.
Qed.

(** Testing a single-bit flag is [Z.testbit]. *)
Lemma land_flag a n : 0 <= n -> (Z.land a (2 ^ n) =? 0) = negb (Z.testbit a n).
Proof.
  intros Hn. destruct (Z.testbit a n) eqn:E; simpl.
  - apply Z.eqb_neq. intros H0.
    assert (Z.testbit (Z.land a (2 ^ n)) n = true) as H1.
    { by rewrite Z.land_spec, E, Z.pow2_bits_true by lia. }
    by rewrite H0, Z.bits_0 in H1.
  - apply Z.eqb_eq, Z.bits_inj'. intros i Hi. rewrite Z.land_spec, Z.bits_0.
    destruct (Z.eq_dec n i) as [<-|]; [by rewrite E|].
    by rewrite Z.pow2_bits_false, andb_false_r by lia.
Qed.

(** ** Lists of cells

    C arrays are lists; [!!!] with an [Inhabited] element reads a cell. *)

Lemma seq_snoc i n : seq i (S n) = seq i n ++ [(i + n)%nat].
Proof. apply seq_S. Qed.

Lemma list_insert_total {A} `{Inhabited A} (l : list A) (i j : nat) (x : A) :
  (i < length l)%nat -> <[i := x]> l !!! j = if decide (i = j) then x else l !!! j.
Proof.
  intros Hi. case_decide as E; subst.
  - by rewrite list_lookup_total_insert_eq.
  - by rewrite list_lookup_total_insert_ne.
Qed.

Lemma Forall_elem {A} (P : A -> Prop) (l : list A) x : Forall P l -> x ∈ l -> P x.
Proof. rewrite Forall_forall. eauto. Qed.

(** ** Proof steps used everywhere *)

(** Splits the boolean conditions of the goal, reflecting comparisons. *)
Ltac zcase :=
  match goal with
  | |- context [?a =? ?b] => destruct (Z.eqb_spec a b)
  | |- context [?a <? ?b] => destruct (Z.ltb_spec a b)
  | |- context [?a <=? ?b] => destruct (Z.leb_spec a b)
  end.

Create HintDb xv6.
#[export] Hint Resolve u8_range u32_range u64_range i32_range : xv6.
Create Rewrite HintDb xv6_ints.
#[export] Hint Rewrite u8_id u32_id u64_id i32_id using lia : xv6_ints.

(** The first element with a property, as a loop over an array finds it. *)
Lemma list_find_first {A} `{!Inhabited A} (P : A -> Prop) `{!forall x, Decision (P x)} (l : list A) (i : nat) :
  (i < length l)%nat -> P (l !!! i) -> (forall j, (j < i)%nat -> ~ P (l !!! j)) -> list_find P l = Some (i, l !!! i).
Proof.
  intros Hi HP Hj. apply list_find_Some. split; [by apply list_lookup_lookup_total_lt|]. split; [done|].
  intros j y Hy Hlt. rewrite list_lookup_lookup_total_lt in Hy by lia. injection Hy as <-. by apply Hj.
Qed.

Lemma list_find_none {A} `{!Inhabited A} (P : A -> Prop) `{!forall x, Decision (P x)} (l : list A) :
  (forall j, (j < length l)%nat -> ~ P (l !!! j)) -> list_find P l = None.
Proof.
  intros Hno. apply list_find_None, Forall_lookup. intros j x Hx. assert (j < length l)%nat as Hj by (by eapply lookup_lt_Some).
  rewrite list_lookup_lookup_total_lt in Hx by done. injection Hx as <-. by apply Hno.
Qed.

(** What holds below [i] and at [i] holds below [i + 1]. *)
Lemma below_S (P : nat -> Prop) i : (forall j, (j < i)%nat -> P j) -> P i -> forall j, (j < i + 1)%nat -> P j.
Proof. intros H Hi j Hj. destruct (decide (j = i)) as [->|]; [done|]. apply H. lia. Qed.

(** The C string at the start of an array of characters. *)
Fixpoint before_nul (s : list Z) : list Z :=
  match s with c :: s => if c =? 0 then [] else c :: before_nul s | [] => [] end.
Definition no_nul (s : list Z) : Prop := Forall (fun c => c <> 0) s.

Lemma before_nul_all s : no_nul s -> before_nul s = s.
Proof. induction 1 as [|c s Hc _ IH]; cbn; [done|]. destruct (Z.eqb_spec c 0); [done|]. by rewrite IH. Qed.

Lemma before_nul_app s t : no_nul s -> before_nul (s ++ 0 :: t) = s.
Proof. induction 1 as [|c s Hc _ IH]; cbn; [done|]. destruct (Z.eqb_spec c 0); [done|]. by rewrite IH. Qed.
