(* ===== verification/Ring.v ===== *)
(** * Ring buffers

    An array of [N] elements used as a ring: the elements of [l] lie from index
    [r] on, modulo [N].  Indices are unsigned counters that wrap around at a
    multiple of [N]. *)
From S2P Require Import Prelude.

Section ring.
Context {A : Type} `{!Inhabited A} (N : Z) (HN : 0 < N).
Implicit Types (buf l : list A) (r : Z) (x : A).

Definition slot (i : Z) : nat := Z.to_nat (i mod N).

Definition ring_is buf r l : Prop :=
  forall j : nat, (j < length l)%nat -> l !!! j = buf !!! slot (r + Z.of_nat j).

Lemma slot_lt i : (slot i < Z.to_nat N)%nat.
Proof. unfold slot. pose proof (Z.mod_pos_bound i N HN). lia. Qed.

Lemma slot_eq i j : i mod N = j mod N -> slot i = slot j.
Proof. unfold slot. by intros ->. Qed.

Lemma slot_ne i j : 0 < j - i < N -> slot i <> slot j.
Proof.
  intros H E. unfold slot in E. apply Z2Nat.inj in E; [|apply Z.mod_pos_bound; done..].
  assert ((j - i) mod N = 0) as Hm by (by rewrite Zminus_mod, E, Z.sub_diag, Z.mod_0_l by lia). rewrite Z.mod_small in Hm; lia.
Qed.

(** Only the index modulo [N] matters. *)
Lemma ring_mod buf r r' l : r mod N = r' mod N -> ring_is buf r l -> ring_is buf r' l.
Proof.
  intros E H j Hj. rewrite H by done. f_equal. apply slot_eq. by rewrite <- (Zplus_mod_idemp_l r), <- (Zplus_mod_idemp_l r'), E.
Qed.

Lemma ring_app buf r l1 l2 : ring_is buf r (l1 ++ l2) <-> ring_is buf r l1 /\ ring_is buf (r + Z.of_nat (length l1)) l2.
Proof.
  unfold ring_is. split.
  - intros H. split; intros j Hj.
    + rewrite <- H by (rewrite length_app; lia). by rewrite lookup_total_app_l.
    + replace (r + _ + _) with (r + Z.of_nat (length l1 + j)) by lia. rewrite <- H by (rewrite length_app; lia).
      rewrite lookup_total_app_r by lia. f_equal. lia.
  - intros [H1 H2] j Hj. rewrite length_app in Hj. destruct (decide (j < length l1)%nat).
    + rewrite lookup_total_app_l by done. by apply H1.
    + rewrite lookup_total_app_r, H2 by lia. do 2 f_equal. lia.
Qed.

Lemma ring_one buf r x : ring_is buf r [x] <-> x = buf !!! slot r.
Proof.
  unfold ring_is. split.
  - intros H. specialize (H 0%nat). cbn in H. rewrite Z.add_0_r in H. apply H. lia.
  - intros -> [|j] Hj; [by rewrite Z.add_0_r|cbn in Hj; lia].
Qed.

Lemma ring_nil buf r : ring_is buf r [].
Proof. intros j Hj. cbn in Hj. lia. Qed.

Lemma ring_cons buf r x l : ring_is buf r (x :: l) <-> x = buf !!! slot r /\ ring_is buf (r + 1) l.
Proof. change (x :: l) with ([x] ++ l). by rewrite ring_app, ring_one. Qed.

(** A new element goes into the first free place. *)
Lemma ring_snoc buf r l x : length buf = Z.to_nat N -> Z.of_nat (length l) < N -> ring_is buf r l ->
  ring_is (<[slot (r + Z.of_nat (length l)) := x]> buf) r (l ++ [x]).
Proof.
  intros Hb Hl H. apply ring_app. split.
  - intros j Hj. rewrite H by done. rewrite list_lookup_total_insert_ne; [done|]. apply not_eq_sym, slot_ne. lia.
  - apply ring_one. rewrite list_lookup_total_insert_eq; [done|]. rewrite Hb. apply slot_lt.
Qed.
End ring.
