(* ===== verification/Kmonad.v ===== *)
(** * The kernel thread monad

    Kernel code runs as a thread that changes a component's state, may call
    [panic] (kernel/printf.c), takes and drops spinlocks, and may go to sleep
    on a channel or wake the sleepers of one (kernel/proc.c).  A computation
    of type [K S A] is one activation of such a thread: it runs from its
    entry (or from the loop head it resumes at after a wakeup) until it
    returns, panics or goes to sleep.  The spinlocks held by the running CPU
    and the wakeups issued so far are threaded along as a [ctx]; [Spinlock]
    and [Proc] model the code that implements them. *)
From S2P Require Import Prelude.

(** A spinlock is identified by the name it was given in [initlock] and, for
    a lock that sits in an array or an object, its index or address; a sleep
    channel likewise. *)
Definition lockid : Set := (string * Z)%type.
Definition chan : Set := (string * Z)%type.

Record ctx := Ctx {
  held : list lockid;   (** spinlocks held, the most recent first *)
  woken : list chan;    (** channels passed to [wakeup], in order *)
}.

Inductive outcome (S A : Type) :=
| Ok (a : A) (c : ctx) (s : S)              (** returned *)
| Panic (msg : string)                      (** called [panic(msg)] *)
| Asleep (ch : chan) (c : ctx) (s : S)      (** called [sleep(ch, lk)] *)
| NoFuel.                                   (** a bounded loop ran out of fuel *)
Arguments Ok {S A} a c s.
Arguments Panic {S A} msg.
Arguments Asleep {S A} ch c s.
Arguments NoFuel {S A}.

Definition K (S A : Type) : Type := ctx -> S -> outcome S A.

Definition ret {S A} (a : A) : K S A := fun c s => Ok a c s.

Definition bind {S A B} (m : K S A) (f : A -> K S B) : K S B := fun c s =>
  match m c s with
  | Ok a c' s' => f a c' s'
  | Panic msg => Panic msg
  | Asleep ch c' s' => Asleep ch c' s'
  | NoFuel => NoFuel
  end.

Declare Scope K_scope.
Delimit Scope K_scope with K.
Notation "x <- m ;; k" := (bind m (fun x => k))
  (at level 100, m at next level, right associativity) : K_scope.
Notation "m ;; k" := (bind m (fun _ => k)) (at level 100, right associativity) : K_scope.
Open Scope K_scope.

Definition get {S} : K S S := fun c s => Ok s c s.
Definition gets {S A} (f : S -> A) : K S A := fun c s => Ok (f s) c s.
Definition modify {S} (f : S -> S) : K S unit := fun c s => Ok tt c (f s).
Definition panic {S A} (msg : string) : K S A := fun _ _ => Panic msg.
Definition nofuel {S A} : K S A := fun _ _ => NoFuel.
Definition skip {S} : K S unit := ret tt.
Definition when {S} (b : bool) (m : K S unit) : K S unit := if b then m else skip.

(** [acquire] panics when this CPU already holds the lock; a lock held by
    another CPU is waited for, so that the activation's state is the one at
    the moment the lock is obtained.  [release] panics unless it is held. *)
Definition acquire {S} (lk : lockid) : K S unit := fun c s =>
  if bool_decide (lk ∈ held c) then Panic "acquire"
  else Ok tt (Ctx (lk :: held c) (woken c)) s.

(** Removes the most recent acquisition of [lk]. *)
Fixpoint drop_lock (lk : lockid) (ls : list lockid) : list lockid :=
  match ls with
  | [] => []
  | l :: ls => if decide (l = lk) then ls else l :: drop_lock lk ls
  end.

Definition release {S} (lk : lockid) : K S unit := fun c s =>
  if bool_decide (lk ∈ held c)
  then Ok tt (Ctx (drop_lock lk (held c)) (woken c)) s
  else Panic "release".

(** [initlock] makes the lock free. *)
Definition initlock {S} (lk : lockid) : K S unit := fun c s =>
  Ok tt (Ctx (filter (fun l => l <> lk) (held c)) (woken c)) s.

(** [sleep(ch, lk)] drops [lk] and enters the scheduler, which insists that
    no other spinlock but the process's own is held. *)
Definition sleep {S A} (ch : chan) (lk : lockid) : K S A := fun c s =>
  if bool_decide (lk ∈ held c) then
    match drop_lock lk (held c) with
    | [] => Asleep ch (Ctx [] (woken c)) s
    | _ => Panic "sched locks"
    end
  else Panic "release".

Definition wakeup {S} (ch : chan) : K S unit := fun c s =>
  Ok tt (Ctx (held c) (woken c ++ [ch])) s.

(** A C loop: [body x] either goes round again with a new loop state ([inl])
    or leaves the loop with a result ([inr]). *)
Fixpoint loop {S X R} (fuel : nat) (body : X -> K S (X + R)) (x : X) : K S R :=
  match fuel with
  | O => nofuel
  | Datatypes.S n => r <- body x ;; match r with inl x' => loop n body x' | inr v => ret v end
  end.

(** Runs a computation on a component of a larger state. *)
Definition zoom {S T A} (g : S -> T) (p : T -> S -> S) (m : K T A) : K S A := fun c s =>
  match m c (g s) with
  | Ok a c' t => Ok a c' (p t s)
  | Panic msg => Panic msg
  | Asleep ch c' t => Asleep ch c' (p t s)
  | NoFuel => NoFuel
  end.

#[global] Arguments acquire : simpl never.
#[global] Arguments release : simpl never.
#[global] Arguments sleep : simpl never.

(** ** Total-correctness specifications

    [wp m Q c s]: started with [c] and [s], [m] returns (no panic, no sleep,
    enough fuel) and [Q] holds of its result. *)
Definition wp {S A} (m : K S A) (Q : A -> ctx -> S -> Prop) (c : ctx) (s : S) : Prop :=
  match m c s with Ok a c' s' => Q a c' s' | _ => False end.

Section wp.
Context {S : Type}.
Implicit Types (c : ctx) (s : S).

Lemma wp_ret {A} (a : A) (Q : A -> ctx -> S -> Prop) c s : Q a c s -> wp (ret a) Q c s.
Proof. done. Qed.

Lemma wp_bind {A B} (m : K S A) (f : A -> K S B) Q c s :
  wp m (fun a => wp (f a) Q) c s -> wp (bind m f) Q c s.
Proof. unfold wp, bind. by destruct (m c s). Qed.

Lemma wp_assoc {A B C} (m : K S A) (f : A -> K S B) (g : B -> K S C) Q c s :
  wp (bind (bind m f) g) Q c s -> wp (bind m (fun a => bind (f a) g)) Q c s.
Proof. unfold wp, bind. by destruct (m c s). Qed.

Lemma wp_mono {A} (m : K S A) (P Q : A -> ctx -> S -> Prop) c s :
  wp m P c s -> (forall a c' s', P a c' s' -> Q a c' s') -> wp m Q c s.
Proof. unfold wp. destruct (m c s); naive_solver. Qed.

Lemma wp_ok {A} (m : K S A) (Q : A -> ctx -> S -> Prop) c s a c' s' :
  m c s = Ok a c' s' -> Q a c' s' -> wp m Q c s.
Proof. unfold wp. by intros ->. Qed.

Lemma wp_ext {A} (m m' : K S A) Q c s : m c s = m' c s -> wp m' Q c s -> wp m Q c s.
Proof. unfold wp. by intros ->. Qed.

Lemma wp_inv {A} (m : K S A) (Q : A -> ctx -> S -> Prop) c s :
  wp m Q c s -> exists a c' s', m c s = Ok a c' s' /\ Q a c' s'.
Proof. unfold wp. destruct (m c s); naive_solver. Qed.

Lemma wp_gets {A} (f : S -> A) Q c s : Q (f s) c s -> wp (gets f) Q c s.
Proof. done. Qed.

Lemma wp_get Q c s : Q s c s -> wp get Q c s.
Proof. done. Qed.

Lemma wp_modify (f : S -> S) Q c s : Q tt c (f s) -> wp (modify f) Q c s.
Proof. done. Qed.

(** Equations for the runs of the lock operations. *)
Lemma acquire_run lk c s :
  acquire lk c s = if bool_decide (lk ∈ held c) then Panic "acquire"
                   else Ok tt (Ctx (lk :: held c) (woken c)) s.
Proof. done. Qed.

Lemma release_top lk h w s : release lk (Ctx (lk :: h) w) s = Ok tt (Ctx h w) s.
Proof.
  unfold release; simpl. rewrite bool_decide_true by (by left). by rewrite decide_True.
Qed.

Lemma sleep_not_ok {A} ch lk c s (a : A) c' s' : sleep ch lk c s <> Ok a c' s'.
Proof. unfold sleep. destruct (bool_decide _); [|done]. by destruct (drop_lock _ _). Qed.

Lemma wp_acquire lk Q c s :
  lk ∉ held c -> Q tt (Ctx (lk :: held c) (woken c)) s -> wp (acquire lk) Q c s.
Proof. intros Hn HQ. unfold wp, acquire. by rewrite bool_decide_false. Qed.

(** The usual bracketing: the lock released is the last one taken. *)
Lemma wp_release lk ls w Q s :
  Q tt (Ctx ls w) s -> wp (release lk) Q (Ctx (lk :: ls) w) s.
Proof.
  intros HQ. unfold wp, release; simpl.
  rewrite bool_decide_true by (by left). by rewrite decide_True.
Qed.

Lemma wp_initlock lk Q c s :
  lk ∉ held c -> Q tt c s -> wp (initlock lk) Q c s.
Proof.
  intros Hn HQ. unfold wp, initlock. destruct c as [h w]; simpl in *.
  assert (filter (fun l => l <> lk) h = h) as ->.
  { clear HQ. induction h as [|l h IH]; [done|]. rewrite filter_cons_True by set_solver.
    f_equal. apply IH. set_solver. }
  done.
Qed.

Lemma wp_wakeup ch Q c s :
  Q tt (Ctx (held c) (woken c ++ [ch])) s -> wp (wakeup ch) Q c s.
Proof. done. Qed.

(** [I k x]: the invariant with [k] rounds of fuel left. *)
Lemma wp_loop {X R} (I : nat -> X -> ctx -> S -> Prop) (body : X -> K S (X + R)) Q :
  (forall k x c s, I k x c s -> exists k', k = Datatypes.S k' /\
     wp (body x) (fun r c' s' => match r with inl x' => I k' x' c' s' | inr v => Q v c' s' end) c s) ->
  forall n x c s, I n x c s -> wp (loop n body x) Q c s.
Proof.
  intros Hstep n. induction n as [|n IH]; intros x c s HI.
  - destruct (Hstep _ _ _ _ HI) as (? & ? & _). done.
  - destruct (Hstep _ _ _ _ HI) as (k' & [= <-] & Hb).
    simpl. apply wp_bind. eapply wp_mono; [exact Hb|].
    intros [x'|v] c' s' Hr; [by apply IH|by apply wp_ret].
Qed.

Lemma wp_zoom {T A} (g : S -> T) (p : T -> S -> S) (m : K T A) Q c s :
  wp m (fun a c' t => Q a c' (p t s)) c (g s) -> wp (zoom g p m) Q c s.
Proof. unfold wp, zoom. by destruct (m c (g s)). Qed.
End wp.

(** ** Specifications of code that may sleep

    [wpx m Q R c s]: [m] returns and [Q] holds, or it goes to sleep on a
    channel and [R] holds. *)
Definition wpx {S A} (m : K S A) (Q : A -> ctx -> S -> Prop) (R : chan -> ctx -> S -> Prop) (c : ctx) (s : S) : Prop :=
  match m c s with Ok a c' s' => Q a c' s' | Asleep ch c' s' => R ch c' s' | _ => False end.

Section wpx.
Context {S : Type}.
Implicit Types (c : ctx) (s : S).

Lemma wpx_wp {A} (m : K S A) Q R c s : wp m Q c s -> wpx m Q R c s.
Proof. unfold wp, wpx. by destruct (m c s). Qed.

Lemma wpx_bind {A B} (m : K S A) (f : A -> K S B) Q R c s :
  wpx m (fun a => wpx (f a) Q R) R c s -> wpx (bind m f) Q R c s.
Proof. unfold wpx, bind. by destruct (m c s). Qed.

Lemma wpx_bind_wp {A B} (m : K S A) (f : A -> K S B) Q R c s :
  wp m (fun a => wpx (f a) Q R) c s -> wpx (bind m f) Q R c s.
Proof. unfold wp, wpx, bind. by destruct (m c s). Qed.

Lemma wpx_mono {A} (m : K S A) (P Q : A -> ctx -> S -> Prop) (R T : chan -> ctx -> S -> Prop) c s :
  wpx m P R c s -> (forall a c' s', P a c' s' -> Q a c' s') -> (forall ch c' s', R ch c' s' -> T ch c' s') -> wpx m Q T c s.
Proof. unfold wpx. destruct (m c s); auto. Qed.

Lemma wpx_ret {A} (a : A) (Q : A -> ctx -> S -> Prop) R c s : Q a c s -> wpx (ret a) Q R c s.
Proof. done. Qed.

Lemma wpx_sleep {A} ch lk w (Q : A -> ctx -> S -> Prop) R s : R ch (Ctx [] w) s -> wpx (sleep ch lk) Q R (Ctx [lk] w) s.
Proof.
  intros HR. unfold wpx, sleep. cbn [held woken]. rewrite bool_decide_true by (by left). cbn [drop_lock].
  by rewrite decide_True.
Qed.

Lemma wpx_loop {X T} (I : nat -> X -> ctx -> S -> Prop) (body : X -> K S (X + T)) Q R :
  (forall k x c s, I k x c s -> exists k', k = Datatypes.S k' /\
     wpx (body x) (fun r c' s' => match r with inl x' => I k' x' c' s' | inr v => Q v c' s' end) R c s) ->
  forall n x c s, I n x c s -> wpx (loop n body x) Q R c s.
Proof.
  intros Hstep n. induction n as [|n IH]; intros x c s HI.
  - destruct (Hstep _ _ _ _ HI) as (? & ? & _). done.
  - destruct (Hstep _ _ _ _ HI) as (k' & [= <-] & Hb).
    simpl. apply wpx_bind. eapply wpx_mono; [exact Hb| |done].
    intros [x'|v] c' s' Hr; [by apply IH|by apply wpx_ret].
Qed.

Lemma wpx_zoom {T A} (g : S -> T) (p : T -> S -> S) (m : K T A) Q R c s :
  wpx m (fun a c' t => Q a c' (p t s)) (fun ch c' t => R ch c' (p t s)) c (g s) -> wpx (zoom g p m) Q R c s.
Proof. unfold wpx, zoom. by destruct (m c (g s)). Qed.
End wpx.

(** Steps through the monadic structure of the goal, leaving calls of the
    component's own operations to their specifications. *)
Ltac kstep :=
  lazymatch goal with
  | |- wp (bind _ _) _ _ _ => apply wp_bind
  | |- wp (ret _) _ _ _ => apply wp_ret
  | |- wp (gets _) _ _ _ => apply wp_gets
  | |- wp get _ _ _ => apply wp_get
  | |- wp (modify _) _ _ _ => apply wp_modify
  | |- wp skip _ _ _ => apply wp_ret
  | |- wp (release _) _ (Ctx (_ :: _) _) _ => apply wp_release
  | |- wp (wakeup _) _ _ _ => apply wp_wakeup
  end; cbn beta iota; cbn [held woken].
Ltac ksteps := repeat kstep.

(** ** Frames *)

(** [m] leaves the part [f] of the state alone, whether it returns or sleeps. *)
Definition keeps {S A B} (f : S -> B) (m : K S A) : Prop := forall c s,
  match m c s with
  | Ok _ _ s' | Asleep _ _ s' => f s' = f s
  | Panic _ | NoFuel => True
  end.

Section keeps.
Context {S B : Type} (f : S -> B).

Lemma keeps_ok {A} (m : K S A) : keeps f m -> forall c s a c' s', m c s = Ok a c' s' -> f s' = f s.
Proof. intros H c s a c' s' E. specialize (H c s). by rewrite E in H. Qed.

Lemma keeps_ret {A} (a : A) : keeps f (ret a).
Proof. by intros c s. Qed.

Lemma keeps_bind {A A'} (m : K S A) (g : A -> K S A') : keeps f m -> (forall a, keeps f (g a)) -> keeps f (bind m g).
Proof.
  intros Hm Hg c s. unfold bind. specialize (Hm c s). destruct (m c s) as [a c1 s1|?|???|]; try done.
  specialize (Hg a c1 s1). destruct (g a c1 s1); congruence.
Qed.

Lemma keeps_zoom {T A} (g : S -> T) (p : T -> S -> S) (m : K T A) : (forall t s, f (p t s) = f s) -> keeps f (zoom g p m).
Proof. intros H c s. unfold zoom. by destruct (m c (g s)). Qed.

Lemma keeps_zoom_in {T A B'} (h : T -> B') (g : S -> T) (p : T -> S -> S) (m : K T A) :
  keeps h m -> (forall t s, h t = h (g s) -> f (p t s) = f s) -> keeps f (zoom g p m).
Proof. intros Hm H c s. unfold zoom. specialize (Hm c (g s)). destruct (m c (g s)); auto. Qed.

Lemma keeps_skip : keeps f skip.
Proof. by intros c s. Qed.

Lemma keeps_gets {A} (g : S -> A) : keeps f (gets g).
Proof. by intros c s. Qed.

Lemma keeps_get : keeps f get.
Proof. by intros c s. Qed.

Lemma keeps_modify (g : S -> S) : (forall s, f (g s) = f s) -> keeps f (modify g).
Proof. intros H c s. apply H. Qed.

Lemma keeps_panic {A} msg : keeps f (panic (A := A) msg).
Proof. by intros c s. Qed.

Lemma keeps_nofuel {A} : keeps f (nofuel (A := A)).
Proof. by intros c s. Qed.

Lemma keeps_acquire lk : keeps f (acquire lk).
Proof. intros c s. unfold acquire. by destruct (bool_decide _). Qed.

Lemma keeps_release lk : keeps f (release lk).
Proof. intros c s. unfold release. by destruct (bool_decide _). Qed.

Lemma keeps_wakeup ch : keeps f (wakeup ch).
Proof. by intros c s. Qed.

Lemma keeps_sleep {A} ch lk : keeps f (sleep (A := A) ch lk).
Proof. intros c s. unfold sleep. destruct (bool_decide _); [|done]. by destruct (drop_lock _ _). Qed.

Lemma keeps_when (b : bool) m : keeps f m -> keeps f (when b m).
Proof. intros H. destruct b; [done|apply keeps_ret]. Qed.

Lemma keeps_loop {X R} n (g : X -> K S (X + R)) x : (forall x, keeps f (g x)) -> keeps f (loop n g x).
Proof.
  intros Hg. revert x. induction n as [|n IH]; intros x; simpl; [by intros c s|].
  apply keeps_bind; [done|]. intros [x'|v]; [done|apply keeps_ret].
Qed.

(** When [m] returns, [Q] holds, and when it sleeps, [R]; it may panic. *)
Definition wlp {A} (m : K S A) (Q : A -> S -> Prop) (R : S -> Prop) (c : ctx) (s : S) : Prop :=
  match m c s with
  | Ok a _ s' => Q a s'
  | Asleep _ _ s' => R s'
  | Panic _ | NoFuel => True
  end.

Lemma wlp_bind {A A'} (m : K S A) (g : A -> K S A') Q R c s :
  wlp m (fun a s' => forall c', wlp (g a) Q R c' s') R c s -> wlp (bind m g) Q R c s.
Proof. unfold wlp, bind. destruct (m c s); try done. intros H. apply H. Qed.

Lemma wlp_mono {A} (m : K S A) (Q Q' : A -> S -> Prop) (R R' : S -> Prop) c s :
  wlp m Q R c s -> (forall a s', Q a s' -> Q' a s') -> (forall s', R s' -> R' s') -> wlp m Q' R' c s.
Proof. unfold wlp. destruct (m c s); auto. Qed.

Lemma wlp_loop {X V} (I : X -> S -> Prop) (body : X -> K S (X + V)) Q R :
  (forall x c s, I x s -> wlp (body x) (fun r s' => match r with inl x' => I x' s' | inr v => Q v s' end) R c s) ->
  forall n x c s, I x s -> wlp (loop n body x) Q R c s.
Proof.
  intros Hb n. induction n as [|n IH]; intros x c s HI; [done|]. simpl. apply wlp_bind. eapply wlp_mono; [by apply Hb| |done].
  intros [x'|v] s' H c'; [by apply IH|done].
Qed.

Lemma wlp_keeps {A} (m : K S A) Q (R : S -> Prop) c s : keeps f m -> (forall a s', f s' = f s -> Q a s') -> (forall s', f s' = f s -> R s') ->
  wlp m Q R c s.
Proof. intros Hm HQ HR. unfold wlp. specialize (Hm c s). destruct (m c s); auto. Qed.
End keeps.

Create HintDb keeps.
#[export] Hint Resolve keeps_ret keeps_skip keeps_gets keeps_get keeps_panic keeps_nofuel keeps_acquire keeps_release keeps_wakeup keeps_sleep : keeps.
Ltac keeps := repeat first
  [ solve [auto with keeps nocore] | apply keeps_loop; intros ? | apply keeps_bind; [|intros ?] | apply keeps_when | case_match ].

(** ** Code that never sleeps *)

Definition awake {S A} (m : K S A) : Prop := forall c s,
  match m c s with Asleep _ _ _ => False | _ => True end.

Section awake.
Context {S : Type}.

Lemma awake_ret {A} (a : A) : awake (S := S) (ret a).
Proof. by intros c s. Qed.
Lemma awake_skip : awake (S := S) skip.
Proof. by intros c s. Qed.
Lemma awake_gets {A} (g : S -> A) : awake (gets g).
Proof. by intros c s. Qed.
Lemma awake_get : awake (S := S) get.
Proof. by intros c s. Qed.
Lemma awake_modify (g : S -> S) : awake (modify g).
Proof. by intros c s. Qed.
Lemma awake_panic {A} msg : awake (S := S) (panic (A := A) msg).
Proof. by intros c s. Qed.
Lemma awake_nofuel {A} : awake (S := S) (nofuel (A := A)).
Proof. by intros c s. Qed.
Lemma awake_acquire lk : awake (S := S) (acquire lk).
Proof. intros c s. unfold acquire. by destruct (bool_decide _). Qed.
Lemma awake_release lk : awake (S := S) (release lk).
Proof. intros c s. unfold release. by destruct (bool_decide _). Qed.
Lemma awake_wakeup ch : awake (S := S) (wakeup ch).
Proof. by intros c s. Qed.

Lemma awake_bind {A B} (m : K S A) (f : A -> K S B) : awake m -> (forall a, awake (f a)) -> awake (bind m f).
Proof. intros Hm Hf c s. unfold bind. specialize (Hm c s). destruct (m c s); try done. apply Hf. Qed.
Lemma awake_when (b : bool) (m : K S unit) : awake m -> awake (when b m).
Proof. intros H. destruct b; [done|apply awake_skip]. Qed.
Lemma awake_zoom {T A} (g : S -> T) (p : T -> S -> S) (m : K T A) : awake m -> awake (zoom g p m).
Proof. intros H c s. unfold zoom. specialize (H c (g s)). by destruct (m c (g s)). Qed.
Lemma awake_loop {X R} n (g : X -> K S (X + R)) x : (forall x, awake (g x)) -> awake (loop n g x).
Proof.
  intros Hg. revert x. induction n as [|n IH]; intros x; simpl; [apply awake_nofuel|].
  apply awake_bind; [done|]. intros [x'|v]; [done|apply awake_ret].
Qed.

Lemma wlp_awake {A} (m : K S A) Q (R R' : S -> Prop) c s : awake m -> wlp m Q R c s -> wlp m Q R' c s.
Proof. intros H. unfold wlp. specialize (H c s). by destruct (m c s). Qed.
End awake.

Create HintDb awake.
#[export] Hint Resolve awake_ret awake_skip awake_gets awake_get awake_modify awake_panic awake_nofuel awake_acquire awake_release awake_wakeup : awake.
Ltac awake := repeat first
  [ solve [auto with awake nocore] | apply awake_loop; intros ? | apply awake_bind; [|intros ?] | apply awake_when | apply awake_zoom | case_match ].
