(* ===== verification/Spinlock.v ===== *)
(** * kernel/spinlock.c

    The harts of the machine, each with its interrupt state and [struct cpu],
    and the spinlocks in the memory they share.  [acquire] and [release] run
    one memory access at a time, interleaved between the harts in any order;
    a fence orders the accesses as written.  The rest of the kernel is any
    program that calls these functions, matches [push_off] with [pop_off],
    and changes the interrupt mode with [intr_on]/[intr_off] only outside
    them.  [Kmonad] uses a lock by the atomic steps justified here. *)
From stdpp Require Import functions gmap.
From S2P Require Import Prelude Kmonad.

(** ** Data *)

Record spinlock := Spin {
  locked : Z;
  lcpu : option nat;       (** the [struct cpu] of a hart, by its index *)
}.

(** A hart: [sstatus.SIE], and the fields of [struct cpu] used here. *)
Record cpu := Cpu {
  sie : bool;
  noff : Z;                (** depth of [push_off] nesting *)
  intena : bool;           (** were interrupts enabled before [push_off]? *)
}.

(** Where a hart is in [acquire] or [release]. *)
Inductive pc :=
  | Running                (** in neither *)
  | AcqCheck (l : lockid)  (** before [if(holding(lk))] *)
  | AcqSpin (l : lockid)   (** before the swap *)
  | AcqMark (l : lockid)   (** before [lk->cpu = mycpu()] *)
  | RelSwap (l : lockid)   (** before [__sync_lock_release] *)
  | RelPop (l : lockid).   (** before [pop_off()] *)

Record hart := Hart {
  hw : cpu;
  at_pc : pc;
  mine : gset lockid;      (* ghost: acquired and not released *)
  nest : Z;                (* ghost: open [push_off]s that are not a lock's *)
  mode : bool;             (* ghost: the interrupt mode the code last asked for *)
}.

Record machine := Machine {
  harts : nat -> hart;
  locks : lockid -> spinlock;
}.

Inductive result := Go (m : machine) | Dead (msg : string).

(** ** Operations *)

Definition initlock_spin : spinlock := Spin 0 None.

Definition holding (i : nat) (lk : spinlock) : bool := negb (locked lk =? 0) && bool_decide (lcpu lk = Some i).

Definition push_off (c : cpu) : cpu :=
  let old := sie c in
  Cpu false (noff c + 1) (if noff c =? 0 then old else intena c).

Definition pop_off (c : cpu) : string + cpu :=
  if sie c then inl "pop_off - interruptible"
  else if noff c <? 1 then inl "pop_off"
  else
    let n := noff c - 1 in
    inr (Cpu (if (n =? 0) && intena c then true else sie c) n (intena c)).

Definition set_hw (c : cpu) (h : hart) : hart := Hart c (at_pc h) (mine h) (nest h) (mode h).
Definition goto (p : pc) (h : hart) : hart := Hart (hw h) p (mine h) (nest h) (mode h).
Definition set_mine (s : gset lockid) (h : hart) : hart := Hart (hw h) (at_pc h) s (nest h) (mode h).
Definition set_nest (n : Z) (h : hart) : hart := Hart (hw h) (at_pc h) (mine h) n (mode h).

Definition upd_hart (i : nat) (f : hart -> hart) (m : machine) : machine :=
  Machine (<[i := f (harts m i)]> (harts m)) (locks m).
Definition upd_lock (l : lockid) (f : spinlock -> spinlock) (m : machine) : machine :=
  Machine (harts m) (<[l := f (locks m l)]> (locks m)).

(** [acquire(lk)]: the call, and the next step of a hart in it. *)
Definition acquire_call (i : nat) (l : lockid) (m : machine) : result :=
  Go (upd_hart i (fun h => goto (AcqCheck l) (set_hw (push_off (hw h)) h)) m).
Definition acquire_step (i : nat) (m : machine) : option result :=
  match at_pc (harts m i) with
  | AcqCheck l =>
      Some (if holding i (locks m l) then Dead "acquire" else Go (upd_hart i (goto (AcqSpin l)) m))
  | AcqSpin l =>
      let old := locked (locks m l) in
      Some (Go (upd_hart i (goto (if old =? 0 then AcqMark l else AcqSpin l))
                 (upd_lock l (fun k => Spin 1 (lcpu k)) m)))
  | AcqMark l =>
      Some (Go (upd_hart i (fun h => goto Running (set_mine ({[l]} ∪ mine h) h))
                 (upd_lock l (fun k => Spin (locked k) (Some i)) m)))
  | _ => None
  end.

(** [release(lk)]: the call up to [lk->cpu = 0], and the next step in it. *)
Definition release_call (i : nat) (l : lockid) (m : machine) : result :=
  if holding i (locks m l)
  then Go (upd_hart i (fun h => goto (RelSwap l) (set_mine (mine h ∖ {[l]}) h))
            (upd_lock l (fun k => Spin (locked k) None) m))
  else Dead "release".
Definition release_step (i : nat) (m : machine) : option result :=
  match at_pc (harts m i) with
  | RelSwap l => Some (Go (upd_hart i (goto (RelPop l)) (upd_lock l (fun k => Spin 0 (lcpu k)) m)))
  | RelPop l =>
      Some (match pop_off (hw (harts m i)) with
            | inl msg => Dead msg
            | inr c => Go (upd_hart i (fun h => goto Running (set_hw c h)) m)
            end)
  | _ => None
  end.

(** One step of hart [i]. *)
Inductive mstep (i : nat) (m : machine) : result -> Prop :=
  | st_acquire l : at_pc (harts m i) = Running -> mstep i m (acquire_call i l m)
  | st_release l : at_pc (harts m i) = Running -> mstep i m (release_call i l m)
  | st_in_acquire r : acquire_step i m = Some r -> mstep i m r
  | st_in_release r : release_step i m = Some r -> mstep i m r
  | st_push_off : at_pc (harts m i) = Running ->
      mstep i m (Go (upd_hart i (fun h => set_nest (nest h + 1) (set_hw (push_off (hw h)) h)) m))
  | st_pop_off : at_pc (harts m i) = Running -> 0 < nest (harts m i) ->
      mstep i m (match pop_off (hw (harts m i)) with
                 | inl msg => Dead msg
                 | inr c => Go (upd_hart i (fun h => set_nest (nest h - 1) (set_hw c h)) m)
                 end)
  | st_intr b : at_pc (harts m i) = Running -> noff (hw (harts m i)) = 0 ->
      mstep i m (Go (upd_hart i (fun h => Hart (Cpu b (noff (hw h)) (intena (hw h))) (at_pc h) (mine h) (nest h) b) m)).

Definition hart0 : hart := Hart (Cpu false 0 false) Running ∅ 0 false.
Definition machine0 : machine := Machine (fun _ => hart0) (fun _ => initlock_spin).

Inductive reach : machine -> Prop :=
  | reach_0 : reach machine0
  | reach_step i m m' : reach m -> mstep i m (Go m') -> reach m'.

(** ** The invariant *)

(** Hart [i] has set [lk->locked] and not yet cleared it. *)
Definition hown (h : hart) (l : lockid) : Prop := l ∈ mine h \/ at_pc h = AcqMark l \/ at_pc h = RelSwap l.
Definition owns (m : machine) (i : nat) (l : lockid) : Prop := hown (harts m i) l.

Definition in_call (p : pc) : Z := match p with Running => 0 | _ => 1 end.

Record hart_ok (h : hart) : Prop := {
  h_noff : noff (hw h) = Z.of_nat (size (mine h)) + nest h + in_call (at_pc h);
  h_nest : 0 <= nest h;
  h_off : 0 < noff (hw h) -> sie (hw h) = false /\ intena (hw h) = mode h;
  h_on : noff (hw h) = 0 -> sie (hw h) = mode h;
  h_acq : forall l, at_pc h = AcqSpin l \/ at_pc h = AcqMark l \/ at_pc h = RelSwap l -> l ∉ mine h;
}.

Record machine_ok (m : machine) : Prop := {
  m_hart i : hart_ok (harts m i);
  m_locked l i : owns m i l -> locked (locks m l) = 1;
  m_owner l : locked (locks m l) = 0 \/ exists i, owns m i l;
  m_one l i j : owns m i l -> owns m j l -> i = j;
  m_cpu l i : lcpu (locks m l) = Some i <-> l ∈ mine (harts m i);
}.

Lemma holding_mine m i l : machine_ok m -> holding i (locks m l) = bool_decide (l ∈ mine (harts m i)).
Proof.
  intros Hm. unfold holding. apply eq_true_iff_eq. rewrite andb_true_iff, !bool_decide_eq_true, (m_cpu _ Hm).
  split; [naive_solver|]. intros Hi. split; [|done]. rewrite (m_locked _ Hm l i) by (by left). done.
Qed.

Lemma push_off_ok h p n s :
  hart_ok h -> at_pc h = Running -> n = nest h + 1 - in_call p -> mine h = s -> 0 <= n ->
  (forall l, p <> AcqSpin l /\ p <> AcqMark l /\ p <> RelSwap l) ->
  hart_ok (Hart (push_off (hw h)) p s n (mode h)).
Proof.
  intros Hh Hp -> <- Hn Hl. destruct Hh as [h1 h2 h3 h4 h5]. rewrite Hp in h1. simpl in h1.
  split; cbn; [lia|done| |lia|naive_solver]. intros _. split; [done|].
  destruct (Z.eqb_spec (noff (hw h)) 0); [auto|]. apply h3. lia.
Qed.

Lemma pop_off_ok h n p : hart_ok h -> 0 <= n -> p = Running ->
  Z.of_nat (size (mine h)) + n + in_call p = noff (hw h) - 1 ->
  exists c, pop_off (hw h) = inr c /\ hart_ok (Hart c p (mine h) n (mode h)).
Proof.
  intros Hh Hn -> Hc. destruct Hh as [h1 h2 h3 h4 h5]. simpl in Hc. destruct h3 as [Hs Hi]; [lia|].
  unfold pop_off. rewrite Hs. destruct (Z.ltb_spec (noff (hw h)) 1); [lia|]. eexists. split; [done|].
  split; cbn; [lia|done| | |naive_solver].
  - intros. destruct (Z.eqb_spec (noff (hw h) - 1) 0); [lia|]. done.
  - intros ->. cbn. rewrite Hi. by destruct (mode h).
Qed.

(** A step of hart [i] that changes no lock and neither takes nor gives one up. *)
Lemma hart_upd_ok m i h' : machine_ok m -> hart_ok h' ->
  (forall l, hown h' l <-> owns m i l) -> (forall l, l ∈ mine h' <-> l ∈ mine (harts m i)) ->
  machine_ok (Machine (<[i := h']> (harts m)) (locks m)).
Proof.
  intros [m1 m2 m3 m4 m5] Hh Ho Hm.
  assert (forall j l, owns (Machine (<[i := h']> (harts m)) (locks m)) j l <-> owns m j l) as HO.
  { intros j l. unfold owns. cbn. destruct (decide (j = i)) as [->|]; [by rewrite fn_lookup_insert|by rewrite fn_lookup_insert_ne]. }
  split; cbn.
  - intros j. destruct (decide (j = i)) as [->|]; [by rewrite fn_lookup_insert|by rewrite fn_lookup_insert_ne].
  - intros l j. rewrite HO. apply m2.
  - intros l. destruct (m3 l) as [|[j Hj]]; [by left|right]. exists j. by rewrite HO.
  - intros l j k. rewrite !HO. apply m4.
  - intros l j. rewrite m5. destruct (decide (j = i)) as [->|]; [by rewrite fn_lookup_insert|by rewrite fn_lookup_insert_ne].
Qed.

(** A step of hart [i] that changes lock [l]. *)
Lemma lock_upd_ok m i h' l k' : machine_ok m -> hart_ok h' ->
  (forall l', l' <> l -> (hown h' l' <-> owns m i l') /\ (l' ∈ mine h' <-> l' ∈ mine (harts m i))) ->
  (hown h' l -> locked k' = 1 /\ forall j, j <> i -> ~ owns m j l) ->
  (locked k' = 0 \/ hown h' l \/ exists j, j <> i /\ owns m j l) ->
  (forall j, j <> i -> owns m j l -> locked k' = 1) ->
  (lcpu k' = Some i <-> l ∈ mine h') ->
  (forall j, j <> i -> lcpu k' = Some j <-> lcpu (locks m l) = Some j) ->
  machine_ok (Machine (<[i := h']> (harts m)) (<[l := k']> (locks m))).
Proof.
  intros [m1 m2 m3 m4 m5] Hh Hother Hown Hfree Hlk Hi Hj. set (m' := Machine _ _).
  assert (forall j l', (j <> i \/ l' <> l) -> owns m' j l' <-> owns m j l') as HO.
  { intros j l' Hd. unfold owns, m'. cbn. destruct (decide (j = i)) as [->|]; [rewrite fn_lookup_insert; by apply Hother; destruct Hd|by rewrite fn_lookup_insert_ne]. }
  assert (owns m' i l <-> hown h' l) as HOi by (unfold owns, m'; cbn; by rewrite fn_lookup_insert).
  split; cbn [harts locks].
  - intros j. unfold m'. cbn. destruct (decide (j = i)) as [->|]; [by rewrite fn_lookup_insert|by rewrite fn_lookup_insert_ne].
  - intros l' j Ho. unfold m'. cbn. destruct (decide (l' = l)) as [->|]; [rewrite fn_lookup_insert|rewrite fn_lookup_insert_ne by done].
    + destruct (decide (j = i)) as [->|]; [apply Hown; by apply HOi|]. apply (Hlk j); [done|]. apply HO; auto.
    + apply (m2 l' j). apply HO; auto.
  - intros l'. unfold m'. cbn [locks]. destruct (decide (l' = l)) as [->|]; [rewrite fn_lookup_insert|rewrite fn_lookup_insert_ne by done].
    + destruct Hfree as [|[Ho|(j & Hji & Ho)]]; [by left|right; exists i; by apply HOi|right; exists j; apply HO; auto].
    + destruct (m3 l') as [|[j Ho]]; [by left|right]. exists j. apply HO; auto.
  - intros l' j k Ho Ho'. destruct (decide (l' = l)) as [->|].
    + destruct (decide (j = i)) as [->|], (decide (k = i)) as [->|]; try done.
      * apply HOi, Hown in Ho as [_ Hno]. destruct (Hno k); [done|]. apply HO; auto.
      * apply HOi, Hown in Ho' as [_ Hno]. destruct (Hno j); [done|]. apply HO; auto.
      * apply (m4 l); apply HO; auto.
    + apply (m4 l'); apply HO; auto.
  - intros l' j. unfold m'. cbn. destruct (decide (l' = l)) as [->|]; [rewrite fn_lookup_insert|rewrite fn_lookup_insert_ne by done].
    + destruct (decide (j = i)) as [->|]; [by rewrite fn_lookup_insert|rewrite fn_lookup_insert_ne by done]. rewrite Hj by done. apply m5.
    + rewrite m5. destruct (decide (j = i)) as [->|]; [rewrite fn_lookup_insert; symmetry; by apply Hother|by rewrite fn_lookup_insert_ne].
Qed.

Lemma acquire_step_ok i m m' : machine_ok m -> acquire_step i m = Some (Go m') -> machine_ok m'.
Proof.
  intros Hm. pose proof (m_hart _ Hm i) as Hh. destruct Hh as [h1 h2 h3 h4 h5]. unfold acquire_step.
  destruct (at_pc (harts m i)) as [|l|l|l|l|l] eqn:Hpc; try done; cbn [in_call] in h1.
  - rewrite holding_mine by done. case_bool_decide as Hl; intros [= <-]. apply hart_upd_ok; [done| |..].
    + split; cbn; try done. intros l' Hl'. naive_solver.
    + intros l'. unfold owns, hown. cbn. rewrite Hpc. naive_solver.
    + done.
  - intros [= <-]. unfold upd_hart, upd_lock. cbn [harts locks]. apply lock_upd_ok; cbn [locked lcpu]; [done| |..].
    + split; cbn; try done. 1: by destruct (_ =? 0). intros l' Hl'. apply h5. destruct (_ =? 0); naive_solver.
    + intros l' Hl'. unfold owns, hown. cbn. rewrite Hpc. destruct (_ =? 0); naive_solver.
    + intros Ho. split; [done|]. intros j Hji Hoj. pose proof (m_locked _ Hm l j Hoj) as E. rewrite E in Ho.
      unfold hown in Ho. cbn in Ho. destruct Ho as [Ho|[|]]; [|done..]. apply Hji, (m_one _ Hm l); [done|by left].
    + destruct (m_owner _ Hm l) as [E|[j Hj]].
      * rewrite E. right. left. right. by left.
      * right. destruct (decide (j = i)) as [->|]; [left|right; eauto]. unfold owns, hown in *. rewrite Hpc in Hj. cbn. naive_solver.
    + done.
    + apply (m_cpu _ Hm).
    + done.
  - intros [= <-]. unfold upd_hart, upd_lock. cbn [harts locks]. assert (l ∉ mine (harts m i)) as Hl by (apply h5; naive_solver).
    assert (owns m i l) as Hown by (right; by left).
    apply lock_upd_ok; cbn [locked lcpu]; [done| |..].
    + split; cbn; [|done|done|done|naive_solver]. rewrite size_union, size_singleton by set_solver. lia.
    + intros l' Hl'. unfold owns, hown. cbn. rewrite Hpc. set_solver.
    + intros _. split; [by apply (m_locked _ Hm l i)|]. intros j Hji Ho. by apply Hji, (m_one _ Hm l).
    + right. left. left. cbn. set_solver.
    + intros j _ Ho. by apply (m_locked _ Hm l j).
    + cbn. set_solver.
    + intros j Hji. rewrite (m_cpu _ Hm). split; [naive_solver|]. intros Hj. destruct Hji. apply (m_one _ Hm l); [by left|done].
Qed.

Lemma release_call_ok i l m m' : machine_ok m -> at_pc (harts m i) = Running -> release_call i l m = Go m' -> machine_ok m'.
Proof.
  intros Hm Hpc. pose proof (m_hart _ Hm i) as [h1 h2 h3 h4 h5]. rewrite Hpc in h1. cbn [in_call] in h1.
  unfold release_call. rewrite holding_mine by done. case_bool_decide as Hl; intros [= <-].
  unfold upd_hart, upd_lock. cbn [harts locks]. apply lock_upd_ok; cbn [locked lcpu]; [done| |..].
  - split; cbn; [|done|done|done|set_solver]. rewrite size_difference, size_singleton by set_solver.
    assert (size (mine (harts m i)) <> 0%nat) by (rewrite size_non_empty_iff; set_solver). lia.
  - intros l' Hl'. unfold owns, hown. cbn. rewrite Hpc. set_solver.
  - intros _. split; [apply (m_locked _ Hm l i); by left|]. intros j Hji Ho. apply Hji, (m_one _ Hm l); [done|by left].
  - right. left. right. by right.
  - intros j _ Ho. by apply (m_locked _ Hm l j).
  - cbn. set_solver.
  - intros j Hji. rewrite (m_cpu _ Hm). split; [done|]. intros Hj. destruct Hji. apply (m_one _ Hm l); by left.
Qed.

Lemma release_step_ok i m r : machine_ok m -> release_step i m = Some r -> exists m', r = Go m' /\ machine_ok m'.
Proof.
  intros Hm. pose proof (m_hart _ Hm i) as Hh. unfold release_step.
  destruct (at_pc (harts m i)) as [|l|l|l|l|l] eqn:Hpc; try done; intros [= <-].
  - destruct Hh as [h1 h2 h3 h4 h5]. rewrite Hpc in h1. eexists. split; [done|]. unfold upd_hart, upd_lock. cbn [harts locks].
    assert (owns m i l) as Hown by (right; by right). assert (l ∉ mine (harts m i)) as Hl by (apply h5; naive_solver).
    apply lock_upd_ok; cbn [locked lcpu]; [done| |..].
    + split; cbn; try done. naive_solver.
    + intros l' Hl'. unfold owns, hown. cbn. rewrite Hpc. naive_solver.
    + unfold hown. cbn. naive_solver.
    + by left.
    + intros j Hji Ho. destruct Hji. by apply (m_one _ Hm l).
    + apply (m_cpu _ Hm).
    + done.
  - destruct (pop_off_ok (harts m i) (nest (harts m i)) Running Hh) as (c & -> & Hc); [by destruct Hh|done| |].
    { destruct Hh as [h1 _ _ _ _]. rewrite Hpc in h1. cbn in *. lia. }
    eexists. split; [done|]. apply hart_upd_ok; [done|done| |done]. intros l'. unfold owns, hown. cbn. rewrite Hpc. naive_solver.
Qed.

Lemma mstep_ok i m m' : mstep i m (Go m') -> machine_ok m -> machine_ok m'.
Proof.
  intros Hs Hm. pose proof (m_hart _ Hm i) as Hh. inversion Hs as [l Hpc E|l Hpc E|r E|r E|Hpc E|Hpc Hn E|b Hpc Hn E].
  - subst m'. apply hart_upd_ok; [done| |..|done].
    + unfold goto, set_nest, set_hw; cbn [hw at_pc mine nest mode]; apply push_off_ok; [done|done|cbn; lia|done|by destruct Hh|done].
    + intros l'. unfold owns, hown. cbn. rewrite Hpc. naive_solver.
  - by apply (release_call_ok i l m).
  - by apply (acquire_step_ok i m).
  - destruct (release_step_ok i m (Go m') Hm E) as (m'' & [= <-] & ?). done.
  - subst m'. apply hart_upd_ok; [done| |..|done].
    + unfold goto, set_nest, set_hw; cbn [hw at_pc mine nest mode]; rewrite Hpc; apply push_off_ok; [done|done|cbn; lia|done|destruct Hh; lia|done].
    + intros l'. unfold owns, hown. cbn. by rewrite Hpc.
  - destruct (pop_off_ok (harts m i) (nest (harts m i) - 1) (at_pc (harts m i)) Hh) as (c & E' & Hc); [lia|done| |].
    { destruct Hh as [h1 _ _ _ _]. rewrite Hpc in *. cbn in *. lia. }
    rewrite E' in E. injection E as <-. by apply hart_upd_ok.
  - subst m'. apply hart_upd_ok; [done| |done..].
    destruct Hh as [h1 h2 h3 h4 h5]. split; cbn; [done|done|lia|done|done].
Qed.

Lemma reach_ok m : reach m -> machine_ok m.
Proof.
  induction 1 as [|i m m' _ IH Hs]; [|by apply (mstep_ok i m)].
  split; cbn.
  - intros i. split; cbn; done || lia || naive_solver.
  - unfold owns, hown. cbn. set_solver.
  - by left.
  - unfold owns, hown. cbn. set_solver.
  - set_solver.
Qed.

(** C9: Mutual exclusion: whatever the interleaving of the harts, a lock that
    one hart has acquired and not released is not held by another, and
    [holding] tells each hart exactly which locks it holds. *)
Theorem spinlock_mutual_exclusion m : reach m ->
  (forall l i j, l ∈ mine (harts m i) -> l ∈ mine (harts m j) -> i = j) /\
  (forall l i, holding i (locks m l) = true <-> l ∈ mine (harts m i)).
Proof.
  intros Hm%reach_ok. split.
  - intros l i j Hi Hj. apply (m_one _ Hm l); by left.
  - intros l i. rewrite holding_mine by done. apply bool_decide_eq_true.
Qed.

(** C36: Interrupts are off on a hart from the first instruction of [acquire]
    after [push_off] until the outermost lock is released, and are then back
    in the mode the code had set: [push_off] and [pop_off] nest. *)
Theorem interrupts_off_under_locks m i : reach m ->
  let h := harts m i in
  ((mine h <> ∅ \/ at_pc h <> Running \/ 0 < nest h) -> sie (hw h) = false) /\
  (mine h = ∅ -> at_pc h = Running -> nest h = 0 -> sie (hw h) = mode h).
Proof.
  intros Hm%reach_ok h. destruct (m_hart _ Hm i) as [h1 h2 h3 h4 h5]. fold h in h1, h2, h3, h4, h5. split.
  - intros Hn. apply h3. assert (0 <= in_call (at_pc h)) by (by destruct (at_pc h)).
    destruct Hn as [Hn|[Hn|Hn]]; [|destruct (at_pc h); [done|cbn in *; lia..]|lia].
    assert (size (mine h) <> 0%nat) by (rewrite size_non_empty_iff; set_solver). lia.
  - intros E Hp Hn. apply h4. rewrite h1, E, Hp, Hn, size_empty. done.
Qed.

(** The panics of spinlock.c are misuse by the caller: [acquire] panics
    only on a lock the hart already holds, [release] only on one it does not
    hold, and a matched [pop_off] never panics. *)
Theorem spinlock_panics_are_misuse m i msg : reach m -> mstep i m (Dead msg) ->
  (msg = "acquire" /\ exists l, at_pc (harts m i) = AcqCheck l /\ l ∈ mine (harts m i)) \/
  (msg = "release" /\ exists l, release_call i l m = Dead msg /\ l ∉ mine (harts m i)).
Proof.
  intros Hm%reach_ok Hs. pose proof (m_hart _ Hm i) as Hh. inversion Hs as [l Hpc E|l Hpc E|r E|r E|Hpc E|Hpc Hn E|b Hpc Hn E]; try done.
  - right. revert E. unfold release_call. rewrite holding_mine by done. case_bool_decide; intros [= <-].
    split; [done|]. exists l. split; [|done]. by rewrite holding_mine, bool_decide_eq_false_2.
  - left. revert E. unfold acquire_step. destruct (at_pc (harts m i)) as [|l|l|l|l|l] eqn:Hpc; try done.
    rewrite holding_mine by done. case_bool_decide; intros [= <-]. eauto.
  - destruct (release_step_ok i m (Dead msg) Hm E) as (m'' & [=] & _).
  - destruct (pop_off_ok (harts m i) (nest (harts m i) - 1) (at_pc (harts m i)) Hh) as (c & E' & _); [lia|done| |].
    { destruct Hh as [h1 _ _ _ _]. rewrite Hpc in *. cbn in *. lia. }
    by rewrite E' in E.
Qed.

(** ** Witnesses: hart 0 takes a lock, hart 1 spins on it, hart 0 misuses it. *)

Definition ex_lk : lockid := ("proc", 3).
Definition after (m : machine) (r : option result) : machine := match r with Some (Go m') => m' | _ => m end.
Definition ex_m1 : machine := after machine0 (Some (acquire_call 0 ex_lk machine0)).
Definition ex_m2 : machine := after ex_m1 (acquire_step 0 ex_m1).
Definition ex_m3 : machine := after ex_m2 (acquire_step 0 ex_m2).
Definition ex_m4 : machine := after ex_m3 (acquire_step 0 ex_m3).
Definition ex_m5 : machine := after ex_m4 (Some (acquire_call 1 ex_lk ex_m4)).
Definition ex_m6 : machine := after ex_m5 (acquire_step 1 ex_m5).
Definition ex_m7 : machine := after ex_m6 (acquire_step 1 ex_m6).

Lemma ex_m7_reach : reach ex_m7.
Proof.
  assert (reach ex_m1) by (eapply (reach_step 0); [apply reach_0|]; by apply (st_acquire 0 _ ex_lk)).
  assert (reach ex_m2) by (eapply (reach_step 0 ex_m1); [done|]; by apply st_in_acquire).
  assert (reach ex_m3) by (eapply (reach_step 0 ex_m2); [done|]; by apply st_in_acquire).
  assert (reach ex_m4) by (eapply (reach_step 0 ex_m3); [done|]; by apply st_in_acquire).
  assert (reach ex_m5) by (eapply (reach_step 1 ex_m4); [done|]; by apply (st_acquire 1 _ ex_lk)).
  assert (reach ex_m6) by (eapply (reach_step 1 ex_m5); [done|]; by apply st_in_acquire).
  eapply (reach_step 1 ex_m6); [done|]. by apply st_in_acquire.
Qed.

Lemma spinlock_mutual_exclusion_witness : reach ex_m7 /\ ex_lk ∈ mine (harts ex_m7 0) /\ at_pc (harts ex_m7 1) = AcqSpin ex_lk /\
  ex_lk ∉ mine (harts ex_m7 1).
Proof.
  destruct (spinlock_mutual_exclusion ex_m7 ex_m7_reach) as [H1 H2]. split; [exact ex_m7_reach|].
  assert (ex_lk ∈ mine (harts ex_m7 0)) as H0 by (apply H2; reflexivity). split; [exact H0|]. split; [reflexivity|].
  intros H. discriminate (H1 _ _ _ H0 H).
Defined.

Lemma interrupts_off_under_locks_witness : reach ex_m7 /\ sie (hw (harts ex_m7 1)) = false /\ sie (hw (harts ex_m7 2)) = mode (harts ex_m7 2).
Proof.
  split; [exact ex_m7_reach|]. split.
  - apply (proj1 (interrupts_off_under_locks ex_m7 1 ex_m7_reach)). right. left. discriminate.
  - apply (proj2 (interrupts_off_under_locks ex_m7 2 ex_m7_reach)); reflexivity.
Defined.

Lemma spinlock_panics_are_misuse_witness : mstep 2 ex_m7 (Dead "release") /\
  exists l, release_call 2 l ex_m7 = Dead "release" /\ l ∉ mine (harts ex_m7 2).
Proof.
  assert (mstep 2 ex_m7 (Dead "release")) as Hs by (apply (st_release 2 ex_m7 ex_lk); reflexivity). split; [exact Hs|].
  destruct (spinlock_panics_are_misuse ex_m7 2 "release" ex_m7_reach Hs) as [[E _]|[_ H]]; [discriminate E|exact H].
Defined.
