(* ===== verification/Riscv.v ===== *)
(** * Address arithmetic and layout constants

    The macros of kernel/riscv.h, kernel/memlayout.h and kernel/param.h, on
    64-bit values kept as [Z], and their arithmetic meaning. *)
From S2P Require Import Prelude.

(** ** kernel/riscv.h *)

Definition PGSIZE : Z := 4096.
Definition PGSHIFT : Z := 12.
Definition PGROUNDUP (sz : Z) : Z := Z.land (u64 (sz + PGSIZE - 1)) (u64 (Z.lnot (PGSIZE - 1))).
Definition PGROUNDDOWN (a : Z) : Z := Z.land a (u64 (Z.lnot (PGSIZE - 1))).

Definition PTE_V : Z := Z.shiftl 1 0.
Definition PTE_R : Z := Z.shiftl 1 1.
Definition PTE_W : Z := Z.shiftl 1 2.
Definition PTE_X : Z := Z.shiftl 1 3.
Definition PTE_U : Z := Z.shiftl 1 4.

Definition PA2PTE (pa : Z) : Z := u64 (Z.shiftl (Z.shiftr pa 12) 10).
Definition PTE2PA (pte : Z) : Z := u64 (Z.shiftl (Z.shiftr pte 10) 12).
Definition PTE_FLAGS (pte : Z) : Z := Z.land pte 0x3FF.

Definition PXMASK : Z := 0x1FF.
Definition PXSHIFT (level : Z) : Z := PGSHIFT + 9 * level.
Definition PX (level va : Z) : Z := Z.land (Z.shiftr va (PXSHIFT level)) PXMASK.
Definition MAXVA : Z := Z.shiftl 1 (9 + 9 + 9 + 12 - 1).

Definition SATP_SV39 : Z := Z.shiftl 8 60.
Definition MAKE_SATP (pagetable : Z) : Z := Z.lor SATP_SV39 (Z.shiftr pagetable 12).

(** ** kernel/memlayout.h and kernel/param.h *)

Definition UART0 : Z := 0x10000000.
Definition VIRTIO0 : Z := 0x10001000.
Definition PLIC : Z := 0x0c000000.
Definition KERNBASE : Z := 0x80000000.
Definition PHYSTOP : Z := KERNBASE + 128 * 1024 * 1024.
Definition TRAMPOLINE : Z := MAXVA - PGSIZE.
Definition KSTACK (p : Z) : Z := TRAMPOLINE - (p + 1) * 2 * PGSIZE.
Definition TRAPFRAME : Z := TRAMPOLINE - PGSIZE.

Definition ROOTDEV : Z := 1.
Definition NPROC : Z := 64.
Definition NOFILE : Z := 16.
Definition NFILE : Z := 100.
Definition NINODE : Z := 50.
Definition NDEV : Z := 10.
Definition MAXARG : Z := 32.
Definition MAXOPBLOCKS : Z := 10.
Definition LOGBLOCKS : Z := MAXOPBLOCKS * 3.
Definition NBUF : Z := MAXOPBLOCKS * 3.
Definition MAXPATH : Z := 128.
Definition USERSTACK : Z := 1.

(** Linker symbols: the addresses kernel/kernel.ld gives to [etext] (end of
    the kernel's code), [trampoline] (kernel/trampoline.S) and [end] (first
    address after the kernel). *)
Class Layout := {
  etext : Z;
  trampoline : Z;
  kend : Z;
  etext_range : KERNBASE < etext <= kend;
  etext_aligned : etext mod PGSIZE = 0;
  trampoline_range : KERNBASE <= trampoline < etext;
  trampoline_aligned : trampoline mod PGSIZE = 0;
  kend_range : kend < PHYSTOP;
}.

(** The layout of the kernel image that is checked in (kernel/kernel.sym). *)
#[program] Definition image_layout : Layout := {|
  etext := 0x80007000; trampoline := 0x80006000; kend := 0x80020b68 |}.
Solve All Obligations with (vm_compute; intuition congruence).

#[global] Arguments PGROUNDUP : simpl never.
#[global] Arguments PGROUNDDOWN : simpl never.
#[global] Arguments PX : simpl never.
#[global] Arguments PA2PTE : simpl never.
#[global] Arguments PTE2PA : simpl never.

(** ** What the macros compute *)

Lemma PGROUNDDOWN_spec a : 0 <= a < 2 ^ 64 -> PGROUNDDOWN a = a / 4096 * 4096.
Proof. intros Ha. apply (land_clear_low a 12 64); lia. Qed.

Lemma PGROUNDUP_spec sz :
  0 <= sz <= 2 ^ 64 - 4096 -> PGROUNDUP sz = (sz + 4095) / 4096 * 4096.
Proof.
  intros Hs. unfold PGROUNDUP, PGSIZE. rewrite u64_id by lia.
  replace (sz + 4096 - 1) with (sz + 4095) by lia.
  apply (land_clear_low (sz + 4095) 12 64); lia.
Qed.

Lemma PGROUNDUP_aligned sz : 0 <= sz <= 2 ^ 64 - 4096 -> PGROUNDUP sz mod PGSIZE = 0.
Proof. intros. rewrite PGROUNDUP_spec by lia. unfold PGSIZE. zlia. Qed.

Lemma PGROUNDUP_bounds sz :
  0 <= sz <= 2 ^ 64 - 4096 -> sz <= PGROUNDUP sz < sz + 4096.
Proof. intros. rewrite PGROUNDUP_spec by lia. zlia. Qed.

Lemma PX_spec level va : 0 <= level -> PX level va = va / 2 ^ (12 + 9 * level) mod 512.
Proof.
  intros. unfold PX, PXMASK, PXSHIFT, PGSHIFT.
  rewrite (land_ones_mod _ 9) by done. by rewrite shiftr_div by lia.
Qed.

Lemma PX_range level va : 0 <= PX level va < 512.
Proof.
  unfold PX, PXMASK. rewrite (land_ones_mod _ 9) by done.
  apply Z.mod_pos_bound. lia.
Qed.

Lemma MAXVA_eq : MAXVA = 2 ^ 38.
Proof. done. Qed.

(** The three 9-bit indices determine the page of an address below [MAXVA]. *)
Lemma PX_decompose va :
  0 <= va < MAXVA ->
  va / 4096 = PX 2 va * 262144 + PX 1 va * 512 + PX 0 va.
Proof.
  rewrite MAXVA_eq. intros. rewrite !PX_spec by lia.
  change (2 ^ (12 + 9 * 2)) with 1073741824. change (2 ^ (12 + 9 * 1)) with 2097152.
  change (2 ^ (12 + 9 * 0)) with 4096. zlia.
Qed.

Lemma PX_inj va va' :
  0 <= va < MAXVA -> 0 <= va' < MAXVA ->
  PX 2 va = PX 2 va' -> PX 1 va = PX 1 va' -> PX 0 va = PX 0 va' ->
  va / 4096 = va' / 4096.
Proof. intros. rewrite !PX_decompose by done. congruence. Qed.

(** ** Page-table entries *)

Lemma PA2PTE_spec pa : 0 <= pa < 2 ^ 56 -> PA2PTE pa = pa / 4096 * 1024.
Proof.
  intros. unfold PA2PTE. rewrite shiftl_mul, shiftr_div by lia.
  change (2 ^ 12) with 4096. change (2 ^ 10) with 1024. apply u64_id. zlia.
Qed.

Lemma PTE2PA_spec pte : 0 <= pte < 2 ^ 54 -> PTE2PA pte = pte / 1024 * 4096.
Proof.
  intros. unfold PTE2PA. rewrite shiftl_mul, shiftr_div by lia.
  change (2 ^ 12) with 4096. change (2 ^ 10) with 1024. apply u64_id. zlia.
Qed.

(** A leaf or interior entry, as [PA2PTE(pa) | perm | PTE_V] builds it. *)
Definition mkpte (pa perm : Z) : Z := Z.lor (Z.lor (PA2PTE pa) perm) PTE_V.

Lemma mkpte_add pa perm :
  0 <= pa < 2 ^ 56 -> 0 <= perm < 1024 ->
  mkpte pa perm = pa / 4096 * 1024 + Z.lor perm PTE_V.
Proof.
  intros Hpa Hp. unfold mkpte. rewrite PA2PTE_spec, <- Z.lor_assoc by lia.
  apply (lor_add_disjoint _ _ 10); [lia|]. by apply lor_small.
Qed.

Lemma mkpte_range pa perm :
  0 <= pa < 2 ^ 56 -> 0 <= perm < 1024 -> 0 <= mkpte pa perm < 2 ^ 54.
Proof.
  intros. rewrite mkpte_add by lia.
  assert (0 <= Z.lor perm PTE_V < 2 ^ 10) by (by apply lor_small). zlia.
Qed.

Lemma PTE2PA_mkpte pa perm :
  0 <= pa < 2 ^ 56 -> pa mod 4096 = 0 -> 0 <= perm < 1024 -> PTE2PA (mkpte pa perm) = pa.
Proof.
  intros. pose proof (mkpte_range pa perm). rewrite PTE2PA_spec, mkpte_add by lia.
  assert (0 <= Z.lor perm PTE_V < 2 ^ 10) by (by apply lor_small). zlia.
Qed.

Lemma PTE_FLAGS_mkpte pa perm :
  0 <= pa < 2 ^ 56 -> 0 <= perm < 1024 -> PTE_FLAGS (mkpte pa perm) = Z.lor perm PTE_V.
Proof.
  intros. unfold PTE_FLAGS. rewrite (land_ones_mod _ 10), mkpte_add by (done || lia).
  assert (0 <= Z.lor perm PTE_V < 2 ^ 10) by (by apply lor_small). zlia.
Qed.
