(* ===== verification/Mem.v ===== *)
(** * Byte-addressed memory and little-endian words

    Memory is a finite map from addresses to bytes, an address that was never
    written reads as zero.  Words are stored little-endian, as on RISC-V; the
    same coding is used for the fields of on-disk structures. *)
From S2P Require Import Prelude.

Abbreviation memory := (gmap Z Z).

Definition rd8 (m : memory) (a : Z) : Z := u8 (default 0 (m !! a)).
Definition wr8 (m : memory) (a v : Z) : memory := <[a := u8 v]> m.

Fixpoint rdbytes (n : nat) (m : memory) (a : Z) : list Z :=
  match n with
  | O => []
  | S n => rd8 m a :: rdbytes n m (a + 1)
  end.

Fixpoint wrbytes (m : memory) (a : Z) (l : list Z) : memory :=
  match l with
  | [] => m
  | x :: l => wrbytes (wr8 m a x) (a + 1) l
  end.

(** Little-endian coding of an [n]-byte word. *)
Fixpoint le_dec (l : list Z) : Z :=
  match l with [] => 0 | x :: l => u8 x + 256 * le_dec l end.

Fixpoint le_enc (n : nat) (v : Z) : list Z :=
  match n with O => [] | S n => u8 v :: le_enc n (v / 256) end.

Definition load (n : nat) (m : memory) (a : Z) : Z := le_dec (rdbytes n m a).
Definition store (n : nat) (m : memory) (a v : Z) : memory := wrbytes m a (le_enc n v).
Definition load64 := load 8.
Definition store64 := store 8.

#[global] Arguments load : simpl never.
#[global] Arguments store : simpl never.
#[global] Arguments load64 : simpl never.
#[global] Arguments store64 : simpl never.

(** ** Bytes *)

Lemma rd8_range m a : 0 <= rd8 m a < 256.
Proof. apply u8_range. Qed.

Lemma rd8_wr8 m a v b : rd8 (wr8 m a v) b = if decide (a = b) then u8 v else rd8 m b.
Proof.
  unfold rd8, wr8. rewrite lookup_insert. case_decide; [|done].
  simpl. unfold u8. by rewrite Z.mod_mod.
Qed.

Lemma rd8_wrbytes l m a b :
  rd8 (wrbytes m a l) b =
    if decide (a <= b < a + Z.of_nat (length l)) then u8 (l !!! Z.to_nat (b - a)) else rd8 m b.
Proof.
  revert m a. induction l as [|x l IH]; intros m a; simpl.
  - case_decide; [lia|done].
  - rewrite IH, rd8_wr8. repeat case_decide; subst; try lia; try done.
    + by replace (Z.to_nat (b - a)) with (S (Z.to_nat (b - (a + 1)))) by lia.
    + by rewrite Z.sub_diag.
Qed.

Lemma rd8_wrbytes_out l m a b :
  b < a \/ a + Z.of_nat (length l) <= b -> rd8 (wrbytes m a l) b = rd8 m b.
Proof. intros. rewrite rd8_wrbytes, decide_False by lia. done. Qed.

Lemma rdbytes_length n m a : length (rdbytes n m a) = n.
Proof. revert a; induction n; simpl; auto. Qed.

Lemma rdbytes_lookup n m a i :
  (i < n)%nat -> rdbytes n m a !! i = Some (rd8 m (a + Z.of_nat i)).
Proof.
  revert a i. induction n as [|n IH]; intros a [|i] Hi; simpl; try lia.
  - by rewrite Z.add_0_r.
  - rewrite IH by lia. do 2 f_equal. lia.
Qed.

Lemma rdbytes_ext n m m' a a' :
  (forall i, 0 <= i < Z.of_nat n -> rd8 m (a + i) = rd8 m' (a' + i)) ->
  rdbytes n m a = rdbytes n m' a'.
Proof.
  revert a a'. induction n as [|n IH]; intros a a' H; simpl; [done|]. f_equal.
  - specialize (H 0). rewrite !Z.add_0_r in H. apply H. lia.
  - apply IH. intros i Hi. rewrite <- !Z.add_assoc. apply H. lia.
Qed.

Lemma rdbytes_wrbytes l m a :
  Forall (fun x => 0 <= x < 256) l -> rdbytes (length l) (wrbytes m a l) a = l.
Proof.
  intros Hl. apply list_eq. intros i.
  destruct (decide (i < length l)%nat) as [Hi|Hi].
  - rewrite rdbytes_lookup, rd8_wrbytes, decide_True by lia.
    replace (Z.to_nat (a + Z.of_nat i - a)) with i by lia.
    destruct (lookup_lt_is_Some_2 l i Hi) as [x Hx].
    rewrite (list_lookup_total_correct _ _ _ Hx), Hx. f_equal. apply u8_id.
    by apply (Forall_lookup_1 _ _ _ _ Hl Hx).
  - rewrite !lookup_ge_None_2; rewrite ?rdbytes_length; lia || done.
Qed.

(** ** Words *)

Lemma le_enc_length n v : length (le_enc n v) = n.
Proof. revert v; induction n; simpl; auto. Qed.

Lemma le_enc_bytes n v : Forall (fun x => 0 <= x < 256) (le_enc n v).
Proof. revert v; induction n; simpl; constructor; auto with xv6. Qed.

Lemma le_dec_range l : 0 <= le_dec l < 256 ^ Z.of_nat (length l).
Proof.
  induction l as [|x l IH]; simpl le_dec; simpl length; [lia|].
  rewrite Nat2Z.inj_succ, Z.pow_succ_r by lia. pose proof (u8_range x). lia.
Qed.

Lemma le_dec_enc n v : le_dec (le_enc n v) = v mod 256 ^ Z.of_nat n.
Proof.
  revert v. induction n as [|n IH]; intros v; cbn [le_dec le_enc].
  - by rewrite Z.mod_1_r.
  - assert (0 < 256 ^ Z.of_nat n) by (apply Z.pow_pos_nonneg; lia).
    rewrite IH, Nat2Z.inj_succ, Z.pow_succ_r by lia.
    rewrite (Z.rem_mul_r v 256) by lia.
    unfold u8. by rewrite Z.mod_mod by lia.
Qed.

Lemma le_enc_dec l :
  Forall (fun x => 0 <= x < 256) l -> le_enc (length l) (le_dec l) = l.
Proof.
  induction 1 as [|x l Hx _ IH]; [done|]. cbn [length le_enc le_dec].
  rewrite (u8_id x) by lia. f_equal.
  - unfold u8. rewrite Z.mul_comm, Z.mod_add by lia. by apply Z.mod_small.
  - rewrite Z.mul_comm, Z.div_add, Z.div_small by lia. done.
Qed.

Lemma load_ext n m m' a :
  (forall b, a <= b < a + Z.of_nat n -> rd8 m b = rd8 m' b) -> load n m a = load n m' a.
Proof. intros H. unfold load. f_equal. apply rdbytes_ext. intros i Hi. apply H. lia. Qed.

Lemma load_range n m a : 0 <= load n m a < 256 ^ Z.of_nat n.
Proof. unfold load. rewrite <- (rdbytes_length n m a) at 3. apply le_dec_range. Qed.

Lemma load64_range m a : 0 <= load64 m a < 2 ^ 64.
Proof. apply (load_range 8). Qed.

Lemma load_store_eq n m a v : load n (store n m a v) a = v mod 256 ^ Z.of_nat n.
Proof.
  unfold load, store. rewrite <- (le_enc_length n v) at 1.
  rewrite rdbytes_wrbytes by apply le_enc_bytes. apply le_dec_enc.
Qed.

Lemma rd8_store_out n m a v b :
  b < a \/ a + Z.of_nat n <= b -> rd8 (store n m a v) b = rd8 m b.
Proof. intros. unfold store. apply rd8_wrbytes_out. by rewrite le_enc_length. Qed.

Lemma load_store_ne n k m a v b :
  b + Z.of_nat k <= a \/ a + Z.of_nat n <= b -> load k (store n m a v) b = load k m b.
Proof. intros. apply load_ext. intros. apply rd8_store_out. lia. Qed.

Lemma load64_store64_eq m a v : 0 <= v < 2 ^ 64 -> load64 (store64 m a v) a = v.
Proof. intros. unfold load64, store64. rewrite load_store_eq. by apply Z.mod_small. Qed.

Lemma load64_store64_ne m a v b :
  b + 8 <= a \/ a + 8 <= b -> load64 (store64 m a v) b = load64 m b.
Proof. intros. by apply load_store_ne. Qed.

(** A word whose bytes are all zero is zero. *)
Lemma load_zero n m a :
  (forall b, a <= b < a + Z.of_nat n -> rd8 m b = 0) -> load n m a = 0.
Proof.
  intros H. unfold load. revert a H.
  induction n as [|n IH]; intros a H; simpl; [done|].
  rewrite IH, H by (intros; try apply H; lia). done.
Qed.

(** Two memories that agree outside [n] bytes at [a]. *)
Definition same_outside (a n : Z) (m m' : memory) : Prop :=
  forall b, b < a \/ a + n <= b -> rd8 m' b = rd8 m b.

#[global] Instance same_outside_refl a n : Reflexive (same_outside a n).
Proof. done. Qed.
#[global] Instance same_outside_trans a n : Transitive (same_outside a n).
Proof. intros x y z H1 H2 b Hb. by rewrite H2, H1. Qed.

Lemma same_outside_store a n k m b v :
  a <= b -> b + Z.of_nat k <= a + n -> same_outside a n m (store k m b v).
Proof. intros ?? c Hc. apply rd8_store_out. lia. Qed.

Lemma same_outside_load k a n m m' b :
  same_outside a n m m' -> b + Z.of_nat k <= a \/ a + n <= b -> load k m' b = load k m b.
Proof. intros H Hb. apply load_ext. intros. apply H. lia. Qed.
