(* ===== verification/KString.v ===== *)
(** * kernel/string.c: memory and string routines

    Each routine is a function on memory with the loops of the source; the
    lemmas give the effect of each one as a function of the bytes. *)
From S2P Require Import Prelude Mem.

Fixpoint memset_loop (k : nat) (m : memory) (cdst i c : Z) : memory :=
  match k with
  | O => m
  | S k => memset_loop k (wr8 m (cdst + i) c) cdst (i + 1) c
  end.

Definition memset (m : memory) (dst c n : Z) : memory := memset_loop (Z.to_nat n) m dst 0 c.

Fixpoint memcmp_loop (k : nat) (m : memory) (s1 s2 : Z) : Z :=
  match k with
  | O => 0
  | S k =>
      if rd8 m s1 =? rd8 m s2 then memcmp_loop k m (s1 + 1) (s2 + 1)
      else rd8 m s1 - rd8 m s2
  end.

Definition memcmp (m : memory) (v1 v2 n : Z) : Z := memcmp_loop (Z.to_nat n) m v1 v2.

(** [while(n-- > 0) *d++ = *s++] *)
Fixpoint copy_up (k : nat) (m : memory) (d s : Z) : memory :=
  match k with
  | O => m
  | S k => copy_up k (wr8 m d (rd8 m s)) (d + 1) (s + 1)
  end.

(** [while(n-- > 0) *--d = *--s] *)
Fixpoint copy_down (k : nat) (m : memory) (d s : Z) : memory :=
  match k with
  | O => m
  | S k => copy_down k (wr8 m (d - 1) (rd8 m (s - 1))) (d - 1) (s - 1)
  end.

Definition memmove (m : memory) (dst src n : Z) : memory :=
  if n =? 0 then m
  else if (src <? dst) && (dst <? src + n)
  then copy_down (Z.to_nat n) m (dst + n) (src + n)
  else copy_up (Z.to_nat n) m dst src.

Definition memcpy (m : memory) (dst src n : Z) : memory := memmove m dst src n.

Fixpoint strncmp_loop (n : nat) (m : memory) (p q : Z) : Z :=
  match n with
  | O => 0
  | S n' =>
      if negb (rd8 m p =? 0) && (rd8 m p =? rd8 m q)
      then strncmp_loop n' m (p + 1) (q + 1)
      else rd8 m p - rd8 m q
  end.

Definition strncmp (m : memory) (p q n : Z) : Z := strncmp_loop (Z.to_nat n) m p q.

(** [while(n-- > 0 && ( *s++ = *t++) != 0)]: the memory, the final [s] and the
    count left for the loop that follows. *)
Fixpoint copy_str (n : nat) (m : memory) (s t : Z) : memory * Z * nat :=
  match n with
  | O => (m, s, O)
  | S n' =>
      let ch := rd8 m t in
      let m' := wr8 m s ch in
      if ch =? 0 then (m', s + 1, n') else copy_str n' m' (s + 1) (t + 1)
  end.

Fixpoint zero_fill (n : nat) (m : memory) (s : Z) : memory :=
  match n with
  | O => m
  | S n => zero_fill n (wr8 m s 0) (s + 1)
  end.

Definition strncpy (m : memory) (s t n : Z) : memory :=
  let '(m', s', k) := copy_str (Z.to_nat n) m s t in zero_fill k m' s'.

Definition safestrcpy (m : memory) (s t n : Z) : memory :=
  if n <=? 0 then m
  else let '(m', s', _) := copy_str (Z.to_nat (n - 1)) m s t in wr8 m' s' 0.

(** The scan for the terminating NUL, bounded by [fuel] bytes. *)
Fixpoint strlen_loop (fuel : nat) (m : memory) (s n : Z) : option Z :=
  match fuel with
  | O => None
  | S fuel => if rd8 m (s + n) =? 0 then Some n else strlen_loop fuel m s (n + 1)
  end.

Definition strlen (fuel : nat) (m : memory) (s : Z) : option Z := strlen_loop fuel m s 0.

#[global] Arguments memset : simpl never.
#[global] Arguments memmove : simpl never.
#[global] Arguments memcmp : simpl never.
#[global] Arguments strncmp : simpl never.
#[global] Arguments strncpy : simpl never.
#[global] Arguments safestrcpy : simpl never.

(** ** What a C string holds *)

(** The characters at [p] up to the first NUL, [n] at most. *)
Fixpoint strn (n : nat) (m : memory) (p : Z) : list Z :=
  match n with
  | O => []
  | S n => if rd8 m p =? 0 then [] else rd8 m p :: strn n m (p + 1)
  end.

Lemma strn_ext n m m' p p' :
  (forall i, 0 <= i < Z.of_nat n -> rd8 m (p + i) = rd8 m' (p' + i)) -> strn n m p = strn n m' p'.
Proof.
  revert p p'. induction n as [|n IH]; intros p p' H; simpl; [done|].
  assert (rd8 m p = rd8 m' p') as ->.
  { specialize (H 0). rewrite !Z.add_0_r in H. apply H. lia. }
  zcase; [done|]. f_equal. apply IH. intros i Hi. rewrite <- !Z.add_assoc. apply H. lia.
Qed.

(** ** Memory routines *)

Lemma memset_loop_spec k m d i c b :
  rd8 (memset_loop k m d i c) b =
    if decide (d + i <= b < d + i + Z.of_nat k) then u8 c else rd8 m b.
Proof.
  revert m i. induction k as [|k IH]; intros m i; simpl.
  - case_decide; [lia|done].
  - rewrite IH, rd8_wr8. repeat case_decide; done || lia.
Qed.

Lemma memset_spec m d c n b :
  0 <= n -> rd8 (memset m d c n) b = if decide (d <= b < d + n) then u8 c else rd8 m b.
Proof.
  intros. unfold memset. rewrite memset_loop_spec, Z.add_0_r, Z2Nat.id by lia. done.
Qed.

Lemma memset_outside m d c n : 0 <= n -> same_outside d n m (memset m d c n).
Proof. intros Hn b Hb. rewrite memset_spec, decide_False by lia. done. Qed.

Lemma load_memset_zero k m d n a :
  d <= a -> a + Z.of_nat k <= d + n -> load k (memset m d 0 n) a = 0.
Proof. intros. apply load_zero. intros. rewrite memset_spec, decide_True by lia. done. Qed.

Lemma copy_up_spec k m d s b :
  d <= s \/ s + Z.of_nat k <= d ->
  rd8 (copy_up k m d s) b =
    if decide (d <= b < d + Z.of_nat k) then rd8 m (s + (b - d)) else rd8 m b.
Proof.
  revert m d s. induction k as [|k IH]; intros m d s H; cbn [copy_up].
  - case_decide; [lia|done].
  - rewrite IH, !rd8_wr8 by lia. rewrite (u8_id (rd8 m s)) by apply rd8_range.
    repeat case_decide; try lia; f_equal; lia.
Qed.

Lemma copy_down_spec k m d s b :
  s <= d ->
  rd8 (copy_down k m d s) b =
    if decide (d - Z.of_nat k <= b < d) then rd8 m (s + (b - d)) else rd8 m b.
Proof.
  revert m d s. induction k as [|k IH]; intros m d s H; cbn [copy_down].
  - case_decide; [lia|done].
  - rewrite IH, !rd8_wr8 by lia. rewrite (u8_id (rd8 m (s - 1))) by apply rd8_range.
    repeat case_decide; try lia; f_equal; lia.
Qed.

Lemma memmove_spec m dst src n b :
  0 <= n ->
  rd8 (memmove m dst src n) b =
    if decide (dst <= b < dst + n) then rd8 m (src + (b - dst)) else rd8 m b.
Proof.
  intros Hn. unfold memmove. destruct (Z.eqb_spec n 0) as [->|]; [case_decide; [lia|done]|].
  destruct (Z.ltb_spec src dst), (Z.ltb_spec dst (src + n)); simpl;
    rewrite ?copy_down_spec, ?copy_up_spec by lia;
    repeat case_decide; try lia; f_equal; lia.
Qed.

Lemma memmove_outside m dst src n : 0 <= n -> same_outside dst n m (memmove m dst src n).
Proof. intros Hn b Hb. rewrite memmove_spec, decide_False by lia. done. Qed.

(** ** String routines *)

Lemma strncmp_loop_zero n m p q : strncmp_loop n m p q = 0 <-> strn n m p = strn n m q.
Proof.
  revert p q. induction n as [|n IH]; intros p q; simpl; [done|].
  destruct (Z.eqb_spec (rd8 m p) 0) as [Hp|Hp]; simpl.
  - rewrite Hp. destruct (Z.eqb_spec (rd8 m q) 0); split; intros; lia || done.
  - destruct (Z.eqb_spec (rd8 m p) (rd8 m q)) as [Hpq|Hpq].
    + rewrite IH, <- Hpq. destruct (Z.eqb_spec (rd8 m p) 0); [lia|].
      split; [by intros ->|by intros [= ]].
    + split; [lia|]. destruct (Z.eqb_spec (rd8 m q) 0); [done|congruence].
Qed.

(** [copy_str] copies [strn n m t], with its NUL when it fits, and leaves the
    rest alone. *)
Lemma copy_str_spec n m s t :
  s + Z.of_nat n <= t \/ t + Z.of_nat n <= s ->
  let l := strn n m t in
  let '(m', s', k) := copy_str n m s t in
  (forall b, rd8 m' b =
     if decide (s <= b < s + Z.of_nat (length l)) then l !!! Z.to_nat (b - s)
     else if decide (b = s + Z.of_nat (length l) /\ (length l < n)%nat) then 0 else rd8 m b) /\
  s' = s + Z.of_nat (n - k) /\
  k = (n - (length l + 1))%nat.
Proof.
  revert m s t. induction n as [|n IH]; intros m s t Hd; cbn [copy_str strn].
  - split_and!; [|simpl; lia..]. intros b. simpl. repeat case_decide; lia || done.
  - destruct (Z.eqb_spec (rd8 m t) 0) as [Ht|Ht]; simpl.
    + split_and!; [|lia..]. intros b. rewrite rd8_wr8, Ht. repeat case_decide; lia || done.
    + specialize (IH (wr8 m s (rd8 m t)) (s + 1) (t + 1) ltac:(lia)).
      assert (strn n (wr8 m s (rd8 m t)) (t + 1) = strn n m (t + 1)) as Hs.
      { apply strn_ext. intros. rewrite rd8_wr8. case_decide; [lia|done]. }
      rewrite Hs in IH. destruct (copy_str n _ _ _) as [[m' s'] k].
      destruct IH as (Hm & -> & ->). split_and!; [|lia..].
      intros b. rewrite Hm, rd8_wr8, (u8_id (rd8 m t)) by apply rd8_range.
      repeat case_decide; subst; try lia; try done;
        (by rewrite Z.sub_diag) || by replace (Z.to_nat (b - s)) with (S (Z.to_nat (b - (s + 1)))) by lia.
Qed.

Lemma zero_fill_spec n m s b :
  rd8 (zero_fill n m s) b = if decide (s <= b < s + Z.of_nat n) then 0 else rd8 m b.
Proof.
  revert m s. induction n as [|n IH]; intros m s; simpl.
  - case_decide; [lia|done].
  - rewrite IH, rd8_wr8. repeat case_decide; done || lia.
Qed.

Lemma strn_length n m p : (length (strn n m p) <= n)%nat.
Proof. revert p. induction n as [|n IH]; intros p; simpl; [lia|]. zcase; simpl; [lia|]. specialize (IH (p + 1)). lia. Qed.

(** The string copied, padded with zeros. *)
Lemma strncpy_spec m s t n b :
  0 <= n -> s + n <= t \/ t + n <= s ->
  let l := strn (Z.to_nat n) m t in
  rd8 (strncpy m s t n) b =
    if decide (s <= b < s + n) then default 0 (l !! Z.to_nat (b - s)) else rd8 m b.
Proof.
  intros Hn Hd l. unfold strncpy.
  pose proof (copy_str_spec (Z.to_nat n) m s t ltac:(lia)) as H. cbn zeta in H. fold l in H.
  pose proof (strn_length (Z.to_nat n) m t) as Hl. fold l in Hl.
  destruct (copy_str (Z.to_nat n) m s t) as [[m' s'] k]. destruct H as (Hm & -> & ->).
  rewrite zero_fill_spec, Hm.
  destruct (decide (Z.to_nat (b - s) < length l)%nat) as [Hlt|Hge].
  - destruct (lookup_lt_is_Some_2 l (Z.to_nat (b - s)) Hlt) as [x Hx].
    rewrite Hx, (list_lookup_total_correct _ _ _ Hx). repeat case_decide; lia || done.
  - rewrite lookup_ge_None_2 by lia. repeat case_decide; lia || done.
Qed.

(** The copy, cut at [n - 1]; when the NUL itself was copied a second one
    follows it. *)
Lemma safestrcpy_spec m s t n b :
  0 < n -> s + n <= t \/ t + n <= s ->
  let l := strn (Z.to_nat (n - 1)) m t in
  rd8 (safestrcpy m s t n) b =
    if decide (s <= b < s + Z.of_nat (length l)) then l !!! Z.to_nat (b - s)
    else if decide (s + Z.of_nat (length l) <= b <= s + Z.of_nat (length l) + 1 /\ b < s + n) then 0
    else rd8 m b.
Proof.
  intros Hn Hd l. unfold safestrcpy. destruct (Z.leb_spec n 0) as [?|_]; [lia|].
  pose proof (copy_str_spec (Z.to_nat (n - 1)) m s t ltac:(lia)) as H. cbn zeta in H. fold l in H.
  pose proof (strn_length (Z.to_nat (n - 1)) m t) as Hl. fold l in Hl.
  destruct (copy_str (Z.to_nat (n - 1)) m s t) as [[m' s'] k]. destruct H as (Hm & -> & ->).
  rewrite rd8_wr8, Hm. repeat case_decide; lia || done.
Qed.

(** A memory that holds [l] and then a NUL holds the string [l]. *)
Lemma strn_eq n m p l :
  (length l < n)%nat -> (forall i, (i < length l)%nat -> rd8 m (p + Z.of_nat i) = l !!! i /\ l !!! i <> 0) ->
  rd8 m (p + Z.of_nat (length l)) = 0 -> strn n m p = l.
Proof.
  revert p l. induction n as [|n IH]; intros p l Hl Hi H0; [lia|]. cbn [strn].
  destruct l as [|x l]; cbn [length] in *.
  - rewrite Z.add_0_r in H0. by rewrite H0.
  - destruct (Hi O ltac:(lia)) as [Hx Hx0]. simpl in Hx, Hx0. rewrite Z.add_0_r in Hx.
    rewrite Hx, (proj2 (Z.eqb_neq x 0)) by done. f_equal. apply IH; [lia| |].
    + intros i Hil. destruct (Hi (S i) ltac:(lia)) as [Hy Hy0]. simpl in Hy, Hy0.
      split; [|done]. rewrite <- Hy. f_equal. lia.
    + rewrite <- H0. f_equal. lia.
Qed.

Lemma strn_nonzero n m p i : (i < length (strn n m p))%nat -> strn n m p !!! i <> 0.
Proof.
  revert p i. induction n as [|n IH]; intros p i; cbn [strn]; [simpl; lia|].
  destruct (Z.eqb_spec (rd8 m p) 0); [simpl; lia|]. destruct i as [|i]; [done|].
  intros Hi. simpl. apply IH. simpl in Hi. lia.
Qed.

Lemma strlen_loop_spec fuel m s n l :
  strn (S (length l)) m (s + n) = l -> (length l < fuel)%nat ->
  strlen_loop fuel m s n = Some (n + Z.of_nat (length l)).
Proof.
  revert n l. induction fuel as [|fuel IH]; intros n l Hl Hf; [lia|]. cbn [strlen_loop].
  destruct l as [|x l]; cbn [strn length] in Hl.
  - destruct (Z.eqb_spec (rd8 m (s + n)) 0); [|done]. f_equal. simpl. lia.
  - destruct (Z.eqb_spec (rd8 m (s + n)) 0); [done|]. injection Hl as _ Hl.
    cbn [length] in Hf.
    rewrite (IH (n + 1) l); [f_equal; cbn [length]; lia| |lia].
    rewrite <- Hl at 2. rewrite Z.add_assoc. done.
Qed.

(** [memmove] copies as if through a temporary buffer: after it every
    byte of the destination is the byte the source held before the call, also
    when the two ranges overlap in either direction, and no other byte
    changes. *)
Theorem memmove_correct m dst src n b :
  0 <= n ->
  rd8 (memmove m dst src n) b =
    if decide (dst <= b < dst + n) then rd8 m (src + (b - dst)) else rd8 m b.
Proof. apply memmove_spec. Qed.

Lemma memmove_correct_witness :
  0 <= 3 /\ rd8 (memmove (wrbytes ∅ 100 [1; 2; 3; 4]) 101 100 3) 103 = 3.
Proof.
  split; [lia|]. rewrite (memmove_correct _ 101 100 3 103) by lia. by vm_compute.
Defined.

(** [strncmp] compares NUL-terminated strings of at most [n] characters:
    it returns 0 exactly when the characters before the first NUL, cut at
    [n], are the same.  This is the test directory lookup relies on. *)
Theorem strncmp_equal m p q n :
  strncmp m p q n = 0 <-> strn (Z.to_nat n) m p = strn (Z.to_nat n) m q.
Proof. apply strncmp_loop_zero. Qed.

(** [safestrcpy] writes only inside the [n] bytes of its destination and
    always leaves a NUL-terminated string there: the source's characters, cut
    at [n - 1]. *)
Theorem safestrcpy_terminates m s t n :
  0 < n -> s + n <= t \/ t + n <= s ->
  let m' := safestrcpy m s t n in
  let l := strn (Z.to_nat (n - 1)) m t in
  same_outside s n m m' /\ (length l < Z.to_nat n)%nat /\
  strn (Z.to_nat n) m' s = l /\ rd8 m' (s + Z.of_nat (length l)) = 0.
Proof.
  intros Hn Hd m' l. pose proof (fun b => safestrcpy_spec m s t n b Hn Hd) as Hs. cbn zeta in Hs. fold l m' in Hs.
  pose proof (strn_length (Z.to_nat (n - 1)) m t) as Hl. fold l in Hl.
  assert (rd8 m' (s + Z.of_nat (length l)) = 0) as H0.
  { rewrite Hs, !decide_False, decide_True by lia. done. }
  split_and!; [|lia| |done].
  - intros b Hb. rewrite Hs, !decide_False by lia. done.
  - apply strn_eq; [lia| |done].
    intros i Hi. split; [|by apply strn_nonzero].
    rewrite Hs, decide_True by lia. f_equal. lia.
Qed.

Lemma safestrcpy_terminates_witness :
  let m := wrbytes ∅ 100 [104; 105; 0] in
  strn 2 (safestrcpy m 200 100 2) 200 = strn 1 m 100.
Proof. apply (safestrcpy_terminates (wrbytes ∅ 100 [104; 105; 0]) 200 100 2); lia. Defined.

(** The lemmas above are all that the rest of the library uses. *)
#[global] Opaque memset memmove memcmp strncmp strncpy safestrcpy.
