(* ===== verification/Kalloc.v ===== *)
(** * kernel/kalloc.c: the physical page allocator

    The free list is threaded through the free pages themselves: the first
    eight bytes of a free page hold the address of the next one.  The state
    is physical memory and the list head [kmem.freelist]. *)
From S2P Require Import Prelude Kmonad Riscv Mem KString.

Record mstate := Mst { mmem : memory; freelist : Z }.

Definition set_mem (m : memory) (s : mstate) : mstate := Mst m (freelist s).
Definition set_freelist (r : Z) (s : mstate) : mstate := Mst (mmem s) r.

(** Memory accesses of kernel code. *)
Definition ld64 (a : Z) : K mstate Z := gets (fun s => load64 (mmem s) a).
Definition st64 (a v : Z) : K mstate unit := modify (fun s => set_mem (store64 (mmem s) a v) s).
Definition kmemset (dst c n : Z) : K mstate unit :=
  modify (fun s => set_mem (memset (mmem s) dst c n) s).
Definition kmemmove (dst src n : Z) : K mstate unit :=
  modify (fun s => set_mem (memmove (mmem s) dst src n) s).

Definition kmem_lock : lockid := ("kmem", 0).

Section kalloc.
Context {L : Layout}.

Definition kfree (pa : Z) : K mstate unit :=
  if negb (pa mod PGSIZE =? 0) || (pa <? kend) || (PHYSTOP <=? pa) then panic "kfree"
  else
    kmemset pa 1 PGSIZE ;;
    acquire kmem_lock ;;
    fl <- gets freelist ;;
    st64 pa fl ;;
    modify (set_freelist pa) ;;
    release kmem_lock.

Definition kalloc : K mstate Z :=
  acquire kmem_lock ;;
  r <- gets freelist ;;
  when (negb (r =? 0)) (next <- ld64 r ;; modify (set_freelist next)) ;;
  release kmem_lock ;;
  when (negb (r =? 0)) (kmemset r 5 PGSIZE) ;;
  ret r.

Definition freerange (pa_start pa_end : Z) : K mstate unit :=
  let p0 := PGROUNDUP pa_start in
  loop (Z.to_nat ((pa_end - p0) / PGSIZE) + 1) (fun p =>
    if p + PGSIZE <=? pa_end then kfree p ;; ret (inl (p + PGSIZE)) else ret (inr tt)) p0.

Definition kinit : K mstate unit :=
  initlock kmem_lock ;;
  freerange kend PHYSTOP.

(** ** The free list invariant *)

(** A page the allocator manages. *)
Definition page_ok (p : Z) : Prop := p mod PGSIZE = 0 /\ kend <= p < PHYSTOP.

(** The linked list that starts at [p] runs through the pages of [l]. *)
Fixpoint chain (m : memory) (p : Z) (l : list Z) : Prop :=
  match l with
  | [] => p = 0
  | x :: l => p = x /\ chain m (load64 m x) l
  end.

Record kmem_wf (s : mstate) (l : list Z) : Prop := {
  wf_chain : chain (mmem s) (freelist s) l;
  wf_nodup : NoDup l;
  wf_pages : Forall page_ok l;
}.

Lemma page_ok_bounds p : page_ok p -> 0 < p /\ p + PGSIZE <= PHYSTOP /\ p < 2 ^ 56.
Proof.
  intros [Ha Hr]. pose proof etext_range. pose proof kend_range.
  unfold PHYSTOP, KERNBASE, PGSIZE in *. zlia.
Qed.

Lemma pages_disjoint p q :
  p mod PGSIZE = 0 -> q mod PGSIZE = 0 -> p <> q -> p + PGSIZE <= q \/ q + PGSIZE <= p.
Proof. unfold PGSIZE. zlia. Qed.

Lemma chain_ext m m' p l :
  (forall x, x ∈ l -> load64 m' x = load64 m x) -> chain m p l -> chain m' p l.
Proof.
  revert p. induction l as [|x l IH]; intros p Hx; simpl; [done|].
  intros [-> Hc]. split; [done|]. rewrite Hx by set_solver. apply IH; set_solver.
Qed.

(** Writing inside a page that is not free leaves the free list alone. *)
Lemma kmem_wf_frame s m l p :
  kmem_wf s l -> p mod PGSIZE = 0 -> p ∉ l -> same_outside p PGSIZE (mmem s) m ->
  kmem_wf (set_mem m s) l.
Proof.
  intros [Hc Hn Hp] Ha Hnl Hs. split; simpl; [|done..].
  eapply chain_ext; [|done]. intros x Hx.
  destruct (Forall_elem _ _ _ Hp Hx) as [Hxa _].
  apply (same_outside_load 8 p PGSIZE); [done|].
  destruct (pages_disjoint p x) as [?|?]; unfold PGSIZE in *; try lia; congruence.
Qed.

Lemma kfree_spec pa s l c :
  kmem_wf s l -> page_ok pa -> pa ∉ l -> kmem_lock ∉ held c ->
  wp (kfree pa) (fun _ c' s' =>
    c' = c /\ kmem_wf s' (pa :: l) /\ same_outside pa PGSIZE (mmem s) (mmem s')) c s.
Proof.
  intros Hwf Hpa Hnl Hlk. pose proof (page_ok_bounds _ Hpa) as Hb.
  destruct Hpa as [Ha Hr]. unfold kfree, kmemset, st64.
  rewrite (proj2 (Z.eqb_eq _ _) Ha), (proj2 (Z.ltb_ge pa kend)), (proj2 (Z.leb_gt PHYSTOP pa)) by lia.
  simpl. ksteps. apply wp_acquire; [done|]. ksteps.
  assert (same_outside pa PGSIZE (mmem s)
    (store64 (memset (mmem s) pa 1 PGSIZE) pa (freelist s))) as Hs.
  { etrans; [by apply memset_outside|]. apply (same_outside_store pa PGSIZE 8); unfold PGSIZE; lia. }
  split; [by destruct c|]. split; [|done].
  pose proof (kmem_wf_frame _ _ _ pa Hwf Ha Hnl Hs) as [Hc Hn Hp].
  assert (0 <= freelist s < 2 ^ 64) as Hfl.
  { destruct Hwf as [Hc0 _ Hp0]. destruct l; simpl in Hc0; [rewrite Hc0; lia|].
    destruct Hc0 as [-> _]. apply Forall_inv, page_ok_bounds in Hp0. lia. }
  split; simpl in *; [|by constructor|by constructor; [split|]].
  split; [done|]. by rewrite load64_store64_eq by lia.
Qed.

Lemma kalloc_spec s l c :
  kmem_wf s l -> kmem_lock ∉ held c ->
  wp kalloc (fun r c' s' => c' = c /\
    match l with
    | [] => r = 0 /\ s' = s
    | x :: l' => r = x /\ kmem_wf s' l' /\ same_outside x PGSIZE (mmem s) (mmem s') /\
        (forall b, x <= b < x + PGSIZE -> rd8 (mmem s') b = 5)
    end) c s.
Proof.
  intros Hwf Hlk. unfold kalloc, ld64, kmemset. kstep. apply wp_acquire; [done|]. kstep. kstep.
  destruct Hwf as [Hc Hn Hp]. destruct l as [|x l]; simpl in Hc.
  - rewrite Hc. simpl. ksteps. destruct c, s. simpl in *. by subst.
  - destruct Hc as [-> Hc]. pose proof (page_ok_bounds x (Forall_inv Hp)) as Hb.
    rewrite (proj2 (Z.eqb_neq x 0)) by lia. simpl. ksteps.
    apply NoDup_cons in Hn as [Hx Hn].
    split; [by destruct c|]. split; [done|].
    assert (kmem_wf (set_freelist (load64 (mmem s) x) s) l) as Hwf.
    { split; simpl; [done..|]. by apply Forall_inv_tail in Hp. }
    split_and!.
    + apply (kmem_wf_frame _ _ _ x Hwf); [|done|by apply memset_outside].
      by apply Forall_inv in Hp as [? _].
    + by apply memset_outside.
    + intros b Hbb. simpl. rewrite memset_spec, decide_True by done. done.
Qed.
(** ** kinit: every page of RAM after the kernel becomes free *)

(** The first [n] pages from [p0] on, in the order they end up in the list. *)
Definition pages_from (p0 : Z) (n : nat) : list Z :=
  rev ((fun i : nat => p0 + Z.of_nat i * PGSIZE) <$> seq 0 n).

Lemma pages_from_S p0 n :
  pages_from p0 (S n) = (p0 + Z.of_nat n * PGSIZE) :: pages_from p0 n.
Proof. unfold pages_from. rewrite seq_S, fmap_app, rev_app_distr. done. Qed.

Lemma elem_of_pages_from p0 n p :
  p ∈ pages_from p0 n <-> exists i : nat, (i < n)%nat /\ p = p0 + Z.of_nat i * PGSIZE.
Proof.
  induction n as [|n IH].
  - split; [intros H; inv H|intros (i & ? & _); lia].
  - rewrite pages_from_S, elem_of_cons, IH. split.
    + intros [->|(i & ? & ->)]; eexists; split; [|done| |done]; lia.
    + intros (i & ? & ->). destruct (decide (i = n)) as [->|]; [by left|right].
      exists i. split; [lia|done].
Qed.

Lemma freerange_spec p_start n s c :
  let p0 := PGROUNDUP p_start in
  0 <= p_start -> kend <= p0 -> p0 + Z.of_nat n * PGSIZE = PHYSTOP ->
  kmem_wf s [] -> kmem_lock ∉ held c ->
  wp (freerange p_start PHYSTOP) (fun _ c' s' => c' = c /\ kmem_wf s' (pages_from p0 n)) c s.
Proof.
  intros p0 H0 Hk Hn Hwf Hlk. unfold freerange. fold p0.
  assert (p0 mod PGSIZE = 0) as Ha by (unfold PHYSTOP, KERNBASE, PGSIZE in *; zlia).
  assert ((PHYSTOP - p0) / PGSIZE = Z.of_nat n) as -> by (unfold PGSIZE in *; zlia).
  rewrite Nat2Z.id.
  apply wp_loop with (I := fun k p c' s' => c' = c /\ exists i : nat, (i <= n)%nat /\
    k = (n - i + 1)%nat /\ p = p0 + Z.of_nat i * PGSIZE /\ kmem_wf s' (pages_from p0 i)).
  2: { split; [done|]. exists O. split_and!; [lia..|done]. }
  intros k p c' s' (-> & i & Hi & -> & -> & Hw). exists (n - i)%nat. split; [lia|].
  destruct (Z.leb_spec (p0 + Z.of_nat i * PGSIZE + PGSIZE) PHYSTOP) as [Hle|Hgt].
  - kstep. eapply wp_mono; [eapply kfree_spec; [done| | |done]|].
    + split; unfold PGSIZE in *; [zlia|lia].
    + rewrite elem_of_pages_from. intros (j & ? & ?). unfold PGSIZE in *. lia.
    + intros [] c'' s'' (-> & Hw' & _). kstep. split; [done|].
      exists (S i). unfold PGSIZE in *. split_and!; [lia..|].
      by rewrite pages_from_S.
  - kstep. split; [done|]. replace i with n in Hw; [done|]. unfold PGSIZE in *. lia.
Qed.

Lemma kend_pages :
  kend <= PGROUNDUP kend /\
  PGROUNDUP kend + Z.of_nat (Z.to_nat ((PHYSTOP - PGROUNDUP kend) / PGSIZE)) * PGSIZE = PHYSTOP.
Proof.
  pose proof kend_range. pose proof etext_range.
  rewrite PGROUNDUP_spec by (unfold PHYSTOP, KERNBASE, PGSIZE in *; lia).
  unfold PHYSTOP, KERNBASE, PGSIZE in *. zlia.
Qed.

Lemma kinit_spec s c :
  freelist s = 0 -> kmem_lock ∉ held c ->
  wp kinit (fun _ c' s' => c' = c /\ exists l, kmem_wf s' l /\ forall p, p ∈ l <-> page_ok p) c s.
Proof.
  intros Hfl Hlk. destruct kend_pages as [Hk Hn]. pose proof kend_range. pose proof etext_range.
  unfold kinit. kstep. apply wp_initlock; [done|].
  eapply wp_mono; [eapply freerange_spec; [|done|exact Hn| |done]|].
  - unfold KERNBASE in *. lia.
  - split; [done|constructor..].
  - intros [] c' s' [-> Hw]. split; [done|]. eexists. split; [done|]. intros p.
    rewrite elem_of_pages_from. unfold page_ok. split.
    + intros (i & Hi & ->). rewrite PGROUNDUP_spec in * by (unfold PHYSTOP, KERNBASE, PGSIZE in *; lia).
      unfold PHYSTOP, KERNBASE, PGSIZE in *. zlia.
    + intros [Ha Hr]. exists (Z.to_nat ((p - PGROUNDUP kend) / PGSIZE)).
      rewrite PGROUNDUP_spec in * by (unfold PHYSTOP, KERNBASE, PGSIZE in *; lia).
      unfold PHYSTOP, KERNBASE, PGSIZE in *. zlia.
Qed.

(** ** Running the allocator

    The histories the rest of the kernel can produce: after [kinit], calls of
    [kalloc] and [kfree], and writes by the owner of a page inside it.  [o] is
    the set of pages that have been handed out and not given back. *)
Inductive kalloc_run : mstate -> gset Z -> Prop :=
| run_init c s s' :
    freelist s = 0 -> kmem_lock ∉ held c -> kinit c s = Ok tt c s' -> kalloc_run s' ∅
| run_alloc c s o r s' :
    kalloc_run s o -> kmem_lock ∉ held c -> kalloc c s = Ok r c s' -> r <> 0 ->
    kalloc_run s' ({[r]} ∪ o)
| run_free c s o p s' :
    kalloc_run s o -> kmem_lock ∉ held c -> p ∈ o -> kfree p c s = Ok tt c s' ->
    kalloc_run s' (o ∖ {[p]})
| run_write s o p m :
    kalloc_run s o -> p ∈ o -> same_outside p PGSIZE (mmem s) m -> kalloc_run (set_mem m s) o.

(** Free and handed-out pages partition the managed pages. *)
Definition partitioned (s : mstate) (o : gset Z) (l : list Z) : Prop :=
  kmem_wf s l /\ (forall p, p ∈ l -> p ∉ o) /\ (forall p, page_ok p <-> p ∈ l \/ p ∈ o).

Lemma kalloc_run_partitioned s o : kalloc_run s o -> exists l, partitioned s o l.
Proof.
  induction 1 as [c s s' Hfl Hlk Hr | c s o r s' _ (l & Hw & Hd & Hp) Hlk Hr Hnz
    | c s o p s' _ (l & Hw & Hd & Hp) Hlk Hpo Hr | s o p m _ (l & Hw & Hd & Hp) Hpo Hs].
  - pose proof (kinit_spec s c Hfl Hlk) as Hi. unfold wp in Hi. rewrite Hr in Hi.
    destruct Hi as (_ & l & Hw & Hl). exists l. split_and!; [done|set_solver|].
    intros p. rewrite Hl. set_solver.
  - pose proof (kalloc_spec s l c Hw Hlk) as Ha. unfold wp in Ha. rewrite Hr in Ha.
    destruct l as [|x l]; destruct Ha as [_ Ha]; [naive_solver|].
    destruct Ha as (-> & Hw' & _). pose proof (wf_nodup _ _ Hw) as Hnd.
    apply NoDup_cons in Hnd as [Hx _]. exists l. split_and!; [done|set_solver|].
    intros p. rewrite Hp. set_solver.
  - assert (page_ok p) as Hpk by (apply Hp; by right).
    assert (p ∉ l) as Hnl by (intros ?; by eapply Hd).
    pose proof (kfree_spec p s l c Hw Hpk Hnl Hlk) as Hf. unfold wp in Hf. rewrite Hr in Hf.
    destruct Hf as (_ & Hw' & _). exists (p :: l). split_and!; [done|set_solver|].
    intros q. rewrite Hp. destruct (decide (q = p)); set_solver.
  - exists l. split_and!; [|done..]. eapply kmem_wf_frame; [done| | |done].
    + by destruct (proj2 (Hp p) (or_intror Hpo)).
    + intros ?. by eapply Hd.
Qed.

(** C38: The page allocator never hands out a page that is in use.  In every
    state reachable from [kinit] by [kalloc], [kfree] of handed-out pages and
    writes of the owners to their pages, [kalloc] returns (it does not panic)
    either a well-aligned page of RAM after the kernel that is not handed out,
    filled with 5s, or 0, and 0 only when every page is handed out. *)
Theorem kalloc_never_shares s o c :
  kalloc_run s o -> kmem_lock ∉ held c ->
  wp kalloc (fun r c' s' => c' = c /\
    (r = 0 -> forall p, page_ok p -> p ∈ o) /\
    (r <> 0 -> page_ok r /\ r ∉ o /\ same_outside r PGSIZE (mmem s) (mmem s') /\
       forall b, r <= b < r + PGSIZE -> rd8 (mmem s') b = 5)) c s.
Proof.
  intros (l & Hw & Hd & Hp)%kalloc_run_partitioned Hlk.
  eapply wp_mono; [by eapply kalloc_spec|]. intros r c' s' [-> Hr]. split; [done|].
  destruct l as [|x l]; [destruct Hr as [-> ->]; set_solver|].
  destruct Hr as (-> & _ & Hs & H5).
  assert (page_ok x) as Hx by (apply Hp; set_solver).
  pose proof (page_ok_bounds x Hx). split; [lia|]. intros _. split_and!; [done| |done..].
  apply Hd. set_solver.
Qed.

(** [kfree] accepts exactly the pages the allocator manages: it panics
    for an address that is not page-aligned, lies in the kernel image or at or
    above [PHYSTOP], and otherwise returns with the page at the head of the
    free list, so that the next [kalloc] returns it. *)
Theorem kfree_kalloc pa s l c :
  kmem_wf s l -> kmem_lock ∉ held c -> pa ∉ l ->
  (~ page_ok pa -> kfree pa c s = Panic "kfree") /\
  (page_ok pa -> wp (kfree pa ;; kalloc) (fun r c' s' =>
     r = pa /\ c' = c /\ kmem_wf s' l /\ same_outside pa PGSIZE (mmem s) (mmem s')) c s).
Proof.
  intros Hw Hlk Hnl. split.
  - intros Hpa. unfold kfree, page_ok in *.
    destruct (Z.eqb_spec (pa mod PGSIZE) 0), (Z.ltb_spec pa kend), (Z.leb_spec PHYSTOP pa);
      simpl; (done || naive_solver lia).
  - intros Hpa. kstep. eapply wp_mono; [by eapply kfree_spec|].
    intros [] c' s' (-> & Hw' & Hs). eapply wp_mono; [by eapply kalloc_spec|].
    intros r c' s'' (-> & -> & Hw'' & Hs' & _). split_and!; [done..|]. by etrans.
Qed.
End kalloc.

(** ** Witnesses

    A machine with two pages of RAM after the kernel. *)
#[program] Definition small_layout : Layout := {|
  etext := 0x80007000; trampoline := 0x80006000; kend := 0x87ffe000 |}.
Solve All Obligations with (vm_compute; intuition congruence).

Definition ctx0 : ctx := Ctx [] [].

Definition boot_run : outcome mstate unit := @kinit small_layout ctx0 (Mst ∅ 0).
Definition boot_state : mstate := match boot_run with Ok _ _ s => s | _ => Mst ∅ 0 end.

Lemma kalloc_never_shares_witness :
  exists s', @kalloc_run small_layout boot_state ∅ /\
    kalloc ctx0 boot_state = Ok 0x87fff000 ctx0 s' /\ @page_ok small_layout 0x87fff000 /\
    forall b, 0x87fff000 <= b < 0x87fff000 + PGSIZE -> rd8 (mmem s') b = 5.
Proof.
  assert (@kalloc_run small_layout boot_state ∅) as Hrun.
  { apply (run_init (L := small_layout) ctx0 (Mst ∅ 0)); [done|set_solver|].
    change (boot_run = Ok tt ctx0 boot_state).
    assert (match boot_run with Ok a c s => Ok a c s | _ => NoFuel end = Ok tt ctx0 boot_state) as E
      by exact (eq_refl (Ok tt ctx0 boot_state) <:
        match boot_run with Ok a c s => Ok a c s | _ => NoFuel end = Ok tt ctx0 boot_state).
    destruct boot_run; done. }
  pose proof (kalloc_never_shares (L := small_layout) boot_state ∅ ctx0 Hrun ltac:(set_solver)) as H.
  apply wp_inv in H as (r & c' & s' & Hk & -> & _ & Hr).
  assert (r = 0x87fff000) as ->.
  { assert (match kalloc ctx0 boot_state with Ok r _ _ => r | _ => 0 end = 0x87fff000) as He
        by (vm_compute; reflexivity). rewrite Hk in He. exact He. }
  exists s'. split; [exact Hrun|]. split; [exact Hk|].
  destruct Hr as (Hp & _ & _ & H5); [discriminate|]. split; [exact Hp|exact H5].
Defined.

Lemma kfree_kalloc_witness :
  let L := small_layout in
  kmem_wf (Mst ∅ 0) [] /\
  kfree 0x80000000 ctx0 (Mst ∅ 0) = Panic "kfree" /\
  wp (kfree 0x87ffe000 ;; kalloc) (fun r _ _ => r = 0x87ffe000) ctx0 (Mst ∅ 0).
Proof.
  intros L. assert (kmem_wf (Mst ∅ 0) []) as Hwf by (split; [done|constructor..]).
  destruct (kfree_kalloc 0x80000000 (Mst ∅ 0) [] ctx0) as [Hbad _]; [done|set_solver..|].
  destruct (kfree_kalloc 0x87ffe000 (Mst ∅ 0) [] ctx0) as [_ Hgood]; [done|set_solver..|].
  split; [exact Hwf|]. split.
  - apply Hbad. unfold page_ok. vm_compute. intuition.
  - eapply wp_mono; [apply Hgood; unfold page_ok; vm_compute; intuition congruence|]. naive_solver.
Defined.
