(* ===== verification/Vm.v ===== *)
(** * kernel/vm.c: Sv39 page tables

    The routines of vm.c on physical memory: page tables are 512-entry arrays
    of 64-bit entries in pages obtained from [kalloc].  [proc_mapstacks] of
    kernel/proc.c, which [kvmmake] calls, is here too.  [p->sz] and
    [p->pagetable] of the current process are arguments of the routines that
    call [myproc()].  This file holds the definitions; [VmWalk] and the files
    after it hold the theorems. *)
From S2P Require Import Prelude Kmonad Riscv Mem KString Kalloc.

Section vm.
Context {L : Layout}.

(** [*p & flag] as a C condition. *)
Definition has (e flag : Z) : bool := negb (Z.land e flag =? 0).

(** The [for] loop of [walk], at level [level] in table [pagetable]. *)
Fixpoint walk_loop (level : nat) (pagetable va : Z) (alloc : bool) : K mstate Z :=
  match level with
  | O => ret (pagetable + 8 * PX 0 va)
  | S l =>
      let pte := pagetable + 8 * PX (Z.of_nat level) va in
      e <- ld64 pte ;;
      if has e PTE_V then walk_loop l (PTE2PA e) va alloc
      else if negb alloc then ret 0
      else
        pt <- kalloc ;;
        if pt =? 0 then ret 0
        else
          kmemset pt 0 PGSIZE ;;
          st64 pte (Z.lor (PA2PTE pt) PTE_V) ;;
          walk_loop l pt va alloc
  end.

Definition walk (pagetable va : Z) (alloc : bool) : K mstate Z :=
  if MAXVA <=? va then panic "walk" else walk_loop 2 pagetable va alloc.

Definition walkaddr (pagetable va : Z) : K mstate Z :=
  if MAXVA <=? va then ret 0
  else
    pte <- walk pagetable va false ;;
    if pte =? 0 then ret 0
    else
      e <- ld64 pte ;;
      if negb (has e PTE_V) then ret 0
      else if negb (has e PTE_U) then ret 0
      else ret (PTE2PA e).

Definition mappages (pagetable va size pa perm : Z) : K mstate Z :=
  if negb (va mod PGSIZE =? 0) then panic "mappages: va not aligned"
  else if negb (size mod PGSIZE =? 0) then panic "mappages: size not aligned"
  else if size =? 0 then panic "mappages: size"
  else
    let last := u64 (va + size - PGSIZE) in
    loop (Z.to_nat (size / PGSIZE)) (fun '(a, pa) =>
      pte <- walk pagetable a true ;;
      if pte =? 0 then ret (inr (-1))
      else
        e <- ld64 pte ;;
        if has e PTE_V then panic "mappages: remap"
        else
          st64 pte (Z.lor (Z.lor (PA2PTE pa) perm) PTE_V) ;;
          if a =? last then ret (inr 0)
          else ret (inl (u64 (a + PGSIZE), u64 (pa + PGSIZE)))) (va, pa).

Definition kvmmap (kpgtbl va pa sz perm : Z) : K mstate unit :=
  r <- mappages kpgtbl va sz pa perm ;;
  if negb (r =? 0) then panic "kvmmap" else ret tt.

(** kernel/proc.c *)
Definition proc_mapstacks (kpgtbl : Z) : K mstate unit :=
  loop (Z.to_nat NPROC + 1) (fun p =>
    if p <? NPROC then
      pa <- kalloc ;;
      if pa =? 0 then panic "kalloc"
      else
        let va := KSTACK p in
        kvmmap kpgtbl va pa PGSIZE (Z.lor PTE_R PTE_W) ;;
        ret (inl (p + 1))
    else ret (inr tt)) 0.

Definition kvmmake : K mstate Z :=
  kpgtbl <- kalloc ;;
  kmemset kpgtbl 0 PGSIZE ;;
  kvmmap kpgtbl UART0 UART0 PGSIZE (Z.lor PTE_R PTE_W) ;;
  kvmmap kpgtbl VIRTIO0 VIRTIO0 PGSIZE (Z.lor PTE_R PTE_W) ;;
  kvmmap kpgtbl PLIC PLIC 0x4000000 (Z.lor PTE_R PTE_W) ;;
  kvmmap kpgtbl KERNBASE KERNBASE (etext - KERNBASE) (Z.lor PTE_R PTE_X) ;;
  kvmmap kpgtbl etext etext (PHYSTOP - etext) (Z.lor PTE_R PTE_W) ;;
  kvmmap kpgtbl TRAMPOLINE trampoline PGSIZE (Z.lor PTE_R PTE_X) ;;
  proc_mapstacks kpgtbl ;;
  ret kpgtbl.

Definition uvmcreate : K mstate Z :=
  pagetable <- kalloc ;;
  if pagetable =? 0 then ret 0
  else kmemset pagetable 0 PGSIZE ;; ret pagetable.

Definition uvmunmap (pagetable va npages : Z) (do_free : bool) : K mstate unit :=
  if negb (va mod PGSIZE =? 0) then panic "uvmunmap: not aligned"
  else
    let hi := u64 (va + npages * PGSIZE) in
    loop (Z.to_nat npages + 1) (fun a =>
      if a <? hi then
        let next := ret (inl (u64 (a + PGSIZE))) in
        pte <- walk pagetable a false ;;
        if pte =? 0 then next
        else
          e <- ld64 pte ;;
          if negb (has e PTE_V) then next
          else
            when do_free (kfree (PTE2PA e)) ;;
            st64 pte 0 ;;
            next
      else ret (inr tt)) va.

Definition uvmdealloc (pagetable oldsz newsz : Z) : K mstate Z :=
  if oldsz <=? newsz then ret oldsz
  else
    when (PGROUNDUP newsz <? PGROUNDUP oldsz)
      (let npages := i32 ((PGROUNDUP oldsz - PGROUNDUP newsz) / PGSIZE) in
       uvmunmap pagetable (PGROUNDUP newsz) (u64 npages) true) ;;
    ret newsz.

Definition uvmalloc (pagetable oldsz newsz xperm : Z) : K mstate Z :=
  if newsz <? oldsz then ret oldsz
  else
    let oldsz := PGROUNDUP oldsz in
    loop (Z.to_nat ((newsz - oldsz) / PGSIZE) + 2) (fun a =>
      if a <? newsz then
        mem <- kalloc ;;
        if mem =? 0 then uvmdealloc pagetable a oldsz ;; ret (inr 0)
        else
          kmemset mem 0 PGSIZE ;;
          r <- mappages pagetable a PGSIZE mem (Z.lor (Z.lor PTE_R PTE_U) xperm) ;;
          if negb (r =? 0) then
            kfree mem ;;
            uvmdealloc pagetable a oldsz ;;
            ret (inr 0)
          else ret (inl (u64 (a + PGSIZE)))
      else ret (inr newsz)) oldsz.

(** [depth] bounds the recursion; Sv39 tables have three levels. *)
Fixpoint freewalk (depth : nat) (pagetable : Z) : K mstate unit :=
  match depth with
  | O => nofuel
  | S d =>
      loop (512 + 1) (fun i =>
        if i <? 512 then
          pte <- ld64 (pagetable + 8 * i) ;;
          if has pte PTE_V && negb (has pte (Z.lor (Z.lor PTE_R PTE_W) PTE_X)) then
            freewalk d (PTE2PA pte) ;;
            st64 (pagetable + 8 * i) 0 ;;
            ret (inl (i + 1))
          else if has pte PTE_V then panic "freewalk: leaf"
          else ret (inl (i + 1))
        else ret (inr tt)) 0 ;;
      kfree pagetable
  end.

Definition uvmfree (pagetable sz : Z) : K mstate unit :=
  when (0 <? sz) (uvmunmap pagetable 0 (PGROUNDUP sz / PGSIZE) true) ;;
  freewalk 3 pagetable.

Definition uvmcopy (old new sz : Z) : K mstate Z :=
  let err i := uvmunmap new 0 (i / PGSIZE) true ;; ret (inr (-1)) in
  loop (Z.to_nat (sz / PGSIZE) + 2) (fun i =>
    if i <? sz then
      let next := ret (inl (u64 (i + PGSIZE))) in
      pte <- walk old i false ;;
      if pte =? 0 then next
      else
        e <- ld64 pte ;;
        if negb (has e PTE_V) then next
        else
          let pa := PTE2PA e in
          let flags := PTE_FLAGS e in
          mem <- kalloc ;;
          if mem =? 0 then err i
          else
            kmemmove mem pa PGSIZE ;;
            r <- mappages new i PGSIZE mem flags ;;
            if negb (r =? 0) then kfree mem ;; err i
            else next
    else ret (inr 0)) 0.

Definition uvmclear (pagetable va : Z) : K mstate unit :=
  pte <- walk pagetable va false ;;
  if pte =? 0 then panic "uvmclear"
  else e <- ld64 pte ;; st64 pte (Z.land e (u64 (Z.lnot PTE_U))).

Definition ismapped (pagetable va : Z) : K mstate bool :=
  pte <- walk pagetable va false ;;
  if pte =? 0 then ret false
  else e <- ld64 pte ;; ret (has e PTE_V).

(** [psz] and [ppt] are [p->sz] and [p->pagetable] of [myproc()]. *)
Definition vmfault (psz ppt pagetable va : Z) : K mstate Z :=
  if psz <=? va then ret 0
  else
    let va := PGROUNDDOWN va in
    b <- ismapped pagetable va ;;
    if b then ret 0
    else
      mem <- kalloc ;;
      if mem =? 0 then ret 0
      else
        kmemset mem 0 PGSIZE ;;
        r <- mappages ppt va PGSIZE mem (Z.lor (Z.lor PTE_W PTE_U) PTE_R) ;;
        if negb (r =? 0) then kfree mem ;; ret 0
        else ret mem.

(** Translation of the page of [va0], faulting a lazily allocated page in. *)
Definition user_page (psz ppt pagetable va0 : Z) : K mstate Z :=
  pa0 <- walkaddr pagetable va0 ;;
  if pa0 =? 0 then vmfault psz ppt pagetable va0 else ret pa0.

Definition copyout (psz ppt pagetable dstva src len : Z) : K mstate Z :=
  loop (Z.to_nat len + 1) (fun '(dstva, src, len) =>
    if 0 <? len then
      let va0 := PGROUNDDOWN dstva in
      if MAXVA <=? va0 then ret (inr (-1))
      else
        pa0 <- user_page psz ppt pagetable va0 ;;
        if pa0 =? 0 then ret (inr (-1))
        else
          pte <- walk pagetable va0 false ;;
          e <- ld64 pte ;;
          if negb (has e PTE_W) then ret (inr (-1))
          else
            let n := u64 (PGSIZE - (dstva - va0)) in
            let n := if len <? n then len else n in
            kmemmove (pa0 + (dstva - va0)) src n ;;
            ret (inl (u64 (va0 + PGSIZE), src + n, len - n))
    else ret (inr 0)) (dstva, src, len).

Definition copyin (psz ppt pagetable dst srcva len : Z) : K mstate Z :=
  loop (Z.to_nat len + 1) (fun '(dst, srcva, len) =>
    if 0 <? len then
      let va0 := PGROUNDDOWN srcva in
      pa0 <- user_page psz ppt pagetable va0 ;;
      if pa0 =? 0 then ret (inr (-1))
      else
        let n := u64 (PGSIZE - (srcva - va0)) in
        let n := if len <? n then len else n in
        kmemmove dst (pa0 + (srcva - va0)) n ;;
        ret (inl (dst + n, u64 (va0 + PGSIZE), len - n))
    else ret (inr 0)) (dst, srcva, len).

(** The inner [while(n > 0)] of [copyinstr]: the byte loop over one page,
    returning [got_null], [max], [p] and [dst]. *)
Fixpoint copystr_page (n : nat) (max p dst : Z) : K mstate (bool * Z * Z) :=
  match n with
  | O => ret (false, max, dst)
  | S n =>
      ch <- gets (fun s => rd8 (mmem s) p) ;;
      if ch =? 0 then
        modify (fun s => set_mem (wr8 (mmem s) dst 0) s) ;;
        ret (true, max, dst)
      else
        modify (fun s => set_mem (wr8 (mmem s) dst ch) s) ;;
        copystr_page n (max - 1) (p + 1) (dst + 1)
  end.

Definition copyinstr (pagetable dst srcva max : Z) : K mstate Z :=
  loop (Z.to_nat max + 1) (fun '(got_null, dst, srcva, max) =>
    if negb got_null && (0 <? max) then
      let va0 := PGROUNDDOWN srcva in
      pa0 <- walkaddr pagetable va0 ;;
      if pa0 =? 0 then ret (inr (-1))
      else
        let n := u64 (PGSIZE - (srcva - va0)) in
        let n := if max <? n then max else n in
        r <- copystr_page (Z.to_nat n) max (pa0 + (srcva - va0)) dst ;;
        let '(got_null, max, dst) := r in
        ret (inl (got_null, dst, u64 (va0 + PGSIZE), max))
    else ret (inr (if got_null : bool then 0 else -1))) (false, dst, srcva, max).
End vm.
