(* ===== verification/VmWalk.v ===== *)
(** * Page tables as trees, and what [walk] does to them

    [pte_of] is the Sv39 translation the hardware performs: the leaf entry a
    virtual address selects, 0 when an interior entry is missing.  [pt_rep]
    says that the pages of a table form a tree: [T] maps the path of indices
    from the root to the page that holds the table at that path.  The main
    lemmas give the effect of [walk], with and without allocation. *)
From S2P Require Import Prelude Kmonad Riscv Mem KString Kalloc Vm.

(** ** Entries *)

Lemma has_V e : has e PTE_V = Z.testbit e 0.
Proof. unfold has. change PTE_V with (2 ^ 0). rewrite land_flag by lia. apply negb_involutive. Qed.

Lemma has_V_mkpte pa perm : has (mkpte pa perm) PTE_V = true.
Proof. rewrite has_V. unfold mkpte. rewrite Z.lor_spec. apply orb_true_r. Qed.

Lemma has_V_0 : has 0 PTE_V = false.
Proof. done. Qed.

(** The entry for an interior table at [pa]. *)
Lemma interior_mkpte pa : Z.lor (PA2PTE pa) PTE_V = mkpte pa 0.
Proof. unfold mkpte. by rewrite Z.lor_0_r. Qed.

(** The Sv39 walk of the hardware. *)
Definition pte_of (m : memory) (pt va : Z) : Z :=
  let e2 := load64 m (pt + 8 * PX 2 va) in
  if has e2 PTE_V then
    let e1 := load64 m (PTE2PA e2 + 8 * PX 1 va) in
    if has e1 PTE_V then load64 m (PTE2PA e1 + 8 * PX 0 va) else 0
  else 0.

(** Memories that agree outside the pages of [P]. *)
Definition same_except (P : Z -> Prop) (m m' : memory) : Prop :=
  forall b, (forall p, P p -> b < p \/ p + PGSIZE <= b) -> rd8 m' b = rd8 m b.

#[global] Instance same_except_refl P : Reflexive (same_except P).
Proof. done. Qed.
#[global] Instance same_except_trans P : Transitive (same_except P).
Proof. intros x y z H1 H2 b Hb. by rewrite H2, H1. Qed.

Lemma same_except_mono (P Q : Z -> Prop) m m' :
  (forall p, P p -> Q p) -> same_except P m m' -> same_except Q m m'.
Proof. intros HPQ H b Hb. apply H. auto. Qed.

Lemma same_except_page (P : Z -> Prop) p m m' :
  P p -> same_outside p PGSIZE m m' -> same_except P m m'.
Proof. intros HP H b Hb. apply H. auto. Qed.

Section walk.
Context {L : Layout}.
Implicit Types (m : memory) (T : gmap (list Z) Z) (l : list Z) (p q : list Z).

(** Indices of interior entries: [walk] refuses addresses from [MAXVA] on, so
    the upper half of the root table stays empty. *)
Definition idx_ok p (i : Z) : Prop := 0 <= i < (if decide (p = []) then 256 else 512).

Record pt_rep m (pt : Z) T : Prop := {
  rep_root : T !! [] = Some pt;
  rep_page : forall p a, T !! p = Some a -> page_ok a;
  rep_inj : forall p q a, T !! p = Some a -> T !! q = Some a -> p = q;
  rep_parent : forall p i b, T !! (p ++ [i]) = Some b -> (length p < 2)%nat /\ is_Some (T !! p);
  rep_idx : forall p i b, T !! (p ++ [i]) = Some b -> idx_ok p i;
  rep_entry : forall p a i, T !! p = Some a -> (length p < 2)%nat -> 0 <= i < 512 ->
    load64 m (a + 8 * i) = match T !! (p ++ [i]) with Some b => mkpte b 0 | None => 0 end;
}.

(** ** Entries in different pages do not interfere *)

Lemma slot_same m m' a b i :
  same_outside b PGSIZE m m' -> a mod PGSIZE = 0 -> b mod PGSIZE = 0 -> a <> b -> 0 <= i < 512 ->
  load64 m' (a + 8 * i) = load64 m (a + 8 * i).
Proof.
  intros Hs Ha Hb Hne Hi. apply (same_outside_load 8 b PGSIZE); [done|].
  destruct (pages_disjoint a b) as [?|?]; unfold PGSIZE in *; try lia; done.
Qed.

Lemma slot_store m a b i j v :
  a mod PGSIZE = 0 -> b mod PGSIZE = 0 -> 0 <= i < 512 -> 0 <= j < 512 -> 0 <= v < 2 ^ 64 ->
  load64 (store64 m (b + 8 * j) v) (a + 8 * i) =
    if decide (a = b /\ i = j) then v else load64 m (a + 8 * i).
Proof.
  intros Ha Hb Hi Hj Hv. case_decide as E.
  - destruct E as [-> ->]. by apply load64_store64_eq.
  - apply load64_store64_ne. destruct (decide (a = b)) as [->|Hne]; [lia|].
    destruct (pages_disjoint a b) as [?|?]; unfold PGSIZE in *; try lia; done.
Qed.

Lemma slot_store_outside m a i v :
  0 <= i < 512 -> same_outside a PGSIZE m (store64 m (a + 8 * i) v).
Proof. intros. apply (same_outside_store a PGSIZE 8); unfold PGSIZE; lia. Qed.

(** ** The tree determines the translation *)

Fixpoint vidx (level : nat) (va : Z) : list Z :=
  match level with O => [] | S n => PX (Z.of_nat level) va :: vidx n va end.

Lemma rep_step m pt T p a i :
  pt_rep m pt T -> T !! p = Some a -> (length p < 2)%nat -> 0 <= i < 512 ->
  let e := load64 m (a + 8 * i) in
  match T !! (p ++ [i]) with
  | Some b => has e PTE_V = true /\ PTE2PA e = b
  | None => has e PTE_V = false
  end.
Proof.
  intros Hr Hp Hlen Hi e. subst e. rewrite (rep_entry _ _ _ Hr p a i) by done.
  destruct (T !! (p ++ [i])) as [b|] eqn:Hb; [|done].
  destruct (page_ok_bounds b (rep_page _ _ _ Hr _ _ Hb)) as (? & ? & ?).
  destruct (rep_page _ _ _ Hr _ _ Hb) as [Hba _].
  split; [apply has_V_mkpte|]. apply PTE2PA_mkpte; (done || lia).
Qed.

Lemma pte_of_rep m pt T va :
  pt_rep m pt T ->
  pte_of m pt va = match T !! vidx 2 va with Some a => load64 m (a + 8 * PX 0 va) | None => 0 end.
Proof.
  intros Hr. unfold pte_of.
  pose proof (rep_step m pt T [] pt (PX 2 va) Hr (rep_root _ _ _ Hr) ltac:(simpl; lia) (PX_range _ _)) as H2.
  cbn zeta in H2. simpl app in H2.
  destruct (T !! [PX 2 va]) as [a1|] eqn:E1.
  - destruct H2 as [-> ->].
    pose proof (rep_step m pt T [PX 2 va] a1 (PX 1 va) Hr E1 ltac:(simpl; lia) (PX_range _ _)) as H1.
    cbn zeta in H1. simpl app in H1. change (vidx 2 va) with [PX 2 va; PX 1 va].
    destruct (T !! [PX 2 va; PX 1 va]) as [a0|]; [by destruct H1 as [-> ->]|by rewrite H1].
  - rewrite H2. destruct (T !! vidx 2 va) eqn:E; [|done].
    apply (rep_parent _ _ _ Hr [PX 2 va] (PX 1 va)) in E as [_ [? ?]]. congruence.
Qed.

(** [walk] without allocation returns the address of the leaf entry, or 0. *)
Lemma walk_loop_find m pt T n p a va c s :
  pt_rep m pt T -> mmem s = m -> T !! p = Some a -> (length p + n = 2)%nat ->
  walk_loop n a va false c s =
    Ok (match T !! (p ++ vidx n va) with Some a0 => a0 + 8 * PX 0 va | None => 0 end) c s.
Proof.
  intros Hr Hm. revert p a. induction n as [|n IH]; intros p a Hp Hlen.
  - simpl. rewrite app_nil_r, Hp. done.
  - cbn [walk_loop]. unfold bind, ld64, gets. rewrite Hm.
    pose proof (rep_step m pt T p a (PX (Z.of_nat (S n)) va) Hr Hp ltac:(lia) (PX_range _ _)) as He.
    cbn zeta in He. cbn [vidx]. rewrite cons_middle, app_assoc.
    destruct (T !! (p ++ [PX (Z.of_nat (S n)) va])) as [b|] eqn:Eb.
    + destruct He as [-> ->]. rewrite (IH (p ++ [PX (Z.of_nat (S n)) va]) b);
        [done|done|rewrite length_app; simpl; lia].
    + rewrite He. simpl.
      destruct (T !! ((p ++ [PX (Z.of_nat (S n)) va]) ++ vidx n va)) as [a0|] eqn:E0; [|done].
      exfalso. destruct n as [|n]; simpl in E0; [by rewrite app_nil_r in E0; congruence|].
      destruct n as [|n]; [|lia]. apply (rep_parent _ _ _ Hr _ _ _) in E0 as [_ [? ?]]. congruence.
Qed.

Lemma walk_find pt T va c s :
  pt_rep (mmem s) pt T -> 0 <= va < MAXVA ->
  walk pt va false c s =
    Ok (match T !! vidx 2 va with Some a => a + 8 * PX 0 va | None => 0 end) c s.
Proof.
  intros Hr Hva. unfold walk. rewrite (proj2 (Z.leb_gt _ _)) by lia.
  by rewrite (walk_loop_find _ pt T 2 [] pt) by (done || apply Hr).
Qed.
(** ** Frames *)

Definition tab_in T (x : Z) : Prop := exists p, T !! p = Some x.

Lemma slot_except (P : Z -> Prop) m m' a i :
  same_except P m m' -> (forall x, P x -> x mod PGSIZE = 0) -> a mod PGSIZE = 0 -> ~ P a ->
  0 <= i < 512 -> load64 m' (a + 8 * i) = load64 m (a + 8 * i).
Proof.
  intros Hs HP Ha Hna Hi. apply load_ext. intros b Hb. apply Hs. intros x Hx.
  assert (a <> x) by congruence.
  destruct (pages_disjoint a x) as [?|?]; [done|by apply HP|done|..]; unfold PGSIZE in *; lia.
Qed.

Lemma pt_rep_frame (P : Z -> Prop) m m' pt T :
  same_except P m m' -> (forall x, P x -> x mod PGSIZE = 0) ->
  (forall x, tab_in T x -> ~ P x) -> pt_rep m pt T -> pt_rep m' pt T.
Proof.
  intros Hs HP Hd Hr. split; [apply Hr..|].
  intros p a i Hp Hlen Hi. rewrite <- (rep_entry _ _ _ Hr p a i Hp Hlen Hi).
  eapply slot_except; [done|done| |by apply Hd; exists p|done].
  by apply (rep_page _ _ _ Hr) in Hp as [? _].
Qed.

Lemma pte_of_frame (P : Z -> Prop) m m' pt T va :
  same_except P m m' -> (forall x, P x -> x mod PGSIZE = 0) ->
  (forall x, tab_in T x -> ~ P x) -> pt_rep m pt T -> pte_of m' pt va = pte_of m pt va.
Proof.
  intros Hs HP Hd Hr. rewrite (pte_of_rep m pt T) by done.
  rewrite (pte_of_rep m' pt T) by (by eapply pt_rep_frame).
  destruct (T !! vidx 2 va) as [a|] eqn:E; [|done].
  eapply slot_except; [done|done| |by apply Hd; eexists|apply PX_range].
  by apply (rep_page _ _ _ Hr) in E as [? _].
Qed.

(** ** Adding a table *)

Lemma snoc_inj (p q : list Z) i j : p ++ [i] = q ++ [j] -> p = q /\ i = j.
Proof. intros H. by apply app_inj_2 in H as [-> [= ->]]. Qed.

Section add_table.
Context (m : memory) (pt : Z) (T : gmap (list Z) Z) (p : list Z) (a i b : Z).
Context (Hr : pt_rep m pt T) (Hp : T !! p = Some a) (Hlen : (length p < 2)%nat).
Context (Hi : 0 <= i < 512) (Hix : idx_ok p i) (HN : T !! (p ++ [i]) = None) (Hb : page_ok b) (Hfresh : ~ tab_in T b).
Let m' := store64 (memset m b 0 PGSIZE) (a + 8 * i) (mkpte b 0).
Let T' := <[p ++ [i] := b]> T.

Lemma add_table_load x j :
  page_ok x -> 0 <= j < 512 ->
  load64 m' (x + 8 * j) =
    if decide (x = a /\ j = i) then mkpte b 0 else if decide (x = b) then 0 else load64 m (x + 8 * j).
Proof.
  intros Hx Hj. unfold m'. destruct (page_ok_bounds b Hb) as (? & ? & ?).
  pose proof (mkpte_range b 0 ltac:(lia) ltac:(lia)).
  rewrite slot_store; [|by apply Hx|by apply (rep_page _ _ _ Hr) in Hp as [? _]|lia..].
  case_decide; [done|]. case_decide as E; [subst x|].
  - apply (load_memset_zero 8); unfold PGSIZE; lia.
  - eapply slot_same; [by apply memset_outside|apply Hx|apply Hb|done|done].
Qed.

Lemma add_table_ne q x : T !! q = Some x -> x <> b.
Proof. intros Hq ->. apply Hfresh. by exists q. Qed.

Lemma add_table_rep : pt_rep m' pt T'.
Proof.
  pose proof add_table_ne as Hab. pose proof add_table_load as Hld. unfold T'. clearbody m'. split.
  - rewrite lookup_insert_ne; [apply Hr|]. by destruct p.
  - intros q x [[_ <-]|[_ Hq]]%lookup_insert_Some; [done|by eapply Hr].
  - intros q q' x [[<- <-]|[_ Hq]]%lookup_insert_Some [[<- E]|[_ Hq']]%lookup_insert_Some; subst;
      try done; try (exfalso; apply Hfresh; by eexists). by eapply Hr.
  - intros q j x [[E <-]|[_ Hq]]%lookup_insert_Some.
    + apply snoc_inj in E as [<- <-]. split; [done|].
      apply lookup_insert_is_Some'. right. by rewrite Hp.
    + apply (rep_parent _ _ _ Hr) in Hq as [? ?]. split; [done|].
      apply lookup_insert_is_Some'. by right.
  - intros q j x [[E _]|[_ Hq]]%lookup_insert_Some; [by apply snoc_inj in E as [<- <-]|by eapply Hr].
  - intros q x j Hq Hl Hj. rewrite Hld; [| |done].
    2: { apply lookup_insert_Some in Hq as [[_ <-]|[_ Hq]]; [done|by eapply Hr]. }
    apply lookup_insert_Some in Hq as [[<- <-]|[Hne Hq]].
    + rewrite decide_False, decide_True; [|done|intros [-> _]; by eapply (Hab p)].
      rewrite lookup_insert_ne; [|by intros E%(f_equal length); rewrite !length_app in E; simpl in E; lia].
      destruct (T !! ((p ++ [i]) ++ [j])) eqn:E; [|done].
      apply (rep_parent _ _ _ Hr) in E as [_ [? ?]]. congruence.
    + case_decide as E.
      * destruct E as [-> ->]. rewrite (rep_inj _ _ _ Hr q p a Hq Hp). by rewrite lookup_insert_eq.
      * rewrite decide_False by (by eapply (Hab q)).
        rewrite (rep_entry _ _ _ Hr q x j Hq Hl Hj). rewrite lookup_insert_ne; [done|].
        intros [<- <-]%snoc_inj. apply E. split; [congruence|done].
Qed.

Lemma add_table_pte va : pte_of m' pt va = pte_of m pt va.
Proof.
  pose proof add_table_ne as Hab. pose proof add_table_load as Hld.
  rewrite (pte_of_rep _ _ _ va add_table_rep), (pte_of_rep _ _ _ va Hr). unfold T'.
  rewrite lookup_insert. case_decide as E.
  - rewrite <- E, HN, Hld; [|done|apply PX_range].
    rewrite decide_False, decide_True; [done..|]. intros [-> _]. by eapply (Hab p).
  - destruct (T !! vidx 2 va) as [x|] eqn:Ex; [|done].
    rewrite Hld; [|by eapply Hr|apply PX_range].
    rewrite !decide_False; [done|by eapply Hab|].
    intros [-> _]. pose proof (rep_inj _ _ _ Hr p _ a Hp Ex) as ->. simpl in Hlen. lia.
Qed.

Lemma add_table_except (P : Z -> Prop) : P a -> P b -> same_except P m m'.
Proof.
  intros HPa HPb. etrans.
  - apply (same_except_page P b); [done|]. by apply memset_outside.
  - apply (same_except_page P a); [done|]. by apply slot_store_outside.
Qed.
End add_table.

(** ** [walk] with allocation *)

(** A page table and the free list, in the same memory and apart. *)
Record vm_inv (s : mstate) l (pt : Z) T : Prop := {
  inv_kmem : kmem_wf s l;
  inv_rep : pt_rep (mmem s) pt T;
  inv_apart : forall x, tab_in T x -> x ∉ l;
}.

Definition pool T l (x : Z) : Prop := tab_in T x \/ x ∈ l.

(** Pages moved from the free list to the table, memory changed only there. *)
Record grown s l T (s' : mstate) l' T' : Prop := {
  grown_tab : T ⊆ T';
  grown_free : forall x, x ∈ l' -> x ∈ l;
  grown_pool : forall x, pool T' l' x <-> pool T l x;
  grown_mem : same_except (pool T l) (mmem s) (mmem s');
}.

Lemma grown_refl s l T : grown s l T s l T.
Proof. by split. Qed.

Lemma grown_trans s1 l1 T1 s2 l2 T2 s3 l3 T3 :
  grown s1 l1 T1 s2 l2 T2 -> grown s2 l2 T2 s3 l3 T3 -> grown s1 l1 T1 s3 l3 T3.
Proof.
  intros [A1 B1 C1 D1] [A2 B2 C2 D2]. split; [by etrans|by auto| |].
  - intros x. by rewrite C2.
  - etrans; [done|]. eapply same_except_mono; [|done]. intros x. apply C1.
Qed.

Lemma pool_aligned s l pt T x : vm_inv s l pt T -> pool T l x -> page_ok x.
Proof.
  intros [Hk Hr _] [[p Hp]|Hx]; [by eapply Hr|]. eapply Forall_elem; [apply Hk|done].
Qed.

(** One round of the loop in [walk]: a missing table is allocated. *)
Lemma PX_2_range va : 0 <= va < MAXVA -> 0 <= PX 2 va < 256.
Proof. rewrite MAXVA_eq, PX_spec by lia. change (2 ^ (12 + 9 * 2)) with 1073741824. zlia. Qed.

Lemma walk_alloc_step s b l pt T p a i c :
  vm_inv s (b :: l) pt T -> T !! p = Some a -> (length p < 2)%nat -> 0 <= i < 512 -> idx_ok p i ->
  T !! (p ++ [i]) = None -> kmem_lock ∉ held c ->
  wp (x <- kalloc ;; kmemset x 0 PGSIZE ;; st64 (a + 8 * i) (Z.lor (PA2PTE x) PTE_V) ;; ret x)
    (fun r c' s' => c' = c /\ r = b /\ vm_inv s' l pt (<[p ++ [i] := b]> T) /\
       grown s (b :: l) T s' l (<[p ++ [i] := b]> T) /\
       forall va, pte_of (mmem s') pt va = pte_of (mmem s) pt va) c s.
Proof.
  intros [Hk Hr Hd] Hp Hlen Hi Hix HN Hlk. kstep.
  eapply wp_mono; [by apply kalloc_spec|]. intros r c' s1 (-> & -> & Hk1 & Hs1 & _).
  unfold kmemset, st64. ksteps. rewrite interior_mkpte.
  assert (page_ok b) as Hb by (eapply Forall_inv, Hk).
  assert (page_ok a) as Ha by (by eapply Hr).
  assert (forall x, x = b -> x mod PGSIZE = 0) as Hal by (intros ? ->; apply Hb).
  assert (same_except (eq b) (mmem s) (mmem s1)) as Hse by (by eapply same_except_page).
  assert (~ tab_in T b) as Hfr by (intros Hin; apply (Hd _ Hin); by left).
  assert (forall x, tab_in T x -> b <> x) as Hne by (by intros x Hx ->).
  pose proof (wf_nodup _ _ Hk) as [Hbl Hnd]%NoDup_cons.
  assert (pt_rep (mmem s1) pt T) as Hr1.
  { eapply pt_rep_frame; [done| |exact Hne|done]. by intros x <-; apply Hb. }
  split; [done|]. split; [done|]. split_and!.
  - split; simpl.
    + apply (kmem_wf_frame (set_mem (memset (mmem s1) b 0 PGSIZE) s1) _ _ a);
        [|apply Ha| |by apply slot_store_outside].
      * apply (kmem_wf_frame _ _ _ b); [done|apply Hb|done|by apply memset_outside].
      * intros ?. apply (Hd a); [by exists p|by right].
    + by apply add_table_rep.
    + intros x [q [[_ <-]|[_ Hq]]%lookup_insert_Some]; [done|].
      intros ?. apply (Hd x); [by exists q|by right].
  - split; simpl; [by apply insert_subseteq|by right| |].
    + intros x. unfold pool, tab_in. rewrite elem_of_cons. split.
      * intros [[q [[_ <-]|[_ Hq]]%lookup_insert_Some]|?]; [by eauto..|by eauto].
      * intros [[q Hq]|[->|?]]; [left|left|by right]; [exists q|exists (p ++ [i])].
        -- rewrite lookup_insert_ne by congruence. done.
        -- by rewrite lookup_insert_eq.
    + etrans; [eapply same_except_mono; [|exact Hse]; intros ? <-; right; by left|].
      eapply add_table_except; [done|by left; exists p|by right; left].
  - intros va. simpl. rewrite (add_table_pte (mmem s1) pt T p a i b) by done.
    eapply pte_of_frame; [done| |exact Hne|done]. by intros x <-; apply Hb.
Qed.

Lemma walk_loop_alloc n p a va s l pt T c :
  vm_inv s l pt T -> T !! p = Some a -> (length p + n = 2)%nat -> 0 <= va < MAXVA ->
  kmem_lock ∉ held c ->
  wp (walk_loop n a va true) (fun r c' s' => c' = c /\ exists l' T',
    vm_inv s' l' pt T' /\ grown s l T s' l' T' /\
    (forall va', pte_of (mmem s') pt va' = pte_of (mmem s) pt va') /\
    (r = 0 /\ l' = [] \/ exists a0, T' !! (p ++ vidx n va) = Some a0 /\ r = a0 + 8 * PX 0 va)) c s.
Proof.
  revert p a s l T. induction n as [|n IH]; intros p a s l T Hv Hp Hlen Hva Hlk.
  - apply wp_ret. split; [done|]. exists l, T. split_and!; [done|apply grown_refl|done|].
    right. exists a. by rewrite app_nil_r.
  - cbn [walk_loop]. set (i := PX (Z.of_nat (S n)) va). unfold ld64. ksteps.
    pose proof (PX_range (Z.of_nat (S n)) va) as Hi. fold i in Hi.
    pose proof (rep_step _ pt T p a i (inv_rep _ _ _ _ Hv) Hp ltac:(lia) Hi) as He. cbn zeta in He.
    change (vidx (S n) va) with (i :: vidx n va). rewrite cons_middle, app_assoc.
    assert (idx_ok p i) as Hix.
    { unfold idx_ok. case_decide as Ep; [|done]. subst p. simpl in Hlen. assert (n = 1%nat) as -> by lia.
      by apply PX_2_range. }
    assert (length (p ++ [i]) + n = 2)%nat as Hlen' by (rewrite length_app; simpl; lia).
    destruct (T !! (p ++ [i])) as [b|] eqn:Eb.
    + destruct He as [-> ->]. by apply IH.
    + rewrite He. simpl negb. cbn iota. destruct l as [|b l].
      * kstep. eapply wp_mono; [apply kalloc_spec; [apply Hv|done]|].
        intros r c' s' (-> & -> & ->). simpl. kstep. split; [done|].
        exists [], T. split_and!; [done|apply grown_refl|done|by left].
      * pose proof (walk_alloc_step s b l pt T p a i c Hv Hp ltac:(lia) Hi Hix Eb Hlk) as Hw.
        apply wp_inv in Hw as (r & c' & s' & E & -> & -> & Hv' & Hg & Hpte).
        unfold wp, bind in *. destruct (kalloc c s) as [x c1 s1|?|???|]; try done.
        destruct (kmemset x 0 PGSIZE c1 s1) as [[] c2 s2|?|???|] eqn:E2; try done.
        destruct (st64 (a + 8 * i) _ c2 s2) as [[] c3 s3|?|???|] eqn:E3; try done.
        injection E as -> -> ->.
        assert (page_ok b) as Hb by (eapply Forall_inv; apply Hv).
        apply page_ok_bounds in Hb. rewrite (proj2 (Z.eqb_neq b 0)) by lia.
        rewrite E2, E3.
        eapply wp_mono; [eapply (IH _ b); [done|by rewrite lookup_insert_eq|done..]|].
        intros r c' s'' (-> & l' & T' & Hv'' & Hg' & Hpte' & Hres). split; [done|].
        exists l', T'. split_and!; [done|by eapply grown_trans| |done].
        intros va'. by rewrite Hpte'.
Qed.

Lemma walk_alloc va s l pt T c :
  vm_inv s l pt T -> 0 <= va < MAXVA -> kmem_lock ∉ held c ->
  wp (walk pt va true) (fun r c' s' => c' = c /\ exists l' T',
    vm_inv s' l' pt T' /\ grown s l T s' l' T' /\
    (forall va', pte_of (mmem s') pt va' = pte_of (mmem s) pt va') /\
    (r = 0 /\ l' = [] \/ exists a0, T' !! vidx 2 va = Some a0 /\ r = a0 + 8 * PX 0 va)) c s.
Proof.
  intros Hv Hva Hlk. unfold walk. rewrite (proj2 (Z.leb_gt _ _)) by lia.
  apply (walk_loop_alloc 2 []); [done|apply Hv|done..].
Qed.
End walk.
