(* ===== verification/VmMap.v ===== *)
(** * mappages and uvmunmap as updates of the translation

    [mappages], the loop that installs leaf entries, changes the hardware's
    translation [pte_of] exactly on the pages it maps, and takes pages from
    the allocator only for tables. *)
From S2P Require Import Prelude Kmonad Riscv Mem KString Kalloc Vm VmWalk.

Section map.
Context {L : Layout}.
Implicit Types (m : memory) (T : gmap (list Z) Z) (l : list Z).

(** ** Writing one leaf entry *)

Lemma vidx_page va va' :
  0 <= va < MAXVA -> 0 <= va' < MAXVA ->
  vidx 2 va = vidx 2 va' /\ PX 0 va = PX 0 va' <-> va / 4096 = va' / 4096.
Proof.
  intros H H'. split.
  - intros [[= E2 E1] E0]. by apply PX_inj.
  - intros E. pose proof (PX_decompose va H). pose proof (PX_decompose va' H').
    pose proof (PX_range 0 va). pose proof (PX_range 1 va). pose proof (PX_range 2 va).
    pose proof (PX_range 0 va'). pose proof (PX_range 1 va'). pose proof (PX_range 2 va').
    assert (PX 2 va = PX 2 va' /\ PX 1 va = PX 1 va' /\ PX 0 va = PX 0 va') as (E2 & E1 & E0) by lia.
    change (vidx 2 va) with [PX 2 va; PX 1 va]. change (vidx 2 va') with [PX 2 va'; PX 1 va'].
    by rewrite E2, E1, E0.
Qed.

Lemma set_leaf s l pt T va a0 v :
  vm_inv s l pt T -> 0 <= va < MAXVA -> T !! vidx 2 va = Some a0 -> 0 <= v < 2 ^ 64 ->
  let s' := set_mem (store64 (mmem s) (a0 + 8 * PX 0 va) v) s in
  vm_inv s' l pt T /\ grown s l T s' l T /\
  forall va', 0 <= va' < MAXVA ->
    pte_of (mmem s') pt va' = if decide (va / 4096 = va' / 4096) then v else pte_of (mmem s) pt va'.
Proof.
  intros [Hk Hr Hd] Hva Ha0 Hv s'.
  assert (page_ok a0) as Hpa by (by eapply Hr).
  pose proof (slot_store_outside (mmem s) a0 (PX 0 va) v (PX_range 0 va)) as Hs.
  assert (pt_rep (mmem s') pt T) as Hr'.
  { split; [apply Hr..|]. intros p a i Hp Hlen Hi. rewrite <- (rep_entry _ _ _ Hr p a i Hp Hlen Hi).
    eapply slot_same; [exact Hs|by eapply Hr|apply Hpa| |done].
    intros ->. pose proof (rep_inj _ _ _ Hr _ _ _ Hp Ha0) as ->. simpl in Hlen. lia. }
  split_and!.
  - split; [|done|done]. eapply kmem_wf_frame; [done|apply Hpa| |done]. apply Hd. by eexists.
  - split; [done..|]. eapply (same_except_page _ a0); [|done]. left. by eexists.
  - intros va' Hva'. rewrite (pte_of_rep _ _ _ _ Hr'), (pte_of_rep _ _ _ _ Hr).
    destruct (T !! vidx 2 va') as [a|] eqn:Ea.
    + unfold s'; simpl. rewrite slot_store; [|by eapply Hr|apply Hpa|apply PX_range..|done].
      assert (a = a0 /\ PX 0 va' = PX 0 va <-> va / 4096 = va' / 4096) as Hiff.
      { rewrite <- vidx_page by done. split; intros [? ?]; (split; [|done]).
        - subst a. by apply (rep_inj _ _ _ Hr _ _ a0).
        - congruence. }
      do 2 case_decide; tauto.
    + rewrite decide_False; [done|]. intros [E _]%(vidx_page va va' Hva Hva'). congruence.
Qed.

(** ** mappages *)

(** One round of the loop: map the page of [a] to [pa]. *)
Lemma map_one s l pt T a pa perm c :
  vm_inv s l pt T -> 0 <= a < MAXVA -> 0 <= pa < 2 ^ 56 -> 0 <= perm < 1024 ->
  has (pte_of (mmem s) pt a) PTE_V = false -> kmem_lock ∉ held c ->
  wp (pte <- walk pt a true ;;
      if pte =? 0 then ret (-1)
      else e <- ld64 pte ;;
           if has e PTE_V then panic "mappages: remap"
           else st64 pte (mkpte pa perm) ;; ret 0)
    (fun r c' s' => c' = c /\ exists l' T', vm_inv s' l' pt T' /\ grown s l T s' l' T' /\
       ((r = -1 /\ l' = [] /\ forall va, pte_of (mmem s') pt va = pte_of (mmem s) pt va) \/
        (r = 0 /\ forall va, 0 <= va < MAXVA -> pte_of (mmem s') pt va =
           if decide (a / 4096 = va / 4096) then mkpte pa perm else pte_of (mmem s) pt va))) c s.
Proof.
  intros Hv Ha Hpa Hperm Hun Hlk. kstep. eapply wp_mono; [by apply walk_alloc|].
  intros pte c' s1 (-> & l' & T' & Hv1 & Hg1 & Hsame & [[-> ->]|(a0 & Ha0 & ->)]).
  - simpl. kstep. split; [done|]. exists [], T'. eauto 6.
  - assert (page_ok a0) as Hok by (by eapply Hv1). apply page_ok_bounds in Hok.
    pose proof (PX_range 0 a). rewrite (proj2 (Z.eqb_neq _ 0)) by lia.
    unfold ld64, st64. ksteps.
    assert (load64 (mmem s1) (a0 + 8 * PX 0 a) = pte_of (mmem s) pt a) as ->.
    { rewrite <- Hsame. by rewrite (pte_of_rep _ _ _ _ (inv_rep _ _ _ _ Hv1)), Ha0. }
    rewrite Hun. ksteps. split; [done|]. exists l', T'.
    pose proof (mkpte_range pa perm).
    destruct (set_leaf s1 l' pt T' a a0 (mkpte pa perm) Hv1 Ha Ha0) as (Hv2 & Hg2 & Hp2); [lia|].
    split; [exact Hv2|]. split; [by eapply grown_trans|]. right. split; [done|].
    intros va Hva. rewrite Hp2 by done. by rewrite Hsame.
Qed.

(** The body of the loop in [mappages], in terms of [map_one]'s. *)
Lemma mappages_spec s l pt T va (n : nat) pa perm c :
  vm_inv s l pt T -> 0 <= va -> va mod PGSIZE = 0 -> (0 < n)%nat ->
  va + Z.of_nat n * PGSIZE <= MAXVA ->
  0 <= pa -> pa mod PGSIZE = 0 -> pa + Z.of_nat n * PGSIZE <= 2 ^ 56 -> 0 <= perm < 1024 ->
  (forall va', va <= va' < va + Z.of_nat n * PGSIZE -> has (pte_of (mmem s) pt va') PTE_V = false) ->
  kmem_lock ∉ held c ->
  wp (mappages pt va (Z.of_nat n * PGSIZE) pa perm) (fun r c' s' => c' = c /\ exists l' T' k,
    vm_inv s' l' pt T' /\ grown s l T s' l' T' /\
    (r = 0 /\ k = n \/ r = -1 /\ (k < n)%nat /\ l' = []) /\
    forall va', 0 <= va' < MAXVA -> pte_of (mmem s') pt va' =
      if decide (va <= va' < va + Z.of_nat k * PGSIZE)
      then mkpte (pa + (PGROUNDDOWN va' - va)) perm else pte_of (mmem s) pt va') c s.
Proof.
  intros Hv Hva Hal Hn Hmax Hpa Hpal Hpmax Hperm Hun Hlk. unfold mappages.
  pose proof MAXVA_eq as HM. unfold PGSIZE in *.
  rewrite Hal, Z.mod_mul, Z.div_mul, Nat2Z.id by lia. simpl negb. cbn iota.
  rewrite (proj2 (Z.eqb_neq _ 0)) by lia. rewrite u64_id by lia.
  apply wp_loop with (I := fun k '(a, p) c' s' => c' = c /\ exists (i : nat) l' T',
    (k = n - i)%nat /\ (i < n)%nat /\ a = va + Z.of_nat i * 4096 /\ p = pa + Z.of_nat i * 4096 /\
    vm_inv s' l' pt T' /\ grown s l T s' l' T' /\
    forall va', 0 <= va' < MAXVA -> pte_of (mmem s') pt va' =
      if decide (va <= va' < va + Z.of_nat i * 4096)
      then mkpte (pa + (PGROUNDDOWN va' - va)) perm else pte_of (mmem s) pt va').
  2: { split; [done|]. exists O, l, T. split_and!; [lia..|done|apply grown_refl|].
       intros va' _. rewrite decide_False by lia. done. }
  intros k [a p] c' s1 (-> & i & l1 & T1 & -> & Hi & -> & -> & Hv1 & Hg1 & Hp1).
  exists (n - S i)%nat. split; [lia|]. set (a := va + Z.of_nat i * 4096) in *.
  assert (has (pte_of (mmem s1) pt a) PTE_V = false) as Hua.
  { rewrite Hp1, decide_False by lia. apply Hun. lia. }
  pose proof (map_one s1 l1 pt T1 a (pa + Z.of_nat i * 4096) perm c Hv1 ltac:(lia) ltac:(lia)
    Hperm Hua Hlk) as Hm.
  apply wp_bind. unfold wp, bind in Hm |- *. destruct (walk pt a true c s1) as [pte c1 s2|?|???|]; try done.
  destruct (pte =? 0).
  - destruct Hm as (-> & l2 & T2 & Hv2 & Hg2 & [(_ & -> & Hs)|[? _]]); [|done].
    split; [done|]. exists [], T2, i. split_and!; [done|by eapply grown_trans|by auto|].
    intros va' Hva'. rewrite Hs. by apply Hp1.
  - unfold ld64, st64, gets, modify, ret in *. destruct (has (load64 (mmem s2) pte) PTE_V); [done|].
    destruct Hm as (-> & l2 & T2 & Hv2 & Hg2 & [[? _]|[_ Hs]]); [done|].
    assert (forall va', 0 <= va' < MAXVA -> pte_of (mmem (set_mem (store64 (mmem s2) pte
        (mkpte (pa + Z.of_nat i * 4096) perm)) s2)) pt va' =
      if decide (va <= va' < va + Z.of_nat (S i) * 4096)
      then mkpte (pa + (PGROUNDDOWN va' - va)) perm else pte_of (mmem s) pt va') as Hp2.
    { intros va' Hva'. rewrite Hs, Hp1 by done. rewrite PGROUNDDOWN_spec by lia.
      subst a. repeat case_decide; try done; try (exfalso; zlia).
      f_equal. zlia. }
    assert (grown s l T (set_mem (store64 (mmem s2) pte
      (mkpte (pa + Z.of_nat i * 4096) perm)) s2) l2 T2) as Hg by (by eapply grown_trans).
    destruct (Z.eqb_spec a (va + Z.of_nat n * 4096 - 4096)).
    + split; [done|]. exists l2, T2, n. assert (n = S i) as En by lia.
      split_and!; [exact Hv2|exact Hg|by left|]. rewrite En. exact Hp2.
    + split; [done|]. exists (S i), l2, T2. rewrite !u64_id by lia.
      split_and!; [lia| | | |exact Hv2|exact Hg|exact Hp2]; lia.
Qed.
End map.
