(* ===== verification/VmSpace.v ===== *)
(** * User address spaces

    The abstract view of a user page table: a finite map [M] from the address
    of a page to the physical page behind it and its permission bits.
    [aspace] relates it to the bytes of the table in memory, the free list
    and the tables' own pages, all of them apart from each other; the
    routines of vm.c that change an address space are shown to implement
    updates of [M], and never to lose or to share a page. *)
From S2P Require Import Prelude Kmonad Riscv Mem KString Kalloc Vm VmWalk VmMap.

Section space.
Context {L : Layout}.
Implicit Types (m : memory) (T : gmap (list Z) Z) (l : list Z) (M : gmap Z (Z * Z)).

Definition entry (o : option (Z * Z)) : Z :=
  match o with Some (pa, perm) => mkpte pa perm | None => 0 end.

Record aspace (s : mstate) l pt T M : Prop := {
  as_vm : vm_inv s l pt T;
  as_pte : forall va, 0 <= va < MAXVA -> pte_of (mmem s) pt va = entry (M !! PGROUNDDOWN va);
  as_dom : forall va x, M !! va = Some x -> 0 <= va < MAXVA /\ va mod PGSIZE = 0;
  as_leaf : forall va pa perm, M !! va = Some (pa, perm) ->
    pa mod PGSIZE = 0 /\ 0 < pa < 2 ^ 56 /\ 0 <= perm < 1024 /\ ~ pool T l pa;
  as_inj : forall va va' pa perm perm',
    M !! va = Some (pa, perm) -> M !! va' = Some (pa, perm') -> va = va';
}.

(** The pages an address space and the free list hold between them. *)
Definition mapped M (x : Z) : Prop := exists va perm, M !! va = Some (x, perm).
Definition own T l M (x : Z) : Prop := pool T l x \/ mapped M x.

Definition same_page (x : Z) m m' : Prop := forall b, x <= b < x + PGSIZE -> rd8 m' b = rd8 m b.

Lemma own_aligned s l pt T M x : aspace s l pt T M -> own T l M x -> x mod PGSIZE = 0.
Proof.
  intros Ha [Hp|(va & perm & Hx)]; [|by apply (as_leaf _ _ _ _ _ Ha) in Hx as [? _]].
  by destruct (pool_aligned _ _ _ _ _ (as_vm _ _ _ _ _ Ha) Hp).
Qed.

Lemma same_except_same_page (P : Z -> Prop) m m' x :
  same_except P m m' -> (forall y, P y -> y mod PGSIZE = 0) -> x mod PGSIZE = 0 -> ~ P x ->
  same_page x m m'.
Proof.
  intros Hs HP Hx Hn b Hb. apply Hs. intros y Hy.
  destruct (pages_disjoint x y) as [?|?]; [done|by apply HP|congruence|..]; lia.
Qed.

Lemma PGROUNDDOWN_page va : 0 <= va < MAXVA ->
  PGROUNDDOWN va = va / 4096 * 4096 /\ PGROUNDDOWN va mod PGSIZE = 0 /\
  PGROUNDDOWN va <= va < PGROUNDDOWN va + PGSIZE.
Proof. rewrite MAXVA_eq. intros. rewrite PGROUNDDOWN_spec by lia. unfold PGSIZE. zlia. Qed.

Lemma PGROUNDDOWN_id va : 0 <= va < MAXVA -> va mod PGSIZE = 0 -> PGROUNDDOWN va = va.
Proof. intros Hva Ha. destruct (PGROUNDDOWN_page va Hva) as (-> & _). unfold PGSIZE in *. zlia. Qed.

(** ** Mapping one page *)

Lemma aspace_grow s l pt T M s' l' T' :
  aspace s l pt T M -> vm_inv s' l' pt T' -> grown s l T s' l' T' ->
  (forall va, 0 <= va < MAXVA -> pte_of (mmem s') pt va = pte_of (mmem s) pt va) ->
  aspace s' l' pt T' M.
Proof.
  intros Ha Hv Hg Hs. split; [done| |apply Ha| |apply Ha].
  - intros va Hva. rewrite Hs by done. by apply Ha.
  - intros va pa perm Hva. apply (as_leaf _ _ _ _ _ Ha) in Hva as (? & ? & ? & ?).
    split_and!; try done; [lia..|]. by rewrite (grown_pool _ _ _ _ _ _ Hg).
Qed.

Lemma map_page_spec s l pt T M va b perm c :
  aspace s l pt T M -> 0 <= va < MAXVA -> va mod PGSIZE = 0 -> M !! va = None ->
  b mod PGSIZE = 0 -> 0 < b < 2 ^ 56 -> ~ own T l M b -> 0 <= perm < 1024 -> kmem_lock ∉ held c ->
  wp (mappages pt va PGSIZE b perm) (fun r c' s' => c' = c /\ exists l' T',
    grown s l T s' l' T' /\
    (r = -1 /\ l' = [] /\ aspace s' l' pt T' M \/
     r = 0 /\ aspace s' l' pt T' (<[va := (b, perm)]> M))) c s.
Proof.
  intros Ha Hva Hal HN Hb Hbr Hno Hperm Hlk. pose proof MAXVA_eq as HM.
  assert (forall va', va <= va' < va + PGSIZE -> 0 <= va' < MAXVA -> PGROUNDDOWN va' = va) as Hpg.
  { intros va' ??. destruct (PGROUNDDOWN_page va') as (-> & _); [done|]. unfold PGSIZE in *. zlia. }
  eapply wp_mono; [apply (mappages_spec s l pt T va 1 b perm c); try done; try lia|].
  - apply Ha.
  - unfold PGSIZE in *. zlia.
  - unfold PGSIZE in *. zlia.
  - intros va' ?. assert (0 <= va' < MAXVA) by (unfold PGSIZE in *; zlia).
    rewrite (as_pte _ _ _ _ _ Ha) by done. rewrite Hpg by (done || lia). by rewrite HN.
  - intros r c' s' (-> & l' & T' & k & Hv & Hg & Hr & Hp). split; [done|]. exists l', T'.
    split; [done|]. destruct Hr as [[-> ->]|(-> & Hk & ->)]; [right|left]; split; try done.
    + split; [done|..].
      * intros va' Hva'. rewrite Hp by done. rewrite (as_pte _ _ _ _ _ Ha) by done.
        rewrite lookup_insert. destruct (PGROUNDDOWN_page va' Hva') as (? & _ & ?).
        case_decide as E; case_decide as E'; try done.
        -- rewrite <- E'. simpl. f_equal. lia.
        -- exfalso. apply E'. symmetry. apply Hpg; lia.
        -- exfalso. apply E. lia.
      * intros va' x [[<- _]|[_ Hx]]%lookup_insert_Some; [done|by eapply Ha].
      * intros va' pa p [[<- [= <- <-]]|[_ Hx]]%lookup_insert_Some.
        -- split_and!; try done; [lia..|]. rewrite (grown_pool _ _ _ _ _ _ Hg).
           intros ?. apply Hno. by left.
        -- apply (as_leaf _ _ _ _ _ Ha) in Hx as (? & ? & ? & ?). split_and!; try done; [lia..|].
           by rewrite (grown_pool _ _ _ _ _ _ Hg).
      * intros v1 v2 pa p1 p2 [[<- [= <- <-]]|[_ H1]]%lookup_insert_Some
          [[<- E]|[_ H2]]%lookup_insert_Some; try done.
        -- exfalso. apply Hno. right. by eexists _, _.
        -- injection E as <- <-. exfalso. apply Hno. right. by eexists _, _.
        -- by eapply Ha.
    + split; [done|]. eapply aspace_grow; [done..|]. intros va' Hva'. rewrite Hp by done.
      rewrite decide_False; [done|]. destruct k; [lia|lia].
Qed.

(** ** Unmapping *)

Lemma entry_inv s l pt T M va pa perm :
  aspace s l pt T M -> M !! va = Some (pa, perm) ->
  pte_of (mmem s) pt va = mkpte pa perm /\ PTE2PA (mkpte pa perm) = pa /\
  PTE_FLAGS (mkpte pa perm) = Z.lor perm PTE_V.
Proof.
  intros Ha Hva. destruct (as_dom _ _ _ _ _ Ha _ _ Hva) as [Hr Hal].
  destruct (as_leaf _ _ _ _ _ Ha _ _ _ Hva) as (? & ? & ? & _).
  rewrite (as_pte _ _ _ _ _ Ha), PGROUNDDOWN_id, Hva by done. simpl.
  rewrite PTE2PA_mkpte, PTE_FLAGS_mkpte by (done || lia). done.
Qed.

(** What [walk] without allocation finds, read through the abstraction. *)
Lemma walk_space s l pt T M va c :
  aspace s l pt T M -> 0 <= va < MAXVA -> va mod PGSIZE = 0 ->
  (walk pt va false c s = Ok 0 c s /\ M !! va = None) \/
  exists a0, walk pt va false c s = Ok (a0 + 8 * PX 0 va) c s /\ a0 + 8 * PX 0 va <> 0 /\
    T !! vidx 2 va = Some a0 /\ load64 (mmem s) (a0 + 8 * PX 0 va) = entry (M !! va).
Proof.
  intros Ha Hva Hal. destruct (as_vm _ _ _ _ _ Ha) as [_ Hr _].
  rewrite (walk_find pt T va c s Hr Hva).
  pose proof (as_pte _ _ _ _ _ Ha va Hva) as He. rewrite PGROUNDDOWN_id in He by done.
  rewrite (pte_of_rep _ _ _ va Hr) in He. destruct (T !! vidx 2 va) as [a0|] eqn:E.
  - right. exists a0. split_and!; try done. pose proof (PX_range 0 va).
    pose proof (page_ok_bounds a0 (rep_page _ _ _ Hr _ _ E)). lia.
  - left. split; [done|]. destruct (M !! va) as [[pa perm]|] eqn:EM; [|done].
    pose proof (has_V_mkpte pa perm) as Hh. simpl in He. by rewrite <- He in Hh.
Qed.

Lemma has_V_entry o : has (entry o) PTE_V = bool_decide (is_Some o).
Proof. destruct o as [[pa perm]|]; [apply has_V_mkpte|done]. Qed.

Definition freed M (va : Z) : list Z := match M !! va with Some (pa, _) => [pa] | None => [] end.

Lemma aspace_clear s l pt T M s1 l1 va a0 :
  aspace s l pt T M -> 0 <= va < MAXVA -> va mod PGSIZE = 0 -> T !! vidx 2 va = Some a0 ->
  vm_inv s1 l1 pt T -> (forall v, pte_of (mmem s1) pt v = pte_of (mmem s) pt v) ->
  (forall x, x ∈ l1 -> x ∈ l \/ x ∈ freed M va) ->
  aspace (set_mem (store64 (mmem s1) (a0 + 8 * PX 0 va) 0) s1) l1 pt T (delete va M).
Proof.
  intros Ha Hva Hal Ha0 Hv1 Hs Hl.
  destruct (set_leaf s1 l1 pt T va a0 0 Hv1 Hva Ha0) as (Hv2 & _ & Hp); [lia|].
  split; [done|..].
  - intros v Hvr. rewrite Hp, Hs, (as_pte _ _ _ _ _ Ha) by done. rewrite lookup_delete.
    destruct (PGROUNDDOWN_page v Hvr) as (E & _). unfold PGSIZE in *.
    repeat case_decide; try done; exfalso; zlia.
  - intros v x [_ Hx]%lookup_delete_Some. by eapply Ha.
  - intros v pa perm [Hne Hx]%lookup_delete_Some.
    pose proof (as_leaf _ _ _ _ _ Ha _ _ _ Hx) as (? & ? & ? & Hnp).
    split_and!; try done; [lia..|]. intros [?|[Hin|Hin]%Hl]; [apply Hnp; by left| |].
    + apply Hnp. by right.
    + unfold freed in Hin. destruct (M !! va) as [[pa' perm']|] eqn:E; [|by inv Hin].
      apply list_elem_of_singleton in Hin as ->. apply Hne. by eapply (as_inj _ _ _ _ _ Ha).
  - intros v v' pa p p' [_ H1]%lookup_delete_Some [_ H2]%lookup_delete_Some. by eapply Ha.
Qed.

(** Giving a page that no table uses back to the allocator. *)
Lemma kfree_vm s l pt T pa c :
  vm_inv s l pt T -> page_ok pa -> ~ pool T l pa -> kmem_lock ∉ held c ->
  wp (kfree pa) (fun _ c' s' => c' = c /\ vm_inv s' (pa :: l) pt T /\
    same_outside pa PGSIZE (mmem s) (mmem s') /\
    forall v, pte_of (mmem s') pt v = pte_of (mmem s) pt v) c s.
Proof.
  intros [Hk Hr Hd] Hpa Hn Hlk. eapply wp_mono; [apply kfree_spec; [exact Hk|done| |done]|].
  { intros ?. apply Hn. by right. }
  intros [] c' s' (-> & Hk' & Hs). split; [done|].
  assert (same_except (eq pa) (mmem s) (mmem s')) as Hse by (by eapply same_except_page).
  assert (forall x, pa = x -> x mod PGSIZE = 0) as Hal by (intros x <-; apply Hpa).
  assert (forall x, tab_in T x -> pa <> x) as Hne by (intros x Hx ->; apply Hn; by left).
  split_and!; [split; [done|by eapply pt_rep_frame|]|done|].
  - intros x Hx [->|?]%elem_of_cons; [by eapply Hne|]. by eapply Hd.
  - intros v. by eapply pte_of_frame.
Qed.

(** One round of the loop in [uvmunmap]. *)
Definition unmap_page (pt va : Z) (do_free : bool) : K mstate unit :=
  pte <- walk pt va false ;;
  if pte =? 0 then ret tt
  else e <- ld64 pte ;;
       if negb (has e PTE_V) then ret tt
       else when do_free (kfree (PTE2PA e)) ;; st64 pte 0.

Lemma unmap_page_next {R} pt va do_free (v : R) c s :
  (pte <- walk pt va false ;;
   if pte =? 0 then ret v
   else e <- ld64 pte ;;
        if negb (has e PTE_V) then ret v
        else when do_free (kfree (PTE2PA e)) ;; st64 pte 0 ;; ret v) c s =
  (unmap_page pt va do_free ;; ret v) c s.
Proof.
  unfold unmap_page, bind. destruct (walk pt va false c s) as [pte c1 s1|?|???|]; [|done..].
  destruct (pte =? 0); [done|]. destruct (ld64 pte c1 s1) as [e c2 s2|?|???|]; [|done..].
  destruct (negb (has e PTE_V)); [done|]. by destruct (when do_free _ c2 s2).
Qed.

Lemma unmap_page_spec s l pt T M va (do_free : bool) c :
  aspace s l pt T M -> 0 <= va < MAXVA -> va mod PGSIZE = 0 ->
  (do_free = true -> forall x, x ∈ freed M va -> page_ok x) -> kmem_lock ∉ held c ->
  wp (unmap_page pt va do_free)
    (fun _ c' s' => c' = c /\
       aspace s' (if do_free then freed M va ++ l else l) pt T (delete va M) /\
       same_except (fun x => tab_in T x \/ x ∈ freed M va) (mmem s) (mmem s')) c s.
Proof.
  intros Ha Hva Hal Hok Hlk. unfold unmap_page. kstep.
  destruct (walk_space s l pt T M va c Ha Hva Hal) as [[Hw HN]|(a0 & Hw & Hnz & Ha0 & He)];
    (eapply wp_ok; [exact Hw|]).
  - simpl. kstep. unfold freed. rewrite HN, delete_id by done. by destruct do_free.
  - rewrite (proj2 (Z.eqb_neq _ 0)) by done. unfold ld64. ksteps. rewrite He, has_V_entry.
    pose proof (aspace_clear s l pt T M) as Hclr. unfold freed in *.
    destruct (M !! va) as [[pa perm]|] eqn:EM; simpl.
    2: { kstep. rewrite delete_id by done. by destruct do_free. }
    destruct (entry_inv _ _ _ _ _ _ _ _ Ha EM) as (_ & -> & _).
    destruct (as_leaf _ _ _ _ _ Ha _ _ _ EM) as (Hpal & Hpr & _ & Hnp).
    assert (page_ok a0) as Hok0 by (eapply (inv_rep _ _ _ _ (as_vm _ _ _ _ _ Ha)); done).
    unfold st64. destruct do_free; simpl.
    + kstep. eapply wp_mono; [apply (kfree_vm s l pt T pa c); [apply Ha|apply Hok; set_solver|done..]|].
      intros [] c' s1 (-> & Hv1 & Hs1 & Hp1). kstep. split; [done|]. split.
      * eapply Hclr; [done..|]. rewrite EM. set_solver.
      * etrans; [eapply (same_except_page _ pa); [right; set_solver|exact Hs1]|].
        eapply (same_except_page _ a0); [left; by eexists|]. apply slot_store_outside, PX_range.
    + ksteps. split; [done|]. split.
      * eapply Hclr; [done..|apply Ha|done|by left].
      * eapply (same_except_page _ a0); [left; by eexists|]. apply slot_store_outside, PX_range.
Qed.

Definition unmap M (lo hi : Z) : gmap Z (Z * Z) := filter (fun kv => ~ lo <= kv.1 < hi) M.
Definition unmapped M (lo hi x : Z) : Prop := exists va perm, lo <= va < hi /\ M !! va = Some (x, perm).

Lemma unmap_lookup M lo hi va x :
  unmap M lo hi !! va = Some x <-> M !! va = Some x /\ ~ lo <= va < hi.
Proof. unfold unmap. by rewrite map_lookup_filter_Some. Qed.

Lemma unmap_empty M lo hi : hi <= lo -> unmap M lo hi = M.
Proof. intros ?. unfold unmap. apply map_filter_id. simpl. lia. Qed.

Lemma unmap_step s l pt T M lo a :
  aspace s l pt T M -> lo <= a -> a mod PGSIZE = 0 -> lo mod PGSIZE = 0 ->
  unmap M lo (a + PGSIZE) = delete a (unmap M lo a).
Proof.
  intros Ha Hle Hal Hlo. apply map_eq. intros va. apply option_eq. intros x.
  rewrite lookup_delete_Some, !unmap_lookup. split.
  - intros [Hx Hn]. unfold PGSIZE in *. split_and!; [lia|done|lia].
  - intros (Hne & Hx & Hn). split; [done|].
    destruct (as_dom _ _ _ _ _ Ha _ _ Hx) as [_ Hd]. unfold PGSIZE in *. zlia.
Qed.

Lemma freed_unmap s l pt T M lo a x :
  aspace s l pt T M -> lo <= a -> lo mod PGSIZE = 0 -> a mod PGSIZE = 0 ->
  unmapped M lo (a + PGSIZE) x <-> unmapped M lo a x \/ x ∈ freed (unmap M lo a) a.
Proof.
  intros Ha Hle Hlo Hal. unfold freed, unmapped. split.
  - intros (va & perm & Hr & Hx). destruct (as_dom _ _ _ _ _ Ha _ _ Hx) as [_ Hd].
    destruct (decide (va = a)) as [->|Hne].
    + right. rewrite (proj2 (unmap_lookup M lo a a (x, perm))) by (split; [done|lia]). set_solver.
    + left. exists va, perm. split; [|done]. unfold PGSIZE in *. zlia.
  - intros [(va & perm & Hr & Hx)|Hx]; [exists va, perm; split; [unfold PGSIZE; lia|done]|].
    destruct (unmap M lo a !! a) as [[pa perm]|] eqn:E; [|by inv Hx].
    apply list_elem_of_singleton in Hx as ->. apply unmap_lookup in E as [E _].
    exists a, perm. split; [unfold PGSIZE; lia|done].
Qed.

Lemma uvmunmap_spec s l pt T M va (n : nat) (do_free : bool) c :
  aspace s l pt T M -> 0 <= va -> va mod PGSIZE = 0 -> va + Z.of_nat n * PGSIZE <= MAXVA ->
  (do_free = true -> forall x, unmapped M va (va + Z.of_nat n * PGSIZE) x -> page_ok x) ->
  kmem_lock ∉ held c ->
  wp (uvmunmap pt va (Z.of_nat n) do_free) (fun _ c' s' => c' = c /\ exists l',
    let hi := va + Z.of_nat n * PGSIZE in
    aspace s' l' pt T (unmap M va hi) /\
    (forall x, x ∈ l' <-> x ∈ l \/ do_free = true /\ unmapped M va hi x) /\
    same_except (fun x => tab_in T x \/ unmapped M va hi x) (mmem s) (mmem s')) c s.
Proof.
  intros Ha Hva Hal Hmax Hok Hlk. unfold uvmunmap. rewrite Hal. simpl negb. cbn iota.
  pose proof MAXVA_eq as HM. assert (PGSIZE = 4096) as HP by done.
  rewrite Nat2Z.id, u64_id by lia.
  set (hi := va + Z.of_nat n * PGSIZE) in *.
  apply wp_loop with (I := fun k a c' s' => c' = c /\ exists (i : nat) l',
    (k = n - i + 1)%nat /\ (i <= n)%nat /\ a = va + Z.of_nat i * PGSIZE /\
    aspace s' l' pt T (unmap M va a) /\
    (forall x, x ∈ l' <-> x ∈ l \/ do_free = true /\ unmapped M va a x) /\
    same_except (fun x => tab_in T x \/ unmapped M va a x) (mmem s) (mmem s')).
  2: { split; [done|]. exists O, l. split_and!; [lia..| | |done].
       - by rewrite unmap_empty by lia.
       - intros x. unfold unmapped. split; [by left|]. intros [?|(_ & v & p & ? & _)]; [done|lia]. }
  intros k a c' s1 (-> & i & l1 & -> & Hi & -> & Ha1 & Hl1 & Hs1).
  exists (n - i)%nat. split; [lia|]. set (a := va + Z.of_nat i * PGSIZE) in *.
  destruct (Z.ltb_spec a hi) as [Hlt|Hge].
  2: { kstep. split; [done|]. exists l1. replace hi with a by lia. done. }
  assert (a mod PGSIZE = 0) as Haa by (subst a; rewrite HP in *; zlia).
  assert (0 <= a < MAXVA) as Har by lia.
  pose proof (fun x => freed_unmap s l pt T M va a x Ha ltac:(lia) Hal Haa) as Hfr.
  assert (forall x, unmapped M va (a + PGSIZE) x -> unmapped M va hi x) as Hsub.
  { intros x (v & p & ? & ?). exists v, p. split; [lia|done]. }
  apply (wp_ext _ (unmap_page pt a do_free ;; ret (inl (u64 (a + PGSIZE)))) _ _ _
    (unmap_page_next pt a do_free _ c s1)).
  kstep. eapply wp_mono; [apply (unmap_page_spec s1 l1 pt T (unmap M va a)); try done|].
  { intros Hf x Hx. apply Hok; [done|]. apply Hsub, Hfr. by right. }
  intros [] c' s2 (-> & Ha2 & Hs2). kstep. split; [done|].
  rewrite <- (unmap_step s l pt T M va a Ha ltac:(lia) Haa Hal) in Ha2.
  eexists (S i), _. rewrite u64_id by lia.
  replace (va + Z.of_nat (S i) * PGSIZE) with (a + PGSIZE) by lia.
  split_and!; [lia|lia|done|exact Ha2| |].
  - intros x. rewrite (Hfr x). destruct do_free; rewrite ?elem_of_app, Hl1; naive_solver.
  - etrans; (eapply same_except_mono; [|eassumption]); intros x; rewrite (Hfr x); tauto.
Qed.

Lemma uvmdealloc_spec s l pt T M oldsz newsz c :
  aspace s l pt T M -> 0 <= newsz -> newsz < oldsz -> PGROUNDUP oldsz <= MAXVA -> oldsz <= MAXVA ->
  (forall x, unmapped M (PGROUNDUP newsz) (PGROUNDUP oldsz) x -> page_ok x) -> kmem_lock ∉ held c ->
  wp (uvmdealloc pt oldsz newsz) (fun r c' s' => c' = c /\ r = newsz /\ exists l',
    let lo := PGROUNDUP newsz in let hi := PGROUNDUP oldsz in
    aspace s' l' pt T (unmap M lo hi) /\
    (forall x, x ∈ l' <-> x ∈ l \/ unmapped M lo hi x) /\
    same_except (fun x => tab_in T x \/ unmapped M lo hi x) (mmem s) (mmem s')) c s.
Proof.
  intros Ha H0 Hlt Hmax Hold Hok Hlk. pose proof MAXVA_eq as HM. unfold uvmdealloc.
  rewrite (proj2 (Z.leb_gt _ _)) by done.
  pose proof (PGROUNDUP_spec newsz ltac:(lia)) as E1. pose proof (PGROUNDUP_spec oldsz ltac:(lia)) as E2.
  set (lo := PGROUNDUP newsz) in *. set (hi := PGROUNDUP oldsz) in *.
  destruct (Z.ltb_spec lo hi) as [Hlh|Hge]; simpl.
  - set (n := Z.to_nat ((hi - lo) / 4096)).
    assert ((hi - lo) / PGSIZE = Z.of_nat n) as -> by (unfold PGSIZE; subst n; zlia).
    assert (hi = lo + Z.of_nat n * PGSIZE) as Eh by (unfold PGSIZE; subst n; zlia).
    assert (0 <= lo) by zlia. unfold PGSIZE in Eh. rewrite i32_id, u64_id by lia.
    kstep. eapply wp_mono; [apply (uvmunmap_spec s l pt T M lo n true c); try done|].
    + unfold PGSIZE. zlia.
    + unfold PGSIZE. lia.
    + intros _. unfold PGSIZE. by rewrite <- Eh.
    + intros [] c' s' (-> & l' & Ha' & Hl' & Hs'). kstep. split_and!; [done..|].
      unfold PGSIZE in *. rewrite <- Eh in *. exists l'. split_and!; [done| |done].
      intros x. rewrite Hl'. naive_solver.
  - ksteps. split_and!; [done..|]. exists l. rewrite unmap_empty by done.
    split_and!; [done| |done]. intros x. split; [by left|].
    intros [?|(v & p & ? & _)]; [done|lia].
Qed.

(** ** Allocating and freeing data pages *)

Lemma aspace_write s l pt T M b m :
  aspace s l pt T M -> b mod PGSIZE = 0 -> ~ pool T l b -> same_outside b PGSIZE (mmem s) m ->
  aspace (set_mem m s) l pt T M.
Proof.
  intros [[Hk Hr Hd] Hp ???] Hb Hn Hs.
  assert (same_except (eq b) (mmem s) m) as Hse by (by eapply same_except_page).
  assert (forall x, b = x -> x mod PGSIZE = 0) as Hal by (by intros x <-).
  assert (forall x, tab_in T x -> b <> x) as Hne by (intros x Hx ->; apply Hn; by left).
  split; [split; [|by eapply pt_rep_frame|done]| |done..].
  - eapply kmem_wf_frame; [done..| |done]. intros ?. apply Hn. by right.
  - intros va Hva. rewrite <- Hp by done. by eapply pte_of_frame.
Qed.

Lemma kalloc_space s l pt T M c :
  aspace s l pt T M -> kmem_lock ∉ held c ->
  wp kalloc (fun r c' s' => c' = c /\
    match l with
    | [] => r = 0 /\ s' = s
    | b :: l' => r = b /\ page_ok b /\ ~ own T l' M b /\ aspace s' l' pt T M /\
        same_outside b PGSIZE (mmem s) (mmem s')
    end) c s.
Proof.
  intros Ha Hlk. destruct (as_vm _ _ _ _ _ Ha) as [Hk Hr Hd].
  eapply wp_mono; [by apply kalloc_spec|]. intros r c' s' [-> Hpost]. split; [done|].
  destruct l as [|b l]; [done|]. destruct Hpost as (-> & Hk' & Hs & _).
  assert (page_ok b) as Hb by (eapply Forall_inv, Hk).
  pose proof (wf_nodup _ _ Hk) as [Hbl _]%NoDup_cons.
  assert (~ own T l M b) as Hno.
  { intros [[Hin|?]|(va & p & Hin)]; [apply (Hd _ Hin); by left|done|].
    apply (as_leaf _ _ _ _ _ Ha) in Hin as (_ & _ & _ & Hnp). apply Hnp. right. by left. }
  assert (same_except (eq b) (mmem s) (mmem s')) as Hse by (by eapply same_except_page).
  assert (forall x, b = x -> x mod PGSIZE = 0) as Hal by (intros x <-; apply Hb).
  assert (forall x, tab_in T x -> b <> x) as Hne by (intros x Hx ->; apply Hno; by left; left).
  split_and!; try done. split; [split; [done|by eapply pt_rep_frame|]| |apply Ha| |apply Ha].
  - intros x Hx ?. apply (Hd x Hx). by right.
  - intros va Hva. rewrite <- (as_pte _ _ _ _ _ Ha) by done. by eapply pte_of_frame.
  - intros va pa perm Hva. apply (as_leaf _ _ _ _ _ Ha) in Hva as (? & ? & ? & Hnp).
    split_and!; try done; [lia..|]. intros [?|?]; apply Hnp; [by left|by right; right].
Qed.

Lemma kfree_space s l pt T M b c :
  aspace s l pt T M -> page_ok b -> ~ own T l M b -> kmem_lock ∉ held c ->
  wp (kfree b) (fun _ c' s' => c' = c /\ aspace s' (b :: l) pt T M /\
    same_outside b PGSIZE (mmem s) (mmem s')) c s.
Proof.
  intros Ha Hb Hno Hlk. eapply wp_mono; [apply kfree_vm; [apply Ha|done| |done]|].
  { intros ?. apply Hno. by left. }
  intros [] c' s' (-> & Hv & Hs & Hp). split_and!; try done. split; [done| |apply Ha| |apply Ha].
  - intros va Hva. rewrite Hp. by apply Ha.
  - intros va pa perm Hva. pose proof (as_leaf _ _ _ _ _ Ha _ _ _ Hva) as (? & ? & ? & Hnp).
    split_and!; try done; [lia..|]. intros [?|[->|?]%elem_of_cons]; [apply Hnp; by left| |].
    + apply Hno. right. by eexists _, _.
    + apply Hnp. by right.
Qed.
End space.

(** ** An example: an empty address space and four free pages *)

#[program] Definition room_layout : Layout := {|
  etext := 0x80007000; trampoline := 0x80006000; kend := 0x87ff8000 |}.
Solve All Obligations with (vm_compute; intuition congruence).

Definition ex_pt : Z := 0x87ff8000.
Definition ex_free : list Z := [0x87ff9000; 0x87ffa000; 0x87ffb000; 0x87ffc000].
Definition ex_mem : memory :=
  store64 (store64 (store64 ∅ 0x87ff9000 0x87ffa000) 0x87ffa000 0x87ffb000) 0x87ffb000 0x87ffc000.
Definition ex_state : mstate := Mst ex_mem 0x87ff9000.
Definition ex_tab : gmap (list Z) Z := {[ [] := ex_pt ]}.

Lemma ex_tab_inv p a : ex_tab !! p = Some a -> p = [] /\ a = ex_pt.
Proof. unfold ex_tab. intros [<- <-]%lookup_singleton_Some. done. Qed.

Lemma ex_tab_ne p : p <> [] -> ex_tab !! p = None.
Proof. intros Hp. unfold ex_tab. by apply lookup_singleton_ne. Qed.

Lemma ex_aspace : @aspace room_layout ex_state ex_free ex_pt ex_tab ∅.
Proof.
  assert (@pt_rep room_layout (mmem ex_state) ex_pt ex_tab) as Hr.
  { split.
    - by apply lookup_singleton_Some.
    - intros p a [_ ->]%ex_tab_inv. split; vm_compute; intuition congruence.
    - intros p q a [-> _]%ex_tab_inv [-> _]%ex_tab_inv. done.
    - intros p i b [E _]%ex_tab_inv. by destruct p.
    - intros p i b [E _]%ex_tab_inv. by destruct p.
    - intros p a i [-> ->]%ex_tab_inv _ Hi. rewrite ex_tab_ne by done. unfold ex_pt.
      simpl. unfold ex_mem. rewrite !load64_store64_ne by lia. apply load_zero. done. }
  split; [split; [split| |]| | | |]; try done.
  - by apply (bool_decide_unpack (NoDup ex_free)).
  - unfold ex_free. repeat constructor; vm_compute; intuition congruence.
  - intros x [p [_ ->]%ex_tab_inv]. unfold ex_free, ex_pt. set_unfold. lia.
  - intros va Hva. rewrite lookup_empty, (pte_of_rep _ _ _ va Hr), ex_tab_ne; done.
Qed.
