(* ===== verification/VmAlloc.v ===== *)
(** * Growing and shrinking a user address space

    [uvmalloc], [uvmdealloc] and [uvmfree] (kernel/vm.c) as operations on
    the abstract address space of [VmSpace]. *)
From S2P Require Import Prelude Kmonad Riscv Mem KString Kalloc Vm VmWalk VmMap VmSpace.

Section alloc.
Context {L : Layout}.
Implicit Types (m : memory) (T : gmap (list Z) Z) (l : list Z) (M : gmap Z (Z * Z)).

Definition zero_page m (x : Z) : Prop := forall b, x <= b < x + PGSIZE -> rd8 m b = 0.

(** Allocates a zeroed page and maps it; the common part of [uvmalloc] and
    [vmfault]. *)
Definition alloc_map (pt a perm : Z) : K mstate Z :=
  mem <- kalloc ;;
  if mem =? 0 then ret 0
  else
    kmemset mem 0 PGSIZE ;;
    r <- mappages pt a PGSIZE mem perm ;;
    if negb (r =? 0) then kfree mem ;; ret 0 else ret mem.

Lemma alloc_map_spec s l pt T M a perm c :
  aspace s l pt T M -> 0 <= a < MAXVA -> a mod PGSIZE = 0 -> M !! a = None -> 0 <= perm < 1024 ->
  kmem_lock ∉ held c ->
  wp (alloc_map pt a perm) (fun r c' s' => c' = c /\ exists l' T',
    T ⊆ T' /\ same_except (pool T l) (mmem s) (mmem s') /\
    (r = 0 /\ aspace s' l' pt T' M /\ (forall x, pool T' l' x <-> pool T l x) \/
     page_ok r /\ aspace s' l' pt T' (<[a := (r, perm)]> M) /\ zero_page (mmem s') r /\
       (forall x, pool T' l' x \/ x = r <-> pool T l x))) c s.
Proof.
  intros Ha Har Hal HN Hperm Hlk. unfold alloc_map. kstep.
  eapply wp_mono; [by apply (kalloc_space s l pt T M c Ha Hlk)|].
  intros r c' s1 [-> Hp]. destruct l as [|b l].
  { destruct Hp as [-> ->]. simpl. kstep. split; [done|]. exists [], T.
    split_and!; [done..|]. left. by split_and!. }
  destruct Hp as (-> & Hb & Hno & Ha1 & Hs1). pose proof (page_ok_bounds b Hb).
  rewrite (proj2 (Z.eqb_neq b 0)) by lia. unfold kmemset. kstep. kstep.
  set (s2 := set_mem (memset (mmem s1) b 0 PGSIZE) s1).
  assert (same_outside b PGSIZE (mmem s1) (mmem s2)) as Hs2 by (by apply memset_outside).
  assert (aspace s2 l pt T M) as Ha2.
  { eapply aspace_write; [done|apply Hb| |done]. intros ?. apply Hno. by left. }
  assert (forall x, pool T l x \/ x = b <-> pool T (b :: l) x) as Hpool.
  { intros x. unfold pool. rewrite elem_of_cons. tauto. }
  assert (same_except (pool T (b :: l)) (mmem s) (mmem s2)) as Hse.
  { etrans; (eapply (same_except_page _ b); [apply Hpool; by right|done]). }
  kstep. eapply wp_mono; [apply (map_page_spec s2 l pt T M a b perm c); try done; [apply Hb|lia]|].
  intros r c' s3 (-> & l' & T' & Hg & Hr).
  pose proof (grown_pool _ _ _ _ _ _ Hg) as Hgp.
  assert (same_except (pool T (b :: l)) (mmem s) (mmem s3)) as Hse3.
  { etrans; [exact Hse|]. eapply same_except_mono; [|apply Hg]. intros x ?. apply Hpool. by left. }
  destruct Hr as [(-> & -> & Ha3)|(-> & Ha3)]; simpl.
  - kstep. eapply wp_mono; [apply (kfree_space s3 [] pt T' M b c Ha3 Hb); [|done]|].
    { intros [?%Hgp|?]; apply Hno; [by left|by right]. }
    intros [] c' s4 (-> & Ha4 & Hs4). kstep. split; [done|]. exists [b], T'.
    split_and!; [apply Hg| |].
    + etrans; [exact Hse3|]. eapply (same_except_page _ b); [apply Hpool; by right|done].
    + left. split_and!; [done..|]. intros x. rewrite <- Hpool, <- Hgp. unfold pool. set_solver.
  - kstep. split; [done|]. exists l', T'. split_and!; [apply Hg|done|].
    right. split_and!; [done..| |].
    + intros x Hx. transitivity (rd8 (mmem s2) x).
      * eapply (same_except_same_page (pool T l)); [apply Hg| |apply Hb| |exact Hx].
        -- intros y Hy. eapply (pool_aligned _ _ _ _ _ (as_vm _ _ _ _ _ Ha2) Hy).
        -- intros ?. apply Hno. by left.
      * simpl. by rewrite memset_spec, decide_True by done.
    + intros x. by rewrite <- Hpool, Hgp.
Qed.

(** The address space [M] extended with zeroed pages of permission [perm] at
    every page of [lo, hi), taken from the pages of [P]. *)
Record extended (P : Z -> Prop) m M M' (lo hi perm : Z) : Prop := {
  ext_sub : M ⊆ M';
  ext_all : forall va, lo <= va < hi -> va mod PGSIZE = 0 -> is_Some (M' !! va);
  ext_new : forall va pa p, M' !! va = Some (pa, p) -> M !! va = None ->
    lo <= va < hi /\ p = perm /\ page_ok pa /\ P pa /\ zero_page m pa;
}.

Lemma extended_step P m m' M M' lo a perm b :
  extended P m M M' lo a perm -> M' !! a = None -> lo <= a -> a mod PGSIZE = 0 ->
  page_ok b -> P b -> zero_page m' b ->
  (forall va pa p, M' !! va = Some (pa, p) -> same_page pa m m') ->
  extended P m' M (<[a := (b, perm)]> M') lo (a + PGSIZE) perm.
Proof.
  intros [H1 H2 H3] HN Hlo Hal Hb HP Hz Hsame.
  assert (forall va, a <= va < a + PGSIZE -> va mod PGSIZE = 0 -> va = a) as Hone.
  { unfold PGSIZE in *. intros. zlia. }
  split.
  - etrans; [done|by apply insert_subseteq].
  - intros va Hva Hm. rewrite lookup_insert_is_Some'. destruct (decide (a <= va)) as [|]; [left|right].
    + symmetry. apply Hone; [lia|done].
    + apply H2; [lia|done].
  - intros va pa p [[<- [= <- <-]]|[Hne Hx]]%lookup_insert_Some Hn.
    + split_and!; (done || unfold PGSIZE; lia).
    + destruct (H3 _ _ _ Hx Hn) as (? & -> & ? & ? & Hz'). split_and!; try done; [unfold PGSIZE; lia..|].
      intros x Hx'. rewrite (Hsame _ _ _ Hx x Hx'). by apply Hz'.
Qed.

Lemma alloc_map_next {R} pt a perm (fail : K mstate R) (v : R) c s :
  (mem <- kalloc ;;
   if mem =? 0 then fail
   else
     kmemset mem 0 PGSIZE ;;
     r <- mappages pt a PGSIZE mem perm ;;
     if negb (r =? 0) then kfree mem ;; fail else ret v) c s =
  (x <- alloc_map pt a perm ;; if x =? 0 then fail else ret v) c s.
Proof.
  unfold alloc_map, bind. destruct (kalloc c s) as [mem c1 s1|?|???|]; [|done..].
  destruct (mem =? 0) eqn:E; [done|]. destruct (kmemset mem 0 PGSIZE c1 s1) as [? c2 s2|?|???|]; [|done..].
  destruct (mappages pt a PGSIZE mem perm c2 s2) as [r c3 s3|?|???|]; [|done..].
  destruct (negb (r =? 0)); [by destruct (kfree mem c3 s3)|]. unfold ret. by rewrite E.
Qed.

(** The state of the loop of [uvmalloc] when pages up to [a] are in place. *)
Record alloc_loop s l pt T M (start a perm : Z) (s' : mstate) l' T' M' : Prop := {
  al_space : aspace s' l' pt T' M';
  al_tab : T ⊆ T';
  al_mem : same_except (pool T l) (mmem s) (mmem s');
  al_ext : extended (pool T l) (mmem s') M M' start a perm;
  al_own : forall x, own T' l' M' x <-> own T l M x;
}.

Lemma mapped_insert M a b perm x :
  M !! a = None -> mapped (<[a := (b, perm)]> M) x <-> mapped M x \/ x = b.
Proof.
  intros HN. unfold mapped. split.
  - intros (va & p & Hx). apply lookup_insert_Some in Hx as [[<- [= <- <-]]|[_ ?]];
      [by right|left; by eexists _, _].
  - intros [(va & p & ?)| ->].
    + exists va, p. by rewrite lookup_insert_ne by congruence.
    + exists a, perm. by rewrite lookup_insert_eq.
Qed.

Lemma al_pool s l pt T M start a perm s' l' T' M' x :
  alloc_loop s l pt T M start a perm s' l' T' M' -> aspace s l pt T M -> pool T' l' x -> pool T l x.
Proof.
  intros [Ha Ht Hm [He _ _] Ho] Ha0 Hx. destruct (proj1 (Ho x) (or_introl Hx)) as [?|(va & p & Hp)]; [done|].
  eapply lookup_weaken in Hp; [|exact He].
  apply (as_leaf _ _ _ _ _ Ha) in Hp as (_ & _ & _ & Hn). done.
Qed.

Lemma alloc_loop_step s l pt T M start a perm s1 l1 T1 M1 s2 l2 T2 b :
  aspace s l pt T M -> alloc_loop s l pt T M start a perm s1 l1 T1 M1 ->
  M1 !! a = None -> start <= a -> a mod PGSIZE = 0 -> page_ok b ->
  T1 ⊆ T2 -> same_except (pool T1 l1) (mmem s1) (mmem s2) ->
  aspace s2 l2 pt T2 (<[a := (b, perm)]> M1) -> zero_page (mmem s2) b ->
  (forall x, pool T2 l2 x \/ x = b <-> pool T1 l1 x) ->
  alloc_loop s l pt T M start (a + PGSIZE) perm s2 l2 T2 (<[a := (b, perm)]> M1).
Proof.
  intros Ha0 Hal HN Hst Haa Hb Ht Hs Ha2 Hz Hp.
  pose proof (fun x => al_pool _ _ _ _ _ _ _ _ _ _ _ _ x Hal Ha0) as Hsub.
  destruct Hal as [Ha1 Ht1 Hm1 He1 Ho1]. split; [done|by etrans| | |].
  - etrans; [done|]. by eapply same_except_mono.
  - eapply extended_step; [done..| |done|].
    + apply Hsub, Hp. by right.
    + intros va pa p Hx. destruct (as_leaf _ _ _ _ _ Ha1 _ _ _ Hx) as (Hpa & _ & _ & Hnp).
      eapply same_except_same_page; [exact Hs| |done|done].
      intros y Hy. eapply (pool_aligned _ _ _ _ _ (as_vm _ _ _ _ _ Ha1) Hy).
  - intros x. rewrite <- Ho1. unfold own. rewrite <- Hp, mapped_insert by done. tauto.
Qed.

Lemma alloc_loop_fail s l pt T M start a perm s1 l1 T1 M1 s2 l2 T2 :
  aspace s l pt T M -> alloc_loop s l pt T M start a perm s1 l1 T1 M1 ->
  T1 ⊆ T2 -> same_except (pool T1 l1) (mmem s1) (mmem s2) -> aspace s2 l2 pt T2 M1 ->
  (forall x, pool T2 l2 x <-> pool T1 l1 x) ->
  alloc_loop s l pt T M start a perm s2 l2 T2 M1.
Proof.
  intros Ha0 Hal Ht Hs Ha2 Hp.
  pose proof (fun x => al_pool _ _ _ _ _ _ _ _ _ _ _ _ x Hal Ha0) as Hsub.
  destruct Hal as [Ha1 Ht1 Hm1 [E1 E2 E3] Ho1]. split; [done|by etrans| | |].
  - etrans; [done|]. by eapply same_except_mono.
  - split; [done..|]. intros va pa p Hx Hn. destruct (E3 _ _ _ Hx Hn) as (? & ? & ? & ? & Hz).
    split_and!; try done; [lia..|].
    destruct (as_leaf _ _ _ _ _ Ha1 _ _ _ Hx) as (Hpa & _ & _ & Hnp).
    intros b Hb. rewrite (same_except_same_page _ _ _ pa Hs); [by apply Hz| |done|done|done].
    intros y Hy. eapply (pool_aligned _ _ _ _ _ (as_vm _ _ _ _ _ Ha1) Hy).
  - intros x. rewrite <- Ho1. unfold own. by rewrite Hp.
Qed.

(** Undoing the pages mapped so far restores the old address space. *)
Lemma unmap_extended P m M M' lo hi hi' perm :
  extended P m M M' lo hi perm -> (forall va, lo <= va < hi' -> M !! va = None) -> hi <= hi' ->
  unmap M' lo hi = M.
Proof.
  intros [H1 H2 H3] HN Hle. apply map_eq. intros va. apply option_eq. intros [pa p].
  rewrite unmap_lookup. split.
  - intros [Hx Hn]. destruct (M !! va) as [y|] eqn:E; [|by destruct (H3 _ _ _ Hx E)].
    eapply lookup_weaken in E; [|done]. congruence.
  - intros Hx. split; [by eapply lookup_weaken|]. intros ?. rewrite HN in Hx by lia. done.
Qed.

Lemma unmap_own M lo hi x : mapped M x -> mapped (unmap M lo hi) x \/ unmapped M lo hi x.
Proof.
  intros (va & p & Hx). destruct (decide (lo <= va < hi)) as [Hr|Hr].
  - right. by exists va, p.
  - left. exists va, p. by apply unmap_lookup.
Qed.

(** The error path of [uvmalloc]: give the pages mapped so far back. *)
Lemma alloc_loop_undo s l pt T M oldsz a perm s1 l1 T1 M1 c :
  let start := PGROUNDUP oldsz in
  aspace s l pt T M -> alloc_loop s l pt T M start a perm s1 l1 T1 M1 ->
  0 <= oldsz -> oldsz <= MAXVA -> start <= a <= MAXVA -> a mod PGSIZE = 0 ->
  (forall va, start <= va < a -> M !! va = None) -> kmem_lock ∉ held c ->
  wp (uvmdealloc pt a start) (fun _ c' s' => c' = c /\ exists l',
    aspace s' l' pt T1 M /\ same_except (pool T l) (mmem s) (mmem s') /\
    forall x, own T1 l' M x <-> own T l M x) c s1.
Proof.
  intros start Ha Hal H0 Hold Hst Haa HN Hlk. pose proof MAXVA_eq as HM.
  pose proof (fun x => al_pool _ _ _ _ _ _ _ _ _ _ _ _ x Hal Ha) as Hsub.
  destruct Hal as [Ha1 Ht1 Hm1 He1 Ho1].
  pose proof (PGROUNDUP_spec oldsz ltac:(lia)) as Es. fold start in Es.
  assert (0 <= start) by zlia. pose proof (unmap_extended _ _ _ _ _ _ a _ He1 HN ltac:(lia)) as Hum.
  assert (PGROUNDUP a = a) as Ea.
  { rewrite PGROUNDUP_spec by lia. unfold PGSIZE in *. zlia. }
  assert (PGROUNDUP start = start) as Est by (rewrite PGROUNDUP_spec by lia; zlia).
  assert (forall x, unmapped M1 start a x -> page_ok x /\ pool T l x) as Hnew.
  { intros x (v & p & Hr & Hx). destruct (ext_new _ _ _ _ _ _ _ He1 _ _ _ Hx (HN _ Hr)) as (_ & _ & ? & ? & _). done. }
  destruct (decide (start < a)) as [Hlt|].
  - eapply wp_mono; [apply (uvmdealloc_spec s1 l1 pt T1 M1 a start c); try done; try lia|].
    { rewrite Ea, Est. intros x Hx. by apply Hnew. }
    cbv zeta. rewrite Ea, Est, Hum.
    intros r c' s' (-> & _ & l' & Ha' & Hl' & Hs'). split; [done|]. exists l'. split_and!; [done| |].
    + etrans; [exact Hm1|]. eapply same_except_mono; [|exact Hs'].
      intros x [Hx|Hx]; [apply Hsub; by left|by apply Hnew].
    + intros x. rewrite <- Ho1. unfold own, pool. rewrite Hl'. split.
      * intros [[?|[?|(v & p & _ & ?)]]|(v & p & Hx)]; [by auto..|right; by exists v, p|].
        right. exists v, p. eapply lookup_weaken; [done|apply He1].
      * intros [?|Hx]; [tauto|]. destruct (unmap_own M1 start a x Hx) as [Hy|]; [|by auto].
        rewrite Hum in Hy. by right.
  - unfold uvmdealloc. rewrite (proj2 (Z.leb_le _ _)) by lia. kstep. split; [done|].
    exists l1. rewrite unmap_empty in Hum by lia. by subst M1.
Qed.

(** C18: [uvmalloc] grows an address space or leaves it as it was.  For a
    process whose pages from [PGROUNDUP(oldsz)] to [newsz] are unmapped it
    either returns [newsz], with every page of that range mapped to its own
    zeroed page with permissions [R|U|xperm], or it returns 0 with the mapping
    unchanged.  Either way the rest of memory keeps its contents, and no page
    is lost: free list, page-table pages and mapped pages together are the
    same set as before. *)
Theorem uvmalloc_correct s l pt T M oldsz newsz xperm c :
  aspace s l pt T M -> 0 <= oldsz <= newsz -> PGROUNDUP newsz <= MAXVA -> newsz <= MAXVA ->
  0 <= xperm < 1024 ->
  (forall va, PGROUNDUP oldsz <= va < PGROUNDUP newsz -> M !! va = None) -> kmem_lock ∉ held c ->
  wp (uvmalloc pt oldsz newsz xperm) (fun r c' s' => c' = c /\ exists l' T' M',
    aspace s' l' pt T' M' /\ same_except (pool T l) (mmem s) (mmem s') /\
    (forall x, own T' l' M' x <-> own T l M x) /\
    (r = newsz /\ extended (pool T l) (mmem s') M M' (PGROUNDUP oldsz) newsz
       (Z.lor (Z.lor PTE_R PTE_U) xperm) \/
     r = 0 /\ M' = M)) c s.
Proof.
  intros Ha Hsz Hmax Hnew Hx HN Hlk. pose proof MAXVA_eq as HM. unfold uvmalloc.
  rewrite (proj2 (Z.ltb_ge _ _)) by lia.
  pose proof (PGROUNDUP_spec oldsz ltac:(lia)) as Eo. pose proof (PGROUNDUP_spec newsz ltac:(lia)) as En.
  set (start := PGROUNDUP oldsz) in *. set (perm := Z.lor _ xperm).
  assert (0 <= perm < 1024) as Hperm by (apply (lor_small _ _ 10); done).
  set (fuel := (_ + 2)%nat). assert (PGSIZE = 4096) as HP by done.
  apply wp_loop with (I := fun k a c' s' => c' = c /\ exists (i : nat) l' T' M',
    k = (fuel - i)%nat /\ (i = O \/ start + (Z.of_nat i - 1) * 4096 < newsz) /\
    a = start + Z.of_nat i * 4096 /\ alloc_loop s l pt T M start a perm s' l' T' M').
  2: { split; [done|]. exists O, l, T, M. split_and!; [lia|by left|lia|]. split; try done.
       split; [done|intros; lia|congruence]. }
  intros k a c' s1 (-> & i & l1 & T1 & M1 & -> & Hi & -> & Hal).
  exists (fuel - S i)%nat. split; [subst fuel; rewrite HP; zlia|].
  set (a := start + Z.of_nat i * 4096) in *.
  assert (a mod PGSIZE = 0) as Haa by (subst a; rewrite HP; zlia).
  destruct (Z.ltb_spec a newsz) as [Hlt|Hge].
  2: { kstep. split; [done|]. exists l1, T1, M1. destruct Hal as [Ha1 _ Hm1 [E1 E2 E3] Ho1].
       split_and!; try done. left. split; [done|]. split; [done|intros; apply E2; [lia|done]|].
       intros va pa p Hv1 Hv2. destruct (E3 _ _ _ Hv1 Hv2) as (? & ? & ? & ? & ?).
       split_and!; try done; [lia|]. destruct (as_dom _ _ _ _ _ Ha1 _ _ Hv1) as [_ Hd].
       destruct Hi as [->|Hi]; [lia|]. rewrite HP in *. subst a. zlia. }
  assert (M1 !! a = None) as HN1.
  { destruct (M1 !! a) as [[pa p]|] eqn:E; [|done].
    destruct (al_ext _ _ _ _ _ _ _ _ _ _ _ _ Hal) as [_ _ E3].
    destruct (E3 _ _ _ E) as [? _]; [apply HN; subst a; zlia|lia]. }
  apply (wp_ext _ _ _ _ _ (alloc_map_next pt a perm _ (inl (u64 (a + PGSIZE))) c s1)).
  kstep. eapply wp_mono; [apply (alloc_map_spec s1 l1 pt T1 M1 a perm c); try done; [apply Hal|subst a; zlia]|].
  intros r c' s2 (-> & l2 & T2 & Ht & Hs & [(-> & Ha2 & Hp2)|(Hr & Ha2 & Hz & Hp2)]).
  - simpl. assert (alloc_loop s l pt T M start a perm s2 l2 T2 M1) as Hal2.
    { by eapply alloc_loop_fail. }
    kstep. eapply wp_mono; [eapply (alloc_loop_undo s l pt T M oldsz a perm s2 l2 T2 M1 c); try done; try lia|].
    + intros va Hva. fold start in Hva. apply HN. subst a. zlia.
    + intros _ c' s3 (-> & l3 & Ha3 & Hs3 & Ho3). kstep. split; [done|]. exists l3, T2, M.
      split_and!; try done. by right.
  - pose proof (page_ok_bounds r Hr). rewrite (proj2 (Z.eqb_neq r 0)) by lia.
    kstep. rewrite u64_id by (rewrite HP; subst a; zlia). split; [done|].
    exists (S i), l2, T2, (<[a := (r, perm)]> M1). split_and!; [done|right; subst a; lia|rewrite HP; subst a; lia|].
    eapply alloc_loop_step; try done. lia.
Qed.
End alloc.

(** ** Witness: the first page of an empty address space *)

Lemma uvmalloc_correct_witness :
  exists s' l' T' M', uvmalloc (L := room_layout) ex_pt 0 4096 PTE_W ctx0 ex_state = Ok 4096 ctx0 s' /\
    @aspace room_layout s' l' ex_pt T' M' /\ is_Some (M' !! 0).
Proof.
  pose proof (uvmalloc_correct (L := room_layout) ex_state ex_free ex_pt ex_tab ∅ 0 4096 PTE_W ctx0
    ex_aspace ltac:(lia) ltac:(by vm_compute) ltac:(by vm_compute) ltac:(by vm_compute)
    ltac:(intros; apply lookup_empty) ltac:(set_solver)) as H.
  apply wp_inv in H as (r & c' & s' & Hk & -> & l' & T' & M' & Ha & _ & _ & Hr).
  assert (r = 4096) as ->.
  { assert (match uvmalloc (L := room_layout) ex_pt 0 4096 PTE_W ctx0 ex_state with
      Ok r _ _ => r | _ => 0 end = 4096) as He by (vm_compute; reflexivity). rewrite Hk in He. exact He. }
  exists s', l', T', M'. split; [exact Hk|]. split; [exact Ha|].
  destruct Hr as [[_ [_ Hall _]]|[? _]]; [|discriminate].
  apply Hall; [vm_compute; intuition congruence|reflexivity].
Defined.
