(* ===== verification/VmFree.v ===== *)
(** * Freeing an address space

    [freewalk] gives every table page of an emptied page table back to the
    allocator, and [uvmfree] every page of an address space. *)
From S2P Require Import Prelude Kmonad Riscv Mem KString Kalloc Vm VmWalk VmMap VmSpace.

Section free.
Context {L : Layout}.
Implicit Types (m : memory) (l : list Z) (p q : list Z).

(** An interior entry is valid and no leaf. *)
Lemma interior_not_leaf pa :
  0 <= pa < 2 ^ 56 -> has (mkpte pa 0) (Z.lor (Z.lor PTE_R PTE_W) PTE_X) = false.
Proof.
  intros Hpa. unfold has. rewrite mkpte_add by lia. apply negb_false_iff, Z.eqb_eq.
  apply Z.bits_inj'. intros n Hn. rewrite Z.bits_0, Z.land_spec.
  change (Z.lor (Z.lor PTE_R PTE_W) PTE_X) with 14. change (Z.lor 0 PTE_V) with 1.
  destruct (decide (n < 4)).
  - assert (n = 0 \/ n = 1 \/ n = 2 \/ n = 3) as Hc by lia. destruct Hc as [->|Hc]; [apply andb_false_r|].
    replace (Z.testbit (pa / 4096 * 1024 + 1) n) with false; [done|].
    symmetry. rewrite Z.testbit_false by lia. destruct Hc as [->|[->| ->]]; zlia.
  - rewrite (testbit_small 14 4 n) by lia. apply andb_false_r.
Qed.

Section tree.
Context (pt : Z) (T : gmap (list Z) Z) (m0 : memory) (Hr : pt_rep m0 pt T).

Definition sub p (x : Z) : Prop := exists q, T !! (p ++ q) = Some x.

(** The entry [i] of the table at path [r], when every leaf is clear. *)
Definition child (r : list Z) (i : Z) : Z :=
  if decide (length r < 2)%nat
  then match T !! (r ++ [i]) with Some b => mkpte b 0 | None => 0 end else 0.

Definition tree_rep m p : Prop := forall q a i,
  T !! (p ++ q) = Some a -> 0 <= i < 512 -> load64 m (a + 8 * i) = child (p ++ q) i.

Lemma sub_here p a : T !! p = Some a -> sub p a.
Proof. exists []. by rewrite app_nil_r. Qed.

Lemma sub_nonempty p i q : is_Some (T !! ((p ++ [i]) ++ q)) -> is_Some (T !! (p ++ [i])).
Proof.
  induction q as [|k q IH] using rev_ind; [by rewrite app_nil_r|].
  rewrite app_assoc. intros [x Hx]. apply IH. by apply (rep_parent _ _ _ Hr) in Hx as [_ ?].
Qed.

Lemma sub_children p a x :
  T !! p = Some a -> sub p x <-> x = a \/ exists j, 0 <= j < 512 /\ sub (p ++ [j]) x.
Proof.
  intros Hp. split.
  - intros [q Hq]. destruct q as [|j q]; [rewrite app_nil_r in Hq; left; congruence|right].
    exists j. rewrite (cons_middle j p q), app_assoc in Hq. split; [|by exists q].
    destruct (sub_nonempty p j q) as [y Hy]; [by rewrite Hq|].
    apply (rep_idx _ _ _ Hr) in Hy. unfold idx_ok in Hy. case_decide; lia.
  - intros [->|(j & _ & q & Hq)]; [by apply sub_here|]. exists (j :: q). by rewrite <- app_assoc in Hq.
Qed.

Lemma sub_aligned p x : sub p x -> x mod PGSIZE = 0.
Proof. intros [q Hq]. by apply (rep_page _ _ _ Hr) in Hq as [? _]. Qed.

Lemma sub_not_root p a i : T !! p = Some a -> ~ sub (p ++ [i]) a.
Proof.
  intros Hp [q Hq]. pose proof (rep_inj _ _ _ Hr _ _ _ Hp Hq) as E.
  apply (f_equal length) in E. rewrite !length_app in E. simpl in E. lia.
Qed.

Lemma sub_disjoint p i j x : sub (p ++ [i]) x -> sub (p ++ [j]) x -> i = j.
Proof.
  intros [q Hq] [q' Hq']. pose proof (rep_inj _ _ _ Hr _ _ _ Hq Hq') as E.
  rewrite <- !app_assoc in E. apply app_inv_head in E. by injection E.
Qed.

Definition done_below p (i x : Z) : Prop := exists j, 0 <= j < i /\ sub (p ++ [j]) x.

Lemma done_below_step p i x : 0 <= i -> done_below p (i + 1) x <-> done_below p i x \/ sub (p ++ [i]) x.
Proof.
  intros Hi. split.
  - intros (j & Hj & Hx). destruct (decide (j = i)) as [->|]; [by right|left].
    exists j. split; [lia|done].
  - intros [(j & Hj & Hx)|Hx]; [exists j|exists i]; (split; [lia|done]).
Qed.

Lemma tree_rep_child p i m m' a (P : Z -> Prop) :
  tree_rep m p -> same_except P m m' -> (forall x, P x -> x = a \/ done_below p i x) ->
  T !! p = Some a -> tree_rep m' (p ++ [i]).
Proof.
  intros Ht Hs HP Hp q b j Hb Hj. rewrite <- app_assoc in Hb |- *. rewrite <- (Ht _ b j Hb Hj).
  assert (sub (p ++ [i]) b) as Hsb by (exists q; by rewrite <- app_assoc).
  apply (slot_except (fun x => x = a \/ done_below p i x)); [by eapply same_except_mono| | | |done].
  - intros x [->|(k & _ & Hx)]; [eapply sub_aligned; by eapply sub_here|by eapply sub_aligned].
  - by eapply sub_aligned.
  - intros [->|(k & Hk & Hx)]; [exact (sub_not_root p _ i Hp Hsb)|]. pose proof (sub_disjoint _ _ _ _ Hsb Hx). lia.
Qed.

(** One round of the loop in [freewalk] at entry [i]. *)
Definition free_inv (s : mstate) l p (a i : Z) (s' : mstate) l' : Prop :=
  kmem_wf s' l' /\ (forall x, x ∈ l' <-> x ∈ l \/ done_below p i x) /\
  same_except (fun x => x = a \/ done_below p i x) (mmem s) (mmem s') /\
  (forall j, i <= j < 512 -> load64 (mmem s') (a + 8 * j) = load64 (mmem s) (a + 8 * j)).

Definition freewalk_ok (n : nat) : Prop := forall p a s l c,
  (length p + n = 2)%nat -> T !! p = Some a -> tree_rep (mmem s) p -> kmem_wf s l ->
  (forall x, sub p x -> x ∉ l) -> kmem_lock ∉ held c ->
  wp (freewalk (S n) a) (fun _ c' s' => c' = c /\ exists l', kmem_wf s' l' /\
    (forall x, x ∈ l' <-> x ∈ l \/ sub p x) /\ same_except (sub p) (mmem s) (mmem s')) c s.

Lemma free_inv_child n p a b s l i s1 l1 c :
  freewalk_ok n -> (length p + S n = 2)%nat -> T !! p = Some a -> T !! (p ++ [i]) = Some b ->
  tree_rep (mmem s) p -> (forall x, sub p x -> x ∉ l) -> 0 <= i < 512 ->
  free_inv s l p a i s1 l1 -> kmem_lock ∉ held c ->
  wp (freewalk (S n) b ;; st64 (a + 8 * i) 0) (fun _ c' s' => c' = c /\ exists l',
    free_inv s l p a (i + 1) s' l') c s1.
Proof.
  intros IH Hlen Hp Hb Ht Hd Hi (Hk & Hl & Hs & Hld) Hlk. kstep.
  assert (a mod PGSIZE = 0) as Haa by (eapply sub_aligned; by eapply sub_here).
  assert (forall x, sub (p ++ [i]) x -> x <> a) as Hne by (intros x Hx ->; exact (sub_not_root p a i Hp Hx)).
  eapply wp_mono; [apply (IH (p ++ [i]) b s1 l1 c); try done|].
  - rewrite length_app. simpl. lia.
  - eapply (tree_rep_child p i (mmem s) (mmem s1) a); [done|exact Hs|done|done].
  - intros x Hx [Hin|(j & Hj & Hx')]%Hl.
    + apply (Hd x); [|done]. apply (sub_children p a); [done|]. right. by exists i.
    + pose proof (sub_disjoint _ _ _ _ Hx Hx'). lia.
  - intros [] c' s2 (-> & l2 & Hk2 & Hl2 & Hs2). unfold st64. kstep. split; [done|].
    exists l2. split_and!.
    + eapply kmem_wf_frame; [done|exact Haa| |by apply slot_store_outside].
      intros [[Hin|(j & _ & Hx)]%Hl|Hx]%Hl2; [|exact (sub_not_root p a j Hp Hx)|exact (sub_not_root p a i Hp Hx)].
      apply (Hd a); [by apply sub_here|done].
    + intros x. rewrite Hl2, Hl, done_below_step by lia. tauto.
    + etrans; [eapply same_except_mono; [|exact Hs]|etrans; [eapply same_except_mono; [|exact Hs2]|]].
      * intros x [?|?]; [by left|right]. rewrite done_below_step by lia. by left.
      * intros x ?. right. rewrite done_below_step by lia. by right.
      * eapply (same_except_page _ a); [by left|]. by apply slot_store_outside.
    + intros j Hj. simpl. rewrite slot_store by (done || lia). rewrite decide_False by lia.
      rewrite <- Hld by lia. eapply slot_except; [exact Hs2|intros x Hx; by eapply sub_aligned|done| |lia].
      intros Hx. by apply Hne in Hx.
Qed.

Lemma free_inv_skip s l p a i s1 l1 :
  T !! (p ++ [i]) = None -> 0 <= i -> free_inv s l p a i s1 l1 -> free_inv s l p a (i + 1) s1 l1.
Proof.
  intros HN Hi (Hk & Hl & Hs & Hld).
  assert (forall x, done_below p (i + 1) x <-> done_below p i x) as Hd.
  { intros x. rewrite done_below_step by lia. split; [|by left]. intros [?|[q Hq]]; [done|exfalso].
    destruct (sub_nonempty p i q) as [y Hy]; [by rewrite Hq|congruence]. }
  split_and!; [done|by intros x; rewrite Hl, Hd| |intros; apply Hld; lia].
  eapply same_except_mono; [|done]. intros x. rewrite Hd. done.
Qed.

Lemma freewalk_loop n p a s l c :
  match n with O => True | S n' => freewalk_ok n' end ->
  (length p + n = 2)%nat -> T !! p = Some a -> tree_rep (mmem s) p -> kmem_wf s l ->
  (forall x, sub p x -> x ∉ l) -> kmem_lock ∉ held c ->
  wp (loop (512 + 1) (fun i =>
        if i <? 512 then
          pte <- ld64 (a + 8 * i) ;;
          if has pte PTE_V && negb (has pte (Z.lor (Z.lor PTE_R PTE_W) PTE_X)) then
            freewalk n (PTE2PA pte) ;;
            st64 (a + 8 * i) 0 ;;
            ret (inl (i + 1))
          else if has pte PTE_V then panic "freewalk: leaf"
          else ret (inl (i + 1))
        else ret (inr tt)) 0)
    (fun _ c' s' => c' = c /\ exists l', free_inv s l p a 512 s' l') c s.
Proof.
  intros IH Hlen Hp Ht Hk Hd Hlk.
  apply wp_loop with (I := fun k i c' s' => c' = c /\ k = Z.to_nat (513 - i) /\ 0 <= i <= 512 /\
    exists l', free_inv s l p a i s' l').
  2: { split_and!; [done..|]. exists l. split_and!; [done| |done|done].
       intros x. split; [by left|]. intros [?|(j & ? & _)]; [done|lia]. }
  intros k i c' s1 (-> & -> & Hi & l1 & Hinv). exists (Z.to_nat (513 - (i + 1))). split; [lia|].
  destruct (Z.ltb_spec i 512) as [Hlt|].
  2: { kstep. split; [done|]. exists l1. by replace 512 with i by lia. }
  unfold ld64. ksteps. rewrite (proj2 (proj2 (proj2 Hinv)) i) by lia.
  pose proof (Ht [] a i) as He. rewrite app_nil_r in He. rewrite (He Hp) by lia. unfold child.
  destruct (decide (length p < 2)%nat) as [Hl2|Hl2].
  - destruct (T !! (p ++ [i])) as [b|] eqn:Eb.
    + destruct n as [|n]; [lia|].
      pose proof (rep_page _ _ _ Hr _ _ Eb) as Hpb. pose proof (page_ok_bounds b Hpb).
      rewrite has_V_mkpte, interior_not_leaf by lia. cbn [andb negb].
      rewrite PTE2PA_mkpte by (lia || apply Hpb).
      pose proof (free_inv_child n p a b s l i s1 l1 c IH Hlen Hp Eb Ht Hd ltac:(lia) Hinv Hlk) as Hc.
      apply wp_assoc, wp_bind. eapply wp_mono; [exact Hc|].
      intros [] c' s2 [-> Hl]. kstep. split_and!; [done|done|lia|lia|done].
    + simpl. kstep. split_and!; [done|done|lia..|]. exists l1. apply free_inv_skip; [done|lia|done].
  - simpl. kstep. split_and!; [done|done|lia..|]. exists l1. apply free_inv_skip; [|lia|done].
    destruct (T !! (p ++ [i])) eqn:E; [|done]. by apply (rep_parent _ _ _ Hr) in E as [? _].
Qed.

Lemma freewalk_step n : match n with O => True | S n' => freewalk_ok n' end -> freewalk_ok n.
Proof.
  intros IH p a s l c Hlen Hp Ht Hk Hd Hlk. cbn [freewalk]. kstep.
  eapply wp_mono; [exact (freewalk_loop n p a s l c IH Hlen Hp Ht Hk Hd Hlk)|].
  intros [] c' s1 (-> & l1 & Hk1 & Hl1 & Hs1 & _).
  assert (page_ok a) as Hpa by (by eapply Hr).
  eapply wp_mono; [apply (kfree_spec a s1 l1 c Hk1 Hpa); [|done]|].
  { intros [?|(j & _ & Hx)]%Hl1; [apply (Hd a); [by apply sub_here|done]|exact (sub_not_root p a j Hp Hx)]. }
  intros [] c' s2 (-> & Hk2 & Hs2). split; [done|]. exists (a :: l1). split_and!; [done|..].
  - intros x. rewrite elem_of_cons, Hl1, (sub_children p a x Hp). unfold done_below. tauto.
  - etrans; [eapply same_except_mono; [|exact Hs1]|].
    + intros x. by rewrite (sub_children p a x Hp).
    + eapply (same_except_page _ a); [by apply sub_here|done].
Qed.

Lemma freewalk_spec n : freewalk_ok n.
Proof. induction n as [|n IH]; by apply freewalk_step. Qed.
End tree.

(** In an empty address space every leaf entry is clear. *)
Lemma space_leaf_clear s l pt T q a i :
  aspace s l pt T ∅ -> T !! q = Some a -> ~ (length q < 2)%nat -> 0 <= i < 512 ->
  load64 (mmem s) (a + 8 * i) = 0.
Proof.
  intros Ha Hq Hlen Hi. destruct (as_vm _ _ _ _ _ Ha) as [_ Hr _].
  destruct q as [|i1 q _] using rev_ind; [simpl in Hlen; lia|].
  destruct (rep_parent _ _ _ Hr _ _ _ Hq) as [Hl [b Hb]]. pose proof (rep_idx _ _ _ Hr _ _ _ Hq) as Hi1.
  rewrite length_app in Hlen. simpl in Hlen.
  destruct q as [|i2 [|]]; simpl in *; [lia| |lia].
  pose proof (rep_idx _ _ _ Hr [] _ _ Hb) as Hi2. unfold idx_ok in *.
  rewrite decide_True in Hi2 by done. rewrite decide_False in Hi1 by done.
  set (va := (i2 * 262144 + i1 * 512 + i) * 4096). pose proof MAXVA_eq.
  assert (0 <= va < MAXVA) as Hva by lia. pose proof (as_pte _ _ _ _ _ Ha va Hva) as He.
  pose proof (PX_decompose va Hva) as Hdec. replace (va / 4096) with (i2 * 262144 + i1 * 512 + i) in Hdec by zlia.
  pose proof (PX_range 0 va). pose proof (PX_range 1 va). pose proof (PX_range 2 va).
  rewrite lookup_empty, (pte_of_rep _ _ _ va Hr) in He. change (vidx 2 va) with [PX 2 va; PX 1 va] in He.
  assert (PX 2 va = i2 /\ PX 1 va = i1 /\ PX 0 va = i) as (E2 & E1 & E0) by lia.
  by rewrite E2, E1, E0, Hq in He.
Qed.

(** C35: [uvmfree] gives every page of an address space back.  If every mapped
    page lies below [sz] and belongs to the allocator, [uvmfree] returns (it
    does not meet a stray leaf), and afterwards the free list holds exactly
    the pages that were free, mapped, or used as page tables; memory outside
    these pages is unchanged. *)
Theorem uvmfree_frees_all s l pt T M sz c :
  aspace s l pt T M -> 0 <= sz -> PGROUNDUP sz <= MAXVA -> sz <= MAXVA ->
  (forall va pa perm, M !! va = Some (pa, perm) -> va < sz /\ page_ok pa) -> kmem_lock ∉ held c ->
  wp (uvmfree pt sz) (fun _ c' s' => c' = c /\ exists l', kmem_wf s' l' /\
    (forall x, x ∈ l' <-> own T l M x) /\ same_except (own T l M) (mmem s) (mmem s')) c s.
Proof.
  intros Ha H0 Hmax Hsz HM Hlk. unfold uvmfree. pose proof MAXVA_eq as HMV.
  pose proof (PGROUNDUP_spec sz ltac:(lia)) as Es.
  set (n := Z.to_nat (PGROUNDUP sz / PGSIZE)). assert (PGSIZE = 4096) as HP by done.
  assert (PGROUNDUP sz / PGSIZE = Z.of_nat n) as -> by (subst n; rewrite HP, Es; zlia).
  assert (0 + Z.of_nat n * PGSIZE = PGROUNDUP sz) as En by (subst n; rewrite HP, Es; zlia).
  assert (wp (when (0 <? sz) (uvmunmap pt 0 (Z.of_nat n) true)) (fun _ c' s' => c' = c /\ exists l',
    aspace s' l' pt T ∅ /\ (forall x, x ∈ l' <-> x ∈ l \/ mapped M x) /\
    same_except (own T l M) (mmem s) (mmem s')) c s) as Hu.
  { assert (forall x, unmapped M 0 (PGROUNDUP sz) x <-> mapped M x) as Hum.
    { intros x. split; intros (va & p & Hx); [exists va, p; naive_solver|].
      exists va, p. split; [|done]. destruct (HM _ _ _ Hx). destruct (as_dom _ _ _ _ _ Ha _ _ Hx). zlia. }
    assert (unmap M 0 (PGROUNDUP sz) = ∅) as Hem.
    { apply map_eq. intros va. rewrite lookup_empty. apply eq_None_not_Some. intros [[pa p] [Hx Hn]%unmap_lookup].
      apply Hn. destruct (HM _ _ _ Hx). destruct (as_dom _ _ _ _ _ Ha _ _ Hx). zlia. }
    destruct (Z.ltb_spec 0 sz); simpl.
    - eapply wp_mono; [apply (uvmunmap_spec s l pt T M 0 n true c); try done; try lia|].
      + rewrite En. intros _ x (va & p & Hx)%Hum. by destruct (HM _ _ _ Hx).
      + rewrite En. cbv zeta. rewrite Hem. intros [] c' s' (-> & l' & Ha' & Hl' & Hs'). split; [done|].
        exists l'. split_and!; [done| |].
        * intros x. rewrite Hl', Hum. naive_solver.
        * eapply same_except_mono; [|exact Hs']. intros x [?|?%Hum]; [by left; left|by right].
    - kstep. split; [done|]. exists l. rewrite unmap_empty in Hem by zlia. rewrite Hem in *.
      split_and!; [done| |done]. intros x. rewrite <- Hum. split; [by left|].
      intros [?|(va & p & ? & _)]; [done|zlia]. }
  kstep. eapply wp_mono; [exact Hu|]. clear Hu. intros [] c' s1 (-> & l1 & Ha1 & Hl1 & Hs1).
  destruct (as_vm _ _ _ _ _ Ha1) as [Hk1 Hr1 Hd1].
  eapply wp_mono; [apply (freewalk_spec pt T (mmem s1) Hr1 2 [] pt s1 l1 c); try done|].
  - apply Hr1.
  - intros q a i Hq Hi. unfold child. case_decide; [by apply Hr1|]. by eapply space_leaf_clear.
  - intros [] c' s2 (-> & l2 & Hk2 & Hl2 & Hs2). split; [done|]. exists l2. split_and!; [done| |].
    + intros x. rewrite Hl2, Hl1. unfold own, pool, tab_in, sub. simpl. tauto.
    + etrans; [exact Hs1|]. eapply same_except_mono; [|exact Hs2]. intros x [q Hq]. left. left. by exists q.
Qed.
End free.

(** ** Witness: freeing an address space with no pages *)

Lemma uvmfree_frees_all_witness :
  exists s' l', uvmfree (L := room_layout) ex_pt 0 ctx0 ex_state = Ok tt ctx0 s' /\
    @kmem_wf room_layout s' l' /\ ex_pt ∈ l'.
Proof.
  pose proof (uvmfree_frees_all (L := room_layout) ex_state ex_free ex_pt ex_tab ∅ 0 ctx0
    ex_aspace ltac:(lia) ltac:(by vm_compute) ltac:(by vm_compute)
    ltac:(intros ??? E; rewrite lookup_empty in E; discriminate E) ltac:(set_solver)) as H.
  apply wp_inv in H as ([] & c' & s' & Hk & -> & l' & Hw & Hl & _).
  exists s', l'. split; [exact Hk|]. split; [exact Hw|].
  apply Hl. left. left. exists []. vm_compute. reflexivity.
Defined.
