(* ===== verification/VmCopy.v ===== *)
(** * Copying between kernel and user memory

    [vmfault], [copyin], [copyout] and [copyinstr] (kernel/vm.c) against an
    abstract user memory: the bytes a process sees through its page table,
    where a page below [p->sz] that has not been allocated yet reads as
    zeros. *)
From S2P Require Import Prelude Kmonad Riscv Mem KString Kalloc Vm VmWalk VmMap VmSpace VmAlloc.

Section copy.
Context {L : Layout}.
Implicit Types (m : memory) (T : gmap (list Z) Z) (l : list Z) (M : gmap Z (Z * Z)).

(** The byte of user memory at [va]. *)
Definition uread m M (va : Z) : Z :=
  match M !! PGROUNDDOWN va with Some (pa, _) => rd8 m (pa + (va - PGROUNDDOWN va)) | None => 0 end.

(** The process may read (write) the page of [va]. *)
Definition user_ok M (bit va : Z) : Prop := exists pa perm,
  M !! PGROUNDDOWN va = Some (pa, perm) /\ Z.testbit perm 4 = true /\ Z.testbit perm bit = true.

Lemma has_mkpte pa perm k :
  0 <= pa < 2 ^ 56 -> 0 < k < 10 -> has (mkpte pa perm) (2 ^ k) = Z.testbit perm k.
Proof.
  intros Hpa Hk. unfold has. rewrite land_flag, negb_involutive by lia.
  unfold mkpte. rewrite !Z.lor_spec, PA2PTE_spec by lia. change 1024 with (2 ^ 10).
  rewrite Z.mul_pow2_bits_low by lia. simpl.
  change PTE_V with 1. rewrite (testbit_small 1 1 k) by lia. apply orb_false_r.
Qed.

(** ** Frames *)

Lemma aspace_frame s l pt T M m :
  aspace s l pt T M -> (forall x, pool T l x -> same_page x (mmem s) m) ->
  aspace (set_mem m s) l pt T M.
Proof.
  intros [[Hk Hr Hd] Hp ???] Hs.
  assert (forall x i, tab_in T x -> 0 <= i < 512 -> load64 m (x + 8 * i) = load64 (mmem s) (x + 8 * i)) as Hl.
  { intros x i Hx Hi. apply load_ext. intros b Hb. apply (Hs x); [by left|unfold PGSIZE; lia]. }
  assert (pt_rep m pt T) as Hr'.
  { split; [apply Hr..|]. intros p a i Hpa Hlen Hi. rewrite Hl; [by apply Hr|by exists p|done]. }
  split; [split; [|done|done]| |done..].
  - destruct Hk as [Hc Hn Hpg]. split; simpl; [|done..]. eapply chain_ext; [|done].
    intros x Hx. apply load_ext. intros b Hb. apply (Hs x); [by right|unfold PGSIZE; lia].
  - intros va Hva. rewrite <- Hp by done. simpl.
    rewrite (pte_of_rep _ _ _ va Hr), (pte_of_rep _ _ _ va Hr').
    destruct (T !! vidx 2 va) as [a|] eqn:E; [|done]. apply Hl; [by eexists|apply PX_range].
Qed.

(** A kernel buffer that no page of the address space overlaps. *)
Definition apart T l M (p n : Z) : Prop :=
  forall x, own T l M x -> x + PGSIZE <= p \/ p + n <= x.

Lemma aspace_kwrite s l pt T M p n m :
  aspace s l pt T M -> apart T l M p n -> same_outside p n (mmem s) m ->
  aspace (set_mem m s) l pt T M /\
  forall va, 0 <= va < MAXVA -> uread m M va = uread (mmem s) M va.
Proof.
  intros Ha Hap Hs. split.
  - eapply aspace_frame; [done|]. intros x Hx b Hb. apply Hs.
    destruct (Hap x); [by left|lia..].
  - intros va Hva. unfold uread. destruct (M !! PGROUNDDOWN va) as [[pa perm]|] eqn:E; [|done].
    apply Hs. destruct (PGROUNDDOWN_page va Hva) as (_ & _ & ?).
    destruct (Hap pa); [right; by eexists _, _|lia..].
Qed.

Lemma uread_pool s l pt T M m va :
  aspace s l pt T M -> same_except (pool T l) (mmem s) m -> 0 <= va < MAXVA ->
  uread m M va = uread (mmem s) M va.
Proof.
  intros Ha Hs Hva. unfold uread. destruct (M !! PGROUNDDOWN va) as [[pa perm]|] eqn:E; [|done].
  destruct (as_leaf _ _ _ _ _ Ha _ _ _ E) as (Hpa & _ & _ & Hn).
  destruct (PGROUNDDOWN_page va Hva) as (_ & _ & ?).
  eapply (same_except_same_page (pool T l)); [done| |done|done|lia].
  intros y Hy. eapply (pool_aligned _ _ _ _ _ (as_vm _ _ _ _ _ Ha) Hy).
Qed.

(** ** Finding the page *)

Lemma walkaddr_spec s l pt T M va0 c :
  aspace s l pt T M -> 0 <= va0 -> va0 mod PGSIZE = 0 ->
  walkaddr pt va0 c s = Ok (match M !! va0 with
    | Some (pa, perm) => if Z.testbit perm 4 then pa else 0 | None => 0 end) c s.
Proof.
  intros Ha H0 Hal. unfold walkaddr. destruct (Z.leb_spec MAXVA va0) as [Hge|Hlt].
  { destruct (M !! va0) as [x|] eqn:E; [|done].
    destruct (as_dom _ _ _ _ _ Ha _ _ E). lia. }
  unfold bind at 1. destruct (walk_space s l pt T M va0 c Ha) as [[-> ->]|(a0 & -> & Hnz & _ & He)]; [lia|done..|].
  rewrite (proj2 (Z.eqb_neq _ 0)) by done. unfold bind, ld64, gets. rewrite He, has_V_entry.
  destruct (M !! va0) as [[pa perm]|] eqn:E; [|done].
  destruct (as_leaf _ _ _ _ _ Ha _ _ _ E) as (? & ? & ? & _).
  destruct (entry_inv _ _ _ _ _ _ _ _ Ha E) as (_ & Hpp & _).
  rewrite bool_decide_true by done. cbn [negb entry]. change PTE_U with (2 ^ 4).
  rewrite has_mkpte by lia. destruct (Z.testbit perm 4); cbn [negb]; [by rewrite Hpp|done].
Qed.

Lemma ismapped_spec s l pt T M va0 c :
  aspace s l pt T M -> 0 <= va0 < MAXVA -> va0 mod PGSIZE = 0 ->
  ismapped pt va0 c s = Ok (bool_decide (is_Some (M !! va0))) c s.
Proof.
  intros Ha H0 Hal. unfold ismapped. unfold bind at 1.
  destruct (walk_space s l pt T M va0 c Ha) as [[-> ->]|(a0 & -> & Hnz & _ & He)]; [done..|].
  rewrite (proj2 (Z.eqb_neq _ 0)) by done. unfold bind, ld64, gets. by rewrite He, has_V_entry.
Qed.

(** What filling in lazily allocated pages may do to an address space:
    nothing that user code can see. *)
Record filled s l pt T M (s' : mstate) l' T' M' : Prop := {
  fl_space : aspace s' l' pt T' M';
  fl_sub : M ⊆ M';
  fl_own : forall x, own T' l' M' x <-> own T l M x;
  fl_mem : same_except (pool T l) (mmem s) (mmem s');
  fl_read : forall va, 0 <= va < MAXVA -> uread (mmem s') M' va = uread (mmem s) M va;
}.

Lemma filled_refl s l pt T M : aspace s l pt T M -> filled s l pt T M s l T M.
Proof. by split. Qed.

Lemma uread_insert s l pt T M a r perm m va :
  aspace s l pt T (<[a := (r, perm)]> M) -> M !! a = None -> zero_page m r -> 0 <= va < MAXVA ->
  uread m (<[a := (r, perm)]> M) va = uread m M va.
Proof.
  intros Ha HN Hz Hva. unfold uread. rewrite lookup_insert. case_decide as E; [|done].
  rewrite <- E, HN. apply Hz. destruct (PGROUNDDOWN_page va Hva) as (_ & _ & ?). lia.
Qed.

Lemma vmfault_spec s l pt T M sz va c :
  aspace s l pt T M -> 0 <= va -> sz <= MAXVA -> kmem_lock ∉ held c ->
  wp (vmfault sz pt pt va) (fun r c' s' => c' = c /\ exists l' T' M',
    filled s l pt T M s' l' T' M' /\
    (r = 0 /\ M' = M \/
     page_ok r /\ va < sz /\ M !! PGROUNDDOWN va = None /\
       M' = <[PGROUNDDOWN va := (r, Z.lor (Z.lor PTE_W PTE_U) PTE_R)]> M)) c s.
Proof.
  intros Ha H0 Hsz Hlk. unfold vmfault.
  assert (forall r, wp (ret r) (fun r' c' s' => c' = c /\ r' = r /\ s' = s) c s) as Hret by done.
  destruct (Z.leb_spec sz va) as [Hge|Hlt].
  { kstep. split; [done|]. exists l, T, M. split; [by apply filled_refl|by left]. }
  assert (0 <= va < MAXVA) as Hva by lia. destruct (PGROUNDDOWN_page va Hva) as (_ & Hal & ?).
  set (a := PGROUNDDOWN va) in *. assert (0 <= a < MAXVA) as Har by (unfold PGSIZE in *; subst a; rewrite PGROUNDDOWN_spec in * by (rewrite MAXVA_eq in *; lia); zlia).
  kstep. eapply wp_ok; [by apply (ismapped_spec s l pt T M a c)|].
  destruct (M !! a) as [x|] eqn:E; simpl.
  { kstep. split; [done|]. exists l, T, M. split; [by apply filled_refl|by left]. }
  eapply wp_mono; [apply (alloc_map_spec s l pt T M a (Z.lor (Z.lor PTE_W PTE_U) PTE_R) c); done|].
  intros r c' s' (-> & l' & T' & Ht & Hs & Hr). split; [done|].
  destruct Hr as [(-> & Ha' & Hp)|(Hr & Ha' & Hz & Hp)]; eexists l', T', _.
  - split; [|by left]. split; [done|done| |done|intros; by eapply uread_pool].
    intros x. unfold own. by rewrite Hp.
  - split; [|by right]. split; [done|by apply insert_subseteq| |done|].
    + intros x. unfold own. rewrite mapped_insert, <- Hp by done. tauto.
    + intros v Hv. rewrite (uread_insert s' l' pt T') by done. by eapply uread_pool.
Qed.

Lemma user_page_spec s l pt T M sz va0 c :
  aspace s l pt T M -> 0 <= va0 -> va0 mod PGSIZE = 0 -> sz <= MAXVA -> kmem_lock ∉ held c ->
  wp (user_page sz pt pt va0) (fun r c' s' => c' = c /\ exists l' T' M',
    filled s l pt T M s' l' T' M' /\
    (r = 0 /\ M' = M /\ (forall pa perm, M !! va0 = Some (pa, perm) -> Z.testbit perm 4 = false) \/
     r <> 0 /\ exists perm, M' !! va0 = Some (r, perm) /\ Z.testbit perm 4 = true)) c s.
Proof.
  intros Ha H0 Hal Hsz Hlk. unfold user_page. kstep.
  eapply wp_ok; [by apply (walkaddr_spec s l pt T M va0 c)|].
  destruct (M !! va0) as [[pa perm]|] eqn:E.
  - destruct (as_leaf _ _ _ _ _ Ha _ _ _ E) as (? & ? & ? & _).
    destruct (Z.testbit perm 4) eqn:Hb.
    + rewrite (proj2 (Z.eqb_neq pa 0)) by lia. kstep. split; [done|]. exists l, T, M.
      split; [by apply filled_refl|]. right. split; [lia|]. by exists perm.
    + simpl. eapply wp_mono; [by apply vmfault_spec|].
      intros r c' s' (-> & l' & T' & M' & Hf & Hr). split; [done|]. exists l', T', M'. split; [done|].
      destruct (as_dom _ _ _ _ _ Ha _ _ E) as [Hr0 _].
      destruct Hr as [[-> ->]|(_ & _ & HN & _)]; [|rewrite PGROUNDDOWN_id in HN by done; congruence].
      left. split_and!; [done..|]. by intros ?? [= <- <-].
  - simpl. eapply wp_mono; [by apply vmfault_spec|].
    intros r c' s' (-> & l' & T' & M' & Hf & Hr). split; [done|]. exists l', T', M'. split; [done|].
    destruct Hr as [[-> ->]|(Hok & Hlt & HN & ->)]; [left; by split_and!|right].
    pose proof (page_ok_bounds r Hok). split; [lia|].
    rewrite PGROUNDDOWN_id, lookup_insert_eq by (done || lia). by eexists.
Qed.

Lemma filled_pool s l pt T M s' l' T' M' x :
  aspace s l pt T M -> M ⊆ M' -> (forall x, own T' l' M' x <-> own T l M x) -> aspace s' l' pt T' M' ->
  pool T' l' x -> pool T l x.
Proof.
  intros Ha Hsub Ho Ha' Hx. destruct (proj1 (Ho x) (or_introl Hx)) as [?|(va & p & Hp)]; [done|].
  eapply lookup_weaken in Hp; [|exact Hsub].
  apply (as_leaf _ _ _ _ _ Ha') in Hp as (_ & _ & _ & Hn). done.
Qed.

Lemma user_ok_mono M M' bit va : M ⊆ M' -> user_ok M bit va -> user_ok M' bit va.
Proof. intros Hs (pa & perm & H & ?). exists pa, perm. split; [by eapply lookup_weaken|done]. Qed.

(** The part of a page that one round of the copy loops handles. *)
Lemma chunk_bounds va len :
  0 <= va < 2 ^ 64 -> 0 < len ->
  let va0 := PGROUNDDOWN va in
  let n := if len <? u64 (PGSIZE - (va - va0)) then len else u64 (PGSIZE - (va - va0)) in
  va0 mod PGSIZE = 0 /\ 0 <= va0 <= va /\ 0 < n <= len /\ va + n <= va0 + PGSIZE /\
  (n = len \/ va + n = va0 + PGSIZE).
Proof.
  intros Hva Hlen va0 n. subst va0 n. rewrite PGROUNDDOWN_spec by done. unfold PGSIZE.
  rewrite u64_id by zlia. zcase; zlia.
Qed.

Lemma chunk_page va va0 i : va0 mod PGSIZE = 0 -> 0 <= va0 -> va0 <= va + i < va0 + PGSIZE ->
  va0 < MAXVA -> PGROUNDDOWN (va + i) = va0.
Proof. rewrite MAXVA_eq. unfold PGSIZE. intros. rewrite PGROUNDDOWN_spec by lia. zlia. Qed.

(** The state of [copyin] after [d] bytes. *)
Record copied s l pt T M (dst srcva d : Z) (s' : mstate) l' T' M' : Prop := {
  cp_space : aspace s' l' pt T' M';
  cp_sub : M ⊆ M';
  cp_own : forall x, own T' l' M' x <-> own T l M x;
  cp_read : forall va, 0 <= va < MAXVA -> uread (mmem s') M' va = uread (mmem s) M va;
  cp_data : forall i, 0 <= i < d -> user_ok M' 4 (srcva + i) /\
    rd8 (mmem s') (dst + i) = uread (mmem s) M (srcva + i);
  cp_mem : forall b, (forall x, pool T l x -> b < x \/ x + PGSIZE <= b) -> b < dst \/ dst + d <= b ->
    rd8 (mmem s') b = rd8 (mmem s) b;
}.

Lemma copied_step s l pt T M dst srcva d s1 l1 T1 M1 s2 l2 T2 M2 r perm va0 n len :
  aspace s l pt T M -> apart T l M dst len ->
  copied s l pt T M dst srcva d s1 l1 T1 M1 -> filled s1 l1 pt T1 M1 s2 l2 T2 M2 ->
  0 <= d -> 0 < n -> d + n <= len -> va0 mod PGSIZE = 0 -> 0 <= va0 <= srcva + d ->
  srcva + d + n <= va0 + PGSIZE -> M2 !! va0 = Some (r, perm) -> Z.testbit perm 4 = true ->
  let s3 := set_mem (memmove (mmem s2) (dst + d) (r + (srcva + d - va0)) n) s2 in
  copied s l pt T M dst srcva (d + n) s3 l2 T2 M2.
Proof.
  intros Ha Hap [Ha1 Hs1 Ho1 Hr1 Hd1 Hm1] [Ha2 Hs2 Ho2 Hm2 Hr2] Hd Hn Hlen Hal Hv0 Hv1 HM Hb s3.
  destruct (as_dom _ _ _ _ _ Ha2 _ _ HM) as [Hvr _]. pose proof MAXVA_eq as HMV.
  assert (forall x, own T2 l2 M2 x <-> own T l M x) as Ho by (intros x; by rewrite Ho2).
  assert (apart T2 l2 M2 (dst + d) n) as Hap2 by (intros x Hx%Ho; destruct (Hap x Hx); lia).
  assert (same_outside (dst + d) n (mmem s2) (mmem s3)) as Hso by (apply memmove_outside; lia).
  destruct (aspace_kwrite s2 l2 pt T2 M2 (dst + d) n (mmem s3) Ha2 Hap2 Hso) as [Ha3 Hr3].
  assert (forall y, pool T1 l1 y -> y mod PGSIZE = 0) as Hpal.
  { intros y Hy. eapply (pool_aligned _ _ _ _ _ (as_vm _ _ _ _ _ Ha1) Hy). }
  assert (forall b, dst <= b < dst + d -> rd8 (mmem s2) b = rd8 (mmem s1) b) as Hk2.
  { intros b Hbd. apply Hm2. intros x Hx. destruct (Hap x); [apply Ho1; by left|lia..]. }
  split; [done|by etrans|done| | |].
  - intros va Hva. by rewrite Hr3, Hr2, Hr1.
  - intros i Hi. destruct (decide (i < d)) as [Hlt|Hge].
    + destruct (Hd1 i ltac:(lia)) as [Hu He]. split; [by eapply user_ok_mono|].
      rewrite Hso by lia. by rewrite Hk2 by lia.
    + assert (PGROUNDDOWN (srcva + i) = va0) as Ep.
      { replace (srcva + i) with (srcva + d + (i - d)) by lia. apply chunk_page; (done || lia). }
      split; [exists r, perm; by rewrite Ep|].
      assert (va0 + PGSIZE <= MAXVA) by (unfold PGSIZE in *; zlia).
      unfold s3; simpl. rewrite memmove_spec, decide_True by lia.
      rewrite <- Hr1, <- Hr2 by lia. unfold uread. rewrite Ep, HM. f_equal. lia.
  - intros b Hp Hbd. rewrite Hso by lia. rewrite Hm2.
    + apply Hm1; [done|lia].
    + intros x Hx. apply Hp. by eapply (filled_pool s l pt T M s1 l1 T1 M1).
Qed.

Lemma copied_filled s l pt T M dst srcva d s1 l1 T1 M1 s2 l2 T2 :
  aspace s l pt T M -> apart T l M dst d ->
  copied s l pt T M dst srcva d s1 l1 T1 M1 -> filled s1 l1 pt T1 M1 s2 l2 T2 M1 ->
  copied s l pt T M dst srcva d s2 l2 T2 M1.
Proof.
  intros Ha Hap [Ha1 Hs1 Ho1 Hr1 Hd1 Hm1] [Ha2 Hs2 Ho2 Hm2 Hr2].
  split; [done|done|by intros x; rewrite Ho2|by intros; rewrite Hr2, Hr1| |].
  - intros i Hi. destruct (Hd1 i Hi) as [? <-]. split; [done|]. apply Hm2. intros x Hx.
    destruct (Hap x); [apply Ho1; by left|lia..].
  - intros b Hp Hbd. rewrite Hm2; [by apply Hm1|]. intros x Hx. apply Hp.
    by eapply (filled_pool s l pt T M s1 l1 T1 M1).
Qed.

(** C34: [copyin] is safe for every user pointer and length.  As long as
    [p->sz] does not exceed [MAXVA] it never panics; it copies a prefix of the
    user bytes at [srcva], all in pages the process may access, to the
    kernel buffer, filling in lazily allocated pages, whose bytes are zero.
    It returns 0 when everything was copied, and -1 exactly when it met an
    address that is not user-accessible.  Nothing else changes: not what the
    process sees of its memory, nor kernel memory outside the buffer. *)
Theorem copyin_correct s l pt T M sz dst srcva len c :
  aspace s l pt T M -> sz <= MAXVA -> 0 <= srcva < 2 ^ 64 -> 0 <= len ->
  apart T l M dst len -> kmem_lock ∉ held c ->
  wp (copyin sz pt pt dst srcva len) (fun r c' s' => c' = c /\ exists l' T' M' d,
    copied s l pt T M dst srcva d s' l' T' M' /\
    (r = 0 /\ d = len \/ r = -1 /\ 0 <= d < len /\ ~ user_ok M' 4 (srcva + d))) c s.
Proof.
  intros Ha Hsz Hsrc Hlen Hap Hlk. unfold copyin. pose proof MAXVA_eq as HMV.
  apply wp_loop with (I := fun k '(ds, sv, ln) c' s' => c' = c /\ exists l' T' M' d,
    (Z.to_nat ln < k)%nat /\ 0 <= ln /\ ds = dst + d /\ ln = len - d /\ 0 <= d /\
    (0 < ln -> sv = srcva + d /\ sv < 2 ^ 64) /\
    copied s l pt T M dst srcva d s' l' T' M').
  2: { split; [done|]. exists l, T, M, 0. split_and!; [lia..|].
       split; [done|done|done|done|intros; lia|done]. }
  intros k [[ds sv] ln] c' s1 (-> & l1 & T1 & M1 & d & Hk & Hln & -> & -> & Hd & Hsv & Hcp).
  destruct k as [|k]; [lia|]. exists k. split; [done|].
  destruct (Z.ltb_spec 0 (len - d)) as [Hlt|Hge].
  2: { kstep. split; [done|]. exists l1, T1, M1, d. split; [done|]. left. split; [done|lia]. }
  destruct (Hsv Hlt) as [-> Hsv']. pose proof (chunk_bounds (srcva + d) (len - d) ltac:(lia) Hlt) as Hch.
  cbn zeta in Hch |- *. set (va0 := PGROUNDDOWN (srcva + d)) in *. set (n := if len - d <? _ then _ else _) in *.
  destruct Hch as (Hal & Hv0 & Hn & Hve & Hend).
  kstep. eapply wp_mono; [apply (user_page_spec s1 l1 pt T1 M1 sz va0 c); try done; [apply Hcp|lia]|].
  intros r c' s2 (-> & l2 & T2 & M2 & Hf & [(-> & -> & Hno)|(Hnz & perm & HM & Hb)]).
  - simpl. kstep. split; [done|]. exists l2, T2, M1, d. split.
    { eapply copied_filled; [done| |done|done]. intros x Hx. destruct (Hap x Hx); lia. }
    right. split_and!; [done|lia|lia|]. intros (pa & p & Hx & Hy & _). fold va0 in Hx.
    rewrite (Hno _ _ Hx) in Hy. done.
  - rewrite (proj2 (Z.eqb_neq r 0)) by done. unfold kmemmove. ksteps. split; [done|].
    exists l2, T2, M2, (d + n).
    destruct (as_dom _ _ _ _ _ (fl_space _ _ _ _ _ _ _ _ _ Hf) _ _ HM) as [Hvr _].
    split_and!; try lia.
    + intros ?. destruct Hend as [->|Hend]; [lia|].
      rewrite u64_id by (unfold PGSIZE in *; lia). unfold PGSIZE in *. lia.
    + eapply (copied_step s l pt T M dst srcva d s1 l1 T1 M1 s2 l2 T2 M2 r perm va0 n len); (done || lia).
Qed.

(** ** copyout *)

(** The state of [copyout] after [d] bytes. *)
Record written s l pt T M (src dstva d : Z) (s' : mstate) l' T' M' : Prop := {
  wr_space : aspace s' l' pt T' M';
  wr_sub : M ⊆ M';
  wr_own : forall x, own T' l' M' x <-> own T l M x;
  wr_read : forall va, 0 <= va < MAXVA -> uread (mmem s') M' va =
    if decide (dstva <= va < dstva + d) then rd8 (mmem s) (src + (va - dstva)) else uread (mmem s) M va;
  wr_ok : forall i, 0 <= i < d -> user_ok M' 2 (dstva + i);
  wr_mem : same_except (own T l M) (mmem s) (mmem s');
}.

Lemma written_filled s l pt T M src dstva d s1 l1 T1 M1 s2 l2 T2 M2 :
  written s l pt T M src dstva d s1 l1 T1 M1 -> filled s1 l1 pt T1 M1 s2 l2 T2 M2 ->
  written s l pt T M src dstva d s2 l2 T2 M2.
Proof.
  intros [Ha1 Hs1 Ho1 Hr1 Hd1 Hm1] [Ha2 Hs2 Ho2 Hm2 Hr2].
  split; [done|by etrans|by intros x; rewrite Ho2|by intros; rewrite Hr2, Hr1| |].
  - intros i Hi. eapply user_ok_mono; [done|]. by apply Hd1.
  - etrans; [done|]. eapply same_except_mono; [|done]. intros x Hx. apply Ho1. by left.
Qed.

(** Writing into one page of the address space. *)
Lemma uread_memmove s l pt T M va0 r perm src n off va :
  aspace s l pt T M -> M !! va0 = Some (r, perm) -> 0 <= va < MAXVA ->
  0 <= off -> 0 <= n -> off + n <= PGSIZE ->
  uread (memmove (mmem s) (r + off) src n) M va =
    if decide (va0 + off <= va < va0 + off + n) then rd8 (mmem s) (src + (va - (va0 + off)))
    else uread (mmem s) M va.
Proof.
  intros Ha HM Hva Hoff Hn Hsum. unfold uread. destruct (PGROUNDDOWN_page va Hva) as (_ & Hal & Hp).
  destruct (as_dom _ _ _ _ _ Ha _ _ HM) as [_ Hal0].
  destruct (decide (PGROUNDDOWN va = va0)) as [E|Hne].
  - rewrite E, HM, memmove_spec by done. do 2 case_decide; try lia; try done. f_equal. lia.
  - rewrite (decide_False (P := va0 + off <= va < _)); cycle 1.
    { intros ?. destruct (pages_disjoint (PGROUNDDOWN va) va0); (done || lia). }
    destruct (M !! PGROUNDDOWN va) as [[pa p]|] eqn:E; [|done].
    assert (pa <> r) as Hpr.
    { intros ->. apply Hne. by eapply (as_inj _ _ _ _ _ Ha). }
    destruct (as_leaf _ _ _ _ _ Ha _ _ _ E) as (? & _). destruct (as_leaf _ _ _ _ _ Ha _ _ _ HM) as (? & _).
    destruct (pages_disjoint pa r); [done..| |]; rewrite memmove_spec, decide_False by lia; done.
Qed.

Lemma written_step s l pt T M src dstva d s2 l2 T2 M2 r perm va0 n len :
  aspace s l pt T M -> apart T l M src len ->
  written s l pt T M src dstva d s2 l2 T2 M2 ->
  0 <= d -> 0 < n -> d + n <= len -> va0 mod PGSIZE = 0 -> 0 <= va0 <= dstva + d ->
  dstva + d + n <= va0 + PGSIZE -> M2 !! va0 = Some (r, perm) ->
  Z.testbit perm 4 = true -> Z.testbit perm 2 = true ->
  let s3 := set_mem (memmove (mmem s2) (r + (dstva + d - va0)) (src + d) n) s2 in
  written s l pt T M src dstva (d + n) s3 l2 T2 M2.
Proof.
  intros Ha Hap [Ha2 Hs2 Ho2 Hr2 Hd2 Hm2] Hd Hn Hlen Hal Hv0 Hv1 HM Hb4 Hb2 s3.
  destruct (as_dom _ _ _ _ _ Ha2 _ _ HM) as [Hvr _].
  destruct (as_leaf _ _ _ _ _ Ha2 _ _ _ HM) as (Hral & _ & _ & Hnp).
  assert (same_outside r PGSIZE (mmem s2) (mmem s3)) as Hso.
  { intros b Hb. simpl. rewrite memmove_spec, decide_False by lia. done. }
  split; [by eapply aspace_write|done|done| | |].
  - intros va Hva. unfold s3; simpl. rewrite (uread_memmove s2 l2 pt T2 M2 va0 r perm) by (done || lia).
    rewrite Hr2 by done. repeat case_decide; try lia; try done.
    rewrite Hm2; [f_equal; lia|]. intros x Hx. destruct (Hap x Hx); lia.
  - intros i Hi. destruct (decide (i < d)) as [Hlt|Hge]; [apply Hd2; lia|].
    exists r, perm. replace (dstva + i) with (dstva + d + (i - d)) by lia.
    rewrite (chunk_page _ va0) by (done || lia). done.
  - etrans; [exact Hm2|]. eapply (same_except_page _ r); [|done]. apply Ho2. right. by eexists _, _.
Qed.

(** C19: [copyout] is safe for every user pointer and length.  As long as
    [p->sz] does not exceed [MAXVA] it never panics; it changes the user
    memory the process sees exactly in a prefix of the [len] bytes at [dstva],
    to the bytes of the kernel buffer, writes only to pages the process may
    write, and leaves all memory but the pages of the address space and of the
    free list as it was.  It returns 0 when everything was copied and -1
    exactly when it met an address that is not user-writable. *)
Theorem copyout_correct s l pt T M sz dstva src len c :
  aspace s l pt T M -> sz <= MAXVA -> 0 <= dstva < 2 ^ 64 -> 0 <= len ->
  apart T l M src len -> kmem_lock ∉ held c ->
  wp (copyout sz pt pt dstva src len) (fun r c' s' => c' = c /\ exists l' T' M' d,
    written s l pt T M src dstva d s' l' T' M' /\
    (r = 0 /\ d = len \/ r = -1 /\ 0 <= d < len /\ ~ user_ok M' 2 (dstva + d))) c s.
Proof.
  intros Ha Hsz Hdst Hlen Hap Hlk. unfold copyout. pose proof MAXVA_eq as HMV.
  apply wp_loop with (I := fun k '(dv, sr, ln) c' s' => c' = c /\ exists l' T' M' d,
    (Z.to_nat ln < k)%nat /\ 0 <= ln /\ sr = src + d /\ ln = len - d /\ 0 <= d /\
    (0 < ln -> dv = dstva + d /\ dv < 2 ^ 64) /\
    written s l pt T M src dstva d s' l' T' M').
  2: { split; [done|]. exists l, T, M, 0. split_and!; [lia..|].
       split; [done|done|done|intros; by rewrite decide_False by lia|intros; lia|done]. }
  intros k [[dv sr] ln] c' s1 (-> & l1 & T1 & M1 & d & Hk & Hln & -> & -> & Hd & Hdv & Hcp).
  destruct k as [|k]; [lia|]. exists k. split; [done|].
  destruct (Z.ltb_spec 0 (len - d)) as [Hlt|Hge].
  2: { kstep. split; [done|]. exists l1, T1, M1, d. split; [done|]. left. split; [done|lia]. }
  destruct (Hdv Hlt) as [-> Hdv']. pose proof (chunk_bounds (dstva + d) (len - d) ltac:(lia) Hlt) as Hch.
  cbn zeta in Hch |- *. set (va0 := PGROUNDDOWN (dstva + d)) in *. set (n := if len - d <? _ then _ else _) in *.
  destruct Hch as (Hal & Hv0 & Hn & Hve & Hend).
  destruct (Z.leb_spec MAXVA va0) as [Hbig|Hsmall].
  { kstep. split; [done|]. exists l1, T1, M1, d. split; [done|]. right. split_and!; [done|lia|lia|].
    intros (pa & p & Hx & _). fold va0 in Hx.
    destruct (as_dom _ _ _ _ _ (wr_space _ _ _ _ _ _ _ _ _ _ _ _ Hcp) _ _ Hx). lia. }
  kstep. eapply wp_mono; [apply (user_page_spec s1 l1 pt T1 M1 sz va0 c); try done; [apply Hcp|lia]|].
  intros r c' s2 (-> & l2 & T2 & M2 & Hf & Hr).
  pose proof (written_filled _ _ _ _ _ _ _ _ _ _ _ _ _ _ _ _ Hcp Hf) as Hw.
  destruct Hr as [(-> & -> & Hno)|(Hnz & perm & HM & Hb)].
  { simpl. kstep. split; [done|]. exists l2, T2, M1, d. split; [done|].
    right. split_and!; [done|lia|lia|]. intros (pa & p & Hx & Hy & _). fold va0 in Hx.
    rewrite (Hno _ _ Hx) in Hy. done. }
  rewrite (proj2 (Z.eqb_neq r 0)) by done. kstep.
  destruct (walk_space s2 l2 pt T2 M2 va0 c (fl_space _ _ _ _ _ _ _ _ _ Hf) ltac:(lia) Hal)
    as [[_ HN]|(a0 & Hwk & _ & _ & He)]; [congruence|].
  eapply wp_ok; [exact Hwk|]. unfold ld64. ksteps. rewrite He, HM. cbn [entry].
  destruct (as_leaf _ _ _ _ _ (wr_space _ _ _ _ _ _ _ _ _ _ _ _ Hw) _ _ _ HM) as (_ & ? & _).
  change PTE_W with (2 ^ 2). rewrite has_mkpte by lia.
  destruct (Z.testbit perm 2) eqn:Hb2; cbn [negb].
  2: { kstep. split; [done|]. exists l2, T2, M2, d. split; [done|]. right. split_and!; [done|lia|lia|].
       intros (pa & p & Hx & _ & Hy). fold va0 in Hx. rewrite HM in Hx. injection Hx as <- <-. congruence. }
  unfold kmemmove. ksteps. split; [done|]. exists l2, T2, M2, (d + n). split_and!; try lia.
  - intros ?. destruct Hend as [->|Hend]; [lia|].
    rewrite u64_id by (unfold PGSIZE in *; lia). unfold PGSIZE in *. lia.
  - eapply (written_step s l pt T M src dstva d s2 l2 T2 M2 r perm va0 n len); (done || lia).
Qed.

(** The bound on [p->sz] in the two theorems above is needed.  If a
    process's size exceeds [MAXVA], [copyin] from an address between the two
    panics: unlike [copyout] it does not check the address against [MAXVA]
    before the page-fault path, where [walk] panics. *)
Theorem copyin_panics_beyond_MAXVA s pt ppt sz dst srcva len c :
  MAXVA <= srcva < sz -> srcva < 2 ^ 64 -> 0 < len ->
  copyin sz ppt pt dst srcva len c s = Panic "walk".
Proof.
  intros Hsrc H64 Hlen. pose proof MAXVA_eq as HMV. unfold copyin.
  destruct (Z.to_nat len + 1)%nat as [|k] eqn:Ek; [lia|].
  assert (PGROUNDDOWN srcva = srcva / 4096 * 4096) as Ep by (apply PGROUNDDOWN_spec; lia).
  assert (PGROUNDDOWN (PGROUNDDOWN srcva) = PGROUNDDOWN srcva) as Epp
    by (rewrite (PGROUNDDOWN_spec (PGROUNDDOWN srcva)) by zlia; zlia).
  simpl. unfold user_page, walkaddr, vmfault, ismapped, walk. rewrite Epp.
  rewrite (proj2 (Z.ltb_lt _ _)) by lia. rewrite (proj2 (Z.leb_le MAXVA _)) by zlia.
  unfold bind, ret. simpl. by rewrite (proj2 (Z.leb_gt sz _)) by zlia.
Qed.
End copy.

(** ** Witnesses *)

Lemma ex_apart dst len : dst + len <= ex_pt -> apart ex_tab ex_free ∅ dst len.
Proof.
  intros Hd x [[[p [_ ->]%ex_tab_inv]|Hx]|(va & q & Hx)]; [by right| |by rewrite lookup_empty in Hx].
  right. unfold ex_free, ex_pt in *. set_unfold. lia.
Qed.

Lemma copyin_correct_witness :
  exists s', copyin (L := room_layout) 4096 ex_pt ex_pt 0x80010000 100 2 ctx0 ex_state = Ok 0 ctx0 s' /\
    rd8 (mmem s') 0x80010001 = 0.
Proof.
  pose proof (copyin_correct (L := room_layout) ex_state ex_free ex_pt ex_tab ∅ 4096 0x80010000 100 2 ctx0
    ex_aspace ltac:(by vm_compute) ltac:(lia) ltac:(lia)
    ltac:(apply ex_apart; by vm_compute) ltac:(set_solver)) as H.
  apply wp_inv in H as (r & c' & s' & Hk & -> & l' & T' & M' & d & Hcp & Hr).
  assert (r = 0) as ->.
  { assert (match copyin (L := room_layout) 4096 ex_pt ex_pt 0x80010000 100 2 ctx0 ex_state with
      Ok r _ _ => r | _ => 1 end = 0) as He by (vm_compute; reflexivity). rewrite Hk in He. exact He. }
  exists s'. split; [exact Hk|]. destruct Hr as [[_ ->]|[? _]]; [|discriminate].
  destruct (cp_data _ _ _ _ _ _ _ _ _ _ _ _ Hcp 1 ltac:(lia)) as [_ He]. exact He.
Defined.

Lemma copyout_correct_witness :
  exists s' M', copyout (L := room_layout) 4096 ex_pt ex_pt 100 0x80010000 2 ctx0 ex_state = Ok 0 ctx0 s' /\
    user_ok M' 2 101 /\ uread (mmem s') M' 101 = 0.
Proof.
  pose proof (copyout_correct (L := room_layout) ex_state ex_free ex_pt ex_tab ∅ 4096 100 0x80010000 2 ctx0
    ex_aspace ltac:(by vm_compute) ltac:(lia) ltac:(lia)
    ltac:(apply ex_apart; by vm_compute) ltac:(set_solver)) as H.
  apply wp_inv in H as (r & c' & s' & Hk & -> & l' & T' & M' & d & Hw & Hr).
  assert (r = 0) as ->.
  { assert (match copyout (L := room_layout) 4096 ex_pt ex_pt 100 0x80010000 2 ctx0 ex_state with
      Ok r _ _ => r | _ => 1 end = 0) as He by (vm_compute; reflexivity). rewrite Hk in He. exact He. }
  exists s', M'. split; [exact Hk|]. destruct Hr as [[_ ->]|[? _]]; [|discriminate].
  split; [apply (wr_ok _ _ _ _ _ _ _ _ _ _ _ _ Hw 1); lia|].
  rewrite (wr_read _ _ _ _ _ _ _ _ _ _ _ _ Hw) by (split; [lia|by vm_compute]). by vm_compute.
Defined.

Lemma copyin_panics_beyond_MAXVA_witness :
  copyin (L := room_layout) (MAXVA + 8192) ex_pt ex_pt 0x80010000 MAXVA 1 ctx0 ex_state = Panic "walk".
Proof.
  apply (copyin_panics_beyond_MAXVA (L := room_layout)); [split; by vm_compute|by vm_compute|lia].
Defined.
