(* ===== verification/Block.v ===== *)
(** * Disk blocks (kernel/fs.h)

    A block is its [BSIZE] bytes; C structures laid over [bp->data] are read
    and written as little-endian fields at their offsets.  The disk itself is
    hardware: [BlockDev] states what the file system relies on. *)
From S2P Require Import Prelude Mem.

Definition BSIZE : Z := 1024.
Abbreviation block := (list Z).

Definition byte (x : Z) : Prop := 0 <= x < 256.

Definition block_ok (b : block) : Prop := length b = Z.to_nat BSIZE /\ Forall byte b.

Definition zblock : block := replicate (Z.to_nat BSIZE) 0.

(** [n] bytes at offset [off]; writing bytes at an offset. *)
Definition getb (n off : Z) (b : block) : list Z := take (Z.to_nat n) (drop (Z.to_nat off) b).
Definition putb (off : Z) (bs : list Z) (b : block) : block :=
  take (Z.to_nat off) b ++ bs ++ drop (Z.to_nat off + length bs) b.

Definition get8 (off : Z) (b : block) : Z := le_dec (getb 1 off b).
Definition get16 (off : Z) (b : block) : Z := le_dec (getb 2 off b).
Definition get32 (off : Z) (b : block) : Z := le_dec (getb 4 off b).
Definition put8 (off v : Z) (b : block) : block := putb off (le_enc 1 v) b.
Definition put16 (off v : Z) (b : block) : block := putb off (le_enc 2 v) b.
Definition put32 (off v : Z) (b : block) : block := putb off (le_enc 4 v) b.

Lemma zblock_ok : block_ok zblock.
Proof. split; [apply length_replicate|]. apply Forall_replicate. unfold byte. lia. Qed.

Lemma putb_length off bs b :
  0 <= off -> off + Z.of_nat (length bs) <= Z.of_nat (length b) -> length (putb off bs b) = length b.
Proof. intros. unfold putb. rewrite !length_app, length_take, length_drop. lia. Qed.

Lemma putb_ok off bs b :
  block_ok b -> Forall byte bs -> 0 <= off -> off + Z.of_nat (length bs) <= BSIZE -> block_ok (putb off bs b).
Proof.
  intros [Hl Hb] Hbs H0 Ho. split.
  - rewrite putb_length; [done|done|]. rewrite Hl. unfold BSIZE in *. lia.
  - unfold putb. apply Forall_app_2; [by apply Forall_take|]. apply Forall_app_2; [done|by apply Forall_drop].
Qed.

Lemma getb_ext n off b b' :
  0 <= off -> length b = length b' ->
  (forall i : nat, (Z.to_nat off <= i < Z.to_nat off + Z.to_nat n)%nat -> b !! i = b' !! i) ->
  getb n off b = getb n off b'.
Proof.
  intros H0 Hl H. unfold getb. apply list_eq. intros i.
  destruct (decide (i < Z.to_nat n)%nat) as [Hi|Hi].
  - rewrite !lookup_take_lt, !lookup_drop by done. apply H. lia.
  - rewrite !lookup_take_ge by lia. done.
Qed.

Lemma putb_lookup off bs b (i : nat) :
  0 <= off -> off + Z.of_nat (length bs) <= Z.of_nat (length b) ->
  putb off bs b !! i = if decide (Z.to_nat off <= i < Z.to_nat off + length bs)%nat
                       then bs !! (i - Z.to_nat off)%nat else b !! i.
Proof.
  intros H0 Hl. unfold putb.
  assert (length (take (Z.to_nat off) b) = Z.to_nat off) as Ht by (rewrite length_take; lia).
  case_decide as E.
  - rewrite lookup_app_r by lia. rewrite lookup_app_l by lia. by rewrite Ht.
  - destruct (decide (i < Z.to_nat off)%nat).
    + rewrite lookup_app_l, lookup_take_lt by lia. done.
    + rewrite !lookup_app_r by lia. rewrite lookup_drop, Ht. f_equal. lia.
Qed.

Lemma getb_putb_eq n off bs b :
  0 <= off -> n = Z.of_nat (length bs) -> off + n <= Z.of_nat (length b) -> getb n off (putb off bs b) = bs.
Proof.
  intros H0 -> Hl. unfold getb. apply list_eq. intros i.
  destruct (decide (i < length bs)%nat) as [Hi|Hi].
  - rewrite lookup_take_lt, lookup_drop, putb_lookup by lia. rewrite decide_True by lia. f_equal. lia.
  - rewrite lookup_take_ge by lia. symmetry. apply lookup_ge_None_2. lia.
Qed.

Lemma getb_putb_ne n off off' bs b :
  0 <= off -> 0 <= off' -> off' + Z.of_nat (length bs) <= Z.of_nat (length b) ->
  off + n <= off' \/ off' + Z.of_nat (length bs) <= off ->
  getb n off (putb off' bs b) = getb n off b.
Proof.
  intros H0 H1 Hl Hd. apply getb_ext; [done|by rewrite putb_length|].
  intros i Hi. rewrite putb_lookup, decide_False by lia. done.
Qed.

Lemma get32_put32_eq off v b :
  0 <= off -> off + 4 <= Z.of_nat (length b) -> get32 off (put32 off v b) = u32 v.
Proof.
  intros H0 Hl. unfold get32, put32.
  rewrite getb_putb_eq by (rewrite ?le_enc_length; lia). by rewrite le_dec_enc.
Qed.

Lemma get32_put32_ne off off' v b :
  0 <= off -> 0 <= off' -> off' + 4 <= Z.of_nat (length b) -> off + 4 <= off' \/ off' + 4 <= off ->
  get32 off (put32 off' v b) = get32 off b.
Proof.
  intros ????. unfold get32, put32. rewrite getb_putb_ne; [done|done|done|rewrite le_enc_length; lia..].
Qed.

Lemma put32_ok off v b : block_ok b -> 0 <= off -> off + 4 <= BSIZE -> block_ok (put32 off v b).
Proof.
  intros. apply putb_ok; [done|apply le_enc_bytes|done|]. rewrite le_enc_length. lia.
Qed.

Lemma get32_range off b : 0 <= get32 off b < 2 ^ 32.
Proof.
  unfold get32. pose proof (le_dec_range (getb 4 off b)) as H.
  assert (length (getb 4 off b) <= 4)%nat by (unfold getb; rewrite length_take; lia).
  assert (256 ^ Z.of_nat (length (getb 4 off b)) <= 256 ^ 4) by (apply Z.pow_le_mono_r; lia).
  change (2 ^ 32) with (256 ^ 4). lia.
Qed.

#[global] Arguments getb : simpl never.
#[global] Arguments putb : simpl never.
#[global] Arguments zblock : simpl never.
#[global] Opaque zblock.

(** ** The disk

    A block device holds [BSIZE]-byte blocks; writing one block changes that
    block and no other, atomically. *)
Class BlockDev := {
  disk : Type;
  dread : disk -> Z -> block;
  dwrite : disk -> Z -> block -> disk;
  dread_dwrite : forall d b b' v, dread (dwrite d b v) b' = if decide (b = b') then v else dread d b';
}.

Definition disk_ok `{BlockDev} (d : disk) : Prop := forall b, block_ok (dread d b).

Lemma disk_ok_write `{BlockDev} d b v : disk_ok d -> block_ok v -> disk_ok (dwrite d b v).
Proof. intros Hd Hv b'. rewrite dread_dwrite. by case_decide. Qed.

(** Blocks kept in a finite map, all zero to begin with. *)
#[program] Definition map_disk : BlockDev := {|
  disk := gmap Z block;
  dread m b := default zblock (m !! b);
  dwrite m b v := <[b := v]> m;
|}.
Next Obligation. intros m b b' v. simpl. rewrite lookup_insert. by case_decide. Qed.

Lemma putb_app off b1 b2 b :
  0 <= off -> off + Z.of_nat (length b1) + Z.of_nat (length b2) <= Z.of_nat (length b) ->
  putb (off + Z.of_nat (length b1)) b2 (putb off b1 b) = putb off (b1 ++ b2) b.
Proof.
  intros H0 Hl. apply list_eq. intros i.
  rewrite !putb_lookup by (rewrite ?putb_length, ?length_app by lia; lia). rewrite length_app.
  repeat case_decide; try lia.
  - rewrite lookup_app_r by lia. f_equal. lia.
  - rewrite lookup_app_l by lia. done.
  - done.
Qed.

Lemma putb_nil off b : 0 <= off <= Z.of_nat (length b) -> putb off [] b = b.
Proof. intros. unfold putb. simpl. rewrite Nat.add_0_r. apply take_drop. Qed.
