(* ===== verification/Sleeplock.v ===== *)
(** * kernel/sleeplock.c: locks held across sleeps

    A sleep lock is identified by a name and an index, [id]; the spinlock
    inside it and the channel its waiters sleep on carry the same identity.
    [me] is [myproc()->pid]. *)
From S2P Require Import Prelude Kmonad.

Record sleeplock := SleepLock { locked : Z; lpid : Z }.

#[global] Instance sleeplock_eq_dec : EqDecision sleeplock.
Proof. solve_decision. Defined.

(** The spinlock [lk->lk]. *)
Definition lk_lk (id : chan) : lockid := ("sleep lock " +:+ fst id, snd id).

Definition initsleeplock (id : chan) : K sleeplock unit :=
  initlock (lk_lk id) ;;
  modify (fun _ => SleepLock 0 0).

Definition acquiresleep (id : chan) (me : Z) : K sleeplock unit :=
  acquire (lk_lk id) ;;
  l <- gets locked ;;
  if negb (l =? 0) then sleep id (lk_lk id)
  else
    modify (fun _ => SleepLock 1 me) ;;
    release (lk_lk id).

Definition releasesleep (id : chan) : K sleeplock unit :=
  acquire (lk_lk id) ;;
  modify (fun _ => SleepLock 0 0) ;;
  wakeup id ;;
  release (lk_lk id).

Definition holdingsleep (id : chan) (me : Z) : K sleeplock bool :=
  acquire (lk_lk id) ;;
  lk <- get ;;
  let r := negb (locked lk =? 0) && (lpid lk =? me) in
  release (lk_lk id) ;;
  ret r.

Section sleeplock.
Context (id : chan) (me : Z).
Implicit Types (c : ctx) (lk : sleeplock).

Lemma acquiresleep_spec c lk Q :
  lk_lk id ∉ held c -> locked lk = 0 -> Q tt c (SleepLock 1 me) -> wp (acquiresleep id me) Q c lk.
Proof.
  intros Hc Hl HQ. unfold acquiresleep. kstep. apply wp_acquire; [done|]. kstep. kstep.
  rewrite Hl. simpl. ksteps. by destruct c.
Qed.

Lemma acquiresleep_sleeps c lk :
  held c = [] -> locked lk <> 0 -> acquiresleep id me c lk = Asleep id c lk.
Proof.
  intros Hc Hl. destruct c as [h w]; simpl in Hc; subst h.
  unfold acquiresleep, bind, acquire. simpl. rewrite (proj2 (Z.eqb_neq _ 0)) by done. simpl.
  unfold sleep; simpl. rewrite bool_decide_true by (by left). by rewrite decide_True.
Qed.

Lemma releasesleep_spec c lk Q :
  lk_lk id ∉ held c -> Q tt (Ctx (held c) (woken c ++ [id])) (SleepLock 0 0) ->
  wp (releasesleep id) Q c lk.
Proof. intros Hc HQ. unfold releasesleep. kstep. apply wp_acquire; [done|]. ksteps. done. Qed.

Lemma holdingsleep_spec c lk Q :
  lk_lk id ∉ held c -> Q (negb (locked lk =? 0) && (lpid lk =? me)) c lk ->
  wp (holdingsleep id me) Q c lk.
Proof.
  intros Hc HQ. unfold holdingsleep. kstep. apply wp_acquire; [done|]. ksteps. by destruct c.
Qed.
End sleeplock.
