(* ===== verification/Bio.v ===== *)
(** * kernel/bio.c: the buffer cache

    The cache is the array of [NBUF] buffers and the list head, linked in
    order of use through [prev] and [next]; a pointer to a buffer is its
    index, and the head has index [NBUF].  [disk_rw] is what the cache sees of
    the disk driver: the transfer of one block, after which [b->disk] is 0;
    the sequence of the writes is kept for reasoning about crashes. *)
From S2P Require Import Prelude Kmonad Riscv Mem Block Sleeplock.

Record buf := Buf {
  valid : Z;        (** has data been read from disk? *)
  bdisk : Z;        (** does disk "own" buf? *)
  bdev : Z;
  blockno : Z;
  block_lk : sleeplock;
  refcnt : Z;
  prev : nat;
  next : nat;
  data : block;
}.

#[global] Instance buf_inhabited : Inhabited buf :=
  populate (Buf 0 0 0 0 (SleepLock 0 0) 0 0 0 zblock).

Definition set_valid v b := Buf v (bdisk b) (bdev b) (blockno b) (block_lk b) (refcnt b) (prev b) (next b) (data b).
Definition set_id d n b := Buf (valid b) (bdisk b) d n (block_lk b) (refcnt b) (prev b) (next b) (data b).
Definition set_lk l b := Buf (valid b) (bdisk b) (bdev b) (blockno b) l (refcnt b) (prev b) (next b) (data b).
Definition set_refcnt r b := Buf (valid b) (bdisk b) (bdev b) (blockno b) (block_lk b) r (prev b) (next b) (data b).
Definition set_prev p b := Buf (valid b) (bdisk b) (bdev b) (blockno b) (block_lk b) (refcnt b) p (next b) (data b).
Definition set_next n b := Buf (valid b) (bdisk b) (bdev b) (blockno b) (block_lk b) (refcnt b) (prev b) n (data b).
Definition set_data d b := Buf (valid b) (bdisk b) (bdev b) (blockno b) (block_lk b) (refcnt b) (prev b) (next b) d.

Section bio.
Context {D : BlockDev}.

Record bstate := Bst {
  bufs : list buf;                 (** [bcache.buf] and, last, [bcache.head] *)
  dsk : disk;
  dwrites : list (Z * block);      (** the disk writes so far, in order *)
}.

Definition nbuf : nat := Z.to_nat NBUF.
Definition bhead : nat := nbuf.

Definition buf_at (s : bstate) (i : nat) : buf := bufs s !!! i.
Definition upd_buf (i : nat) (f : buf -> buf) (s : bstate) : bstate :=
  Bst (<[i := f (buf_at s i)]> (bufs s)) (dsk s) (dwrites s).

Definition bcache_lock : lockid := ("bcache", 0).
Definition buf_lk (i : nat) : chan := ("buffer", Z.of_nat i).

(** Operations on the sleep lock of buffer [i]. *)
Definition on_lk {A} (i : nat) (m : K sleeplock A) : K bstate A :=
  zoom (fun s => block_lk (buf_at s i)) (fun lk => upd_buf i (set_lk lk)) m.

Definition mod_buf (i : nat) (f : buf -> buf) : K bstate unit := modify (upd_buf i f).
Definition get_buf {A} (i : nat) (f : buf -> A) : K bstate A := gets (fun s => f (buf_at s i)).

(** The contract of [virtio_disk_rw]. *)
Definition disk_rw (i : nat) (write : bool) : K bstate unit :=
  modify (fun s =>
    let b := buf_at s i in
    if write then Bst (bufs s) (dwrite (dsk s) (blockno b) (data b)) (dwrites s ++ [(blockno b, data b)])
    else upd_buf i (set_data (dread (dsk s) (blockno b))) s).

Definition binit : K bstate unit :=
  initlock bcache_lock ;;
  mod_buf bhead (set_prev bhead) ;;
  mod_buf bhead (set_next bhead) ;;
  loop (nbuf + 1) (fun b =>
    if (b <? nbuf)%nat then
      n <- get_buf bhead next ;; mod_buf b (set_next n) ;;
      mod_buf b (set_prev bhead) ;;
      on_lk b (initsleeplock (buf_lk b)) ;;
      n <- get_buf bhead next ;; mod_buf n (set_prev b) ;;
      mod_buf bhead (set_next b) ;;
      ret (inl (b + 1)%nat)
    else ret (inr tt)) O.

Section proc.
Context (me : Z).   (** [myproc()->pid] *)

Definition bget (dev bno : Z) : K bstate nat :=
  acquire bcache_lock ;;
  (* Is the block already cached? *)
  b0 <- get_buf bhead next ;;
  r <- loop (nbuf + 1) (fun b =>
    if (b =? bhead)%nat then ret (inr None)
    else
      x <- get_buf b id ;;
      if (bdev x =? dev) && (blockno x =? bno) then
        mod_buf b (set_refcnt (u32 (refcnt x + 1))) ;;
        release bcache_lock ;;
        on_lk b (acquiresleep (buf_lk b) me) ;;
        ret (inr (Some b))
      else ret (inl (next x))) b0 ;;
  match r with
  | Some b => ret b
  | None =>
      (* Not cached: recycle the least recently used unused buffer. *)
      b0 <- get_buf bhead prev ;;
      loop (nbuf + 1) (fun b =>
        if (b =? bhead)%nat then panic "bget: no buffers"
        else
          x <- get_buf b id ;;
          if refcnt x =? 0 then
            mod_buf b (set_id dev bno) ;;
            mod_buf b (set_valid 0) ;;
            mod_buf b (set_refcnt 1) ;;
            release bcache_lock ;;
            on_lk b (acquiresleep (buf_lk b) me) ;;
            ret (inr b)
          else ret (inl (prev x))) b0
  end.

Definition bread (dev bno : Z) : K bstate nat :=
  b <- bget dev bno ;;
  v <- get_buf b valid ;;
  when (v =? 0) (disk_rw b false ;; mod_buf b (set_valid 1)) ;;
  ret b.

Definition bwrite (b : nat) : K bstate unit :=
  h <- on_lk b (holdingsleep (buf_lk b) me) ;;
  if negb h then panic "bwrite" else disk_rw b true.

(** Unlinks buffer [b] and puts it at the front of the list. *)
Definition relink (b : nat) : K bstate unit :=
  bn <- get_buf b next ;; bp <- get_buf b prev ;;
  mod_buf bn (set_prev bp) ;;
  bp <- get_buf b prev ;; bn <- get_buf b next ;;
  mod_buf bp (set_next bn) ;;
  hn <- get_buf bhead next ;;
  mod_buf b (set_next hn) ;;
  mod_buf b (set_prev bhead) ;;
  hn <- get_buf bhead next ;;
  mod_buf hn (set_prev b) ;;
  mod_buf bhead (set_next b).

Definition brelse (b : nat) : K bstate unit :=
  h <- on_lk b (holdingsleep (buf_lk b) me) ;;
  if negb h then panic "brelse"
  else
    on_lk b (releasesleep (buf_lk b)) ;;
    acquire bcache_lock ;;
    r <- get_buf b refcnt ;;
    mod_buf b (set_refcnt (u32 (r - 1))) ;;
    r <- get_buf b refcnt ;;
    when (r =? 0) (relink b) ;;   (* no one is waiting for it *)
    release bcache_lock.

Definition bpin (b : nat) : K bstate unit :=
  acquire bcache_lock ;;
  r <- get_buf b refcnt ;;
  mod_buf b (set_refcnt (u32 (r + 1))) ;;
  release bcache_lock.

Definition bunpin (b : nat) : K bstate unit :=
  acquire bcache_lock ;;
  r <- get_buf b refcnt ;;
  mod_buf b (set_refcnt (u32 (r - 1))) ;;
  release bcache_lock.
End proc.
End bio.

#[global] Opaque nbuf.
