(* ===== verification/BioRing.v ===== *)
(** * The ring of buffers

    The buffers of bio.c form a doubly linked ring through the list head.
    [seg nx pv x l y]: following [nx] from [x] one meets the nodes of [l] and
    then [y], and [pv] leads back. *)
From S2P Require Import Prelude Kmonad.

Section ring.
Implicit Types (nx pv : nat -> nat) (x y h b : nat) (l : list nat).

Fixpoint seg nx pv x l y : Prop :=
  match l with
  | [] => nx x = y /\ pv y = x
  | z :: l => nx x = z /\ pv z = x /\ seg nx pv z l y
  end.

Definition fupd (f : nat -> nat) (i v : nat) : nat -> nat := fun j => if decide (i = j) then v else f j.

Lemma fupd_eq f i v : fupd f i v i = v.
Proof. unfold fupd. by rewrite decide_True. Qed.
Lemma fupd_ne f i j v : i <> j -> fupd f i v j = f j.
Proof. intros. unfold fupd. by rewrite decide_False. Qed.

Lemma fupd_ext f g i v j : f j = g j -> fupd f i v j = fupd g i v j.
Proof. intros H. unfold fupd. by rewrite H. Qed.

Lemma seg_ext nx pv nx' pv' x l y :
  (forall z, z ∈ x :: l -> nx' z = nx z) -> (forall z, z ∈ l ++ [y] -> pv' z = pv z) ->
  seg nx pv x l y -> seg nx' pv' x l y.
Proof.
  revert x. induction l as [|z l IH]; intros x Hn Hp; simpl.
  - rewrite Hn, Hp by set_solver. done.
  - rewrite Hn, Hp by set_solver. intros (-> & -> & Hs). split_and!; [done..|].
    apply IH; [set_solver..|done].
Qed.

Lemma seg_app nx pv x l1 z l2 y :
  seg nx pv x (l1 ++ z :: l2) y <-> seg nx pv x l1 z /\ seg nx pv z l2 y.
Proof. revert x. induction l1 as [|w l1 IH]; intros x; simpl; [tauto|]. rewrite IH. tauto. Qed.

Lemma seg_rev nx pv x l y : seg nx pv x l y -> seg pv nx y (rev l) x.
Proof.
  revert x. induction l as [|z l IH]; intros x; simpl; [tauto|].
  intros (? & ? & H). apply seg_app. split; [by apply IH|]. simpl. done.
Qed.

Lemma seg_nx_in nx pv x l y : seg nx pv x l y -> nx x ∈ l ++ [y].
Proof. destruct l; simpl; [intros [-> _]|intros (-> & _)]; set_solver. Qed.

Lemma seg_pv_in nx pv x l y : seg nx pv x l y -> pv y ∈ x :: l.
Proof.
  revert x. induction l as [|z l IH]; intros x; simpl; [intros [_ ->]; set_solver|].
  intros (_ & _ & H). apply IH in H. set_solver.
Qed.

(** Taking a node out. *)
Lemma seg_unlink nx pv x l1 b l2 y :
  seg nx pv x (l1 ++ b :: l2) y -> NoDup (x :: l1 ++ b :: l2) -> y ∉ l1 ++ b :: l2 ->
  seg (fupd nx (pv b) (nx b)) (fupd pv (nx b) (pv b)) x (l1 ++ l2) y.
Proof.
  rewrite seg_app. intros [H1 H2] Hnd Hy. revert x H1 Hnd.
  induction l1 as [|z l1 IH]; intros x H1 Hnd; simpl in *.
  - destruct H1 as [Hx Hb]. rewrite Hb. destruct l2 as [|n l2]; simpl in *.
    + destruct H2 as [-> Hyb]. by rewrite !fupd_eq.
    + destruct H2 as (-> & Hn & H2). rewrite !fupd_eq. split_and!; [done..|].
      eapply seg_ext; [| |exact H2].
      * intros z Hz. apply fupd_ne. apply NoDup_cons in Hnd as [Hnd _]. set_solver.
      * intros z Hz. apply fupd_ne. intros <-. apply NoDup_cons in Hnd as [_ Hnd].
        apply NoDup_cons in Hnd as [_ Hnd]. apply NoDup_cons in Hnd as [Hnd _]. set_solver.
  - destruct H1 as (Hx & Hz & H1). pose proof (seg_pv_in _ _ _ _ _ H1) as Hp.
    pose proof (seg_nx_in _ _ _ _ _ H2) as Hn.
    apply NoDup_cons in Hnd as [Hxn Hnd]. rewrite !fupd_ne.
    + split_and!; [done..|]. apply IH; [set_solver|done|done].
    + intros E. rewrite E in Hn. apply NoDup_cons in Hnd as [Hzn _]. set_solver.
    + intros E. rewrite E in Hp. set_solver.
Qed.

(** Putting a node right after the head. *)
Lemma seg_push nx pv h l b :
  seg nx pv h l h -> b ∉ l -> b <> h -> h ∉ l -> NoDup l ->
  seg (fupd (fupd nx b (nx h)) h b) (fupd (fupd pv b h) (nx h) b) h (b :: l) h.
Proof.
  intros H Hb Hne Hh Hnd. pose proof (seg_nx_in _ _ _ _ _ H) as Hin. simpl.
  rewrite fupd_eq. rewrite (fupd_ne _ (nx h) b), fupd_eq by set_solver.
  split_and!; [done..|]. destruct l as [|z l]; simpl in *.
  - destruct H as [-> _]. rewrite fupd_ne, !fupd_eq by done. done.
  - destruct H as (-> & Hz & H). rewrite fupd_ne, !fupd_eq by done. split_and!; [done..|].
    apply NoDup_cons in Hnd as [Hnz _].
    eapply seg_ext; [| |exact H]; intros w Hw; rewrite !fupd_ne; [done|set_solver..].
Qed.
End ring.
