(* ===== verification/BioCache.v ===== *)
(** * The buffer cache is coherent

    Invariant of the cache, and the effect of [bread], [bwrite], [brelse],
    [bpin] and [bunpin] on it: at most one buffer per block, the ring ordered
    by use, and unused buffers always equal to the disk, so that recycling
    one loses nothing. *)
From S2P Require Import Prelude Kmonad Riscv Mem Block Sleeplock Bio BioRing.

Section cache.
Context {D : BlockDev}.
Implicit Types (s : bstate) (order l : list nat) (i j b : nat).

Definition nx s i := next (buf_at s i).
Definition pv s i := prev (buf_at s i).

Definition is_block (bno : Z) (x : buf) : Prop := bdev x = ROOTDEV /\ blockno x = bno.
#[global] Instance is_block_dec bno x : Decision (is_block bno x).
Proof. unfold is_block. apply _. Defined.

Record bio_inv s order : Prop := {
  bi_len : length (bufs s) = S nbuf;
  bi_ring : seg (nx s) (pv s) bhead order bhead;
  bi_perm : order ≡ₚ seq 0 nbuf;
  bi_uniq : forall i j bno, (i < nbuf)%nat -> (j < nbuf)%nat ->
    is_block bno (buf_at s i) -> is_block bno (buf_at s j) -> i = j;
  bi_ref : forall i, (i < nbuf)%nat -> 0 <= refcnt (buf_at s i) < 2 ^ 31;
  bi_lock : forall i, (i < nbuf)%nat -> locked (block_lk (buf_at s i)) <> 0 -> 0 < refcnt (buf_at s i);
  bi_clean : forall i, (i < nbuf)%nat -> bdev (buf_at s i) = ROOTDEV -> valid (buf_at s i) <> 0 ->
    refcnt (buf_at s i) = 0 -> data (buf_at s i) = dread (dsk s) (blockno (buf_at s i));
  bi_data : forall i, (i < nbuf)%nat -> block_ok (data (buf_at s i));
  bi_disk : disk_ok (dsk s);
}.

(** ** Reading and updating buffers *)

Lemma buf_at_upd s i f j :
  (i < length (bufs s))%nat ->
  buf_at (upd_buf i f s) j = if decide (i = j) then f (buf_at s i) else buf_at s j.
Proof. intros Hi. unfold buf_at at 1. simpl. by rewrite list_insert_total. Qed.

Lemma upd_buf_len s i f : length (bufs (upd_buf i f s)) = length (bufs s).
Proof. apply length_insert. Qed.

Lemma upd_buf_upd s i f g :
  (i < length (bufs s))%nat -> upd_buf i g (upd_buf i f s) = upd_buf i (fun x => g (f x)) s.
Proof.
  intros Hi. unfold upd_buf at 1. rewrite buf_at_upd, decide_True by done.
  unfold upd_buf. simpl. by rewrite list_insert_insert_eq.
Qed.

Lemma order_spec s order i : bio_inv s order -> i ∈ order <-> (i < nbuf)%nat.
Proof. intros H. rewrite (bi_perm _ _ H), elem_of_seq. lia. Qed.

Lemma order_nodup s order : bio_inv s order -> NoDup order.
Proof. intros H. rewrite (bi_perm _ _ H). apply NoDup_seq. Qed.

Lemma order_len s order : bio_inv s order -> length order = nbuf.
Proof. intros H. rewrite (bi_perm _ _ H). apply length_seq. Qed.

Lemma head_not_in s order : bio_inv s order -> bhead ∉ order.
Proof. intros H. rewrite (order_spec _ _ _ H). unfold bhead. lia. Qed.

(** ** Searching the ring *)

(** The loops of [bget]: run through the ring in the direction [dir] until
    the test holds. *)
Lemma ring_search {R} (dir back : nat -> nat) (p : buf -> bool) (E : K bstate (nat + R))
    (F : nat -> buf -> K bstate (nat + R)) (nxt : buf -> nat) (Q : R -> ctx -> bstate -> Prop)
    l x fuel c s :
  (forall i, dir i = nxt (buf_at s i)) ->
  seg dir back x l bhead -> bhead ∉ l -> (length l < fuel)%nat ->
  (forall l1 i l2, l = l1 ++ i :: l2 -> p (buf_at s i) = true -> (forall j, j ∈ l1 -> p (buf_at s j) = false) ->
     wp (F i (buf_at s i)) (fun r c' s' => match r with inr v => Q v c' s' | inl _ => False end) c s) ->
  ((forall j, j ∈ l -> p (buf_at s j) = false) ->
     wp E (fun r c' s' => match r with inr v => Q v c' s' | inl _ => False end) c s) ->
  wp (loop fuel (fun b => if (b =? bhead)%nat then E
        else x <- get_buf b id ;; if p x then F b x else ret (inl (nxt x))) (dir x)) Q c s.
Proof.
  intros Hdir. revert x fuel. induction l as [|z l IH]; intros x fuel Hs Hh Hf HF HE;
    (destruct fuel as [|fuel]; [simpl in Hf; lia|]); cbn [loop]; simpl in Hs.
  - destruct Hs as [-> _]. rewrite Nat.eqb_refl. kstep.
    eapply wp_mono; [apply HE; set_solver|]. intros [?|v] c' s' Hv; [done|by kstep].
  - destruct Hs as (-> & _ & Hs). rewrite (proj2 (Nat.eqb_neq z bhead)) by set_solver.
    unfold get_buf. kstep. kstep. kstep. unfold id. destruct (p (buf_at s z)) eqn:Hp.
    + eapply wp_mono; [apply (HF [] z l); [done|done|set_solver]|].
      intros [?|v] c' s' Hv; [done|by kstep].
    + kstep. rewrite <- Hdir. apply IH; [done|set_solver|simpl in Hf; lia| |].
      * intros l1 i l2 -> Hi Hl1. apply (HF (z :: l1) i l2); [done|done|].
        intros j [->|Hj]%elem_of_cons; [done|by apply Hl1].
      * intros Hl. apply HE. intros j [->|Hj]%elem_of_cons; [done|by apply Hl].
Qed.

(** ** Getting a buffer *)

(** No spinlock of the cache is held. *)
Definition bio_free (c : ctx) : Prop :=
  bcache_lock ∉ held c /\ forall i, lk_lk (buf_lk i) ∉ held c.

Definition lock_by (me : Z) (x : buf) : buf := set_lk (SleepLock 1 me) x.

Lemma wp_acquirebuf me i c s (Q : unit -> ctx -> bstate -> Prop) :
  lk_lk (buf_lk i) ∉ held c -> locked (block_lk (buf_at s i)) = 0 ->
  Q tt c (upd_buf i (lock_by me) s) -> wp (on_lk i (acquiresleep (buf_lk i) me)) Q c s.
Proof. intros Hc Hl HQ. apply wp_zoom. by apply acquiresleep_spec. Qed.

Context (me : Z).

(** The block is cached: take a reference to its buffer. *)
Lemma bget_cached s order i bno c :
  bio_inv s order -> (i < nbuf)%nat -> is_block bno (buf_at s i) ->
  locked (block_lk (buf_at s i)) = 0 -> bio_free c ->
  wp (bget me ROOTDEV bno) (fun b c' s' => b = i /\ c' = c /\
    s' = upd_buf i (fun x => lock_by me (set_refcnt (refcnt x + 1) x)) s) c s.
Proof.
  intros Hi Hlt Hb Hl [Hc Hlk]. unfold bget. kstep. apply wp_acquire; [done|]. unfold get_buf at 1. kstep. kstep.
  kstep. change (next (buf_at s bhead)) with (nx s bhead).
  eapply (ring_search (nx s) (pv s) (fun x => (bdev x =? ROOTDEV) && (blockno x =? bno))); [done|apply Hi|by eapply head_not_in|rewrite (order_len _ _ Hi); lia|..].
  - intros l1 j l2 Ho Hp Hl1. apply andb_true_iff in Hp as [H1%Z.eqb_eq H2%Z.eqb_eq].
    assert (j < nbuf)%nat as Hj by (apply (order_spec _ _ _ Hi); rewrite Ho; set_solver).
    assert (j = i) as -> by (by eapply (bi_uniq _ _ Hi j i bno)).
    pose proof (bi_ref _ _ Hi i Hlt). unfold mod_buf. ksteps. rewrite u32_id by lia.
    assert (i < length (bufs s))%nat as Hil by (rewrite (bi_len _ _ Hi); lia).
    apply wp_acquirebuf; [by apply Hlk|by rewrite buf_at_upd, decide_True|]. ksteps.
    split_and!; [done|by destruct c|]. rewrite upd_buf_upd by done. unfold upd_buf. done.
  - intros Hno. exfalso. assert (i ∈ order) as Hin by (by apply (order_spec _ _ _ Hi)).
    pose proof (Hno i Hin) as Hf. destruct Hb as [E1 E2]. by rewrite E1, E2, !Z.eqb_refl in Hf.
Qed.

(** The least recently used unused buffer. *)
Definition lru s order i : Prop := exists l1 l2,
  order = l1 ++ i :: l2 /\ refcnt (buf_at s i) = 0 /\ forall j, j ∈ l2 -> refcnt (buf_at s j) <> 0.

Lemma rev_split (l l1 l2 : list nat) i : rev l = l1 ++ i :: l2 -> l = rev l2 ++ i :: rev l1.
Proof. intros E. rewrite <- (rev_involutive l), E, rev_app_distr. simpl. by rewrite <- app_assoc. Qed.

Definition reuse (bno : Z) (x : buf) : buf :=
  lock_by me (set_refcnt 1 (set_valid 0 (set_id ROOTDEV bno x))).

(** The block is not cached: recycle a buffer. *)
Lemma bget_recycle s order bno c :
  bio_inv s order -> (forall i, (i < nbuf)%nat -> ~ is_block bno (buf_at s i)) ->
  (exists i, (i < nbuf)%nat /\ refcnt (buf_at s i) = 0) -> bio_free c ->
  wp (bget me ROOTDEV bno) (fun b c' s' => lru s order b /\ c' = c /\ s' = upd_buf b (reuse bno) s) c s.
Proof.
  intros Hi Hno (k & Hk & Hk0) [Hc Hlk]. unfold bget. kstep. apply wp_acquire; [done|]. unfold get_buf at 1.
  kstep. kstep. kstep. change (next (buf_at s bhead)) with (nx s bhead).
  pose proof (head_not_in _ _ Hi) as Hh. pose proof (order_len _ _ Hi) as Hlen.
  eapply (ring_search (nx s) (pv s) (fun x => (bdev x =? ROOTDEV) && (blockno x =? bno))); [done|apply Hi|done|lia|..].
  { intros l1 j l2 Ho Hp _. apply andb_true_iff in Hp as [H1%Z.eqb_eq H2%Z.eqb_eq].
    exfalso. apply (Hno j); [|done]. apply (order_spec _ _ _ Hi). rewrite Ho. set_solver. }
  intros _. kstep. unfold get_buf at 1. kstep. kstep. change (prev (buf_at s bhead)) with (pv s bhead).
  eapply (ring_search (pv s) (nx s) (fun x => refcnt x =? 0)); [done|apply seg_rev, Hi| | |..].
  - by rewrite list_elem_of_In, <- in_rev, <- list_elem_of_In.
  - rewrite length_rev. lia.
  - intros l1 j l2 Ho Hp%Z.eqb_eq Hl1. apply rev_split in Ho.
    assert (j < nbuf)%nat as Hj by (apply (order_spec _ _ _ Hi); rewrite Ho; set_solver).
    assert (j < length (bufs s))%nat as Hjl by (rewrite (bi_len _ _ Hi); lia).
    assert (locked (block_lk (buf_at s j)) = 0) as Hl.
    { destruct (decide (locked (block_lk (buf_at s j)) = 0)) as [|Hn]; [done|].
      apply (bi_lock _ _ Hi) in Hn; [lia|done]. }
    unfold mod_buf. ksteps. rewrite !upd_buf_upd by (by rewrite ?upd_buf_len).
    apply wp_acquirebuf; [by apply Hlk|by rewrite buf_at_upd, decide_True|]. ksteps.
    split_and!; [|by destruct c|by rewrite upd_buf_upd].
    exists (rev l2), (rev l1). split_and!; [done..|]. intros i Hin.
    apply Z.eqb_neq, Hl1. by rewrite list_elem_of_In, <- in_rev, <- list_elem_of_In in Hin.
  - intros Hall. exfalso. assert (k ∈ rev order) as Hin.
    { rewrite list_elem_of_In, <- in_rev, <- list_elem_of_In. by apply (order_spec _ _ _ Hi). }
    apply Hall in Hin. by rewrite Hk0 in Hin.
Qed.

(** ** The cache seen block by block *)

Fixpoint find_from (n : nat) s (bno : Z) : option nat :=
  match n with
  | O => None
  | S n => if (bdev (buf_at s n) =? ROOTDEV) && (blockno (buf_at s n) =? bno) then Some n
           else find_from n s bno
  end.

Definition find_buf := find_from nbuf.

(** The contents of a block as [bread] delivers them. *)
Definition view s (bno : Z) : block :=
  match find_buf s bno with
  | Some i => if valid (buf_at s i) =? 0 then dread (dsk s) bno else data (buf_at s i)
  | None => dread (dsk s) bno
  end.

(** References to a block, and whether some process has it locked. *)
Definition refs s (bno : Z) : Z :=
  match find_buf s bno with Some i => refcnt (buf_at s i) | None => 0 end.
Definition busy s (bno : Z) : Prop :=
  match find_buf s bno with Some i => locked (block_lk (buf_at s i)) <> 0 | None => False end.

(** The number of unused buffers. *)
Fixpoint free_from (n : nat) s : Z :=
  match n with O => 0 | S n => free_from n s + (if refcnt (buf_at s n) =? 0 then 1 else 0) end.
Definition free_cnt := free_from nbuf.

Lemma find_from_spec n s bno :
  match find_from n s bno with
  | Some i => (i < n)%nat /\ is_block bno (buf_at s i)
  | None => forall i, (i < n)%nat -> ~ is_block bno (buf_at s i)
  end.
Proof.
  induction n as [|n IH]; simpl; [intros; lia|].
  destruct (Z.eqb_spec (bdev (buf_at s n)) ROOTDEV), (Z.eqb_spec (blockno (buf_at s n)) bno); simpl;
    [split; [lia|done]|..]; destruct (find_from n s bno);
    try (destruct IH; split; [lia|done]); intros i Hi [??];
    (destruct (decide (i = n)) as [->|]; [done|apply (IH i); [lia|done]]).
Qed.

Lemma find_buf_some s order bno i :
  bio_inv s order -> (i < nbuf)%nat -> is_block bno (buf_at s i) -> find_buf s bno = Some i.
Proof.
  intros Hi Hlt Hb. pose proof (find_from_spec nbuf s bno) as H. unfold find_buf.
  destruct (find_from nbuf s bno) as [j|].
  - destruct H as [Hj Hbj]. f_equal. by eapply (bi_uniq _ _ Hi).
  - by destruct (H i).
Qed.

Lemma find_buf_none s bno :
  (forall i, (i < nbuf)%nat -> ~ is_block bno (buf_at s i)) -> find_buf s bno = None.
Proof.
  intros Hno. pose proof (find_from_spec nbuf s bno) as H. unfold find_buf.
  destruct (find_from nbuf s bno) as [j|]; [|done]. destruct H as [Hj Hb]. by destruct (Hno j).
Qed.

Lemma free_from_change n s s' i :
  (i < n)%nat -> (forall j, j <> i -> refcnt (buf_at s' j) = refcnt (buf_at s j)) ->
  free_from n s' = free_from n s - (if refcnt (buf_at s i) =? 0 then 1 else 0)
                   + (if refcnt (buf_at s' i) =? 0 then 1 else 0).
Proof.
  intros Hi Hs. induction n as [|n IH]; [lia|]. simpl. destruct (decide (i = n)) as [->|Hne].
  - assert (free_from n s' = free_from n s) as ->; [|lia].
    clear IH Hi. assert (forall k, (k <= n)%nat -> free_from k s' = free_from k s) as H; [|by apply H].
    induction k as [|k IHk]; simpl; [done|]. intros ?. rewrite IHk, Hs by lia. done.
  - rewrite IH by lia. rewrite (Hs n) by done. lia.
Qed.

Lemma free_cnt_pos s n : 0 < free_from n s -> exists i, (i < n)%nat /\ refcnt (buf_at s i) = 0.
Proof.
  induction n as [|n IH]; simpl; [lia|]. destruct (Z.eqb_spec (refcnt (buf_at s n)) 0).
  - exists n. split; [lia|done].
  - intros ?. destruct IH as (i & ? & ?); [lia|]. exists i. split; [lia|done].
Qed.

(** A step that changes one buffer, not its links, and not the disk. *)
Record changes1 s i s' : Prop := {
  ch_other : forall j, j <> i -> buf_at s' j = buf_at s j;
  ch_len : length (bufs s') = length (bufs s);
  ch_links : prev (buf_at s' i) = prev (buf_at s i) /\ next (buf_at s' i) = next (buf_at s i);
  ch_dsk : dsk s' = dsk s;
  ch_writes : dwrites s' = dwrites s;
}.

Lemma changes1_upd s i f :
  (i < length (bufs s))%nat -> (forall x, prev (f x) = prev x /\ next (f x) = next x) ->
  changes1 s i (upd_buf i f s).
Proof.
  intros Hi Hf. split; [|apply upd_buf_len| |done..].
  - intros j Hj. rewrite buf_at_upd, decide_False by done. done.
  - rewrite buf_at_upd, decide_True by done. apply Hf.
Qed.

Lemma changes1_links s i s' : changes1 s i s' -> (forall j, nx s' j = nx s j) /\ (forall j, pv s' j = pv s j).
Proof.
  intros H. split; intros j; unfold nx, pv; (destruct (decide (j = i)) as [->|Hj]; [apply H|by rewrite (ch_other _ _ _ H)]).
Qed.

Lemma changes1_inv s order i s' :
  bio_inv s order -> (i < nbuf)%nat -> changes1 s i s' ->
  let x := buf_at s' i in
  (bdev x = ROOTDEV -> forall j, (j < nbuf)%nat -> is_block (blockno x) (buf_at s j) -> j = i) ->
  0 <= refcnt x < 2 ^ 31 -> (locked (block_lk x) <> 0 -> 0 < refcnt x) ->
  (bdev x = ROOTDEV -> valid x <> 0 -> refcnt x = 0 -> data x = dread (dsk s) (blockno x)) ->
  block_ok (data x) -> bio_inv s' order.
Proof.
  intros Hi Hlt Hc x Hu Hr Hl Hcl Hd. destruct (changes1_links _ _ _ Hc) as [Hnx Hpv].
  pose proof (ch_other _ _ _ Hc) as Ho.
  split; [by rewrite (ch_len _ _ _ Hc); apply Hi| |apply Hi|..].
  - eapply seg_ext; [intros; by rewrite Hnx|intros; by rewrite Hpv|apply Hi].
  - intros j k bno Hj Hk Hbj Hbk.
    destruct (decide (j = i)) as [->|Hji], (decide (k = i)) as [->|Hki]; try done.
    + fold x in Hbj. destruct Hbj as [? <-]. rewrite (Ho k) in Hbk by done. symmetry. by apply Hu.
    + fold x in Hbk. destruct Hbk as [? <-]. rewrite (Ho j) in Hbj by done. by apply Hu.
    + rewrite (Ho j) in Hbj by done. rewrite (Ho k) in Hbk by done. by eapply (bi_uniq _ _ Hi).
  - intros j Hj. destruct (decide (j = i)) as [->|]; [done|]. rewrite Ho by done. by apply Hi.
  - intros j Hj. destruct (decide (j = i)) as [->|]; [done|]. rewrite Ho by done. by apply Hi.
  - intros j Hj. rewrite (ch_dsk _ _ _ Hc). destruct (decide (j = i)) as [->|]; [done|].
    rewrite Ho by done. by apply Hi.
  - intros j Hj. destruct (decide (j = i)) as [->|]; [done|]. rewrite Ho by done. by apply Hi.
  - rewrite (ch_dsk _ _ _ Hc). apply Hi.
Qed.

Lemma find_change s order s' order' i k :
  bio_inv s order -> bio_inv s' order' ->
  (forall j, j <> i -> is_block k (buf_at s' j) <-> is_block k (buf_at s j)) -> (i < nbuf)%nat ->
  find_buf s' k = if decide (is_block k (buf_at s' i)) then Some i
    else match find_buf s k with Some j => if decide (j = i) then None else Some j | None => None end.
Proof.
  intros Hi Hi' Ho Hlt. case_decide as E; [by eapply find_buf_some|].
  pose proof (find_from_spec nbuf s k) as H. fold (find_buf s k) in H.
  destruct (find_buf s k) as [j|].
  - destruct H as [Hj Hb]. case_decide as Ej; [subst j|].
    + apply find_buf_none. intros n Hn Hbn. destruct (decide (n = i)) as [->|Hni]; [done|].
      apply (Ho n Hni) in Hbn. apply Hni. by eapply (bi_uniq _ _ Hi).
    + eapply find_buf_some; [done..|]. by apply Ho.
  - apply find_buf_none. intros n Hn Hbn. destruct (decide (n = i)) as [->|Hni]; [done|].
    apply (H n Hn). by apply Ho.
Qed.

(** The process holds buffer [b], with the contents of block [bno]. *)
Definition holds s b (bno : Z) : Prop :=
  (b < nbuf)%nat /\ is_block bno (buf_at s b) /\ valid (buf_at s b) <> 0 /\
  block_lk (buf_at s b) = SleepLock 1 me.

Lemma holds_view s order b bno :
  bio_inv s order -> holds s b bno ->
  view s bno = data (buf_at s b) /\ refs s bno = refcnt (buf_at s b) /\ busy s bno /\ 0 < refs s bno.
Proof.
  intros Hi (Hb & Hbk & Hv & Hl). unfold view, refs, busy.
  rewrite (find_buf_some _ _ _ _ Hi Hb Hbk), (proj2 (Z.eqb_neq _ 0)) by done.
  split_and!; [done..|by rewrite Hl|]. apply (bi_lock _ _ Hi); [done|by rewrite Hl].
Qed.

(** [s'] differs from [s] in what is known of block [bno] only. *)
Definition same_blocks s s' (bno : Z) : Prop := forall k, k <> bno ->
  view s' k = view s k /\ refs s' k = refs s k /\ (busy s' k <-> busy s k) /\
  dread (dsk s') k = dread (dsk s) k.

(** Changing buffer [i], which holds [bno] before and after, or which was
    unused before. *)
Lemma same_blocks_keep s order s' order' i bno :
  bio_inv s order -> bio_inv s' order' -> (i < nbuf)%nat ->
  (forall j, j <> i -> set_prev O (set_next O (buf_at s' j)) = set_prev O (set_next O (buf_at s j))) ->
  is_block bno (buf_at s' i) -> (forall k, k <> bno -> dread (dsk s') k = dread (dsk s) k) ->
  is_block bno (buf_at s i) \/ refcnt (buf_at s i) = 0 ->
  same_blocks s s' bno.
Proof.
  intros Hi Hi' Hlt Ho [Hb1 Hb2] Hdk Hold k Hne. rewrite Hdk by done.
  unfold view, refs, busy. rewrite (find_change s order s' order' i k); try done.
  2: { intros j Hj. unfold is_block. specialize (Ho j Hj). injection Ho as ?? -> ->. done. }
  rewrite decide_False by (unfold is_block; intros [? ?]; congruence).
  pose proof (find_from_spec nbuf s k) as H. fold (find_buf s k) in H.
  destruct (find_buf s k) as [j|]; [|by rewrite Hdk]. destruct H as [Hj Hb]. case_decide as Ej.
  - subst j. destruct Hold as [[E1 E2]|Hr]; [destruct Hb; congruence|].
    rewrite Hr, Hdk by done. split_and!; [|done| |done].
    + destruct (Z.eqb_spec (valid (buf_at s i)) 0); [done|].
      symmetry. destruct Hb as [E1 E2]. rewrite <- E2. by apply (bi_clean _ _ Hi).
    + split; [done|]. intros Hl. apply (bi_lock _ _ Hi) in Hl; [lia|done].
  - specialize (Ho j Ej). injection Ho as -> ? ? ? -> -> ->. rewrite Hdk by done. done.
Qed.

(** ** bread *)

Record bread_post s order (bno : Z) b s' : Prop := {
  br_inv : bio_inv s' order;
  br_holds : holds s' b bno;
  br_view : view s' bno = view s bno;
  br_refs : refs s' bno = refs s bno + 1;
  br_same : same_blocks s s' bno;
  br_dsk : dsk s' = dsk s;
  br_writes : dwrites s' = dwrites s;
  br_free : free_cnt s' = free_cnt s - (if refs s bno =? 0 then 1 else 0);
  br_other : forall j, j <> b -> buf_at s' j = buf_at s j;
}.

Lemma bread_change s order bno i s' :
  bio_inv s order -> (i < nbuf)%nat -> changes1 s i s' -> holds s' i bno ->
  data (buf_at s' i) = view s bno -> refcnt (buf_at s' i) = refs s bno + 1 -> refs s bno < 2 ^ 31 - 1 ->
  find_buf s bno = Some i \/ find_buf s bno = None /\ refcnt (buf_at s i) = 0 ->
  bread_post s order bno i s'.
Proof.
  intros Hi Hlt Hc Hh Hd Hr Hmax Hold. pose proof Hh as (_ & [Hb1 Hb2] & Hv & Hl).
  assert (0 <= refs s bno) as Hr0.
  { unfold refs. destruct Hold as [->|[-> _]]; [apply Hi, Hlt|lia]. }
  assert (bio_inv s' order) as Hi'.
  { apply (changes1_inv s order i s' Hi Hlt Hc); rewrite ?Hd, ?Hr, ?Hl; simpl; try lia.
    - rewrite Hb2. intros _ j Hj Hbj. destruct Hold as [Ho|[Ho _]].
      + rewrite (find_buf_some _ _ _ _ Hi Hj Hbj) in Ho. congruence.
      + rewrite (find_buf_some _ _ _ _ Hi Hj Hbj) in Ho. done.
    - unfold view. destruct (find_buf s bno) as [j|] eqn:Ej; [|apply Hi].
      destruct Hold as [[= ->]|[? _]]; [|done]. destruct (_ =? 0); [apply Hi|by apply Hi]. }
  destruct (holds_view s' order i bno Hi' Hh) as (Hv' & Hr' & _).
  split; [done|done|congruence|congruence| |apply Hc|apply Hc| |apply Hc].
  - eapply same_blocks_keep; [done..| |done|by rewrite (ch_dsk _ _ _ Hc)|].
    + intros j Hj. by rewrite (ch_other _ _ _ Hc).
    + destruct Hold as [Ho|[_ ?]]; [left|by right].
      pose proof (find_from_spec nbuf s bno) as H. unfold find_buf in Ho. rewrite Ho in H. apply H.
  - unfold free_cnt. rewrite (free_from_change nbuf s s' i); [|done|intros; by rewrite (ch_other _ _ _ Hc)].
    rewrite Hr, (proj2 (Z.eqb_neq (_ + 1) 0)) by lia. unfold refs. destruct Hold as [->|[-> Hz]]; [lia|].
    rewrite Hz. simpl. lia.
Qed.

Lemma bread_spec s order bno c :
  bio_inv s order -> ~ busy s bno -> (refs s bno = 0 -> 0 < free_cnt s) -> refs s bno < 2 ^ 31 - 1 ->
  bio_free c ->
  wp (bread me ROOTDEV bno) (fun b c' s' => c' = c /\ bread_post s order bno b s') c s.
Proof.
  intros Hi Hnb Hfr Hmax Hc. unfold bread. kstep.
  assert (forall k, (k < nbuf)%nat -> (k < length (bufs s))%nat) as Hlen by (rewrite (bi_len _ _ Hi); lia).
  pose proof (find_from_spec nbuf s bno) as Hf. fold (find_buf s bno) in Hf.
  destruct (find_buf s bno) as [i|] eqn:Ef.
  - destruct Hf as [Hlt Hb]. assert (locked (block_lk (buf_at s i)) = 0) as Hl.
    { unfold busy in Hnb. rewrite Ef in Hnb. by destruct (decide (locked (block_lk (buf_at s i)) = 0)). }
    assert (refs s bno = refcnt (buf_at s i)) as Hre by (unfold refs; by rewrite Ef).
    eapply wp_mono; [by apply (bget_cached s order i bno c)|]. intros b c' s' (-> & -> & ->).
    unfold get_buf, disk_rw, mod_buf. ksteps. rewrite buf_at_upd, decide_True by auto.
    cbn [valid lock_by set_lk set_refcnt].
    destruct (Z.eqb_spec (valid (buf_at s i)) 0) as [Hv|Hv]; cbn [when]; ksteps; (split; [done|]).
    + rewrite buf_at_upd, decide_True by auto. rewrite !upd_buf_upd by (rewrite ?upd_buf_len; auto).
      apply bread_change; auto; try (by apply changes1_upd; auto).
      * repeat split; rewrite ?buf_at_upd, ?decide_True by auto; simpl; try done; apply Hb.
      * rewrite buf_at_upd, decide_True by auto. simpl. unfold view. rewrite Ef, Hv.
        simpl. f_equal. apply Hb.
      * rewrite buf_at_upd, decide_True, Hre by auto. done.
    + apply bread_change; auto; try (by apply changes1_upd; auto).
      * repeat split; rewrite ?buf_at_upd, ?decide_True by auto; simpl; try done; apply Hb.
      * rewrite buf_at_upd, decide_True by auto. simpl. unfold view. rewrite Ef.
        by rewrite (proj2 (Z.eqb_neq _ 0)).
      * rewrite buf_at_upd, decide_True, Hre by auto. done.
  - assert (refs s bno = 0) as Hr0 by (unfold refs; by rewrite Ef).
    eapply wp_mono; [apply (bget_recycle s order bno c); auto; by apply free_cnt_pos, Hfr|].
    intros b c' s' ((l1 & l2 & Ho & Hz & _) & -> & ->).
    assert (b < nbuf)%nat as Hlt by (apply (order_spec _ _ _ Hi); rewrite Ho; set_solver).
    unfold get_buf, disk_rw, mod_buf. ksteps. rewrite buf_at_upd, decide_True by auto. simpl. ksteps.
    rewrite buf_at_upd, decide_True by auto. rewrite !upd_buf_upd by (rewrite ?upd_buf_len; auto).
    split; [done|]. apply bread_change; auto; try (by apply changes1_upd; auto).
    + repeat split; rewrite ?buf_at_upd, ?decide_True by auto; simpl; done.
    + rewrite buf_at_upd, decide_True by auto. simpl. unfold view. by rewrite Ef.
    + rewrite buf_at_upd, decide_True, Hr0 by auto. done.
Qed.

(** ** Writing to a held buffer, and to the disk *)

(** A buffer without its links. *)
Definition core (x : buf) : buf := set_prev O (set_next O x).
Definition keeps b s s' : Prop := forall j, j <> b -> core (buf_at s' j) = core (buf_at s j).

Lemma holds_core s s' b j bno : core (buf_at s' j) = core (buf_at s j) -> holds s j bno -> holds s' j bno.
Proof.
  intros E (Hj & [H1 H2] & Hv & Hl). injection E as E1 E2 E3 E4 E5 E6 E7.
  split_and!; [done|split; congruence|congruence|congruence].
Qed.

Lemma setdata_spec s order b bno v c :
  bio_inv s order -> holds s b bno -> block_ok v ->
  wp (mod_buf b (set_data v)) (fun _ c' s' => c' = c /\ bio_inv s' order /\ holds s' b bno /\
    view s' bno = v /\ refs s' bno = refs s bno /\ same_blocks s s' bno /\ keeps b s s' /\
    dsk s' = dsk s /\ dwrites s' = dwrites s /\ free_cnt s' = free_cnt s) c s.
Proof.
  intros Hi Hh Hv. pose proof Hh as (Hb & Hbk & Hva & Hl). unfold mod_buf. kstep.
  assert (b < length (bufs s))%nat as Hlen by (rewrite (bi_len _ _ Hi); lia).
  assert (changes1 s b (upd_buf b (set_data v) s)) as Hc by (by apply changes1_upd).
  set (s' := upd_buf b (set_data v) s) in *.
  assert (buf_at s' b = set_data v (buf_at s b)) as Eb by (unfold s'; by rewrite buf_at_upd, decide_True).
  destruct (holds_view _ _ _ _ Hi Hh) as (_ & Hr & _ & Hpos).
  assert (bio_inv s' order) as Hi'.
  { apply (changes1_inv s order b s' Hi Hb Hc); rewrite ?Eb; simpl.
    - intros _ j Hj Hbj. eapply (bi_uniq _ _ Hi); [done|done|exact Hbj|]. split; [apply Hbk|done].
    - by apply Hi.
    - by apply Hi.
    - lia.
    - done. }
  assert (holds s' b bno) as Hh' by (split_and!; rewrite ?Eb; try done; apply Hbk).
  destruct (holds_view _ _ _ _ Hi' Hh') as (Hv' & Hr' & _). rewrite Eb in *. simpl in *.
  split_and!; try done; [congruence| | |].
  - eapply same_blocks_keep; [done..| | |done|by left].
    + intros j Hj. by rewrite (ch_other _ _ _ Hc).
    + rewrite Eb. done.
  - intros j Hj. by rewrite (ch_other _ _ _ Hc).
  - unfold free_cnt. rewrite (free_from_change nbuf s s' b); [|done|intros; by rewrite (ch_other _ _ _ Hc)].
    rewrite Eb. simpl. lia.
Qed.

Lemma wp_holdingbuf b c s (Q : bool -> ctx -> bstate -> Prop) :
  bio_free c -> (b < length (bufs s))%nat -> block_lk (buf_at s b) = SleepLock 1 me ->
  Q true c s -> wp (on_lk b (holdingsleep (buf_lk b) me)) Q c s.
Proof.
  intros [_ Hc] Hb Hl HQ. apply wp_zoom. apply holdingsleep_spec; [apply Hc|].
  rewrite Hl. simpl. rewrite Z.eqb_refl.
  replace (upd_buf b (set_lk (SleepLock 1 me)) s) with s; [done|].
  unfold upd_buf. rewrite <- Hl. destruct s as [bs d w]; simpl. f_equal. symmetry. apply list_insert_id.
  unfold buf_at; simpl in *. destruct (lookup_lt_is_Some_2 bs b Hb) as [x Hx].
  rewrite (list_lookup_total_correct _ _ _ Hx), Hx. by destruct x.
Qed.

Lemma bwrite_spec s order b bno c :
  bio_inv s order -> holds s b bno -> bio_free c ->
  wp (bwrite me b) (fun _ c' s' => c' = c /\ bio_inv s' order /\ holds s' b bno /\
    bufs s' = bufs s /\ (forall k, view s' k = view s k) /\
    dsk s' = dwrite (dsk s) bno (view s bno) /\ dwrites s' = dwrites s ++ [(bno, view s bno)]) c s.
Proof.
  intros Hi Hh Hc. pose proof Hh as (Hb & [Hbk1 Hbk2] & Hva & Hl). unfold bwrite. kstep.
  apply wp_holdingbuf; [done|rewrite (bi_len _ _ Hi); lia|done|]. simpl. unfold disk_rw. kstep.
  destruct (holds_view _ _ _ _ Hi Hh) as (Hv & Hr & _ & Hpos). rewrite Hv.
  split; [done|]. set (s' := Bst _ _ _).
  assert (forall j, buf_at s' j = buf_at s j) as Eb by done.
  assert (dsk s' = dwrite (dsk s) bno (data (buf_at s b))) as Ed by (simpl; by rewrite Hbk2).
  assert (dwrites s' = dwrites s ++ [(bno, data (buf_at s b))]) as Ew by (simpl; by rewrite Hbk2).
  split_and!; try done.
  - split; try apply Hi.
    + intros j Hj H1 H2 H3. rewrite Eb in *. simpl. rewrite dread_dwrite. case_decide as E; [|by apply Hi].
      assert (j = b) as ->; [|lia]. eapply (bi_uniq _ _ Hi j b); [done|done|by split|by split].
    + apply disk_ok_write; apply Hi. done.
  - intros k. unfold view. change (find_buf s' k) with (find_buf s k). simpl. rewrite dread_dwrite.
    pose proof (find_from_spec nbuf s k) as Hf. fold (find_buf s k) in Hf.
    destruct (find_buf s k) as [i|] eqn:Ef; [change (buf_at s' i) with (buf_at s i)|]; case_decide as E; try done.
    + assert (i = b) as -> by (eapply (bi_uniq _ _ Hi i b k); [apply Hf|done|apply Hf|split; congruence]).
      by rewrite (proj2 (Z.eqb_neq _ 0)).
    + exfalso. apply (Hf b Hb). split; congruence.
Qed.

(** ** Releasing a buffer *)

Lemma nx_upd_next s i v j : (i < length (bufs s))%nat -> nx (upd_buf i (set_next v) s) j = fupd (nx s) i v j.
Proof. intros. unfold nx, fupd. rewrite buf_at_upd by done. by case_decide. Qed.
Lemma nx_upd_prev s i v j : (i < length (bufs s))%nat -> nx (upd_buf i (set_prev v) s) j = nx s j.
Proof. intros. unfold nx. rewrite buf_at_upd by done. case_decide; by subst. Qed.
Lemma pv_upd_next s i v j : (i < length (bufs s))%nat -> pv (upd_buf i (set_next v) s) j = pv s j.
Proof. intros. unfold pv. rewrite buf_at_upd by done. case_decide; by subst. Qed.
Lemma pv_upd_prev s i v j : (i < length (bufs s))%nat -> pv (upd_buf i (set_prev v) s) j = fupd (pv s) i v j.
Proof. intros. unfold pv, fupd. rewrite buf_at_upd by done. by case_decide. Qed.

Lemma core_upd s i f j :
  (i < length (bufs s))%nat -> (forall x, core (f x) = core x) ->
  core (buf_at (upd_buf i f s) j) = core (buf_at s j).
Proof. intros Hi Hf. rewrite buf_at_upd by done. case_decide; subst; [apply Hf|done]. Qed.

Lemma core_inv s order s' order' :
  bio_inv s order -> (forall j, core (buf_at s' j) = core (buf_at s j)) ->
  length (bufs s') = length (bufs s) -> dsk s' = dsk s ->
  seg (nx s') (pv s') bhead order' bhead -> order' ≡ₚ order -> bio_inv s' order'.
Proof.
  intros Hi Hc Hl Hd Hs Hp.
  assert (forall j, valid (buf_at s' j) = valid (buf_at s j) /\ bdev (buf_at s' j) = bdev (buf_at s j) /\
    blockno (buf_at s' j) = blockno (buf_at s j) /\ block_lk (buf_at s' j) = block_lk (buf_at s j) /\
    refcnt (buf_at s' j) = refcnt (buf_at s j) /\ data (buf_at s' j) = data (buf_at s j)) as He.
  { intros j. specialize (Hc j). injection Hc. tauto. }
  split; [by rewrite Hl; apply Hi|done|by rewrite Hp; apply Hi|..].
  - intros i j bno Hlt Hlt'. unfold is_block. destruct (He i) as (_ & -> & -> & _).
    destruct (He j) as (_ & -> & -> & _). by apply Hi.
  - intros i Hlt. destruct (He i) as (_ & _ & _ & _ & -> & _). by apply Hi.
  - intros i Hlt. destruct (He i) as (_ & _ & _ & -> & -> & _). by apply Hi.
  - intros i Hlt. destruct (He i) as (-> & -> & -> & _ & -> & ->). rewrite Hd. by apply Hi.
  - intros i Hlt. destruct (He i) as (_ & _ & _ & _ & _ & ->). by apply Hi.
  - rewrite Hd. apply Hi.
Qed.

Lemma relink_spec s l1 b l2 c :
  bio_inv s (l1 ++ b :: l2) ->
  wp (relink b) (fun _ c' s' => c' = c /\ bio_inv s' (b :: l1 ++ l2) /\
    (forall j, core (buf_at s' j) = core (buf_at s j)) /\ dsk s' = dsk s /\ dwrites s' = dwrites s) c s.
Proof.
  intros Hi. set (order := l1 ++ b :: l2) in *. pose proof (bi_ring _ _ Hi) as Hring.
  pose proof (order_nodup _ _ Hi) as Hnd. pose proof (head_not_in _ _ Hi) as Hh.
  assert (order ≡ₚ b :: l1 ++ l2) as Hperm by (symmetry; apply Permutation_middle).
  assert (forall i, i ∈ order <-> i = b \/ i ∈ l1 \/ i ∈ l2) as Hin.
  { intros i. rewrite Hperm, elem_of_cons, elem_of_app. done. }
  assert (forall i, i = b \/ i ∈ l1 \/ i ∈ l2 \/ i = bhead -> (i < length (bufs s))%nat) as Hlen.
  { intros i Hio. rewrite (bi_len _ _ Hi). destruct (decide (i = bhead)) as [->|]; [unfold bhead; lia|].
    assert (i ∈ order) as Ho by (apply Hin; tauto). apply (order_spec _ _ _ Hi) in Ho. lia. }
  assert (b <> bhead) as Hbh by (intros E; apply Hh, Hin; auto).
  destruct (proj1 (seg_app _ _ _ _ _ _ _) Hring) as [Hs1 Hs2].
  pose proof (seg_nx_in _ _ _ _ _ Hs2) as Hn. pose proof (seg_pv_in _ _ _ _ _ Hs1) as Hp.
  pose proof (seg_unlink _ _ _ _ _ _ _ Hring ltac:(by constructor) Hh) as Hun.
  rewrite Hperm in Hnd. apply NoDup_cons in Hnd as [Hbn Hnd'].
  set (n := nx s b) in *. set (p := pv s b) in *.
  pose proof (seg_nx_in _ _ _ _ _ Hun) as Hhn.
  pose proof (seg_push _ _ _ _ b Hun Hbn Hbh
    ltac:(rewrite elem_of_app; intros E; apply Hh, Hin; tauto) Hnd') as Hpush.
  set (hn := fupd (nx s) p n bhead) in *. rewrite !elem_of_app in *. rewrite !elem_of_cons in *.
  rewrite !elem_of_nil in *.
  assert (n <> b) as Hnb by (intros E; rewrite E in Hn; tauto).
  assert (n < length (bufs s))%nat as Ln by (apply Hlen; tauto).
  assert (p < length (bufs s))%nat as Lp by (apply Hlen; tauto).
  assert (hn < length (bufs s))%nat as Lh by (apply Hlen; tauto).
  assert (b < length (bufs s))%nat as Lb by (apply Hlen; tauto).
  assert (bhead < length (bufs s))%nat as Lhd by (apply Hlen; tauto).
  unfold relink, get_buf, mod_buf. ksteps.
  change (next (buf_at s b)) with n. change (prev (buf_at s b)) with p.
  set (s1 := upd_buf n (set_prev p) s).
  change (prev (buf_at s1 b)) with (pv s1 b). change (next (buf_at s1 b)) with (nx s1 b).
  assert (pv s1 b = p) as -> by (unfold s1; rewrite pv_upd_prev by done; by rewrite fupd_ne).
  assert (nx s1 b = n) as -> by (unfold s1; by rewrite nx_upd_prev).
  set (s2 := upd_buf p (set_next n) s1). change (next (buf_at s2 bhead)) with (nx s2 bhead).
  assert (forall j, nx s2 j = fupd (nx s) p n j) as Hnx2.
  { intros j. unfold s2. rewrite nx_upd_next by (unfold s1; by rewrite upd_buf_len).
    unfold fupd, s1. case_decide; [done|]. by rewrite nx_upd_prev. }
  rewrite (Hnx2 bhead). fold hn.
  set (s3 := upd_buf b (set_next hn) s2). set (s4 := upd_buf b (set_prev bhead) s3).
  assert (length (bufs s2) = length (bufs s) /\ length (bufs s3) = length (bufs s) /\
    length (bufs s4) = length (bufs s)) as (E2 & E3 & E4) by (unfold s4, s3, s2, s1; by rewrite !upd_buf_len).
  change (next (buf_at s4 bhead)) with (nx s4 bhead).
  assert (nx s4 bhead = hn) as ->.
  { unfold s4, s3. rewrite nx_upd_prev, nx_upd_next, fupd_ne by (done || rewrite ?upd_buf_len, ?E2; done).
    apply Hnx2. }
  split; [done|]. set (s6 := upd_buf bhead _ _).
  assert (forall j, core (buf_at s6 j) = core (buf_at s j)) as Hcore.
  { intros j. unfold s6, s4, s3, s2, s1. rewrite !core_upd by (rewrite ?upd_buf_len; done). done. }
  split_and!; [|done..]. apply (core_inv s order); [done|done| |done| |].
  - unfold s6. by rewrite !upd_buf_len.
  - eapply seg_ext; [| |exact Hpush]; intros j _.
    + unfold s6, s4, s3. rewrite nx_upd_next by (rewrite !upd_buf_len, E2; done). apply fupd_ext.
      rewrite nx_upd_prev, nx_upd_prev, nx_upd_next by (rewrite ?upd_buf_len, ?E2; done).
      apply fupd_ext, Hnx2.
    + unfold s6, s4, s3. rewrite pv_upd_next, pv_upd_prev by (rewrite ?upd_buf_len, ?E2; done).
      apply fupd_ext. rewrite pv_upd_prev by (rewrite ?upd_buf_len, ?E2; done). apply fupd_ext.
      unfold s2, s1. by rewrite !pv_upd_next, pv_upd_prev by (rewrite ?upd_buf_len; done).
  - by rewrite Hperm.
Qed.

(** What an operation on the held buffer [b] does to the rest. *)
Record ref_change s b (bno dr : Z) s' : Prop := {
  rc_view : forall k, view s' k = view s k;
  rc_refs : refs s' bno = refs s bno + dr;
  rc_same : same_blocks s s' bno;
  rc_keeps : keeps b s s';
  rc_dsk : dsk s' = dsk s;
  rc_writes : dwrites s' = dwrites s;
  rc_free : free_cnt s' = free_cnt s - (if refs s bno =? 0 then 1 else 0) + (if refs s bno + dr =? 0 then 1 else 0);
  rc_buf : is_block bno (buf_at s' b) /\ refcnt (buf_at s' b) = refs s bno + dr;
}.

Lemma ref_change_intro s order s' order' b bno dr :
  bio_inv s order -> bio_inv s' order' -> holds s b bno -> keeps b s s' ->
  (is_block bno (buf_at s' b) /\ valid (buf_at s' b) = valid (buf_at s b) /\
   data (buf_at s' b) = data (buf_at s b) /\ refcnt (buf_at s' b) = refcnt (buf_at s b) + dr) ->
  dsk s' = dsk s -> dwrites s' = dwrites s -> ref_change s b bno dr s'.
Proof.
  intros Hi Hi' Hh Hk (Hb' & Hv' & Hd' & Hr') Hds Hw.
  destruct (holds_view _ _ _ _ Hi Hh) as (Hv & Hr & _ & Hpos). pose proof Hh as (Hb & Hbk & Hva & Hl).
  assert (same_blocks s s' bno) as Hsb.
  { eapply same_blocks_keep; [done..|by rewrite Hds|by left]. }
  assert (find_buf s' bno = Some b) as Ef by (by eapply find_buf_some).
  split; try done.
  - intros k. destruct (decide (k = bno)) as [->|]; [|by apply Hsb]. rewrite Hv. unfold view. rewrite Ef.
    by rewrite Hv', (proj2 (Z.eqb_neq _ 0)).
  - rewrite Hr, <- Hr'. unfold refs. by rewrite Ef.
  - unfold free_cnt. rewrite (free_from_change nbuf s s' b); [|done|].
    + by rewrite Hr', Hr.
    + intros j Hj. specialize (Hk j Hj). injection Hk. tauto.
  - by rewrite Hr.
Qed.

Lemma brelse_spec s order b bno c :
  bio_inv s order -> holds s b bno -> bio_free c ->
  (refs s bno = 1 -> view s bno = dread (dsk s) bno) ->
  wp (brelse me b) (fun _ c' s' => c' = Ctx (held c) (woken c ++ [buf_lk b]) /\
    (exists order', bio_inv s' order' /\
       (if decide (refs s bno = 1) then exists l1 l2, order = l1 ++ b :: l2 /\ order' = b :: l1 ++ l2
        else order' = order)) /\
    ref_change s b bno (-1) s' /\ ~ busy s' bno) c s.
Proof.
  intros Hi Hh Hc Hcl. pose proof Hh as (Hb & [Hbk1 Hbk2] & Hva & Hl). pose proof Hc as [Hc1 Hc2].
  destruct (holds_view _ _ _ _ Hi Hh) as (Hv & Hr & _ & Hpos).
  assert (b < length (bufs s))%nat as Hlen by (rewrite (bi_len _ _ Hi); lia).
  pose proof (bi_ref _ _ Hi b Hb) as Hrb.
  unfold brelse. kstep. apply wp_holdingbuf; [done|done|done|]. simpl. kstep.
  apply wp_zoom, releasesleep_spec; [apply Hc2|]. kstep. apply wp_acquire; [done|].
  unfold get_buf, mod_buf. ksteps. rewrite !(buf_at_upd s), !decide_True by done. simpl refcnt.
  rewrite u32_id by lia. rewrite upd_buf_upd by done. cbn [held woken].
  set (f := fun x => set_refcnt _ _). set (s1 := upd_buf b f s).
  assert (changes1 s b s1) as Hch by (by apply changes1_upd).
  assert (buf_at s1 b = f (buf_at s b)) as Eb by (unfold s1; by rewrite buf_at_upd, decide_True).
  rewrite Eb. assert (bio_inv s1 order) as Hi1.
  { apply (changes1_inv s order b s1 Hi Hb Hch); rewrite Eb; unfold f; simpl; try lia; try done.
    - intros _ j Hj Hbj. eapply (bi_uniq _ _ Hi); [done|done|exact Hbj|]. by split.
    - intros _ _ ?. rewrite <- Hv, Hcl by lia. by rewrite Hbk2.
    - by apply Hi. }
  assert (forall s', (forall j, core (buf_at s' j) = core (buf_at s1 j)) -> forall order', bio_inv s' order' ->
    dsk s' = dsk s1 -> dwrites s' = dwrites s1 -> ref_change s b bno (-1) s' /\ ~ busy s' bno) as Hfin.
  { intros s' Hcore order' Hi' Hd Hw. pose proof (Hcore b) as Ecb. rewrite Eb in Ecb.
    injection Ecb as E1 _ E3 E4 E5 E6 E7. split.
    - eapply ref_change_intro; try done.
      + intros j Hj. rewrite Hcore. by rewrite (ch_other _ _ _ Hch).
      + unfold is_block. rewrite E1, E3, E4, E6, E7. unfold f; simpl. split_and!; (done || lia).
    - unfold busy. erewrite (find_buf_some s' order' bno b); [|done|done|split; congruence]. rewrite E5. simpl. lia. }
  change (refcnt (f (buf_at s b))) with (refcnt (buf_at s b) - 1).
  destruct (Z.eqb_spec (refcnt (buf_at s b) - 1) 0) as [Hz|Hz]; cbn [when].
  - assert (b ∈ order) as Hin by (by apply (order_spec _ _ _ Hi)).
    apply list_elem_of_split in Hin as (l1 & l2 & ->).
    eapply wp_mono; [by apply relink_spec|]. intros [] c' s' (-> & Hi' & Hcore & Hd & Hw). kstep.
    split; [done|]. split; [|by eapply Hfin].
    eexists. split; [done|]. rewrite decide_True by lia. by eexists _, _.
  - ksteps. split; [done|]. split; [|by eapply Hfin]. exists order. split; [done|]. rewrite decide_False by lia. done.
Qed.

Lemma bpin_spec s order b bno c :
  bio_inv s order -> holds s b bno -> bcache_lock ∉ held c -> refs s bno < 2 ^ 31 - 1 ->
  wp (bpin b) (fun _ c' s' => c' = c /\ bio_inv s' order /\ holds s' b bno /\ ref_change s b bno 1 s') c s.
Proof.
  intros Hi Hh Hc Hmax. pose proof Hh as (Hb & [Hbk1 Hbk2] & Hva & Hl).
  destruct (holds_view _ _ _ _ Hi Hh) as (Hv & Hr & _ & Hpos).
  assert (b < length (bufs s))%nat as Hlen by (rewrite (bi_len _ _ Hi); lia).
  unfold bpin. kstep. apply wp_acquire; [done|]. unfold get_buf, mod_buf. ksteps. rewrite u32_id by lia.
  set (f := set_refcnt _). set (s1 := upd_buf b f s).
  assert (changes1 s b s1) as Hch by (by apply changes1_upd).
  assert (buf_at s1 b = f (buf_at s b)) as Eb by (unfold s1; by rewrite buf_at_upd, decide_True).
  assert (bio_inv s1 order) as Hi1.
  { apply (changes1_inv s order b s1 Hi Hb Hch); rewrite Eb; unfold f; simpl; try lia; try done.
    - intros _ j Hj Hbj. eapply (bi_uniq _ _ Hi); [done|done|exact Hbj|]. by split.
    - by apply Hi. }
  split_and!; [by destruct c|done| |].
  - split_and!; rewrite ?Eb; done.
  - eapply ref_change_intro; try done.
    + intros j Hj. by rewrite (ch_other _ _ _ Hch).
    + rewrite Eb. done.
Qed.

Lemma bunpin_spec s order b bno c :
  bio_inv s order -> holds s b bno -> bcache_lock ∉ held c -> 1 < refs s bno ->
  wp (bunpin b) (fun _ c' s' => c' = c /\ bio_inv s' order /\ holds s' b bno /\ ref_change s b bno (-1) s') c s.
Proof.
  intros Hi Hh Hc Hmin. pose proof Hh as (Hb & [Hbk1 Hbk2] & Hva & Hl).
  destruct (holds_view _ _ _ _ Hi Hh) as (Hv & Hr & _ & Hpos).
  assert (b < length (bufs s))%nat as Hlen by (rewrite (bi_len _ _ Hi); lia).
  pose proof (bi_ref _ _ Hi b Hb).
  unfold bunpin. kstep. apply wp_acquire; [done|]. unfold get_buf, mod_buf. ksteps. rewrite u32_id by lia.
  set (f := set_refcnt _). set (s1 := upd_buf b f s).
  assert (changes1 s b s1) as Hch by (by apply changes1_upd).
  assert (buf_at s1 b = f (buf_at s b)) as Eb by (unfold s1; by rewrite buf_at_upd, decide_True).
  assert (bio_inv s1 order) as Hi1.
  { apply (changes1_inv s order b s1 Hi Hb Hch); rewrite Eb; unfold f; simpl; try lia; try done.
    - intros _ j Hj Hbj. eapply (bi_uniq _ _ Hi); [done|done|exact Hbj|]. by split.
    - by apply Hi. }
  split_and!; [by destruct c|done| |].
  - split_and!; rewrite ?Eb; done.
  - eapply ref_change_intro; try done.
    + intros j Hj. by rewrite (ch_other _ _ _ Hch).
    + rewrite Eb. done.
Qed.

(** ** binit *)

(** Static storage: all zeros. *)
Definition zero_bufs s : Prop :=
  length (bufs s) = S nbuf /\ forall i, (i <= nbuf)%nat -> core (buf_at s i) = inhabitant.

Lemma wp_initbuf i c s (Q : unit -> ctx -> bstate -> Prop) :
  bio_free c -> Q tt c (upd_buf i (set_lk (SleepLock 0 0)) s) ->
  wp (on_lk i (initsleeplock (buf_lk i))) Q c s.
Proof. intros [_ Hc] HQ. apply wp_zoom. unfold initsleeplock. kstep. apply wp_initlock; [apply Hc|]. by kstep. Qed.

(** One round of the loop: buffer [i] goes to the front. *)
Lemma binit_step s l i c (Q : unit -> ctx -> bstate -> Prop) :
  length (bufs s) = S nbuf -> (i < nbuf)%nat -> bio_free c ->
  seg (nx s) (pv s) bhead l bhead -> i ∉ l -> bhead ∉ l -> NoDup l -> (forall j, j ∈ l -> (j < nbuf)%nat) ->
  core (buf_at s i) = inhabitant ->
  (forall s', length (bufs s') = S nbuf -> dsk s' = dsk s -> dwrites s' = dwrites s ->
    (forall j, core (buf_at s' j) = core (buf_at s j)) ->
    seg (nx s') (pv s') bhead (i :: l) bhead -> Q tt c s') ->
  wp (n <- get_buf bhead next ;; mod_buf i (set_next n) ;; mod_buf i (set_prev bhead) ;;
      on_lk i (initsleeplock (buf_lk i)) ;;
      n <- get_buf bhead next ;; mod_buf n (set_prev i) ;; mod_buf bhead (set_next i)) Q c s.
Proof.
  intros Hlen Hi Hc Hs Hil Hhl Hnd Hl Hz HQ.
  assert (i <> bhead) as Hih by (unfold bhead; lia).
  pose proof (seg_nx_in _ _ _ _ _ Hs) as Hn.
  assert (nx s bhead < S nbuf)%nat as Hnl.
  { apply elem_of_app in Hn as [?%Hl|?%list_elem_of_singleton]; unfold bhead in *; lia. }
  assert (bhead < S nbuf)%nat as Hhl' by (unfold bhead; lia).
  unfold get_buf, mod_buf. ksteps. change (next (buf_at s bhead)) with (nx s bhead).
  apply wp_initbuf; [done|]. ksteps.
  rewrite !upd_buf_upd by (rewrite ?upd_buf_len; lia).
  set (s3 := upd_buf i _ s). change (next (buf_at s3 bhead)) with (nx s3 bhead).
  assert (nx s3 bhead = nx s bhead) as ->.
  { unfold s3, nx. rewrite buf_at_upd, decide_False by lia. done. }
  apply HQ; [unfold s3; by rewrite !upd_buf_len|done|done| |].
  - intros j. rewrite !core_upd by (unfold s3; rewrite ?upd_buf_len; done || lia).
    unfold s3. rewrite buf_at_upd by lia. case_decide; [subst j|done]. rewrite Hz.
    injection Hz as E1 E2 E3 E4 E5 E6 E7. destruct (buf_at s i); simpl in *. by subst.
  - eapply seg_ext; [| |apply (seg_push _ _ _ _ i Hs Hil Hih Hhl Hnd)]; intros j _.
    + rewrite nx_upd_next by (unfold s3; rewrite !upd_buf_len; lia). apply fupd_ext.
      rewrite nx_upd_prev by (unfold s3; rewrite ?upd_buf_len; lia).
      unfold s3, nx, fupd. rewrite buf_at_upd by lia. by case_decide.
    + rewrite pv_upd_next, pv_upd_prev by (unfold s3; rewrite ?upd_buf_len; lia). apply fupd_ext.
      unfold s3, pv, fupd. rewrite buf_at_upd by lia. by case_decide.
Qed.

Lemma binit_spec s c :
  zero_bufs s -> disk_ok (dsk s) -> bio_free c ->
  wp binit (fun _ c' s' => c' = c /\ bio_inv s' (rev (seq 0 nbuf)) /\ dsk s' = dsk s /\
    dwrites s' = dwrites s /\ free_cnt s' = NBUF /\
    (forall i, (i < nbuf)%nat -> bdev (buf_at s' i) = 0) /\
    forall k, view s' k = dread (dsk s) k /\ refs s' k = 0 /\ ~ busy s' k) c s.
Proof.
  intros [Hlen Hz] Hd Hc. unfold binit. kstep. apply wp_initlock; [apply Hc|]. unfold mod_buf at 1 2. ksteps.
  rewrite upd_buf_upd by (unfold bhead; lia). set (s0 := upd_buf bhead _ s).
  apply wp_loop with (I := fun k i c' s' => c' = c /\ (i <= nbuf)%nat /\ (k = nbuf - i + 1)%nat /\
    length (bufs s') = S nbuf /\ dsk s' = dsk s /\ dwrites s' = dwrites s /\
    (forall j, (j <= nbuf)%nat -> core (buf_at s' j) = inhabitant) /\
    seg (nx s') (pv s') bhead (rev (seq 0 i)) bhead).
  2: { split_and!; [done|lia|lia|unfold s0; by rewrite upd_buf_len|done|done| |].
       - intros j Hj. unfold s0. rewrite core_upd; [by apply Hz|unfold bhead; lia|done].
       - simpl. unfold nx, pv, s0. rewrite !buf_at_upd, !decide_True by (unfold bhead; lia || done). done. }
  intros k i c' s1 (-> & Hi & -> & Hl1 & Hd1 & Hw1 & Hz1 & Hs1). exists (nbuf - i)%nat. split; [lia|].
  assert (forall j, j ∈ rev (seq 0 i) <-> (j < i)%nat) as Hrev.
  { intros j. rewrite list_elem_of_In, <- in_rev, <- list_elem_of_In, elem_of_seq. lia. }
  destruct (Nat.ltb_spec i nbuf) as [Hlt|Hge].
  - do 6 (apply wp_assoc). apply wp_bind.
    eapply (binit_step s1 (rev (seq 0 i)) i c); try done.
    + rewrite Hrev. lia.
    + rewrite Hrev. unfold bhead. lia.
    + apply NoDup_ListNoDup, NoDup_rev, NoDup_ListNoDup, NoDup_seq.
    + intros j Hj%Hrev. lia.
    + apply Hz1. lia.
    + intros s' Hl2 Hd2 Hw2 Hc2 Hs2. kstep. rewrite Nat.add_1_r, seq_S, rev_app_distr.
      split; [done|]. split_and!; try lia; try congruence; [|exact Hs2]. intros j Hj. rewrite Hc2. by apply Hz1.
  - kstep. assert (i = nbuf) as -> by lia.
    assert (forall j, (j < nbuf)%nat -> bdev (buf_at s1 j) = 0 /\ refcnt (buf_at s1 j) = 0 /\
      locked (block_lk (buf_at s1 j)) = 0 /\ data (buf_at s1 j) = zblock) as Hf.
    { intros j Hj. pose proof (Hz1 j ltac:(lia)) as E. injection E as E1 E2 E3 E4 E5 E6 E7.
      by rewrite E3, E6, E5, E7. }
    assert (forall k, find_buf s1 k = None) as Hfn.
    { intros k. apply find_buf_none. intros j Hj [E _]. destruct (Hf j Hj) as [E' _]. unfold ROOTDEV in E. lia. }
    assert (forall n, (n <= nbuf)%nat -> free_from n s1 = Z.of_nat n) as Hfree.
    { induction n as [|n IH]; intros Hn; simpl; [done|]. destruct (Hf n ltac:(lia)) as (_ & -> & _).
      rewrite IH by lia. simpl. lia. }
    split; [done|]. split; [|split; [done|]; split; [done|]; split; [by apply Hfree|]; split; [by intros j [? _]%Hf|]].
    + split; try done.
      * symmetry. apply Permutation_rev.
      * intros j j' bno Hj _ [E _]. destruct (Hf j Hj) as [E' _]. unfold ROOTDEV in E. lia.
      * intros j Hj. destruct (Hf j Hj) as (_ & -> & _). lia.
      * intros j Hj. destruct (Hf j Hj) as (_ & _ & -> & _). done.
      * intros j Hj E. destruct (Hf j Hj) as (E' & _). unfold ROOTDEV in E. lia.
      * intros j Hj. destruct (Hf j Hj) as (_ & _ & _ & ->). apply zblock_ok.
      * by rewrite Hd1.
    + intros k. unfold view, refs, busy. rewrite Hfn, Hd1. tauto.
Qed.
(** ** What clients see *)

(** An unreferenced block is as on disk. *)
Lemma bio_unused_clean s order bno : bio_inv s order -> refs s bno = 0 -> view s bno = dread (dsk s) bno.
Proof.
  intros Hi Hr. unfold view, refs in *.
  pose proof (find_from_spec nbuf s bno) as Hf. fold (find_buf s bno) in Hf.
  destruct (find_buf s bno) as [i|]; [|done]. destruct Hf as [Hlt [Hb1 Hb2]].
  destruct (Z.eqb_spec (valid (buf_at s i)) 0); [done|]. rewrite <- Hb2. by apply (bi_clean _ _ Hi).
Qed.

Lemma bio_view_ok s order bno : bio_inv s order -> block_ok (view s bno).
Proof.
  intros Hi. unfold view. pose proof (find_from_spec nbuf s bno) as Hf. fold (find_buf s bno) in Hf.
  destruct (find_buf s bno) as [i|]; [|apply Hi]. destruct Hf as [Hlt _].
  destruct (_ =? 0); by apply Hi.
Qed.

Lemma bio_refs_find s order bno :
  bio_inv s order -> 0 < refs s bno -> exists i, (i < nbuf)%nat /\ is_block bno (buf_at s i).
Proof.
  intros Hi Hr. unfold refs in Hr. pose proof (find_from_spec nbuf s bno) as Hf. fold (find_buf s bno) in Hf.
  destruct (find_buf s bno) as [i|]; [by exists i|lia].
Qed.

Lemma same_bufs s s' :
  bufs s' = bufs s -> (forall k, refs s' k = refs s k) /\ (forall k, busy s' k <-> busy s k) /\
  free_cnt s' = free_cnt s.
Proof.
  intros Hb. assert (forall i, buf_at s' i = buf_at s i) as Eb by (intros i; unfold buf_at; by rewrite Hb).
  assert (forall n k, find_from n s' k = find_from n s k) as Ef.
  { induction n as [|n IH]; intros k; simpl; [done|]. by rewrite Eb, IH. }
  assert (forall n, free_from n s' = free_from n s) as En.
  { induction n as [|n IH]; simpl; [done|]. by rewrite Eb, IH. }
  split_and!; [| |apply En].
  - intros k. unfold refs, find_buf. rewrite Ef. destruct (find_from nbuf s k); by rewrite ?Eb.
  - intros k. unfold busy, find_buf. rewrite Ef. destruct (find_from nbuf s k); by rewrite ?Eb.
Qed.
End cache.

#[global] Opaque find_buf view refs busy free_cnt.
