(* ===== verification/BioSpec.v ===== *)
(** * What the buffer cache promises its clients

    The effect of each operation on what a client sees of the cache: the
    contents [view], the references [refs] and the lock [busy] of every
    block, the buffers it holds, the disk and the number of unused buffers. *)
From S2P Require Import Prelude Kmonad Riscv Mem Block Sleeplock Bio BioRing BioCache.

Section spec.
Context {D : BlockDev} (me : Z).
Implicit Types (s : bstate) (k bno : Z).

Definition binv s : Prop := exists order, bio_inv s order.

(** [s'] follows from [s] by a change of the contents of blocks to [v], of
    their references by [r], of their locks to [bz] and of the number of
    unused buffers by [f]; the disk is as before. *)
Record bstep s (v : Z -> block) (r : Z -> Z) (bz : Z -> Prop) (f : Z) s' : Prop := {
  st_inv : binv s';
  st_view : forall k, view s' k = v k;
  st_refs : forall k, refs s' k = refs s k + r k;
  st_busy : forall k, busy s' k <-> bz k;
  st_free : free_cnt s' = free_cnt s + f;
}.

Definition at1 (bno x : Z) (k : Z) : Z := if decide (k = bno) then x else 0.

Lemma at1_eq bno x : at1 bno x bno = x.
Proof. unfold at1. by rewrite decide_True. Qed.
Lemma at1_ne bno x k : k <> bno -> at1 bno x k = 0.
Proof. intros. unfold at1. by rewrite decide_False. Qed.

Lemma same_blocks_refs s s' bno dr k :
  same_blocks s s' bno -> refs s' bno = refs s bno + dr -> refs s' k = refs s k + at1 bno dr k.
Proof.
  intros Hs Hr. unfold at1. case_decide as E; [by subst|]. destruct (Hs k E) as (_ & -> & _). lia.
Qed.

Lemma same_blocks_view s s' bno k :
  same_blocks s s' bno -> view s' bno = view s bno -> view s' k = view s k.
Proof. intros Hs Hv. destruct (decide (k = bno)) as [->|E]; [done|]. by destruct (Hs k E). Qed.

(** Holding a buffer is not affected by work on another block. *)
Lemma holds_other s order s' order' j b bn bno :
  bio_inv s order -> bio_inv s' order' -> same_blocks s s' bno -> keeps b s s' ->
  is_block bno (buf_at s' b) -> bn <> bno -> holds me s j bn -> holds me s' j bn.
Proof.
  intros Hi Hi' Hs Hk Hb Hne Hh. destruct (decide (j = b)) as [->|Hjb].
  - exfalso. destruct (holds_view _ _ _ _ _ Hi Hh) as (_ & Hr & _ & Hpos).
    destruct (Hs bn Hne) as (_ & Hr' & _).
    destruct (bio_refs_find s' order' bn Hi') as (i & Hi1 & Hi2); [lia|].
    destruct (decide (i = b)) as [->|Hib]; [destruct Hi2, Hb; congruence|].
    assert (is_block bn (buf_at s i)) as Hbi.
    { specialize (Hk i Hib). injection Hk as ????? _ _. destruct Hi2. split; congruence. }
    apply Hib. destruct Hh as (Hb1 & Hb2 & _). by eapply (bi_uniq _ _ Hi).
  - eapply holds_core; [done|by apply Hk|done].
Qed.

Lemma bread_client s bno c :
  binv s -> ~ busy s bno -> (refs s bno = 0 -> 0 < free_cnt s) -> refs s bno < 2 ^ 31 - 1 -> bio_free c ->
  wp (bread me ROOTDEV bno) (fun b c' s' => c' = c /\ holds me s' b bno /\ data (buf_at s' b) = view s bno /\
    bstep s (view s) (at1 bno 1) (fun k => busy s k \/ k = bno) (- (if decide (refs s bno = 0) then 1 else 0)) s' /\
    dsk s' = dsk s /\ dwrites s' = dwrites s /\
    forall j bn, holds me s j bn -> holds me s' j bn) c s.
Proof.
  intros [order Hi] Hnb Hfr Hmax Hc. eapply wp_mono; [by apply (bread_spec me s order bno c)|].
  intros b c' s' (-> & [Hi' Hh Hv Hr Hs Hd Hw Hf Ho]).
  destruct (holds_view _ _ _ _ _ Hi' Hh) as (Hv' & _ & Hbz & _).
  split_and!; [done|exact Hh|congruence| |exact Hd|exact Hw|].
  - split; [by exists order|intros k; by eapply same_blocks_view|intros k; by apply same_blocks_refs| |].
    + intros k. destruct (decide (k = bno)) as [->|E]; [clear -Hbz; tauto|]. destruct (Hs k E) as (_ & _ & -> & _). clear -E. tauto.
    + rewrite Hf. case_decide as E; [rewrite E; simpl; lia|]. rewrite (proj2 (Z.eqb_neq _ 0)) by done. lia.
  - intros j bn Hj. eapply (holds_other s order s' order j b bn bno); [exact Hi|exact Hi'|exact Hs| |by destruct Hh as (_ & ? & _)| |exact Hj].
    + intros i Hib. by rewrite Ho.
    + intros ->. apply Hnb. by destruct (holds_view _ _ _ _ _ Hi Hj) as (_ & _ & ? & _).
Qed.

Lemma setdata_client s b bno v c :
  binv s -> holds me s b bno -> block_ok v ->
  wp (mod_buf b (set_data v)) (fun _ c' s' => c' = c /\ data (buf_at s' b) = v /\
    bstep s (fun k => if decide (k = bno) then v else view s k) (fun _ => 0) (busy s) 0 s' /\
    dsk s' = dsk s /\ dwrites s' = dwrites s /\
    forall j bn, holds me s j bn -> holds me s' j bn) c s.
Proof.
  intros [order Hi] Hh Hv. eapply wp_mono; [by apply (setdata_spec me s order b bno v c)|].
  intros [] c' s' (-> & Hi' & Hh' & Hv' & Hr & Hs & Hk & Hd & Hw & Hf).
  destruct (holds_view _ _ _ _ _ Hi' Hh') as (Hv'' & _ & Hbz' & _).
  destruct (holds_view _ _ _ _ _ Hi Hh) as (_ & _ & Hbz & _).
  split_and!; [done|congruence| |exact Hd|exact Hw|].
  - split; [by exists order| | | |lia].
    + intros k. case_decide as E; [by subst|]. by destruct (Hs k E).
    + intros k. destruct (decide (k = bno)) as [->|E]; [lia|]. destruct (Hs k E) as (_ & -> & _). lia.
    + intros k. destruct (decide (k = bno)) as [->|E]; [done|]. by destruct (Hs k E) as (_ & _ & ? & _).
  - intros j bn Hj. destruct (decide (bn = bno)) as [->|E].
    + assert (j = b) as ->; [|done]. destruct Hj as (? & ? & _), Hh as (? & ? & _). by eapply (bi_uniq _ _ Hi).
    + eapply (holds_other s order s' order j b bn bno); try done. by destruct Hh' as (_ & ? & _).
Qed.

Lemma bwrite_client s b bno c :
  binv s -> holds me s b bno -> bio_free c ->
  wp (bwrite me b) (fun _ c' s' => c' = c /\ bufs s' = bufs s /\
    bstep s (view s) (fun _ => 0) (busy s) 0 s' /\
    dsk s' = dwrite (dsk s) bno (view s bno) /\ dwrites s' = dwrites s ++ [(bno, view s bno)]) c s.
Proof.
  intros [order Hi] Hh Hc. eapply wp_mono; [by apply (bwrite_spec me s order b bno c)|].
  intros [] c' s' (-> & Hi' & Hh' & Hb & Hv & Hd & Hw). split_and!; [done|exact Hb| |exact Hd|exact Hw].
  destruct (same_bufs s s' Hb) as (Hr & Hbz & Hf).
  split; [by exists order|exact Hv| |exact Hbz|lia]. intros k. rewrite Hr. lia.
Qed.

Lemma holds_bufs s s' j bn : bufs s' = bufs s -> holds me s j bn -> holds me s' j bn.
Proof. intros Hb. unfold holds, buf_at. by rewrite Hb. Qed.

Lemma brelse_client s b bno c :
  binv s -> holds me s b bno -> bio_free c -> (refs s bno = 1 -> view s bno = dread (dsk s) bno) ->
  wp (brelse me b) (fun _ c' s' => held c' = held c /\
    bstep s (view s) (at1 bno (-1)) (fun k => busy s k /\ k <> bno) (if decide (refs s bno = 1) then 1 else 0) s' /\
    dsk s' = dsk s /\ dwrites s' = dwrites s /\
    forall j bn, bn <> bno -> holds me s j bn -> holds me s' j bn) c s.
Proof.
  intros [order Hi] Hh Hc Hcl. eapply wp_mono; [by apply (brelse_spec me s order b bno c)|].
  intros [] c' s' (-> & (order' & Hi' & _) & [Hv Hr Hs Hk Hd Hw Hf _] & Hnb).
  destruct (holds_view _ _ _ _ _ Hi Hh) as (_ & _ & _ & Hpos).
  split_and!; [done| |exact Hd|exact Hw|].
  - split; [by exists order'|exact Hv|intros k; by apply same_blocks_refs| |].
    + intros k. destruct (decide (k = bno)) as [->|E]; [clear -Hnb; tauto|]. destruct (Hs k E) as (_ & _ & -> & _). clear -E. tauto.
    + rewrite Hf, (proj2 (Z.eqb_neq (refs s bno) 0)) by lia. case_decide as E; [rewrite E; simpl; lia|].
      rewrite (proj2 (Z.eqb_neq _ 0)) by lia. lia.
  - intros j bn Hne Hj. destruct (decide (j = b)) as [->|Hjb].
    + destruct Hj as (_ & [_ E] & _), Hh as (_ & [_ E'] & _). congruence.
    + eapply holds_core; [done|by apply Hk|done].
Qed.

Lemma bunpin_client s b bno c :
  binv s -> holds me s b bno -> bcache_lock ∉ held c -> 1 < refs s bno ->
  wp (bunpin b) (fun _ c' s' => c' = c /\
    bstep s (view s) (at1 bno (-1)) (busy s) 0 s' /\ dsk s' = dsk s /\ dwrites s' = dwrites s /\
    forall j bn, holds me s j bn -> holds me s' j bn) c s.
Proof.
  intros [order Hi] Hh Hc Hmin. eapply wp_mono; [by apply (bunpin_spec me s order b bno c)|].
  intros [] c' s' (-> & Hi' & Hh' & [Hv Hr Hs Hk Hd Hw Hf _]).
  destruct (holds_view _ _ _ _ _ Hi' Hh') as (_ & _ & Hbz' & _).
  destruct (holds_view _ _ _ _ _ Hi Hh) as (_ & _ & Hbz & _).
  split_and!; [done| |exact Hd|exact Hw|].
  - split; [by exists order|exact Hv|intros k; by apply same_blocks_refs| |].
    + intros k. destruct (decide (k = bno)) as [->|E]; [done|]. by destruct (Hs k E) as (_ & _ & ? & _).
    + rewrite Hf, (proj2 (Z.eqb_neq (refs s bno) 0)), (proj2 (Z.eqb_neq (_ + -1) 0)) by lia. lia.
  - intros j bn Hj. destruct (decide (j = b)) as [->|Hjb].
    + assert (bn = bno) as ->; [|done]. destruct Hj as (_ & [_ E] & _), Hh as (_ & [_ E'] & _). congruence.
    + eapply holds_core; [done|by apply Hk|done].
Qed.

Lemma bpin_client s b bno c :
  binv s -> holds me s b bno -> bcache_lock ∉ held c -> refs s bno < 2 ^ 31 - 1 ->
  wp (bpin b) (fun _ c' s' => c' = c /\
    bstep s (view s) (at1 bno 1) (busy s) 0 s' /\ dsk s' = dsk s /\ dwrites s' = dwrites s /\
    forall j bn, holds me s j bn -> holds me s' j bn) c s.
Proof.
  intros [order Hi] Hh Hc Hmax. eapply wp_mono; [by apply (bpin_spec me s order b bno c)|].
  intros [] c' s' (-> & Hi' & Hh' & [Hv Hr Hs Hk Hd Hw Hf _]).
  destruct (holds_view _ _ _ _ _ Hi' Hh') as (_ & _ & Hbz' & _).
  destruct (holds_view _ _ _ _ _ Hi Hh) as (_ & _ & Hbz & Hpos).
  split_and!; [done| |exact Hd|exact Hw|].
  - split; [by exists order|exact Hv|intros k; by apply same_blocks_refs| |].
    + intros k. destruct (decide (k = bno)) as [->|E]; [done|]. by destruct (Hs k E) as (_ & _ & ? & _).
    + rewrite Hf, (proj2 (Z.eqb_neq (refs s bno) 0)), (proj2 (Z.eqb_neq (_ + 1) 0)) by lia. lia.
  - intros j bn Hj. destruct (decide (j = b)) as [->|Hjb].
    + assert (bn = bno) as ->; [|done]. destruct Hj as (_ & [_ E] & _), Hh as (_ & [_ E'] & _). congruence.
    + eapply holds_core; [done|by apply Hk|done].
Qed.
Lemma unused_clean s bno : binv s -> refs s bno = 0 -> view s bno = dread (dsk s) bno.
Proof. intros [order Hi]. by eapply bio_unused_clean. Qed.

Lemma binv_disk s : binv s -> disk_ok (dsk s).
Proof. intros [order Hi]. apply Hi. Qed.

Lemma view_ok s bno : binv s -> block_ok (view s bno).
Proof. intros [order Hi]. by eapply bio_view_ok. Qed.

Lemma holds_data s b bno :
  binv s -> holds me s b bno -> view s bno = data (buf_at s b) /\ busy s bno /\ 0 < refs s bno.
Proof. intros [order Hi] Hh. by destruct (holds_view _ _ _ _ _ Hi Hh) as (? & _ & ? & ?). Qed.

(** A cache as [binit] leaves it, over any disk. *)
Lemma fresh_cache (d : disk) : disk_ok d ->
  exists b : bstate, binv b /\ dsk b = d /\ free_cnt b = NBUF /\
    (forall i, (i < nbuf)%nat -> bdev (buf_at b i) = 0) /\
    forall k, view b k = dread d k /\ refs b k = 0 /\ ~ busy b k.
Proof.
  intros Hd. set (b0 := Bst (replicate (S nbuf) inhabitant) d []).
  assert (zero_bufs b0) as Hz.
  { split; [apply length_replicate|]. intros i Hi. unfold buf_at, b0. cbn [bufs].
    by rewrite list_lookup_total_alt, lookup_replicate_2 by lia. }
  assert (bio_free (Ctx [] [])) as Hc by (split; [|intros i]; apply not_elem_of_nil).
  pose proof (binit_spec b0 (Ctx [] []) Hz Hd Hc) as H.
  apply wp_inv in H as (_ & c' & b & _ & _ & Hi & Hdb & _ & Hf & Hz' & Hk). exists b.
  split; [by eexists|]. split; [done|]. split; [done|]. split; [exact Hz'|]. intros k. destruct (Hk k) as (? & ? & ?). done.
Qed.

(** ** The theorems *)

(** C29: The buffer cache is coherent.  In every state that satisfies the
    cache invariant (one buffer per block, the ring of buffers intact, unused
    buffers equal to the disk), [bread] of a block that nobody has locked, for
    which a buffer is cached or unused, returns a buffer locked by the caller
    that holds the latest contents of the block; contents, references and
    locks of all other blocks are as before, and so is the disk. *)
Theorem bread_coherent s order bno c :
  bio_inv s order -> ~ busy s bno -> (refs s bno = 0 -> 0 < free_cnt s) -> refs s bno < 2 ^ 31 - 1 ->
  bio_free c ->
  wp (bread me ROOTDEV bno) (fun b c' s' => c' = c /\ data (buf_at s' b) = view s bno /\
    bread_post me s order bno b s') c s.
Proof.
  intros Hi Hnb Hfr Hmax Hc. eapply wp_mono; [by apply bread_spec|].
  intros b c' s' [-> Hp]. split_and!; [done| |done].
  destruct (holds_view _ _ _ _ _ (br_inv _ _ _ _ _ _ Hp) (br_holds _ _ _ _ _ _ Hp)) as [<- _]. apply Hp.
Qed.

(** Buffers are recycled in order of use.  [brelse] of the last
    reference moves the buffer to the front of the list; and [bget] of a block
    that is not cached takes, among the unused buffers, the one nearest to the
    end of the list, that is the least recently released one. *)
Theorem buffers_recycled_lru s order b bno bno' c :
  bio_inv s order -> holds me s b bno -> bio_free c -> refs s bno = 1 -> view s bno = dread (dsk s) bno ->
  (forall i, (i < nbuf)%nat -> ~ is_block bno' (buf_at s i)) ->
  wp (brelse me b) (fun _ c' s' => exists l1 l2, order = l1 ++ b :: l2 /\ bio_inv s' (b :: l1 ++ l2) /\
    wp (bget me ROOTDEV bno') (fun i _ s'' => lru s' (b :: l1 ++ l2) i /\
      bdev (buf_at s'' i) = ROOTDEV /\ blockno (buf_at s'' i) = bno') c' s') c s.
Proof.
  intros Hi Hh Hc Hr Hcl Hno. eapply wp_mono; [apply (brelse_spec me s order b bno c); done|].
  intros [] c' s' (-> & (order' & Hi' & Ho) & [Hv Hrf Hs Hk Hd Hw Hf [Hb' Hr']] & _).
  rewrite decide_True in Ho by done. destruct Ho as (l1 & l2 & -> & ->). exists l1, l2. split; [done|]. split; [done|].
  pose proof Hh as (Hb & Hbk & _).
  eapply wp_mono; [apply (bget_recycle me s' _ bno' _ Hi')|].
  - intros i Hlt Hbi. destruct (decide (i = b)) as [->|Hib].
    + destruct Hb' as [_ E1], Hbi as [_ E2]. apply (Hno b Hb). split; [apply Hbk|]. destruct Hbk. congruence.
    + specialize (Hk i Hib). injection Hk as ????? _ _. apply (Hno i Hlt). destruct Hbi. split; congruence.
  - exists b. split; [done|]. rewrite Hr'. lia.
  - done.
  - intros i c2 s2 (Hl & -> & ->). split; [done|].
    assert (i < nbuf)%nat as Hlt by (destruct Hl as (? & ? & E & _); apply (order_spec _ _ _ Hi'); rewrite E; set_solver).
    rewrite buf_at_upd, decide_True by (done || rewrite (bi_len _ _ Hi'); lia). done.
Qed.
End spec.

(** ** Witnesses *)

Lemma ex_bio_free : bio_free (Ctx [] []).
Proof. split; [|intros i]; apply not_elem_of_nil. Qed.

Lemma ex_disk_ok : disk_ok (H := map_disk) (∅ : gmap Z block).
Proof. intros b. simpl. rewrite lookup_empty. apply zblock_ok. Qed.

Lemma bread_coherent_witness :
  exists (s s' : @bstate map_disk) b, bread 1 ROOTDEV 5 (Ctx [] []) s = Ok b (Ctx [] []) s' /\
    data (buf_at s' b) = zblock.
Proof.
  destruct (fresh_cache (D := map_disk) (∅ : gmap Z block) ex_disk_ok) as (s & [order Hi] & Hd & Hf & _ & Hk).
  destruct (Hk 5) as (Hv & Hr & Hb).
  pose proof (bread_coherent 1 s order 5 (Ctx [] []) Hi Hb) as H. rewrite Hr, Hf in H.
  specialize (H ltac:(by vm_compute) ltac:(lia) ex_bio_free).
  apply wp_inv in H as (b & c' & s' & Hrun & -> & Hdat & _). exists s, s', b. split; [exact Hrun|].
  rewrite Hdat, Hv. reflexivity.
Defined.

Lemma buffers_recycled_lru_witness :
  exists (s : @bstate map_disk) b, wp (brelse 1 b) (fun _ c' s' =>
    wp (bget 1 ROOTDEV 6) (fun i _ s'' => blockno (buf_at s'' i) = 6) c' s') (Ctx [] []) s.
Proof.
  destruct (fresh_cache (D := map_disk) (∅ : gmap Z block) ex_disk_ok) as (s & [order Hi] & Hd & Hf & Hz & Hk).
  destruct (Hk 5) as (Hv & Hr & Hb).
  pose proof (bread_spec 1 s order 5 (Ctx [] []) Hi Hb) as H. rewrite Hr, Hf in H.
  specialize (H ltac:(by vm_compute) ltac:(lia) ex_bio_free).
  apply wp_inv in H as (b & c' & s' & _ & -> & [Hi' Hh Hv' Hr' _ Hd' _ _ Ho]).
  exists s', b. eapply wp_mono; [apply (buffers_recycled_lru 1 s' order b 5 6 (Ctx [] []) Hi' Hh ex_bio_free)|].
  - rewrite Hr', Hr. reflexivity.
  - rewrite Hv', Hv, Hd', Hd. reflexivity.
  - intros i Hlt [E1 E2]. destruct (decide (i = b)) as [->|Hib].
    + destruct Hh as (_ & [_ E3] & _). rewrite E2 in E3. discriminate E3.
    + rewrite (Ho i Hib), (Hz i Hlt) in E1. discriminate E1.
  - intros [] c2 s2 (l1 & l2 & _ & _ & Hw). eapply wp_mono; [exact Hw|]. intros i c3 s3 (_ & _ & E). exact E.
Defined.
