(* ===== verification/Log.v ===== *)
(** * kernel/log.c: the redo log

    System calls of the file system run between [begin_op] and [end_op];
    [log_write] records the blocks they change, which stay pinned in the
    buffer cache until the last of the concurrent calls commits them all.
    The state is the buffer cache and [struct log].  The console message of
    [install_trans] while recovering is not modelled. *)
From S2P Require Import Prelude Kmonad Riscv Mem Block Sleeplock Bio.

Record logheader := LogHeader { lh_n : Z; lh_block : list Z }.

Record log := Log {
  lstart : Z;
  outstanding : Z;   (** how many FS sys calls are executing *)
  committing : Z;    (** in commit(), please wait *)
  ldev : Z;
  lh : logheader;
}.

Definition set_lh h l := Log (lstart l) (outstanding l) (committing l) (ldev l) h.
Definition set_n n l := set_lh (LogHeader n (lh_block (lh l))) l.
Definition set_outstanding o l := Log (lstart l) o (committing l) (ldev l) (lh l).
Definition set_committing v l := Log (lstart l) (outstanding l) v (ldev l) (lh l).

(** [log.lh.block] in static storage. *)
Definition log0 : log := Log 0 0 0 0 (LogHeader 0 (replicate (Z.to_nat LOGBLOCKS) 0)).

Definition log_lock : lockid := ("log", 0).
Definition log_chan : chan := ("log", 0).

(** [struct logheader] laid over a block: [n] at 0, [block[i]] at 4 + 4i. *)
Definition sizeof_logheader : Z := 4 + 4 * LOGBLOCKS.

Fixpoint put_blocks (off : Z) (bs : list Z) (d : block) : block :=
  match bs with [] => d | b :: bs => put_blocks (off + 4) bs (put32 off b d) end.

Fixpoint get_blocks (k : nat) (off : Z) (d : block) : list Z :=
  match k with O => [] | S k => i32 (get32 off d) :: get_blocks k (off + 4) d end.

Section log.
Context {D : BlockDev}.

Record lstate := Lst { lbio : bstate; llog : log }.
Definition set_bio (b : bstate) (s : lstate) : lstate := Lst b (llog s).
Definition set_log (l : log) (s : lstate) : lstate := Lst (lbio s) l.

Definition bio {A} (m : K bstate A) : K lstate A := zoom lbio set_bio m.
Definition get_log {A} (f : log -> A) : K lstate A := gets (fun s => f (llog s)).
Definition mod_log (f : log -> log) : K lstate unit := modify (fun s => set_log (f (llog s)) s).

(** [memmove(dst->data, src->data, BSIZE)]. *)
Definition copy_data (dst src : nat) : K lstate unit :=
  v <- bio (get_buf src data) ;;
  bio (mod_buf dst (set_data v)).

Section proc.
Context (me : Z).

Definition install_trans (recovering : bool) : K lstate unit :=
  n0 <- get_log (fun l => lh_n (lh l)) ;;
  loop (Z.to_nat n0 + 1) (fun tail =>
    l <- get_log id ;;
    if tail <? lh_n (lh l) then
      lbuf <- bio (bread me (u32 (ldev l)) (u32 (lstart l + tail + 1))) ;;
      dbuf <- bio (bread me (u32 (ldev l)) (u32 (lh_block (lh l) !!! Z.to_nat tail))) ;;
      copy_data dbuf lbuf ;;
      bio (bwrite me dbuf) ;;
      when (negb recovering) (bio (bunpin dbuf)) ;;
      bio (brelse me lbuf) ;;
      bio (brelse me dbuf) ;;
      ret (inl (tail + 1))
    else ret (inr tt)) 0.

(** [log.lh.block[i] = lh->block[i]] for [i < n]; the array has [LOGBLOCKS]
    entries. *)
Definition read_head : K lstate unit :=
  l <- get_log id ;;
  buf <- bio (bread me (u32 (ldev l)) (u32 (lstart l))) ;;
  d <- bio (get_buf buf data) ;;
  let n := i32 (get32 0 d) in
  mod_log (set_lh (LogHeader n
    (get_blocks (Z.to_nat n) 4 d ++ drop (Z.to_nat n) (lh_block (lh l))))) ;;
  bio (brelse me buf).

Definition write_head : K lstate unit :=
  l <- get_log id ;;
  buf <- bio (bread me (u32 (ldev l)) (u32 (lstart l))) ;;
  d <- bio (get_buf buf data) ;;
  bio (mod_buf buf (set_data
    (put_blocks 4 (take (Z.to_nat (lh_n (lh l))) (lh_block (lh l))) (put32 0 (lh_n (lh l)) d)))) ;;
  bio (bwrite me buf) ;;
  bio (brelse me buf).

Definition recover_from_log : K lstate unit :=
  read_head ;;
  install_trans true ;;
  mod_log (set_n 0) ;;
  write_head.

Definition initlog (dev logstart : Z) : K lstate unit :=
  if BSIZE <=? sizeof_logheader then panic "initlog: too big logheader"
  else
    initlock log_lock ;;
    mod_log (fun l => Log (i32 logstart) (outstanding l) (committing l) dev (lh l)) ;;
    recover_from_log.

(** One round of [begin_op]; it sleeps while a commit is under way or the
    log may run out of space. *)
Definition begin_op : K lstate unit :=
  acquire log_lock ;;
  l <- get_log id ;;
  if negb (committing l =? 0) then sleep log_chan log_lock
  else if LOGBLOCKS <? lh_n (lh l) + (outstanding l + 1) * MAXOPBLOCKS then sleep log_chan log_lock
  else
    mod_log (set_outstanding (outstanding l + 1)) ;;
    release log_lock.

Definition write_log : K lstate unit :=
  n0 <- get_log (fun l => lh_n (lh l)) ;;
  loop (Z.to_nat n0 + 1) (fun tail =>
    l <- get_log id ;;
    if tail <? lh_n (lh l) then
      to <- bio (bread me (u32 (ldev l)) (u32 (lstart l + tail + 1))) ;;
      from <- bio (bread me (u32 (ldev l)) (u32 (lh_block (lh l) !!! Z.to_nat tail))) ;;
      copy_data to from ;;
      bio (bwrite me to) ;;
      bio (brelse me from) ;;
      bio (brelse me to) ;;
      ret (inl (tail + 1))
    else ret (inr tt)) 0.

Definition commit : K lstate unit :=
  n <- get_log (fun l => lh_n (lh l)) ;;
  when (0 <? n) (
    write_log ;;
    write_head ;;
    install_trans false ;;
    mod_log (set_n 0) ;;
    write_head).

Definition end_op : K lstate unit :=
  acquire log_lock ;;
  o <- get_log outstanding ;;
  mod_log (set_outstanding (o - 1)) ;;
  l <- get_log id ;;
  if negb (committing l =? 0) then panic "log.committing"
  else
    do_commit <- (if outstanding l =? 0 then mod_log (set_committing 1) ;; ret true
                  else wakeup log_chan ;; ret false) ;;
    release log_lock ;;
    when do_commit (
      commit ;;
      acquire log_lock ;;
      mod_log (set_committing 0) ;;
      wakeup log_chan ;;
      release log_lock).
End proc.

(** The index of [bno] among the first [n] logged blocks, or [n]. *)
Fixpoint log_index (n : nat) (bs : list Z) (bno : Z) : nat :=
  match n, bs with
  | S n, b :: bs => if u32 b =? bno then O else S (log_index n bs bno)
  | _, _ => O
  end.

Definition log_write (b : nat) : K lstate unit :=
  acquire log_lock ;;
  l <- get_log id ;;
  if LOGBLOCKS <=? lh_n (lh l) then panic "too big a transaction"
  else if outstanding l <? 1 then panic "log_write outside of trans"
  else
    bno <- bio (get_buf b blockno) ;;
    let i := log_index (Z.to_nat (lh_n (lh l))) (lh_block (lh l)) bno in
    mod_log (fun l => set_lh (LogHeader (lh_n (lh l)) (<[i := i32 bno]> (lh_block (lh l)))) l) ;;
    when (Z.of_nat i =? lh_n (lh l)) (
      bio (bpin b) ;;
      mod_log (fun l => set_n (lh_n (lh l) + 1) l)) ;;
    release log_lock.
End log.
