(* ===== verification/LogSpec.v ===== *)
(** * What the phases of a commit write

    Each phase of [commit] and of recovery is shown to terminate without
    panic and to perform an exactly known sequence of disk writes.  The log
    occupies the blocks [start .. start + LOGBLOCKS]. *)
From S2P Require Import Prelude Kmonad Riscv Mem Block Sleeplock Bio BioRing BioCache BioSpec Log.

Section logspec.
Context {D : BlockDev} (me : Z).
Implicit Types (s : lstate) (P : list Z) (c : ctx) (k : Z).

Lemma bio_free_nil c : held c = [] -> bio_free c.
Proof. intros E. unfold bio_free. rewrite E. split; [|intros i]; apply not_elem_of_nil. Qed.

(** No buffer is locked, the blocks of [P] are pinned once and no other is in
    use, and [F] buffers are unused. *)
Record quiet (s : bstate) P (F : Z) : Prop := {
  q_inv : binv s;
  q_busy : forall k, ~ busy s k;
  q_refs : forall k, refs s k = if decide (k ∈ P) then 1 else 0;
  q_free : free_cnt s = F;
}.

(** Block [dst] gets the contents of block [src], in the cache and on disk. *)
Definition copies (src dst : Z) (s s' : bstate) : Prop :=
  (forall k, view s' k = if decide (k = dst) then view s src else view s k) /\
  dsk s' = dwrite (dsk s) dst (view s src) /\ dwrites s' = dwrites s ++ [(dst, view s src)].

Ltac at1_solve := unfold at1; repeat match goal with |- context [decide (?a = ?b)] => destruct (decide (a = b)) end;
  subst; try done; try lia.

(** One round of [write_log]. *)
Lemma write_log_step {R} s P F src dst c (m : K lstate R) Q :
  held c = [] -> quiet (lbio s) P F -> 0 < F -> src ∈ P -> dst ∉ P ->
  (forall c' s', held c' = [] -> llog s' = llog s -> quiet (lbio s') P F ->
     copies src dst (lbio s) (lbio s') -> wp m Q c' s') ->
  wp (to <- bio (bread me ROOTDEV dst) ;;
      from <- bio (bread me ROOTDEV src) ;;
      copy_data to from ;;
      bio (bwrite me to) ;;
      bio (brelse me from) ;;
      bio (brelse me to) ;;
      m) Q c s.
Proof.
  intros Hh [Hi Hb Hr Hf] HF Hsrc Hdst Hm. destruct s as [s0 lg]. simpl in *.
  assert (dst <> src) as Hne by (by intros ->).
  assert (refs s0 dst = 0) as Hrd by (by rewrite Hr, decide_False).
  assert (refs s0 src = 1) as Hrs by (by rewrite Hr, decide_True).
  kstep. apply wp_zoom. eapply wp_mono; [apply (bread_client me s0 dst c); [done|apply Hb|lia|lia|by apply bio_free_nil]|].
  cbn [lbio]. intros to c1 s1 (-> & Hto & Hdto & [Hi1 Hv1 Hr1 Hb1 Hf1] & Hd1 & Hw1 & _).
  kstep. apply wp_zoom. eapply wp_mono; [apply (bread_client me s1 src c); [done| | | |by apply bio_free_nil]|].
  { rewrite Hb1. intros [?|?]; [by eapply Hb|congruence]. }
  { rewrite Hr1, at1_ne, Hrs by done. lia. }
  { rewrite Hr1, at1_ne, Hrs by done. lia. }
  cbn [lbio set_bio]. intros from c1 s2 (-> & Hfrom & Hdfrom & [Hi2 Hv2 Hr2 Hb2 Hf2] & Hd2 & Hw2 & Hk2).
  apply Hk2 in Hto. unfold copy_data. kstep. kstep. apply wp_zoom. unfold get_buf. kstep. apply wp_zoom.
  cbn [lbio set_bio]. rewrite Hdfrom.
  eapply wp_mono; [apply (setdata_client me s2 to dst _ c); [done|done|by apply view_ok]|].
  cbn [lbio set_bio]. intros [] c1 s3 (-> & _ & [Hi3 Hv3 Hr3 Hb3 Hf3] & Hd3 & Hw3 & Hk3).
  apply Hk3 in Hto, Hfrom. kstep. apply wp_zoom.
  eapply wp_mono; [apply (bwrite_client me s3 to dst c); [done|done|by apply bio_free_nil]|].
  cbn [lbio set_bio]. intros [] c1 s4 (-> & Hb4e & [Hi4 Hv4 Hr4 Hb4 Hf4] & Hd4 & Hw4).
  apply (holds_bufs me s3 s4) in Hto, Hfrom; [|done..]. kstep. apply wp_zoom.
  assert (refs s4 src = 2) as Hrs4.
  { rewrite Hr4, Hr3, Hr2, Hr1, at1_eq, at1_ne, Hrs by done. lia. }
  eapply wp_mono; [apply (brelse_client me s4 from src c); [done|done|by apply bio_free_nil|lia]|].
  cbn [lbio set_bio]. intros [] c1 s5 (Hc5 & [Hi5 Hv5 Hr5 Hb5 Hf5] & Hd5 & Hw5 & Hk5).
  apply Hk5 in Hto; [|done]. kstep. apply wp_zoom.
  assert (refs s5 dst = 1) as Hrd5.
  { rewrite Hr5, Hr4, Hr3, Hr2, Hr1, at1_eq, !at1_ne, Hrd by done. lia. }
  assert (view s5 dst = view s0 src) as Hvd.
  { rewrite Hv5, Hv4, Hv3, decide_True, Hv1 by done. done. }
  assert (view s3 dst = view s0 src) as Hv3d by (rewrite Hv3, decide_True, Hv1 by done; done).
  eapply wp_mono; [apply (brelse_client me s5 to dst c1); [done|done|apply bio_free_nil; congruence|]|].
  { intros _. rewrite Hvd, Hd5, Hd4, dread_dwrite, decide_True by done. done. }
  cbn [lbio set_bio llog]. intros [] c2 s6 (Hc6 & [Hi6 Hv6 Hr6 Hb6 Hf6] & Hd6 & Hw6 & _).
  apply Hm; [congruence|done|cbn [lbio set_bio]..].
  - split; [done| | |].
    + intros k. rewrite Hb6, Hb5, Hb4, Hb3, Hb2, Hb1. pose proof (Hb k). tauto.
    + intros k. rewrite Hr6, Hr5, Hr4, Hr3, Hr2, Hr1, <- Hr. at1_solve.
    + rewrite Hf6, Hf5, Hf4, Hf3, Hf2, Hf1, Hrd5, Hrs4, Hrd. rewrite Hr1, at1_ne, Hrs by done. simpl. lia.
  - split; [|split].
    + intros k. rewrite Hv6, Hv5, Hv4, Hv3. destruct (decide (k = dst)); [by rewrite Hv1|by rewrite Hv2, Hv1].
    + rewrite Hd6, Hd5, Hd4, Hd3, Hd2, Hd1. by rewrite Hv3d.
    + rewrite Hw6, Hw5, Hw4, Hw3, Hw2, Hw1. by rewrite Hv3d.
Qed.

(** One round of [install_trans]; a pinned block is unpinned. *)
Lemma install_step {R} s P F src dst (recovering : bool) c (m : K lstate R) Q :
  held c = [] -> quiet (lbio s) P F -> (if recovering then 1 < F else 0 < F) ->
  src ∉ P -> src <> dst -> (if recovering then dst ∉ P else dst ∈ P) ->
  (forall c' s', held c' = [] -> llog s' = llog s ->
     quiet (lbio s') (filter (fun k => k <> dst) P) (F + if recovering then 0 else 1) ->
     copies src dst (lbio s) (lbio s') -> wp m Q c' s') ->
  wp (lbuf <- bio (bread me ROOTDEV src) ;;
      dbuf <- bio (bread me ROOTDEV dst) ;;
      copy_data dbuf lbuf ;;
      bio (bwrite me dbuf) ;;
      when (negb recovering) (bio (bunpin dbuf)) ;;
      bio (brelse me lbuf) ;;
      bio (brelse me dbuf) ;;
      m) Q c s.
Proof.
  intros Hh [Hi Hb Hr Hf] HF Hsrc Hne Hdst Hm. destruct s as [s0 lg]. simpl in *.
  assert (refs s0 src = 0) as Hrs by (by rewrite Hr, decide_False).
  assert (refs s0 dst = if recovering then 0 else 1) as Hrd.
  { rewrite Hr. destruct recovering; [by rewrite decide_False|by rewrite decide_True]. }
  kstep. apply wp_zoom.
  eapply wp_mono; [apply (bread_client me s0 src c); [done|apply Hb|destruct recovering; lia|lia|by apply bio_free_nil]|].
  cbn [lbio]. intros lb c1 s1 (-> & Hlb & Hdlb & [Hi1 Hv1 Hr1 Hb1 Hf1] & Hd1 & Hw1 & _).
  rewrite Hrs in Hf1. rewrite decide_True in Hf1 by done.
  kstep. apply wp_zoom. eapply wp_mono; [apply (bread_client me s1 dst c); [done| | | |by apply bio_free_nil]|].
  { rewrite Hb1. intros [?|?]; [by eapply Hb|congruence]. }
  { rewrite Hr1, at1_ne, Hrd by done. destruct recovering; lia. }
  { rewrite Hr1, at1_ne, Hrd by done. destruct recovering; lia. }
  cbn [lbio set_bio]. intros db c1 s2 (-> & Hdb & Hddb & [Hi2 Hv2 Hr2 Hb2 Hf2] & Hd2 & Hw2 & Hk2).
  rewrite Hr1, at1_ne, Hrd in Hf2 by done.
  apply Hk2 in Hlb. unfold copy_data. kstep. kstep. apply wp_zoom. unfold get_buf. kstep. apply wp_zoom.
  cbn [lbio set_bio]. destruct (holds_data me s2 lb src Hi2 Hlb) as (Hlbv & _). rewrite <- Hlbv.
  eapply wp_mono; [apply (setdata_client me s2 db dst _ c); [done|done|by apply view_ok]|].
  cbn [lbio set_bio]. intros [] c1 s3 (-> & _ & [Hi3 Hv3 Hr3 Hb3 Hf3] & Hd3 & Hw3 & Hk3).
  apply Hk3 in Hlb, Hdb. kstep. apply wp_zoom.
  eapply wp_mono; [apply (bwrite_client me s3 db dst c); [done|done|by apply bio_free_nil]|].
  cbn [lbio set_bio]. intros [] c1 s4 (-> & Hb4e & [Hi4 Hv4 Hr4 Hb4 Hf4] & Hd4 & Hw4).
  apply (holds_bufs me s3 s4) in Hlb, Hdb; [|done..]. kstep.
  assert (forall k, refs s4 k = refs s0 k + at1 src 1 k + at1 dst 1 k) as Hr40.
  { intros k. rewrite Hr4, Hr3, Hr2, Hr1. lia. }
  assert (view s4 dst = view s0 src) as Hv4d.
  { rewrite Hv4, Hv3, decide_True, Hv2, Hv1 by done. done. }
  assert (wp (when (negb recovering) (bio (bunpin db))) (fun _ c' s' => c' = c /\ llog s' = lg /\
    binv (lbio s') /\ (forall k, view (lbio s') k = view s4 k) /\
    (forall k, refs (lbio s') k = refs s4 k - at1 dst (if recovering then 0 else 1) k) /\
    (forall k, busy (lbio s') k <-> busy s4 k) /\ free_cnt (lbio s') = free_cnt s4 /\
    dsk (lbio s') = dsk s4 /\ dwrites (lbio s') = dwrites s4 /\
    holds me (lbio s') lb src /\ holds me (lbio s') db dst) c (Lst s4 lg)) as Hun.
  { destruct recovering; simpl.
    - kstep. simpl. split_and!; try done. intros k. at1_solve.
    - apply wp_zoom. eapply wp_mono; [apply (bunpin_client me s4 db dst c); [done|done|by apply bio_free_nil|]|].
      { rewrite Hr40, Hrd, at1_eq, at1_ne by done. lia. }
      cbn [lbio set_bio llog]. intros [] c' s' (-> & [Hi5 Hv5 Hr5 Hb5 Hf5] & Hd5 & Hw5 & Hk5).
      split_and!; try done; [| |by apply Hk5|by apply Hk5]; [|lia]. intros k. rewrite Hr5. at1_solve. }
  eapply wp_mono; [exact Hun|]. clear Hun.
  intros [] c1 [s5 lg5] (-> & Hlg & Hi5 & Hv5 & Hr5 & Hb5 & Hf5 & Hd5 & Hw5 & Hlb5 & Hdb5). simpl in *. subst lg5.
  kstep. apply wp_zoom. eapply wp_mono; [apply (brelse_client me s5 lb src c); [done|done|by apply bio_free_nil|]|].
  { intros _. rewrite Hv5, Hd5, Hd4, Hv4, Hv3, dread_dwrite, !decide_False by done.
    rewrite Hd3, Hd2, Hd1, Hv2, Hv1. by apply unused_clean. }
  cbn [lbio set_bio]. intros [] c1 s6 (Hc6 & [Hi6 Hv6 Hr6 Hb6 Hf6] & Hd6 & Hw6 & Hk6).
  apply Hk6 in Hdb5; [|done]. kstep. apply wp_zoom.
  eapply wp_mono; [apply (brelse_client me s6 db dst c1); [done|done|apply bio_free_nil; congruence|]|].
  { intros _. rewrite Hv6, Hv5, Hv4d, Hd6, Hd5, Hd4, dread_dwrite, decide_True by done. by rewrite <- Hv4. }
  cbn [lbio set_bio llog]. intros [] c2 s7 (Hc7 & [Hi7 Hv7 Hr7 Hb7 Hf7] & Hd7 & Hw7 & _).
  apply Hm; [congruence|done|cbn [lbio set_bio]..].
  - split; [done| | |].
    + intros k. rewrite Hb7, Hb6, Hb5, Hb4, Hb3, Hb2, Hb1. pose proof (Hb k). tauto.
    + intros k. rewrite Hr7, Hr6, Hr5, Hr40, Hr. destruct (decide (k = dst)) as [->|E].
      * rewrite (decide_False (P := dst ∈ filter _ P)) by (rewrite list_elem_of_filter; tauto).
        rewrite <- Hr, Hrd, !at1_eq, !at1_ne by done. lia.
      * rewrite !(at1_ne dst) by done.
        assert (k ∈ filter (fun k => k <> dst) P <-> k ∈ P) as Hfil by (rewrite list_elem_of_filter; tauto).
        destruct (decide (k ∈ filter _ P)) as [Hx|Hx]; rewrite Hfil in Hx;
          [rewrite decide_True by done|rewrite decide_False by done]; unfold at1; destruct (decide (k = src)); lia.
    + rewrite Hf7, Hf6, Hf5, Hf4, Hf3, Hf2, Hf1, Hf.
      assert (refs s5 src = 1) as -> by (rewrite Hr5, Hr40, Hrs, at1_eq, !at1_ne by done; lia).
      assert (refs s6 dst = 1) as ->.
      { rewrite Hr6, Hr5, Hr40, Hrd, !at1_eq, !at1_ne by done. destruct recovering; lia. }
      destruct recovering; simpl; lia.
  - split; [|split].
    + intros k. rewrite Hv7, Hv6, Hv5, Hv4, Hv3. destruct (decide (k = dst)); by rewrite Hv2, Hv1.
    + rewrite Hd7, Hd6, Hd5, Hd4, Hd3, Hd2, Hd1. by rewrite <- Hv4, Hv4d.
    + rewrite Hw7, Hw6, Hw5, Hw4, Hw3, Hw2, Hw1. by rewrite <- Hv4, Hv4d.
Qed.

(** ** Sequences of writes *)

Definition apply_writes (d : disk) (ws : list (Z * block)) : disk :=
  foldl (fun d '(b, v) => dwrite d b v) d ws.
Definition upd_view (v : Z -> block) (ws : list (Z * block)) : Z -> block :=
  foldl (fun v '(b, x) k => if decide (k = b) then x else v k) v ws.

(** [s'] follows from [s] by writing [ws] through the cache. *)
Definition wrote (ws : list (Z * block)) (s s' : bstate) : Prop :=
  (forall k, view s' k = upd_view (view s) ws k) /\
  dsk s' = apply_writes (dsk s) ws /\ dwrites s' = dwrites s ++ ws.

Lemma upd_view_ext v v' ws k : (forall k, v k = v' k) -> upd_view v ws k = upd_view v' ws k.
Proof.
  revert v v'. induction ws as [|[b x] ws IH]; intros v v' H; simpl; [done|].
  apply IH. intros k'. by rewrite H.
Qed.

Lemma upd_view_app v ws ws' k : upd_view v (ws ++ ws') k = upd_view (upd_view v ws) ws' k.
Proof. unfold upd_view. by rewrite foldl_app. Qed.

Lemma dread_apply d ws k : dread (apply_writes d ws) k = upd_view (dread d) ws k.
Proof.
  revert d. induction ws as [|[b x] ws IH]; intros d; simpl; [done|]. rewrite IH.
  apply upd_view_ext. intros k'. rewrite dread_dwrite. repeat case_decide; congruence.
Qed.

Lemma upd_view_notin v ws k : k ∉ ws.*1 -> upd_view v ws k = v k.
Proof.
  revert v. induction ws as [|[b x] ws IH]; intros v H; simpl; [done|]. simpl in H.
  rewrite IH by set_solver. rewrite decide_False by set_solver. done.
Qed.

Lemma upd_view_in v ws i k x : NoDup ws.*1 -> ws !! i = Some (k, x) -> upd_view v ws k = x.
Proof.
  revert v i. induction ws as [|[b y] ws IH]; intros v i Hnd Hi; [done|]. simpl in *.
  apply NoDup_cons in Hnd as [Hb Hnd]. destruct i as [|i]; simpl in Hi.
  - injection Hi as -> ->. rewrite upd_view_notin by done. by rewrite decide_True.
  - by eapply IH.
Qed.

Lemma wrote_nil (s : bstate) : wrote [] s s.
Proof. split; [done|]. simpl. by rewrite app_nil_r. Qed.

Lemma wrote_app ws ws' (s1 s2 s3 : bstate) : wrote ws s1 s2 -> wrote ws' s2 s3 -> wrote (ws ++ ws') s1 s3.
Proof.
  intros (Hv1 & Hd1 & Hw1) (Hv2 & Hd2 & Hw2). split_and!.
  - intros k. rewrite Hv2, upd_view_app. by apply upd_view_ext.
  - rewrite Hd2, Hd1. unfold apply_writes. by rewrite foldl_app.
  - by rewrite Hw2, Hw1, app_assoc.
Qed.

Lemma copies_wrote src dst (s s' : bstate) : copies src dst s s' -> wrote [(dst, view s src)] s s'.
Proof. done. Qed.

(** The block numbers of the log: header at [start], then the log blocks. *)
Definition log_writes (start : Z) (v : Z -> block) (bs : list Z) : list (Z * block) :=
  imap (fun i b => (start + 1 + Z.of_nat i, v b)) bs.
Definition install_writes (start : Z) (v : Z -> block) (bs : list Z) : list (Z * block) :=
  imap (fun i b => (b, v (start + 1 + Z.of_nat i))) bs.

Lemma log_writes_S start v bs i b :
  bs !! i = Some b -> log_writes start v (take (S i) bs) = log_writes start v (take i bs) ++ [(start + 1 + Z.of_nat i, v b)].
Proof.
  intros Hb. rewrite (take_S_r _ _ _ Hb). unfold log_writes. rewrite imap_app. simpl. f_equal.
  rewrite length_take. apply lookup_lt_Some in Hb. do 3 f_equal. lia.
Qed.

Lemma install_writes_S start v bs i b :
  bs !! i = Some b -> install_writes start v (take (S i) bs) = install_writes start v (take i bs) ++ [(b, v (start + 1 + Z.of_nat i))].
Proof.
  intros Hb. rewrite (take_S_r _ _ _ Hb). unfold install_writes. rewrite imap_app. simpl. f_equal.
  rewrite length_take. apply lookup_lt_Some in Hb. do 4 f_equal. lia.
Qed.

Lemma log_writes_fst start v bs k :
  k ∈ (log_writes start v bs).*1 -> start + 1 <= k < start + 1 + Z.of_nat (length bs).
Proof.
  rewrite list_elem_of_fmap. intros ([b x] & -> & Hin). apply list_elem_of_lookup in Hin as [i Hi].
  unfold log_writes in Hi. rewrite list_lookup_imap in Hi. destruct (bs !! i) as [y|] eqn:E; [|done].
  injection Hi as <- <-. apply lookup_lt_Some in E. simpl. lia.
Qed.

Lemma install_writes_fst start v bs : (install_writes start v bs).*1 = bs.
Proof.
  unfold install_writes. apply list_eq. intros i. rewrite list_lookup_fmap, list_lookup_imap.
  by destruct (bs !! i).
Qed.
End logspec.
