(* ===== verification/LogRun.v ===== *)
(** * The disk writes of commit and recovery *)
From S2P Require Import Prelude Kmonad Riscv Mem Block Sleeplock Bio BioRing BioCache BioSpec Log LogSpec.

Section logrun.
Context {D : BlockDev} (me start : Z).
Implicit Types (s : lstate) (P bs : list Z) (c : ctx) (k : Z).

Definition in_log k : Prop := start <= k <= start + LOGBLOCKS.

(** [bs] is a set of blocks that a transaction may log. *)
Record loggable bs : Prop := {
  lg_start : 0 <= start /\ start + LOGBLOCKS < 2 ^ 31;
  lg_len : Z.of_nat (length bs) <= LOGBLOCKS;
  lg_range : forall b, b ∈ bs -> 0 <= b < 2 ^ 31 /\ ~ in_log b;
  lg_nodup : NoDup bs;
}.

(** The in-memory log records the blocks [bs]. *)
Record logs (l : log) bs : Prop := {
  ls_dev : ldev l = ROOTDEV;
  ls_start : lstart l = start;
  ls_n : lh_n (lh l) = Z.of_nat (length bs);
  ls_blocks : take (length bs) (lh_block (lh l)) = bs;
}.

Lemma logs_lookup l bs (i : nat) b : logs l bs -> bs !! i = Some b -> lh_block (lh l) !!! i = b.
Proof.
  intros Hl Hb. apply list_lookup_total_correct. rewrite <- Hb, <- (ls_blocks _ _ Hl) at 1.
  symmetry. apply lookup_take_lt. apply lookup_lt_Some in Hb. lia.
Qed.

Lemma write_log_spec s P F bs c :
  held c = [] -> quiet (lbio s) P F -> 0 < F -> loggable bs -> logs (llog s) bs ->
  (forall b, b ∈ bs -> b ∈ P) -> (forall k, in_log k -> k ∉ P) ->
  wp (write_log me) (fun _ c' s' => held c' = [] /\ llog s' = llog s /\ quiet (lbio s') P F /\
    wrote (log_writes start (view (lbio s)) bs) (lbio s) (lbio s')) c s.
Proof.
  intros Hh Hq HF [[Hs0 Hs1] Hlen Hrng Hnd] Hl HbP HlP. unfold write_log, get_log. kstep. kstep.
  rewrite (ls_n _ _ Hl), Nat2Z.id. unfold LOGBLOCKS, MAXOPBLOCKS in *.
  apply wp_loop with (I := fun n tail c' s' => held c' = [] /\ llog s' = llog s /\ exists i : nat,
    tail = Z.of_nat i /\ (i <= length bs)%nat /\ n = (length bs - i + 1)%nat /\
    quiet (lbio s') P F /\ wrote (log_writes start (view (lbio s)) (take i bs)) (lbio s) (lbio s')).
  2: { split_and!; [done..|]. exists O. split_and!; [done|lia|lia|done|apply wrote_nil]. }
  intros k tail c' s1 (Hc & Hlg & i & -> & Hi & -> & Hq1 & Hw1). exists (length bs - i)%nat. split; [lia|].
  kstep. kstep. unfold id. rewrite Hlg, (ls_n _ _ Hl), (ls_dev _ _ Hl), (ls_start _ _ Hl).
  destruct (Z.ltb_spec (Z.of_nat i) (Z.of_nat (length bs))) as [Hlt|Hge].
  2: { kstep. replace i with (length bs) in Hw1 by lia. rewrite firstn_all in Hw1. done. }
  destruct (lookup_lt_is_Some_2 bs i ltac:(lia)) as [b Hb]. pose proof (list_elem_of_lookup_2 _ _ _ Hb) as Hin.
  destruct (Hrng b Hin) as [Hbr Hbl]. rewrite Nat2Z.id, (logs_lookup _ _ _ _ Hl Hb).
  change (u32 ROOTDEV) with ROOTDEV. rewrite !u32_id by lia.
  eapply (write_log_step me s1 P F b (start + Z.of_nat i + 1) c'); [done|done|done|by apply HbP|..].
  { apply HlP. unfold in_log, LOGBLOCKS, MAXOPBLOCKS. lia. }
  intros c2 s2 Hc2 Hlg2 Hq2 Hcp. kstep. split_and!; [done|congruence|]. exists (S i).
  split_and!; [lia..|done|]. rewrite (log_writes_S _ _ _ _ _ Hb).
  replace (start + 1 + Z.of_nat i) with (start + Z.of_nat i + 1) by lia.
  eapply wrote_app; [exact Hw1|]. apply copies_wrote in Hcp.
  destruct Hw1 as (Hv1 & _). rewrite Hv1, upd_view_notin in Hcp; [done|].
  intros Hx%log_writes_fst. apply Hbl. rewrite length_take in Hx. unfold in_log, LOGBLOCKS, MAXOPBLOCKS. lia.
Qed.

Lemma quiet_ext (s : bstate) P P' F F' : (forall k, k ∈ P <-> k ∈ P') -> F = F' -> quiet s P F -> quiet s P' F'.
Proof.
  intros HP <- [Hi Hb Hr Hf]. split; [done..| |done]. intros k. rewrite Hr.
  destruct (decide (k ∈ P)) as [Hx|Hx]; rewrite HP in Hx; [by rewrite decide_True|by rewrite decide_False].
Qed.

Lemma install_trans_spec s P F bs (recovering : bool) c :
  held c = [] -> quiet (lbio s) P F -> (if recovering then 1 < F else 0 < F) -> loggable bs -> logs (llog s) bs ->
  (forall b, b ∈ bs -> if recovering then b ∉ P else b ∈ P) -> (forall k, in_log k -> k ∉ P) ->
  wp (install_trans me recovering) (fun _ c' s' => held c' = [] /\ llog s' = llog s /\
    quiet (lbio s') (filter (fun k => k ∉ bs) P) (F + if recovering then 0 else Z.of_nat (length bs)) /\
    wrote (install_writes start (view (lbio s)) bs) (lbio s) (lbio s')) c s.
Proof.
  intros Hh Hq HF [[Hs0 Hs1] Hlen Hrng Hnd] Hl HbP HlP. unfold install_trans, get_log. kstep. kstep.
  rewrite (ls_n _ _ Hl), Nat2Z.id. unfold LOGBLOCKS, MAXOPBLOCKS in *.
  apply wp_loop with (I := fun n tail c' s' => held c' = [] /\ llog s' = llog s /\ exists i : nat,
    tail = Z.of_nat i /\ (i <= length bs)%nat /\ n = (length bs - i + 1)%nat /\
    quiet (lbio s') (filter (fun k => k ∉ take i bs) P) (F + if recovering then 0 else Z.of_nat i) /\
    wrote (install_writes start (view (lbio s)) (take i bs)) (lbio s) (lbio s')).
  2: { split_and!; [done..|]. exists O. split_and!; [done|lia|lia| |apply wrote_nil].
       eapply quiet_ext; [| |exact Hq]; [|destruct recovering; lia].
       intros k. rewrite list_elem_of_filter, take_0, elem_of_nil. tauto. }
  intros k tail c' s1 (Hc & Hlg & i & -> & Hi & -> & Hq1 & Hw1). exists (length bs - i)%nat. split; [lia|].
  kstep. kstep. unfold id. rewrite Hlg, (ls_n _ _ Hl), (ls_dev _ _ Hl), (ls_start _ _ Hl).
  destruct (Z.ltb_spec (Z.of_nat i) (Z.of_nat (length bs))) as [Hlt|Hge].
  2: { kstep. replace i with (length bs) in * by lia. rewrite firstn_all in *. done. }
  destruct (lookup_lt_is_Some_2 bs i ltac:(lia)) as [b Hb]. pose proof (list_elem_of_lookup_2 _ _ _ Hb) as Hin.
  destruct (Hrng b Hin) as [Hbr Hbl]. rewrite Nat2Z.id, (logs_lookup _ _ _ _ Hl Hb).
  change (u32 ROOTDEV) with ROOTDEV. rewrite !u32_id by lia.
  assert (b ∉ take i bs) as Hbt.
  { intros [j [Hj Hji]%lookup_take_Some]%list_elem_of_lookup.
    pose proof (NoDup_lookup _ _ _ _ Hnd Hb Hj). lia. }
  assert (in_log (start + Z.of_nat i + 1)) as Hlog by (unfold in_log, LOGBLOCKS, MAXOPBLOCKS; lia).
  eapply (install_step me s1 _ _ (start + Z.of_nat i + 1) b recovering c' _ _ Hc Hq1).
  - destruct recovering; lia.
  - rewrite list_elem_of_filter. intros [_ ?]. by apply (HlP (start + Z.of_nat i + 1)).
  - intros <-. done.
  - specialize (HbP b Hin). destruct recovering; rewrite list_elem_of_filter; tauto.
  - intros c2 s2 Hc2 Hlg2 Hq2 Hcp. kstep. split_and!; [done|congruence|]. exists (S i).
    split_and!; [lia..| |].
    + eapply quiet_ext; [| |exact Hq2]; [|destruct recovering; lia]. intros k.
      rewrite !list_elem_of_filter, (take_S_r _ _ _ Hb), elem_of_app, list_elem_of_singleton. tauto.
    + rewrite (install_writes_S _ _ _ _ _ Hb).
      replace (start + 1 + Z.of_nat i) with (start + Z.of_nat i + 1) by lia.
      eapply wrote_app; [exact Hw1|]. apply copies_wrote in Hcp.
      destruct Hw1 as (Hv1 & _). rewrite Hv1, upd_view_notin in Hcp; [done|].
      rewrite install_writes_fst. intros [j [Hj _]%lookup_take_Some]%list_elem_of_lookup.
      apply list_elem_of_lookup_2 in Hj. by apply (Hrng _ Hj).
Qed.

(** ** The header block *)

Definition head_n (h : block) : Z := i32 (get32 0 h).
Definition head_blocks (h : block) : list Z := get_blocks (Z.to_nat (head_n h)) 4 h.
Definition enc_head bs (h : block) : block := put_blocks 4 bs (put32 0 (Z.of_nat (length bs)) h).

Lemma put_blocks_ok bs off d :
  block_ok d -> 0 <= off -> off + 4 * Z.of_nat (length bs) <= BSIZE -> block_ok (put_blocks off bs d).
Proof.
  revert off d. induction bs as [|b bs IH]; intros off d Hd H0 Hl; simpl in *; [done|].
  apply IH; [apply put32_ok; (done || lia)|lia|lia].
Qed.

Lemma get32_put_blocks bs off d o :
  block_ok d -> 0 <= o -> o + 4 <= off -> off + 4 * Z.of_nat (length bs) <= BSIZE ->
  get32 o (put_blocks off bs d) = get32 o d.
Proof.
  revert off d. induction bs as [|b bs IH]; intros off d Hd H0 Ho Hl; simpl in *; [done|].
  rewrite IH by (lia || apply put32_ok; (done || lia)). destruct Hd as [Hlen _].
  apply get32_put32_ne; rewrite ?Hlen; unfold BSIZE in *; lia.
Qed.

Lemma get_put_blocks bs off d :
  block_ok d -> 0 <= off -> off + 4 * Z.of_nat (length bs) <= BSIZE ->
  (forall b, b ∈ bs -> 0 <= b < 2 ^ 31) -> get_blocks (length bs) off (put_blocks off bs d) = bs.
Proof.
  revert off d. induction bs as [|b bs IH]; intros off d Hd H0 Hl Hb; simpl in *; [done|].
  assert (block_ok (put32 off b d)) as Hd' by (apply put32_ok; (done || lia)).
  f_equal; [|apply IH; [done|lia|lia|set_solver]].
  rewrite get32_put_blocks by (done || lia). assert (0 <= b < 2 ^ 31) by set_solver.
  destruct Hd as [Hlen _]. rewrite get32_put32_eq by (rewrite ?Hlen; unfold BSIZE in *; lia).
  rewrite u32_id, i32_id by lia. done.
Qed.

Lemma enc_head_spec bs h :
  block_ok h -> loggable bs -> block_ok (enc_head bs h) /\ head_n (enc_head bs h) = Z.of_nat (length bs) /\
  head_blocks (enc_head bs h) = bs.
Proof.
  intros Hh [_ Hlen Hrng _]. unfold LOGBLOCKS, MAXOPBLOCKS in Hlen.
  assert (block_ok (put32 0 (Z.of_nat (length bs)) h)) as Hp by (apply put32_ok; [done|lia|unfold BSIZE; lia]).
  assert (head_n (enc_head bs h) = Z.of_nat (length bs)) as Hn.
  { unfold head_n, enc_head. rewrite get32_put_blocks by (done || unfold BSIZE; lia). destruct Hh as [Hl _].
    rewrite get32_put32_eq by (rewrite ?Hl; unfold BSIZE; lia). rewrite u32_id, i32_id by lia. done. }
  split_and!; [apply put_blocks_ok; [done|lia|unfold BSIZE; lia]|done|].
  unfold head_blocks. rewrite Hn, Nat2Z.id. apply get_put_blocks; [done|lia|unfold BSIZE; lia|].
  intros b Hb. by apply Hrng.
Qed.

Lemma loggable_nil bs : loggable bs -> loggable [].
Proof. intros [H1 H2 H3 H4]. split; [done|simpl; lia|set_solver|constructor]. Qed.

Lemma write_head_spec s P F bs c :
  held c = [] -> quiet (lbio s) P F -> 0 < F -> loggable bs -> logs (llog s) bs -> start ∉ P ->
  wp (write_head me) (fun _ c' s' => held c' = [] /\ llog s' = llog s /\ quiet (lbio s') P F /\
    wrote [(start, enc_head bs (view (lbio s) start))] (lbio s) (lbio s')) c s.
Proof.
  intros Hh [Hi Hb Hr Hf] HF Hlg Hl HsP. destruct s as [s0 lg]. simpl in *.
  destruct (enc_head_spec bs (view s0 start) (view_ok _ _ Hi) Hlg) as (Hok & _).
  pose proof (lg_start _ Hlg) as [? ?]. unfold LOGBLOCKS, MAXOPBLOCKS in *.
  assert (refs s0 start = 0) as Hrs by (by rewrite Hr, decide_False).
  unfold write_head, get_log. kstep. kstep. unfold id. simpl llog.
  rewrite (ls_dev _ _ Hl), (ls_start _ _ Hl), (ls_n _ _ Hl), Nat2Z.id, (ls_blocks _ _ Hl).
  change (u32 ROOTDEV) with ROOTDEV. rewrite u32_id by lia.
  kstep. apply wp_zoom. eapply wp_mono; [apply (bread_client me s0 start c); [done|apply Hb|lia|lia|by apply bio_free_nil]|].
  cbn [lbio set_bio llog]. intros b c1 s1 (-> & Hb1h & Hd1a & [Hi1 Hv1 Hr1 Hb1 Hf1] & Hd1 & Hw1 & _).
  unfold get_buf. kstep. apply wp_zoom. kstep. cbn [lbio set_bio llog]. rewrite Hd1a.
  change (put_blocks 4 bs (put32 0 (Z.of_nat (length bs)) (view s0 start))) with (enc_head bs (view s0 start)).
  kstep. apply wp_zoom. eapply wp_mono; [apply (setdata_client me s1 b start _ c); done|].
  cbn [lbio set_bio llog]. intros [] c1 s2 (-> & _ & [Hi2 Hv2 Hr2 Hb2 Hf2] & Hd2 & Hw2 & Hk2). apply Hk2 in Hb1h.
  kstep. apply wp_zoom. eapply wp_mono; [apply (bwrite_client me s2 b start c); [done|done|by apply bio_free_nil]|].
  cbn [lbio set_bio llog]. intros [] c1 s3 (-> & Hb3e & [Hi3 Hv3 Hr3 Hb3 Hf3] & Hd3 & Hw3).
  apply (holds_bufs me s2 s3) in Hb1h; [|done]. apply wp_zoom.
  assert (view s2 start = enc_head bs (view s0 start)) as Hvs by (by rewrite Hv2, decide_True).
  assert (refs s3 start = 1) as Hr3s by (rewrite Hr3, Hr2, Hr1, Hrs, at1_eq; lia).
  eapply wp_mono; [apply (brelse_client me s3 b start c); [done|done|by apply bio_free_nil|]|].
  { intros _. rewrite Hv3, Hd3, dread_dwrite, decide_True by done. done. }
  cbn [lbio set_bio llog]. intros [] c2 s4 (Hc4 & [Hi4 Hv4 Hr4 Hb4 Hf4] & Hd4 & Hw4 & _).
  split; [congruence|]. split; [done|]. split; [split; [done|..]|split_and!].
  - intros k. rewrite Hb4, Hb3, Hb2, Hb1. pose proof (Hb k). tauto.
  - intros k. rewrite Hr4, Hr3, Hr2, Hr1, <- Hr. unfold at1. destruct (decide (k = start)); lia.
  - rewrite Hf4, Hf3, Hf2, Hf1, Hr3s, Hrs. simpl. lia.
  - intros k. rewrite Hv4, Hv3, Hv2. simpl. destruct (decide (k = start)); [done|by rewrite Hv1].
  - rewrite Hd4, Hd3, Hd2, Hd1, Hvs. done.
  - rewrite Hw4, Hw3, Hw2, Hw1, Hvs. done.
Qed.

Lemma read_head_spec s P F bs c :
  held c = [] -> quiet (lbio s) P F -> 0 < F -> loggable bs -> start ∉ P ->
  ldev (llog s) = ROOTDEV -> lstart (llog s) = start -> 
  head_n (view (lbio s) start) = Z.of_nat (length bs) -> head_blocks (view (lbio s) start) = bs ->
  wp (read_head me) (fun _ c' s' => held c' = [] /\ logs (llog s') bs /\ quiet (lbio s') P F /\
    wrote [] (lbio s) (lbio s')) c s.
Proof.
  intros Hh [Hi Hb Hr Hf] HF Hlg HsP Hdev Hst Hn Hbs. destruct s as [s0 lg]. simpl in *.
  pose proof (lg_start _ Hlg) as [? ?]. unfold LOGBLOCKS, MAXOPBLOCKS in *.
  assert (refs s0 start = 0) as Hrs by (by rewrite Hr, decide_False).
  unfold read_head, get_log. kstep. kstep. unfold id. simpl llog. rewrite Hdev, Hst.
  change (u32 ROOTDEV) with ROOTDEV. rewrite u32_id by lia.
  kstep. apply wp_zoom. eapply wp_mono; [apply (bread_client me s0 start c); [done|apply Hb|lia|lia|by apply bio_free_nil]|].
  cbn [lbio set_bio llog]. intros b c1 s1 (-> & Hb1h & Hd1a & [Hi1 Hv1 Hr1 Hb1 Hf1] & Hd1 & Hw1 & _).
  unfold get_buf, mod_log. kstep. apply wp_zoom. kstep. cbn [lbio set_bio llog]. rewrite Hd1a.
  change (i32 (get32 0 (view s0 start))) with (head_n (view s0 start)).
  change (get_blocks (Z.to_nat (head_n (view s0 start))) 4 (view s0 start)) with (head_blocks (view s0 start)).
  rewrite Hbs, Hn. kstep. kstep. apply wp_zoom. cbn [lbio set_bio set_log llog].
  assert (refs s1 start = 1) as Hr1s by (rewrite Hr1, Hrs, at1_eq; lia).
  eapply wp_mono; [apply (brelse_client me s1 b start c); [done|done|by apply bio_free_nil|]|].
  { intros _. rewrite Hv1, Hd1. by apply unused_clean. }
  cbn [lbio set_bio set_log llog]. intros [] c2 s4 (Hc4 & [Hi4 Hv4 Hr4 Hb4 Hf4] & Hd4 & Hw4 & _).
  split; [congruence|]. split; [|split; [split; [done|..]|split_and!]].
  - split; simpl; [done..|]. by rewrite take_app_length.
  - intros k. rewrite Hb4, Hb1. pose proof (Hb k). tauto.
  - intros k. rewrite Hr4, Hr1, <- Hr. unfold at1. destruct (decide (k = start)); lia.
  - rewrite Hf4, Hf1, Hr1s, Hrs. simpl. lia.
  - intros k. by rewrite Hv4, Hv1.
  - by rewrite Hd4, Hd1.
  - by rewrite Hw4, Hw1, app_nil_r.
Qed.
End logrun.
