(* ===== verification/LogCrash.v ===== *)
(** * Crash safety of the log

    A crash may stop [commit] or recovery between any two disk writes; what
    is then on disk is the old disk with a prefix of the writes applied, and
    nothing of the cache survives.  [logical] is what recovery makes of a
    disk: the blocks with the committed transaction in the log installed.
    The theorems: at every point of a commit the logical contents are either
    those before the transaction or those after it, and recovery, itself
    interrupted at any point, preserves them and installs them. *)
From S2P Require Import Prelude Kmonad Riscv Mem Block Sleeplock Bio BioRing BioCache BioSpec Log LogSpec LogRun.

Section crash.
Context {D : BlockDev} (me start : Z).
Implicit Types (s : lstate) (P bs : list Z) (c : ctx) (k : Z) (d : disk) (v : Z -> block).

(** ** The writes of a commit, in order *)

Definition home_writes v bs : list (Z * block) := (fun b => (b, v b)) <$> bs.

Definition commit_writes v bs : list (Z * block) :=
  log_writes start v bs ++ [(start, enc_head bs (v start))] ++ home_writes v bs ++
  [(start, enc_head [] (enc_head bs (v start)))].

Definition recover_writes v bs : list (Z * block) :=
  install_writes start v bs ++ [(start, enc_head [] (v start))].

Lemma log_writes_lookup v bs i b :
  bs !! i = Some b -> log_writes start v bs !! i = Some (start + 1 + Z.of_nat i, v b).
Proof. intros Hb. unfold log_writes. by rewrite list_lookup_imap, Hb. Qed.

Lemma log_writes_nodup v bs : NoDup (log_writes start v bs).*1.
Proof.
  apply NoDup_alt. intros i j x Hi Hj. rewrite list_lookup_fmap in Hi, Hj.
  unfold log_writes in *. rewrite list_lookup_imap in Hi, Hj.
  destruct (bs !! i); [|done]. destruct (bs !! j); [|done]. simpl in *. injection Hi as <-. injection Hj as E. lia.
Qed.

(** Log block [i], whatever was on disk, once the log has been written. *)
Lemma upd_view_log (f v : Z -> block) bs i b ws :
  loggable start bs -> bs !! i = Some b -> (forall k, k ∈ ws.*1 -> k = start \/ ~ in_log start k) ->
  upd_view f (log_writes start v bs ++ ws) (start + 1 + Z.of_nat i) = v b.
Proof.
  intros Hlg Hb Hws. rewrite upd_view_app, upd_view_notin.
  - eapply upd_view_in; [apply log_writes_nodup|by apply log_writes_lookup].
  - intros Hin. apply lookup_lt_Some in Hb. pose proof (lg_len _ _ Hlg).
    destruct (Hws _ Hin) as [?|Hn]; [lia|]. apply Hn. unfold in_log. lia.
Qed.

Lemma install_home v bs :
  loggable start bs ->
  install_writes start (upd_view v (log_writes start v bs ++ [(start, enc_head bs (v start))])) bs = home_writes v bs.
Proof.
  intros Hlg. apply list_eq. intros i. unfold install_writes, home_writes.
  rewrite list_lookup_imap, list_lookup_fmap. destruct (bs !! i) as [b|] eqn:Hb; [|done]. simpl.
  rewrite (upd_view_log v v bs i b) by (done || set_solver). done.
Qed.

Lemma install_writes_ext v v' bs : (forall k, v k = v' k) -> install_writes start v bs = install_writes start v' bs.
Proof. intros E. unfold install_writes. apply imap_ext. intros i x _. by rewrite E. Qed.

Lemma home_writes_fst v bs : (home_writes v bs).*1 = bs.
Proof. unfold home_writes. rewrite <- list_fmap_compose. apply list_fmap_id. Qed.

Lemma logs_set_n l bs : logs start l bs -> logs start (set_n 0 l) [].
Proof. intros [H1 H2 H3 H4]. split; simpl; [done..|]. done. Qed.

Lemma commit_run s P F bs c :
  held c = [] -> quiet (lbio s) P F -> 0 < F -> loggable start bs -> logs start (llog s) bs -> bs <> [] ->
  (forall b, b ∈ bs -> b ∈ P) -> (forall k, in_log start k -> k ∉ P) ->
  wp (commit me) (fun _ c' s' => held c' = [] /\ logs start (llog s') [] /\
    quiet (lbio s') (filter (fun k => k ∉ bs) P) (F + Z.of_nat (length bs)) /\
    wrote (commit_writes (view (lbio s)) bs) (lbio s) (lbio s')) c s.
Proof.
  intros Hh Hq HF Hlg Hl Hne HbP HlP.
  assert (start ∉ P) as HsP by (apply HlP; unfold in_log, LOGBLOCKS, MAXOPBLOCKS; lia).
  unfold commit, get_log. kstep. kstep. rewrite (ls_n _ _ _ Hl).
  assert (0 < Z.of_nat (length bs)) as Hpos by (destruct bs; [done|simpl; lia]).
  rewrite (proj2 (Z.ltb_lt _ _)) by done. cbn [when].
  kstep. eapply wp_mono; [by apply (write_log_spec me start s P F bs c)|].
  intros [] c1 s1 (Hc1 & Hl1 & Hq1 & Hw1).
  kstep. eapply wp_mono; [apply (write_head_spec me start s1 P F bs c1); try done; by rewrite Hl1|].
  intros [] c2 s2 (Hc2 & Hl2 & Hq2 & Hw2). pose proof (wrote_app _ _ _ _ _ Hw1 Hw2) as Hw12.
  rewrite (proj1 Hw1 start), upd_view_notin in Hw12 by (intros Hx%log_writes_fst; lia).
  kstep. eapply wp_mono; [apply (install_trans_spec me start s2 P F bs false c2); try done; by rewrite Hl2, Hl1|].
  intros [] c3 s3 (Hc3 & Hl3 & Hq3 & Hw3).
  rewrite (install_writes_ext _ _ bs (proj1 Hw12)), install_home in Hw3 by done.
  pose proof (wrote_app _ _ _ _ _ Hw12 Hw3) as Hw123.
  unfold mod_log. kstep. kstep.
  eapply wp_mono; [apply (write_head_spec me start _ (filter (fun k => k ∉ bs) P) (F + Z.of_nat (length bs)) [] c3);
    try done; [lia|by eapply loggable_nil|simpl; rewrite Hl3, Hl2, Hl1; by eapply logs_set_n|rewrite list_elem_of_filter; tauto]|].
  intros [] c4 s4 (Hc4 & Hl4 & Hq4 & Hw4). simpl in *.
  split; [done|]. split; [rewrite Hl4, Hl3, Hl2, Hl1; by eapply logs_set_n|]. split; [done|].
  pose proof (wrote_app _ _ _ _ _ Hw123 Hw4) as Hw.
  rewrite (proj1 Hw123 start), upd_view_app, upd_view_notin in Hw.
  - rewrite upd_view_app in Hw. simpl in Hw. rewrite decide_True in Hw by done.
    unfold commit_writes. by rewrite <- !app_assoc in *.
  - rewrite home_writes_fst. intros Hin. apply (lg_range _ _ Hlg) in Hin as [_ Hn].
    apply Hn. unfold in_log, LOGBLOCKS, MAXOPBLOCKS. lia.
Qed.

Lemma recover_run s F bs c :
  held c = [] -> quiet (lbio s) [] F -> 1 < F -> loggable start bs ->
  ldev (llog s) = ROOTDEV -> lstart (llog s) = start ->
  head_n (view (lbio s) start) = Z.of_nat (length bs) -> head_blocks (view (lbio s) start) = bs ->
  wp (recover_from_log me) (fun _ c' s' => held c' = [] /\ logs start (llog s') [] /\
    quiet (lbio s') [] F /\ wrote (recover_writes (view (lbio s)) bs) (lbio s) (lbio s')) c s.
Proof.
  intros Hh Hq HF Hlg Hdev Hst Hn Hbs. unfold recover_from_log.
  assert (forall k, k ∉ @nil Z) as Hnil by (intros k; apply not_elem_of_nil).
  kstep. eapply wp_mono; [by apply (read_head_spec me start s [] F bs c); try done; lia|].
  intros [] c1 s1 (Hc1 & Hl1 & Hq1 & Hw1).
  kstep. eapply wp_mono; [by apply (install_trans_spec me start s1 [] F bs true c1)|].
  intros [] c2 s2 (Hc2 & Hl2 & Hq2 & Hw2). rewrite (install_writes_ext _ _ bs (proj1 Hw1)) in Hw2.
  pose proof (wrote_app _ _ _ _ _ Hw1 Hw2) as Hw12. simpl app in Hw12.
  unfold mod_log. kstep. kstep.
  eapply wp_mono; [apply (write_head_spec me start _ [] F [] c2); try done|].
  - simpl. eapply quiet_ext; [| |exact Hq2]; [done|lia].
  - lia.
  - by eapply loggable_nil.
  - simpl. rewrite Hl2. by eapply logs_set_n.
  - intros [] c3 s3 (Hc3 & Hl3 & Hq3 & Hw3). simpl in *.
    split; [done|]. split; [rewrite Hl3, Hl2; by eapply logs_set_n|]. split; [done|].
    pose proof (wrote_app _ _ _ _ _ Hw12 Hw3) as Hw. rewrite (proj1 Hw12 start), upd_view_notin in Hw; [done|].
    rewrite install_writes_fst. intros Hin. apply (lg_range _ _ Hlg) in Hin as [_ Hx].
    apply Hx. unfold in_log, LOGBLOCKS, MAXOPBLOCKS. lia.
Qed.

(** ** What recovery makes of a disk *)

(** The position of block [k] in the log. *)
Fixpoint pos k bs : option nat :=
  match bs with
  | [] => None
  | b :: bs => if decide (b = k) then Some O else S <$> pos k bs
  end.

Definition logical d k : block :=
  match pos k (head_blocks (dread d start)) with
  | Some i => dread d (start + 1 + Z.of_nat i)
  | None => dread d k
  end.

(** The log on disk [d] holds a committed transaction of the blocks [bs]. *)
Record on_disk d bs : Prop := {
  od_n : head_n (dread d start) = Z.of_nat (length bs);
  od_blocks : head_blocks (dread d start) = bs;
  od_ok : loggable start bs;
}.

Lemma pos_Some k bs i : pos k bs = Some i -> bs !! i = Some k.
Proof.
  revert i. induction bs as [|b bs IH]; intros i; simpl; [done|]. case_decide as E.
  - intros [= <-]. by subst.
  - destruct (pos k bs); [|done]. intros [= <-]. by apply IH.
Qed.

Lemma pos_None k bs : pos k bs = None <-> k ∉ bs.
Proof.
  induction bs as [|b bs IH]; simpl; [set_solver|]. case_decide as E; [set_solver|].
  rewrite fmap_None, IH. set_solver.
Qed.

Lemma pos_lookup k bs i : NoDup bs -> bs !! i = Some k -> pos k bs = Some i.
Proof.
  intros Hnd Hi. destruct (pos k bs) as [j|] eqn:E.
  - apply pos_Some in E. f_equal. by eapply NoDup_lookup.
  - apply pos_None in E. apply list_elem_of_lookup_2 in Hi. done.
Qed.

(** While the log is being written the header still says that it is empty. *)
Lemma crash_logging d v bs i k :
  on_disk d [] -> loggable start bs -> ~ in_log start k ->
  let d' := apply_writes d (take i (log_writes start v bs)) in
  on_disk d' [] /\ logical d' k = dread d k.
Proof.
  intros [Hn Hb Hok] Hlg Hk d'.
  assert (forall k, dread d' k = dread d k \/ in_log start k /\ k <> start) as Hd.
  { intros k'. unfold d'. rewrite dread_apply.
    destruct (decide (k' ∈ (take i (log_writes start v bs)).*1)) as [Hin|Hin]; [right|left; by apply upd_view_notin].
    assert (k' ∈ (log_writes start v bs).*1) as Hin'.
    { rewrite <- (take_drop i (log_writes start v bs)), fmap_app, elem_of_app. by left. }
    apply log_writes_fst in Hin'. pose proof (lg_len _ _ Hlg). unfold in_log, LOGBLOCKS, MAXOPBLOCKS in *. lia. }
  assert (dread d' start = dread d start) as Hds by (destruct (Hd start) as [?|[_ ?]]; [done|done]).
  split; [split; [by rewrite Hds|by rewrite Hds|done]|].
  unfold logical. rewrite Hds, Hb. simpl. destruct (Hd k) as [?|[? _]]; [done|done].
Qed.

(** From the moment the header is on disk to the moment it is erased. *)
Lemma crash_installing d v bs i k :
  disk_ok d -> loggable start bs -> ~ in_log start k -> v start = dread d start ->
  let d' := apply_writes d (log_writes start v bs ++ [(start, enc_head bs (v start))] ++ take i (home_writes v bs)) in
  on_disk d' bs /\ logical d' k = if decide (k ∈ bs) then v k else dread d k.
Proof.
  intros Hok Hlg Hk Hvs d'.
  set (ws := [(start, enc_head bs (v start))] ++ take i (home_writes v bs)) in *.
  assert (forall x, x ∈ (take i (home_writes v bs)).*1 -> x ∈ bs) as Htk.
  { intros x Hx. rewrite <- (home_writes_fst v bs), <- (take_drop i (home_writes v bs)), fmap_app, elem_of_app. by left. }
  assert (forall x, x ∈ ws.*1 -> x = start \/ ~ in_log start x) as Hws.
  { intros x. unfold ws. rewrite fmap_app, elem_of_app. simpl. rewrite list_elem_of_singleton.
    intros [?|Hx%Htk]; [by left|right]. by apply (lg_range _ _ Hlg). }
  assert (dread d' start = enc_head bs (v start)) as Hds.
  { unfold d'. rewrite dread_apply, upd_view_app. unfold ws. rewrite upd_view_app, upd_view_notin.
    - simpl. by rewrite decide_True.
    - intros Hx%Htk%(lg_range _ _ Hlg). unfold in_log, LOGBLOCKS, MAXOPBLOCKS in Hx. lia. }
  destruct (enc_head_spec start bs (v start)) as (_ & Hn & Hb); [rewrite Hvs; apply Hok|done|].
  split; [split; [by rewrite Hds|by rewrite Hds|done]|].
  unfold logical. rewrite Hds, Hb. destruct (pos k bs) as [j|] eqn:Ep.
  - apply pos_Some in Ep. rewrite decide_True by (by eapply list_elem_of_lookup_2).
    unfold d'. rewrite dread_apply. erewrite upd_view_log; [done|done|done|done].
  - apply pos_None in Ep. rewrite decide_False by done. unfold d'. rewrite dread_apply. apply upd_view_notin.
    rewrite fmap_app, elem_of_app. unfold ws. rewrite fmap_app, elem_of_app. simpl. rewrite list_elem_of_singleton.
    intros [Hx%log_writes_fst|[->|Hx%Htk]]; [| |done].
    + pose proof (lg_len _ _ Hlg). apply Hk. unfold in_log, LOGBLOCKS, MAXOPBLOCKS in *. lia.
    + apply Hk. unfold in_log, LOGBLOCKS, MAXOPBLOCKS. lia.
Qed.

(** The header has been erased again. *)
Lemma crash_committed d v bs k :
  disk_ok d -> loggable start bs -> ~ in_log start k -> v start = dread d start ->
  let d' := apply_writes d (commit_writes v bs) in
  on_disk d' [] /\ logical d' k = (if decide (k ∈ bs) then v k else dread d k) /\ dread d' k = logical d' k.
Proof.
  intros Hok Hlg Hk Hvs d'.
  destruct (enc_head_spec start bs (v start)) as (Hbo & _); [rewrite Hvs; apply Hok|done|].
  destruct (enc_head_spec start [] (enc_head bs (v start)) Hbo (loggable_nil _ _ Hlg)) as (_ & Hn & Hb).
  assert (forall k, k <> start -> dread d' k = upd_view (dread d) (log_writes start v bs ++
    [(start, enc_head bs (v start))] ++ home_writes v bs) k) as Hd.
  { intros k' Hne. unfold d', commit_writes. rewrite dread_apply, !app_assoc, upd_view_app. simpl.
    by rewrite decide_False. }
  assert (dread d' start = enc_head [] (enc_head bs (v start))) as Hds.
  { unfold d', commit_writes. rewrite dread_apply, !app_assoc, upd_view_app. simpl. by rewrite decide_True. }
  assert (k <> start) as Hks by (intros ->; apply Hk; unfold in_log, LOGBLOCKS, MAXOPBLOCKS; lia).
  assert (logical d' k = dread d' k) as Hlo by (unfold logical; by rewrite Hds, Hb).
  split; [split; [by rewrite Hds|by rewrite Hds|by eapply loggable_nil]|]. split; [|done].
  rewrite Hlo, Hd, !upd_view_app by done. case_decide as Hin.
  - apply list_elem_of_lookup in Hin as [i Hi].
    eapply (upd_view_in _ _ i); [rewrite home_writes_fst; apply Hlg|]. unfold home_writes. by rewrite list_lookup_fmap, Hi.
  - rewrite upd_view_notin by (by rewrite home_writes_fst). simpl. rewrite decide_False by done.
    apply upd_view_notin. intros Hx%log_writes_fst. pose proof (lg_len _ _ Hlg). apply Hk.
    unfold in_log, LOGBLOCKS, MAXOPBLOCKS in *. lia.
Qed.

Lemma home_writes_len v bs : length (home_writes v bs) = length bs.
Proof. apply length_fmap. Qed.
Lemma log_writes_len v bs : length (log_writes start v bs) = length bs.
Proof. apply length_imap. Qed.

(** A crash after [i] of the writes of a commit. *)
Lemma crash_commit d v bs (i : nat) k :
  disk_ok d -> on_disk d [] -> loggable start bs -> ~ in_log start k -> v start = dread d start ->
  let d' := apply_writes d (take i (commit_writes v bs)) in
  (exists bs', on_disk d' bs') /\
  logical d' k = if decide (i <= length bs)%nat then dread d k else if decide (k ∈ bs) then v k else dread d k.
Proof.
  intros Hok Hod Hlg Hk Hvs d'. unfold d', commit_writes. pose proof (log_writes_len v bs) as HL.
  pose proof (home_writes_len v bs) as HH. case_decide as Hi.
  - rewrite take_app_le by lia. destruct (crash_logging d v bs i k Hod Hlg Hk) as [? ?]. by eauto.
  - destruct (decide (i <= 2 * length bs + 1)%nat) as [Hi2|Hi2].
    + rewrite take_app_ge, HL by lia. destruct (i - length bs)%nat as [|j] eqn:Ej; [lia|].
      cbn [take app]. rewrite take_app_le by lia.
      destruct (crash_installing d v bs j k Hok Hlg Hk Hvs) as [? ?]. by eauto.
    + rewrite take_ge by (rewrite !length_app, HL, HH; simpl; lia).
      destruct (crash_committed d v bs k Hok Hlg Hk Hvs) as (? & ? & _). by eauto.
Qed.

(** A crash after [i] of the writes of recovery. *)
Lemma crash_recover d bs (i : nat) k :
  disk_ok d -> on_disk d bs -> ~ in_log start k ->
  let d' := apply_writes d (take i (recover_writes (dread d) bs)) in
  on_disk d' (if decide (i <= length bs)%nat then bs else []) /\ logical d' k = logical d k /\
  ((length bs < i)%nat -> dread d' k = logical d k).
Proof.
  intros Hok [Hn Hb Hlg] Hk d'. set (iw := install_writes start (dread d) bs) in *.
  assert (length iw = length bs) as HL by apply length_imap.
  assert (k <> start) as Hks by (intros ->; apply Hk; unfold in_log, LOGBLOCKS, MAXOPBLOCKS; lia).
  assert (forall x, in_log start x -> x ∉ bs) as Hlb by (intros x Hx Hin; by apply (lg_range _ _ Hlg) in Hin as [_ ?]).
  assert (in_log start start) as Hss by (unfold in_log, LOGBLOCKS, MAXOPBLOCKS; lia).
  assert (forall j, (j < length bs)%nat -> in_log start (start + 1 + Z.of_nat j)) as Hsj.
  { intros j Hj. pose proof (lg_len _ _ Hlg). unfold in_log. lia. }
  assert (iw.*1 = bs) as Hfst by apply install_writes_fst.
  assert (forall j, (take j iw).*1 = take j bs) as Htk by (intros j; by rewrite <- Hfst, fmap_take).
  assert (forall j x, x ∉ bs -> x ∉ (take j iw).*1) as Hnt.
  { intros j x Hx. rewrite Htk. intros [q [Hq _]%lookup_take_Some]%list_elem_of_lookup.
    by apply list_elem_of_lookup_2 in Hq. }
  assert (forall y, bs !! y = Some k -> upd_view (dread d) iw k = dread d (start + 1 + Z.of_nat y)) as Hin.
  { intros y Hy. eapply (upd_view_in _ _ y); [rewrite Hfst; apply Hlg|]. unfold iw, install_writes.
    by rewrite list_lookup_imap, Hy. }
  unfold d', recover_writes. fold iw. case_decide as Hi.
  - rewrite take_app_le by lia.
    assert (dread (apply_writes d (take i iw)) start = dread d start) as Hds.
    { rewrite dread_apply. apply upd_view_notin, Hnt, Hlb, Hss. }
    split_and!; [split; by rewrite ?Hds| |lia]. unfold logical. rewrite Hds, Hb.
    destruct (pos k bs) as [j|] eqn:Ep; rewrite dread_apply; apply upd_view_notin, Hnt.
    + apply Hlb, Hsj. by apply pos_Some, lookup_lt_Some in Ep.
    + by apply pos_None in Ep.
  - rewrite take_ge by (rewrite length_app; simpl; lia).
    destruct (enc_head_spec start [] (dread d start) (Hok start) (loggable_nil _ _ Hlg)) as (_ & Hn' & Hb').
    set (d2 := apply_writes _ _).
    assert (dread d2 start = enc_head [] (dread d start)) as Hds.
    { unfold d2. rewrite dread_apply, upd_view_app. simpl. by rewrite decide_True. }
    assert (dread d2 k = logical d k) as Hdk.
    { unfold d2. rewrite dread_apply, upd_view_app. simpl. rewrite decide_False by done. unfold logical. rewrite Hb.
      destruct (pos k bs) as [j|] eqn:Ep; [by apply Hin, pos_Some|].
      apply upd_view_notin. rewrite Hfst. by apply pos_None. }
    split_and!; [split; [by rewrite Hds|by rewrite Hds|by eapply loggable_nil]| |done].
    rewrite <- Hdk. unfold logical. by rewrite Hds, Hb'.
Qed.

(** ** The theorems *)

Lemma initlog_run s F bs c :
  held c = [] -> quiet (lbio s) [] F -> 1 < F -> on_disk (dsk (lbio s)) bs ->
  wp (initlog me ROOTDEV start) (fun _ c' s' => held c' = [] /\ logs start (llog s') [] /\
    quiet (lbio s') [] F /\ wrote (recover_writes (dread (dsk (lbio s))) bs) (lbio s) (lbio s')) c s.
Proof.
  intros Hh Hq HF [Hn Hb Hlg]. pose proof (lg_start _ _ Hlg) as [? ?].
  assert (forall k, view (lbio s) k = dread (dsk (lbio s)) k) as Hv.
  { intros k. apply unused_clean; [apply Hq|]. rewrite (q_refs _ _ _ Hq). by rewrite decide_False by apply not_elem_of_nil. }
  unfold initlog. change (BSIZE <=? sizeof_logheader) with false. cbn iota. kstep.
  apply wp_initlock; [rewrite Hh; apply not_elem_of_nil|]. unfold mod_log. kstep. kstep.
  rewrite i32_id by (unfold LOGBLOCKS, MAXOPBLOCKS in *; lia).
  eapply wp_mono; [apply (recover_run _ F bs c); try done; simpl; by rewrite Hv|].
  simpl. intros [] c' s' (Hc & Hl & Hq' & Hw). split_and!; [done..|].
  unfold recover_writes in *. rewrite Hv in Hw. by rewrite (install_writes_ext _ _ bs Hv) in Hw.
Qed.

(** Recovery gives every block its logical contents. *)
Lemma initlog_logical r F' bs' c :
  held c = [] -> quiet (lbio r) [] F' -> 1 < F' -> on_disk (dsk (lbio r)) bs' ->
  wp (initlog me ROOTDEV start) (fun _ _ r' => forall k, ~ in_log start k ->
    dread (dsk (lbio r')) k = logical (dsk (lbio r)) k) c r.
Proof.
  intros Hh Hqr HF' Hod'. eapply wp_mono; [by apply (initlog_run r F' bs' c)|].
  intros [] c2 r' (_ & _ & _ & _ & Hd & _) k Hk. rewrite Hd.
  pose proof (binv_disk _ (q_inv _ _ _ Hqr)) as Hokr.
  destruct (crash_recover _ bs' (S (length bs')) k Hokr Hod' Hk) as (_ & _ & <-); [|lia].
  rewrite take_ge; [done|]. unfold recover_writes, install_writes. rewrite length_app, length_imap. simpl. lia.
Qed.

(** C1: A transaction is atomic with respect to crashes.  Let [commit] run
    with the changed blocks [bs] pinned in the cache and an empty log on disk,
    and let the machine stop after any number [i] of its disk writes.  When
    [initlog] then runs on that disk, with an empty cache, it returns, and
    every block outside the log holds either its contents from before the
    transaction (the crash came before the header was written, [i] at most
    the number of logged blocks) or the new contents of the cache: all blocks
    the old ones or all the new ones, never a mixture. *)
Theorem commit_crash_recovery s F bs c :
  held c = [] -> quiet (lbio s) bs F -> 0 < F -> loggable start bs -> logs start (llog s) bs -> bs <> [] ->
  on_disk (dsk (lbio s)) [] ->
  wp (commit me) (fun _ _ s' => exists ws, dwrites (lbio s') = dwrites (lbio s) ++ ws /\
    dsk (lbio s') = apply_writes (dsk (lbio s)) ws /\ quiet (lbio s') [] (F + Z.of_nat (length bs)) /\
    forall (i : nat) (r : lstate) F', dsk (lbio r) = apply_writes (dsk (lbio s)) (take i ws) ->
      quiet (lbio r) [] F' -> 1 < F' ->
      wp (initlog me ROOTDEV start) (fun _ _ r' => forall k, ~ in_log start k ->
        dread (dsk (lbio r')) k =
          if decide (i <= length bs)%nat then dread (dsk (lbio s)) k else view (lbio s) k) c r) c s.
Proof.
  intros Hh Hq HF Hlg Hl Hne Hod. pose proof (binv_disk _ (q_inv _ _ _ Hq)) as Hok.
  assert (forall k, in_log start k -> k ∉ bs) as Hlb by (intros k Hk Hin; by apply (lg_range _ _ Hlg) in Hin as [_ ?]).
  assert (forall k, k ∉ bs -> view (lbio s) k = dread (dsk (lbio s)) k) as Hcl.
  { intros k Hk. apply unused_clean; [apply Hq|]. rewrite (q_refs _ _ _ Hq). by rewrite decide_False. }
  eapply wp_mono; [by apply (commit_run s bs F bs c)|].
  intros [] c' s' (_ & _ & Hq' & _ & Hd' & Hw). exists (commit_writes (view (lbio s)) bs).
  split; [done|]. split; [done|]. split.
  { eapply quiet_ext; [|done|exact Hq']. intros k. rewrite list_elem_of_filter, elem_of_nil. tauto. }
  intros i r F' Hr Hqr HF'.
  assert (forall k, ~ in_log start k -> (exists bs', on_disk (dsk (lbio r)) bs') /\ logical (dsk (lbio r)) k =
    if decide (i <= length bs)%nat then dread (dsk (lbio s)) k else view (lbio s) k) as Hlog.
  { intros k Hk. rewrite Hr. destruct (crash_commit (dsk (lbio s)) (view (lbio s)) bs i k Hok Hod Hlg Hk) as [He Hc].
    { apply Hcl, Hlb. unfold in_log, LOGBLOCKS, MAXOPBLOCKS. lia. }
    split; [done|]. rewrite Hc. repeat case_decide; try done. by rewrite Hcl. }
  destruct (Hlog (start - 1)) as [[bs' Hod'] _]; [unfold in_log; lia|].
  eapply wp_mono; [by apply (initlog_logical r F' bs' c)|].
  intros [] c2 r' Hd k Hk. destruct (Hlog k Hk) as [_ <-]. by apply Hd.
Qed.

(** C11: Recovery may itself be interrupted.  [initlog] on a disk with a
    committed transaction [bs] in the log returns with an empty log and every
    block outside the log at its logical contents; and after any prefix of its
    disk writes the disk still has a well-formed log and the same logical
    contents, so that starting over gives the same result. *)
Theorem recovery_restartable s F bs c :
  held c = [] -> quiet (lbio s) [] F -> 1 < F -> on_disk (dsk (lbio s)) bs ->
  wp (initlog me ROOTDEV start) (fun _ c' s' => exists ws, dwrites (lbio s') = dwrites (lbio s) ++ ws /\
    on_disk (dsk (lbio s')) [] /\
    (forall k, ~ in_log start k -> dread (dsk (lbio s')) k = logical (dsk (lbio s)) k) /\
    forall i, let d := apply_writes (dsk (lbio s)) (take i ws) in
      (exists bs', on_disk d bs') /\ forall k, ~ in_log start k -> logical d k = logical (dsk (lbio s)) k) c s.
Proof.
  intros Hh Hq HF Hod. pose proof (binv_disk _ (q_inv _ _ _ Hq)) as Hok.
  eapply wp_mono; [by apply (initlog_run s F bs c)|].
  intros [] c' s' (_ & _ & _ & _ & Hd & Hw). set (ws := recover_writes (dread (dsk (lbio s))) bs) in *.
  assert (apply_writes (dsk (lbio s)) (take (S (length bs)) ws) = dsk (lbio s')) as Hall.
  { rewrite Hd, take_ge; [done|]. unfold ws, recover_writes, install_writes. rewrite length_app, length_imap. simpl. lia. }
  exists ws. split_and!; [done| | |].
  - destruct (crash_recover _ bs (S (length bs)) (start - 1) Hok Hod) as (H & _); [unfold in_log; lia|].
    fold ws in H. rewrite Hall, decide_False in H by lia. done.
  - intros k Hk. destruct (crash_recover _ bs (S (length bs)) k Hok Hod Hk) as (_ & _ & H).
    fold ws in H. rewrite Hall in H. apply H. lia.
  - intros i d. split.
    + destruct (crash_recover _ bs i (start - 1) Hok Hod) as (H & _); [unfold in_log; lia|]. by eexists.
    + intros k Hk. by destruct (crash_recover _ bs i k Hok Hod Hk) as (_ & H & _).
Qed.
End crash.

(** ** Witnesses: one logged block *)

Section example.
Context {D : BlockDev}.

(** A cache as [binit] leaves it, over any disk. *)
Lemma fresh_quiet (d : disk) : disk_ok d ->
  exists b : bstate, quiet b [] NBUF /\ dsk b = d /\ forall k, view b k = dread d k.
Proof.
  intros Hd. destruct (fresh_cache d Hd) as (b & Hi & Hdb & Hf & _ & Hk). exists b. split; [|split; [done|]].
  - split; [done| | |done].
    + intros k. by destruct (Hk k) as (_ & _ & ?).
    + intros k. destruct (Hk k) as (_ & -> & _). by rewrite decide_False by apply not_elem_of_nil.
  - intros k. by destruct (Hk k) as (? & _).
Qed.

(** Block 100 changed to [v] and pinned. *)
Lemma pinned_cache (d : disk) (v : block) : disk_ok d -> block_ok v ->
  exists b : bstate, quiet b [100] 29 /\ dsk b = d /\ view b 100 = v.
Proof.
  intros Hd Hv. destruct (fresh_quiet d Hd) as (b0 & [Hi0 Hb0 Hr0 Hf0] & Hd0 & _).
  set (c := Ctx [] []). assert (bio_free c) as Hc by (by apply bio_free_nil).
  assert (forall k, refs b0 k = 0) as Hr0' by (intros k; rewrite Hr0; by rewrite decide_False by apply not_elem_of_nil).
  assert (0 < NBUF) as HN by (by vm_compute).
  assert (wp (i <- bread 1 ROOTDEV 100 ;; mod_buf i (set_data v) ;; bpin i ;; brelse 1 i)
    (fun _ _ b => quiet b [100] 29 /\ dsk b = d /\ view b 100 = v) c b0) as H.
  { kstep. eapply wp_mono; [apply (bread_client 1 b0 100 c); [done|done|rewrite Hf0; lia|rewrite Hr0'; lia|done]|].
    intros i c1 b1 (-> & Hh1 & _ & [Hi1 Hv1 Hr1 Hb1 Hf1] & Hd1 & _ & _).
    kstep. eapply wp_mono; [by apply (setdata_client 1 b1 i 100 v c)|].
    intros [] c1 b2 (-> & _ & [Hi2 Hv2 Hr2 Hb2 Hf2] & Hd2 & _ & Hk2). apply Hk2 in Hh1.
    kstep. eapply wp_mono; [apply (bpin_client 1 b2 i 100 c); [done|done|apply Hc|]|].
    { rewrite Hr2, Hr1, Hr0', at1_eq. lia. }
    intros [] c1 b3 (-> & [Hi3 Hv3 Hr3 Hb3 Hf3] & Hd3 & _ & Hk3). apply Hk3 in Hh1.
    assert (refs b3 100 = 2) as Hr by (rewrite Hr3, Hr2, Hr1, Hr0', !at1_eq; lia).
    eapply wp_mono; [apply (brelse_client 1 b3 i 100 c); [done|done|done|lia]|].
    intros [] c1 b4 (_ & [Hi4 Hv4 Hr4 Hb4 Hf4] & Hd4 & _ & _). split_and!.
    - split; [done| | |].
      + intros k. rewrite Hb4, Hb3, Hb2, Hb1. pose proof (Hb0 k). tauto.
      + intros k. rewrite Hr4, Hr3, Hr2, Hr1, Hr0'. unfold at1. destruct (decide (k = 100)) as [->|E].
        * rewrite decide_True by (by left). lia.
        * rewrite decide_False by (by rewrite list_elem_of_singleton). lia.
      + rewrite Hf4, Hf3, Hf2, Hf1, Hr, Hr0', Hf0. by vm_compute.
    - congruence.
    - rewrite Hv4, Hv3, Hv2. by rewrite decide_True. }
  apply wp_inv in H as (_ & _ & b & _ & H). by exists b.
Qed.
End example.

Definition ones : block := replicate (Z.to_nat BSIZE) 1.

Lemma ones_ok : block_ok ones.
Proof. split; [apply length_replicate|]. apply Forall_replicate. unfold byte. lia. Qed.

Lemma ex_loggable : loggable 2 [100].
Proof.
  split; [by vm_compute|by vm_compute| |apply NoDup_singleton].
  intros b ->%list_elem_of_singleton. split; [lia|]. unfold in_log. vm_compute. intuition.
Qed.

Lemma ex_empty_log : on_disk (D := map_disk) 2 (∅ : gmap Z block) [].
Proof. split; [by vm_compute|by vm_compute|]. eapply loggable_nil, ex_loggable. Qed.

Definition ex_log : log := Log 2 0 1 ROOTDEV (LogHeader 1 [100]).

Lemma commit_crash_recovery_witness :
  exists (s s' r : @lstate map_disk), view (lbio s) 100 = ones /\ dread (dsk (lbio s)) 100 = zblock /\
    (exists c', commit 1 (Ctx [] []) s = Ok tt c' s') /\ dsk (lbio r) = dsk (lbio s') /\
    wp (initlog 1 ROOTDEV 2) (fun _ _ r' => dread (dsk (lbio r')) 100 = ones) (Ctx [] []) r.
Proof.
  destruct (pinned_cache (D := map_disk) (∅ : gmap Z block) ones ex_disk_ok ones_ok) as (b & Hq & Hd & Hv).
  set (s := Lst b ex_log).
  assert (logs 2 (llog s) [100]) as Hl by (split; vm_compute; reflexivity).
  assert (on_disk 2 (dsk (lbio s)) []) as Hod by (simpl; rewrite Hd; exact ex_empty_log).
  pose proof (commit_crash_recovery 1 2 s 29 [100] (Ctx [] []) eq_refl Hq ltac:(lia) ex_loggable Hl ltac:(done) Hod) as H.
  apply wp_inv in H as ([] & c' & s' & Hrun & ws & _ & Hds & Hq' & H).
  destruct (fresh_quiet (dsk (lbio s')) (binv_disk _ (q_inv _ _ _ Hq'))) as (b' & Hqr & Hdr & _).
  set (r := Lst b' ex_log). exists s, s', r. split; [exact Hv|]. split; [simpl; by rewrite Hd|].
  split; [by exists c'|]. split; [exact Hdr|].
  eapply wp_mono; [apply (H (2 + length ws)%nat r NBUF); [|exact Hqr|by vm_compute]|].
  - simpl lbio. rewrite Hdr, Hds, take_ge by lia. reflexivity.
  - intros [] _ r' Hk. rewrite (Hk 100); [|unfold in_log; vm_compute; intuition].
    rewrite decide_False by (simpl; lia). exact Hv.
Defined.

Lemma recovery_restartable_witness :
  exists (s s' : @lstate map_disk), (exists c', initlog 1 ROOTDEV 2 (Ctx [] []) s = Ok tt c' s') /\
    on_disk 2 (dsk (lbio s')) [].
Proof.
  destruct (fresh_quiet (D := map_disk) (∅ : gmap Z block) ex_disk_ok) as (b & Hq & Hd & _).
  set (s := Lst b log0).
  assert (on_disk 2 (dsk (lbio s)) []) as Hod by (simpl; rewrite Hd; exact ex_empty_log).
  pose proof (recovery_restartable 1 2 s NBUF [] (Ctx [] []) eq_refl Hq ltac:(by vm_compute) Hod) as H.
  apply wp_inv in H as ([] & c' & s' & Hrun & ws & _ & Hod' & _).
  exists s, s'. split; [by exists c'|exact Hod'].
Defined.
