(* ===== verification/LogSpace.v ===== *)
(** * Log space is reserved

    [begin_op] admits an operation only when the log has room for
    [MAXOPBLOCKS] blocks of it and of every operation under way.  The
    histories of begin_op, log_write and end_op as a step relation, and the
    invariant that makes the panic of [log_write] unreachable. *)
From S2P Require Import Prelude Kmonad Riscv Mem Block Sleeplock Bio Log.

Section space.
Context {D : BlockDev}.
Implicit Types (s : lstate) (c : ctx) (us : list Z).

(** Computations that leave [struct log] alone. *)
Lemma keeps_bio {A} (m : K bstate A) : keeps llog (bio m).
Proof. by apply keeps_zoom. Qed.
Lemma keeps_get_log {A} (g : log -> A) : keeps llog (get_log g).
Proof. apply keeps_gets. Qed.
#[local] Hint Resolve keeps_bio keeps_get_log : keeps.

Lemma write_head_keeps me : keeps llog (write_head me).
Proof. unfold write_head. keeps. Qed.
Lemma write_log_keeps me : keeps llog (write_log me).
Proof. unfold write_log, copy_data. keeps. Qed.
Lemma install_trans_keeps me r : keeps llog (install_trans me r).
Proof. unfold install_trans, copy_data. keeps. Qed.

(** A commit that returns leaves an empty log. *)
Lemma commit_log me c s c' s' :
  commit me c s = Ok tt c' s' -> llog s' = if 0 <? lh_n (lh (llog s)) then set_n 0 (llog s) else llog s.
Proof.
  unfold commit. intros H. unfold bind at 1 in H. simpl in H.
  destruct (0 <? lh_n (lh (llog s))); simpl in H; [|by injection H as _ <-].
  unfold bind in H. destruct (write_log me c s) as [[] c1 s1|?|???|] eqn:E1; try done.
  destruct (write_head me c1 s1) as [[] c2 s2|?|???|] eqn:E2; try done.
  destruct (install_trans me false c2 s2) as [[] c3 s3|?|???|] eqn:E3; try done. simpl in H.
  apply (keeps_ok _ _ (write_head_keeps _)) in H, E2. apply (keeps_ok _ _ (write_log_keeps _)) in E1. apply (keeps_ok _ _ (install_trans_keeps _ _)) in E3.
  rewrite H. simpl. congruence.
Qed.

(** Only the number of logged blocks and of operations matter here. *)
Definition log_shape (l : log) : Z * Z * Z * nat := (lh_n (lh l), outstanding l, committing l, length (lh_block (lh l))).

Lemma begin_op_ok c s c' s' :
  begin_op c s = Ok tt c' s' -> committing (llog s) = 0 /\
  lh_n (lh (llog s)) + (outstanding (llog s) + 1) * MAXOPBLOCKS <= LOGBLOCKS /\
  llog s' = set_outstanding (outstanding (llog s) + 1) (llog s).
Proof.
  unfold begin_op, bind. rewrite acquire_run. destruct (bool_decide (log_lock ∈ held c)); [done|]. simpl. unfold id.
  destruct (Z.eqb_spec (committing (llog s)) 0) as [E|E]; simpl; [|by intros ?%sleep_not_ok].
  destruct (Z.ltb_spec LOGBLOCKS (lh_n (lh (llog s)) + (outstanding (llog s) + 1) * MAXOPBLOCKS)) as [Hlt|Hge].
  { by intros ?%sleep_not_ok. }
  rewrite release_top. intros [= _ <-]. simpl. split_and!; [done|lia|done].
Qed.

Lemma end_op_ok me c s c' s' :
  end_op me c s = Ok tt c' s' -> committing (llog s) = 0 ->
  committing (llog s') = 0 /\ outstanding (llog s') = outstanding (llog s) - 1 /\
  length (lh_block (lh (llog s'))) = length (lh_block (lh (llog s))) /\
  lh_n (lh (llog s')) = if (outstanding (llog s) - 1 =? 0) && (0 <? lh_n (lh (llog s))) then 0 else lh_n (lh (llog s)).
Proof.
  intros H Hc. unfold end_op in H. unfold bind at 1 in H. rewrite acquire_run in H.
  destruct (bool_decide (log_lock ∈ held c)); [done|].
  unfold bind at 1 2 3 in H. simpl in H. unfold id in H. rewrite Hc in H. simpl in H.
  destruct (Z.eqb_spec (outstanding (llog s) - 1) 0) as [E|E]; simpl in H; unfold bind in H; simpl in H;
    rewrite ?release_top in H; simpl in H.
  - destruct (commit me _ _) as [[] c1 s1|?|???|] eqn:Ec in H; try done.
    apply commit_log in Ec. simpl in Ec. rewrite acquire_run in H. destruct (bool_decide _) in H; [done|].
    simpl in H. rewrite release_top in H. injection H as _ <-. simpl. rewrite Ec.
    destruct (0 <? lh_n (lh (llog s))); simpl; (split_and!; [done|lia|done|done]).
  - injection H as _ <-. simpl. done.
Qed.

Lemma log_write_ok b c s :
  held c = [] -> lh_n (lh (llog s)) < LOGBLOCKS -> 1 <= outstanding (llog s) ->
  wp (log_write b) (fun _ c' s' => held c' = [] /\
    outstanding (llog s') = outstanding (llog s) /\ committing (llog s') = committing (llog s) /\
    length (lh_block (lh (llog s'))) = length (lh_block (lh (llog s))) /\
    lh_n (lh (llog s)) <= lh_n (lh (llog s')) <= lh_n (lh (llog s)) + 1) c s.
Proof.
  intros Hh Hn Ho. unfold log_write. kstep. apply wp_acquire; [rewrite Hh; apply not_elem_of_nil|].
  unfold get_log, mod_log, bio, get_buf, bpin. ksteps. unfold id.
  rewrite (proj2 (Z.leb_gt _ _)) by done. rewrite (proj2 (Z.ltb_ge _ _)) by done.
  ksteps. apply wp_zoom. ksteps. simpl. unfold id.
  destruct (Z.eqb_spec (Z.of_nat (log_index (Z.to_nat (lh_n (lh (llog s)))) (lh_block (lh (llog s)))
    (blockno (buf_at (lbio s) b)))) (lh_n (lh (llog s)))); simpl.
  - ksteps. apply wp_zoom. kstep. apply wp_acquire; [rewrite Hh; simpl; set_solver|].
    unfold get_buf, mod_buf. ksteps. simpl. rewrite length_insert. split_and!; (done || lia).
  - ksteps. simpl. rewrite length_insert. split_and!; (done || lia).
Qed.

(** ** Histories *)

(** [us] counts the blocks each operation under way has logged. *)
Inductive log_run : lstate -> list Z -> Prop :=
| lr_init s : log_shape (llog s) = (0, 0, 0, Z.to_nat LOGBLOCKS) -> log_run s []
| lr_begin c c' s us s' : log_run s us -> begin_op c s = Ok tt c' s' -> log_run s' (0 :: us)
| lr_write b c c' s us i u s' :
    log_run s us -> held c = [] -> us !! i = Some u -> u < MAXOPBLOCKS -> log_write b c s = Ok tt c' s' ->
    log_run s' (<[i := u + 1]> us)
| lr_end me c c' s us1 u us2 s' :
    log_run s (us1 ++ u :: us2) -> end_op me c s = Ok tt c' s' -> log_run s' (us1 ++ us2)
| lr_cache s us b : log_run s us -> log_run (set_bio b s) us.

(** What the operations under way may still log. *)
Fixpoint reserved us : Z := match us with [] => 0 | u :: us => (MAXOPBLOCKS - u) + reserved us end.

Record log_inv s us : Prop := {
  li_committing : committing (llog s) = 0;
  li_outstanding : outstanding (llog s) = Z.of_nat (length us);
  li_used : Forall (fun u => 0 <= u <= MAXOPBLOCKS) us;
  li_n : 0 <= lh_n (lh (llog s));
  li_room : lh_n (lh (llog s)) + reserved us <= LOGBLOCKS;
  li_array : length (lh_block (lh (llog s))) = Z.to_nat LOGBLOCKS;
}.

Lemma reserved_app us1 us2 : reserved (us1 ++ us2) = reserved us1 + reserved us2.
Proof. induction us1; simpl; lia. Qed.

Lemma reserved_bounds us :
  Forall (fun u => 0 <= u <= MAXOPBLOCKS) us -> 0 <= reserved us <= Z.of_nat (length us) * MAXOPBLOCKS.
Proof. induction 1 as [|u us Hu _ IH]; simpl reserved; simpl length; unfold MAXOPBLOCKS in *; lia. Qed.

Lemma reserved_insert us i u v :
  us !! i = Some u -> reserved (<[i := v]> us) = reserved us + u - v.
Proof.
  revert i. induction us as [|x us IH]; intros [|i] H; simpl in *; try done.
  - injection H as ->. lia.
  - rewrite (IH _ H). lia.
Qed.

Lemma log_run_inv s us : log_run s us -> log_inv s us.
Proof.
  induction 1 as [s Hs | c c' s us s' _ IH Hb | b c c' s us i u s' _ IH Hh Hi Hu Hw
    | me c c' s us1 u us2 s' _ IH He | s us b _ IH].
  - injection Hs as E1 E2 E3 E4. split; simpl; rewrite ?E1; (done || constructor || by vm_compute).
  - apply begin_op_ok in Hb as (_ & Hroom & E). destruct IH as [A1 A2 A3 A4 A5 A6]. split; rewrite ?E; simpl; try done.
    + lia.
    + constructor; [unfold MAXOPBLOCKS; lia|done].
    + pose proof (reserved_bounds us A3). rewrite A2 in Hroom. unfold MAXOPBLOCKS in *. lia.
  - destruct IH as [A1 A2 A3 A4 A5 A6].
    assert (lh_n (lh (llog s)) < LOGBLOCKS) as Hn.
    { pose proof (reserved_insert us i u MAXOPBLOCKS Hi) as Hr.
      assert (0 <= reserved (<[i := MAXOPBLOCKS]> us)).
      { apply reserved_bounds. apply Forall_insert; [done|unfold MAXOPBLOCKS; lia]. }
      lia. }
    assert (1 <= outstanding (llog s)) as Ho by (apply lookup_lt_Some in Hi; lia).
    pose proof (log_write_ok b c s Hh Hn Ho) as H. unfold wp in H. rewrite Hw in H.
    destruct H as (_ & H1 & H2 & H3 & H4). split; try congruence.
    + by rewrite H1, length_insert.
    + apply Forall_insert; [done|]. pose proof (Forall_lookup_1 _ _ _ _ A3 Hi). simpl in *. lia.
    + lia.
    + rewrite (reserved_insert _ _ _ _ Hi). lia.
  - destruct IH as [A1 A2 A3 A4 A5 A6]. apply end_op_ok in He as (B1 & B2 & B3 & B4); [|done].
    rewrite length_app in A2. simpl in A2. rewrite reserved_app in A5. simpl in A5.
    apply Forall_app in A3 as [A31 [A32 A33]%Forall_cons].
    split; [done|rewrite length_app; lia|by apply Forall_app| | |congruence].
    + rewrite B4. destruct (_ && _); lia.
    + rewrite B4, reserved_app. pose proof (reserved_bounds us1 A31). pose proof (reserved_bounds us2 A33).
      destruct (Z.eqb_spec (outstanding (llog s) - 1) 0), (Z.ltb_spec 0 (lh_n (lh (llog s)))); simpl; lia.
  - destruct IH. by split.
Qed.

(** C30: The log never overflows.  In every history in which operations log at
    most [MAXOPBLOCKS] blocks each, an operation under way that still has
    blocks to log can log one: [log_write] does not panic, neither for a full
    log nor outside of a transaction, and the header never lists more than
    [LOGBLOCKS] blocks. *)
Theorem log_never_full s us i u b c :
  log_run s us -> us !! i = Some u -> u < MAXOPBLOCKS -> held c = [] ->
  wp (log_write b) (fun _ _ s' => 0 <= lh_n (lh (llog s')) <= LOGBLOCKS) c s.
Proof.
  intros Hrun Hi Hu Hh. destruct (log_run_inv s us Hrun) as [A1 A2 A3 A4 A5 A6].
  assert (lh_n (lh (llog s)) < LOGBLOCKS) as Hn.
  { pose proof (reserved_insert us i u MAXOPBLOCKS Hi) as Hr.
    assert (0 <= reserved (<[i := MAXOPBLOCKS]> us)).
    { apply reserved_bounds. apply Forall_insert; [done|unfold MAXOPBLOCKS; lia]. }
    lia. }
  eapply wp_mono; [apply log_write_ok; [done|done|apply lookup_lt_Some in Hi; lia]|].
  intros [] c' s' (_ & _ & _ & _ & H). lia.
Qed.
End space.

Definition ex_lstate : @lstate map_disk := Lst (Bst (D := map_disk) (replicate (S nbuf) inhabitant) (∅ : gmap Z block) []) log0.

Lemma log_never_full_witness :
  exists s, begin_op (Ctx [] []) ex_lstate = Ok tt (Ctx [] []) s /\
    wp (log_write 3) (fun _ _ s' => 0 <= lh_n (lh (llog s')) <= LOGBLOCKS) (Ctx [] []) s.
Proof.
  set (s := set_log (set_outstanding 1 log0) ex_lstate). exists s.
  assert (begin_op (Ctx [] []) ex_lstate = Ok tt (Ctx [] []) s) as Hb by (vm_compute; reflexivity).
  split; [exact Hb|]. eapply (log_never_full s [0] 0 0); [|reflexivity|by vm_compute|reflexivity].
  eapply lr_begin; [|exact Hb]. by apply lr_init.
Defined.
