(* ===== verification/FsLayout.v ===== *)
(** * kernel/fs.h, kernel/file.h, kernel/stat.h, kernel/fcntl.h:
    the format of the file system

    The constants and macros of the on-disk layout, and the structures laid
    over a block: the super block, the disk inodes, the free bit map and the
    directory entries, each read and written field by field at its offset. *)
From S2P Require Import Prelude Mem Block Sleeplock Log.

Definition ROOTINO : Z := 1.
Definition FSMAGIC : Z := 0x10203040.
Definition NDIRECT : Z := 12.
Definition NINDIRECT : Z := BSIZE / 4.
Definition MAXFILE : Z := NDIRECT + NINDIRECT.
Definition DIRSIZ : Z := 14.

Definition T_DIR : Z := 1.
Definition T_FILE : Z := 2.
Definition T_DEVICE : Z := 3.

(** The modes of [open] (kernel/fcntl.h). *)
Definition O_RDONLY : Z := 0x000.
Definition O_WRONLY : Z := 0x001.
Definition O_RDWR : Z := 0x002.
Definition O_CREATE : Z := 0x200.
Definition O_TRUNC : Z := 0x400.

(** Array of [uint] at offset [off]. *)
Fixpoint get_words (k : nat) (off : Z) (d : block) : list Z :=
  match k with O => [] | S k => get32 off d :: get_words k (off + 4) d end.

(** ** The super block *)

Record superblock := Superblock {
  sb_magic : Z;
  sb_size : Z;        (** size of the file system image (blocks) *)
  sb_nblocks : Z;     (** number of data blocks *)
  sb_ninodes : Z;
  sb_nlog : Z;
  sb_logstart : Z;    (** first log block *)
  sb_inodestart : Z;  (** first inode block *)
  sb_bmapstart : Z;   (** first free map block *)
}.

Definition get_sb (d : block) : superblock :=
  Superblock (get32 0 d) (get32 4 d) (get32 8 d) (get32 12 d) (get32 16 d) (get32 20 d) (get32 24 d) (get32 28 d).

(** ** Disk inodes *)

Record dinode := Dinode {
  d_type : Z;
  d_major : Z;
  d_minor : Z;
  d_nlink : Z;
  d_size : Z;
  d_addrs : list Z;   (** [NDIRECT+1] block numbers *)
}.

Definition sizeof_dinode : Z := 64.
Definition IPB : Z := BSIZE / sizeof_dinode.
Definition IBLOCK (i : Z) (sb : superblock) : Z := u32 (i / IPB + sb_inodestart sb).

Definition get_dinode (off : Z) (d : block) : dinode :=
  Dinode (i16 (get16 off d)) (i16 (get16 (off + 2) d)) (i16 (get16 (off + 4) d)) (i16 (get16 (off + 6) d))
    (get32 (off + 8) d) (get_words 13 (off + 12) d).

Definition put_dinode (off : Z) (di : dinode) (d : block) : block :=
  put_blocks (off + 12) (d_addrs di)
    (put32 (off + 8) (d_size di) (put16 (off + 6) (d_nlink di) (put16 (off + 4) (d_minor di)
      (put16 (off + 2) (d_major di) (put16 off (d_type di) d))))).

(** ** The free bit map *)

Definition BPB : Z := BSIZE * 8.
Definition BBLOCK (b : Z) (sb : superblock) : Z := u32 (b / BPB + sb_bmapstart sb).

(** ** Directory entries *)

Record dirent := Dirent { de_inum : Z; de_name : list Z }.

Definition sizeof_dirent : Z := 16.
Definition get_dirent (d : list Z) : dirent := Dirent (get16 0 d) (getb DIRSIZ 2 d).
Definition put_dirent (de : dirent) (d : list Z) : list Z := putb 2 (de_name de) (put16 0 (de_inum de) d).

(** ** In-memory inodes (kernel/file.h) *)

Record inode := Inode {
  idev : Z;
  inum : Z;
  iref : Z;           (** reference count *)
  ilk : sleeplock;    (** protects everything below here *)
  ivalid : Z;         (** has the inode been read from disk? *)
  itype : Z;
  imajor : Z;
  iminor : Z;
  inlink : Z;
  isize : Z;
  iaddrs : list Z;
}.

#[global] Instance inode_inhabited : Inhabited inode :=
  populate (Inode 0 0 0 (SleepLock 0 0) 0 0 0 0 0 0 (replicate 13 0)).

Definition set_iid d n ip := Inode d n (iref ip) (ilk ip) (ivalid ip) (itype ip) (imajor ip) (iminor ip) (inlink ip) (isize ip) (iaddrs ip).
Definition set_iref r ip := Inode (idev ip) (inum ip) r (ilk ip) (ivalid ip) (itype ip) (imajor ip) (iminor ip) (inlink ip) (isize ip) (iaddrs ip).
Definition set_ilk l ip := Inode (idev ip) (inum ip) (iref ip) l (ivalid ip) (itype ip) (imajor ip) (iminor ip) (inlink ip) (isize ip) (iaddrs ip).
Definition set_ivalid v ip := Inode (idev ip) (inum ip) (iref ip) (ilk ip) v (itype ip) (imajor ip) (iminor ip) (inlink ip) (isize ip) (iaddrs ip).
Definition set_itype t ip := Inode (idev ip) (inum ip) (iref ip) (ilk ip) (ivalid ip) t (imajor ip) (iminor ip) (inlink ip) (isize ip) (iaddrs ip).
Definition set_idevno j n ip := Inode (idev ip) (inum ip) (iref ip) (ilk ip) (ivalid ip) (itype ip) j n (inlink ip) (isize ip) (iaddrs ip).
Definition set_inlink n ip := Inode (idev ip) (inum ip) (iref ip) (ilk ip) (ivalid ip) (itype ip) (imajor ip) (iminor ip) n (isize ip) (iaddrs ip).
Definition set_isize z ip := Inode (idev ip) (inum ip) (iref ip) (ilk ip) (ivalid ip) (itype ip) (imajor ip) (iminor ip) (inlink ip) z (iaddrs ip).
Definition set_iaddr i a ip := Inode (idev ip) (inum ip) (iref ip) (ilk ip) (ivalid ip) (itype ip) (imajor ip) (iminor ip) (inlink ip) (isize ip) (<[i := a]> (iaddrs ip)).

(** The fields an inode has on disk. *)
Definition to_dinode (ip : inode) : dinode :=
  Dinode (itype ip) (imajor ip) (iminor ip) (inlink ip) (isize ip) (iaddrs ip).
Definition from_dinode (di : dinode) (ip : inode) : inode :=
  Inode (idev ip) (inum ip) (iref ip) (ilk ip) (ivalid ip) (d_type di) (d_major di) (d_minor di) (d_nlink di) (d_size di) (d_addrs di).

(** [struct stat] *)
Record stat := Stat { st_dev : Z; st_ino : Z; st_type : Z; st_nlink : Z; st_size : Z }.
