(* ===== verification/Fs.v ===== *)
(** * kernel/fs.c: blocks and inodes

    The state is the log layer (and the buffer cache below it), the super
    block read at boot, and the table of in-memory inodes; a pointer to an
    inode is its index in the table, [None] the null pointer.  The console
    messages of [balloc], [ialloc] and [ireclaim] are not modelled. *)
From S2P Require Import Prelude Kmonad Riscv Mem Block Sleeplock Bio Log FsLayout.

Section fs.
Context {D : BlockDev}.

Record fstate := Fst {
  flog : lstate;
  fsb : superblock;
  itab : list inode;     (** [itable.inode] *)
}.

Definition set_flog (l : lstate) (s : fstate) : fstate := Fst l (fsb s) (itab s).
Definition set_fsb (sb : superblock) (s : fstate) : fstate := Fst (flog s) sb (itab s).
Definition inode_at (s : fstate) (i : nat) : inode := itab s !!! i.
Definition upd_inode (i : nat) (f : inode -> inode) (s : fstate) : fstate :=
  Fst (flog s) (fsb s) (<[i := f (inode_at s i)]> (itab s)).

Definition lg {A} (m : K lstate A) : K fstate A := zoom flog set_flog m.
Definition bc {A} (m : K bstate A) : K fstate A := lg (bio m).
Definition get_inode {A} (i : nat) (f : inode -> A) : K fstate A := gets (fun s => f (inode_at s i)).
Definition mod_inode (i : nat) (f : inode -> inode) : K fstate unit := modify (upd_inode i f).

(** [bp->data], and an assignment to all of it. *)
Definition get_data (b : nat) : K fstate block := bc (get_buf b data).
Definition put_data (b : nat) (d : block) : K fstate unit := bc (mod_buf b (set_data d)).

Definition itable_lock : lockid := ("itable", 0).
Definition inode_lk (i : nat) : chan := ("inode", Z.of_nat i).
Definition on_ilk {A} (i : nat) (m : K sleeplock A) : K fstate A :=
  zoom (fun s => ilk (inode_at s i)) (fun lk => upd_inode i (set_ilk lk)) m.

Definition ninode : nat := Z.to_nat NINODE.

Definition iinit : K fstate unit :=
  initlock itable_lock ;;
  loop (ninode + 1) (fun i =>
    if (i <? ninode)%nat then
      on_ilk i (initsleeplock (inode_lk i)) ;;
      ret (inl (i + 1)%nat)
    else ret (inr tt)) O.

Section proc.
Context (me : Z).   (** [myproc()->pid] *)

Definition readsb (dev : Z) : K fstate unit :=
  bp <- bc (bread me dev 1) ;;
  d <- get_data bp ;;
  modify (set_fsb (get_sb d)) ;;
  bc (brelse me bp).

(** ** Blocks *)

Definition bzero (dev bno : Z) : K fstate unit :=
  bp <- bc (bread me dev (u32 bno)) ;;
  put_data bp zblock ;;
  lg (log_write bp) ;;
  bc (brelse me bp).

(** The loop over the bits of one bitmap block, from bit [bi] on. *)
Definition balloc_bits (dev b : Z) (bp : nat) : Z -> K fstate (option Z) :=
  loop (Z.to_nat BPB + 1) (fun bi =>
    sb <- gets fsb ;;
    if (bi <? BPB) && (u32 (b + bi) <? sb_size sb) then
      let m := Z.shiftl 1 (bi mod 8) in
      d <- get_data bp ;;
      if Z.land (get8 (bi / 8) d) m =? 0 then   (* Is block free? *)
        put_data bp (put8 (bi / 8) (Z.lor (get8 (bi / 8) d) m) d) ;;
        lg (log_write bp) ;;
        bc (brelse me bp) ;;
        bzero dev (b + bi) ;;
        ret (inr (Some (u32 (b + bi))))
      else ret (inl (bi + 1))
    else ret (inr None)).

Definition balloc (dev : Z) : K fstate Z :=
  sb <- gets fsb ;;
  loop (Z.to_nat (sb_size sb / BPB) + 2) (fun b =>
    sb <- gets fsb ;;
    if u32 b <? sb_size sb then
      bp <- bc (bread me dev (BBLOCK b sb)) ;;
      r <- balloc_bits dev b bp 0 ;;
      match r with
      | Some a => ret (inr a)
      | None => bc (brelse me bp) ;; ret (inl (b + BPB))
      end
    else ret (inr 0)) 0.

Definition bfree (dev b : Z) : K fstate unit :=
  sb <- gets fsb ;;
  bp <- bc (bread me dev (BBLOCK b sb)) ;;
  let bi := b mod BPB in
  let m := Z.shiftl 1 (bi mod 8) in
  d <- get_data bp ;;
  if Z.land (get8 (bi / 8) d) m =? 0 then panic "freeing free block"
  else
    put_data bp (put8 (bi / 8) (Z.land (get8 (bi / 8) d) (Z.lnot m)) d) ;;
    lg (log_write bp) ;;
    bc (brelse me bp).

(** ** Inodes *)

(** The offset of inode [i] in its block. *)
Definition dip (i : Z) : Z := i mod IPB * sizeof_dinode.

Definition iget (dev inum' : Z) : K fstate nat :=
  acquire itable_lock ;;
  r <- loop (ninode + 1) (fun '(i, empty) =>
    if (i <? ninode)%nat then
      ip <- get_inode i id ;;
      if (0 <? iref ip) && (idev ip =? dev) && (inum ip =? inum') then
        mod_inode i (set_iref (iref ip + 1)) ;;
        release itable_lock ;;
        ret (inr (inl i))
      else
        ret (inl ((i + 1)%nat,
          match empty with None => if iref ip =? 0 then Some i else None | Some _ => empty end))
    else ret (inr (inr empty))) (O, None) ;;
  match r with
  | inl i => ret i
  | inr None => panic "iget: no inodes"
  | inr (Some i) =>
      mod_inode i (set_iid dev inum') ;;
      mod_inode i (set_iref 1) ;;
      mod_inode i (set_ivalid 0) ;;
      release itable_lock ;;
      ret i
  end.

Definition ialloc (dev type : Z) : K fstate (option nat) :=
  sb <- gets fsb ;;
  loop (Z.to_nat (sb_ninodes sb) + 1) (fun inum' =>
    if u32 inum' <? sb_ninodes sb then
      bp <- bc (bread me dev (IBLOCK inum' sb)) ;;
      d <- get_data bp ;;
      if d_type (get_dinode (dip inum') d) =? 0 then   (* a free inode *)
        put_data bp (put_dinode (dip inum') (Dinode type 0 0 0 0 (replicate 13 0)) d) ;;
        lg (log_write bp) ;;
        bc (brelse me bp) ;;
        ip <- iget dev inum' ;;
        ret (inr (Some ip))
      else
        bc (brelse me bp) ;;
        ret (inl (inum' + 1))
    else ret (inr None)) 1.

Definition iupdate (i : nat) : K fstate unit :=
  sb <- gets fsb ;;
  ip <- get_inode i id ;;
  bp <- bc (bread me (idev ip) (IBLOCK (inum ip) sb)) ;;
  d <- get_data bp ;;
  put_data bp (put_dinode (dip (inum ip)) (to_dinode ip) d) ;;
  lg (log_write bp) ;;
  bc (brelse me bp).

Definition idup (i : nat) : K fstate nat :=
  acquire itable_lock ;;
  r <- get_inode i iref ;;
  mod_inode i (set_iref (r + 1)) ;;
  release itable_lock ;;
  ret i.

Definition ilock (p : option nat) : K fstate unit :=
  match p with
  | None => panic "ilock"
  | Some i =>
      r <- get_inode i iref ;;
      if r <? 1 then panic "ilock"
      else
        on_ilk i (acquiresleep (inode_lk i) me) ;;
        ip <- get_inode i id ;;
        when (ivalid ip =? 0) (
          sb <- gets fsb ;;
          bp <- bc (bread me (idev ip) (IBLOCK (inum ip) sb)) ;;
          d <- get_data bp ;;
          mod_inode i (from_dinode (get_dinode (dip (inum ip)) d)) ;;
          bc (brelse me bp) ;;
          mod_inode i (set_ivalid 1) ;;
          t <- get_inode i itype ;;
          if t =? 0 then panic "ilock: no type" else skip)
  end.

Definition iunlock (p : option nat) : K fstate unit :=
  match p with
  | None => panic "iunlock"
  | Some i =>
      h <- on_ilk i (holdingsleep (inode_lk i) me) ;;
      r <- get_inode i iref ;;
      if negb h || (r <? 1) then panic "iunlock"
      else on_ilk i (releasesleep (inode_lk i))
  end.

(** Frees a direct block, [ip->addrs[i]]. *)
Definition free_direct (i : nat) (j : nat) : K fstate unit :=
  ip <- get_inode i id ;;
  let a := iaddrs ip !!! j in
  when (negb (a =? 0)) (
    bfree (idev ip) a ;;
    mod_inode i (set_iaddr j 0)).

Definition itrunc (i : nat) : K fstate unit :=
  loop (Z.to_nat NDIRECT + 1) (fun j =>
    if (j <? Z.to_nat NDIRECT)%nat then free_direct i j ;; ret (inl (j + 1)%nat)
    else ret (inr tt)) O ;;
  ip <- get_inode i id ;;
  let a := iaddrs ip !!! Z.to_nat NDIRECT in
  when (negb (a =? 0)) (
    bp <- bc (bread me (idev ip) a) ;;
    loop (Z.to_nat NINDIRECT + 1) (fun j =>
      if j <? NINDIRECT then
        d <- get_data bp ;;
        let aj := get32 (4 * j) d in
        when (negb (aj =? 0)) (bfree (idev ip) aj) ;;
        ret (inl (j + 1))
      else ret (inr tt)) 0 ;;
    bc (brelse me bp) ;;
    bfree (idev ip) a ;;
    mod_inode i (set_iaddr (Z.to_nat NDIRECT) 0)) ;;
  mod_inode i (set_isize 0) ;;
  iupdate i.

Definition iput (i : nat) : K fstate unit :=
  acquire itable_lock ;;
  ip <- get_inode i id ;;
  when ((iref ip =? 1) && negb (ivalid ip =? 0) && (inlink ip =? 0)) (
    (* no links and no other references: truncate and free *)
    on_ilk i (acquiresleep (inode_lk i) me) ;;
    release itable_lock ;;
    itrunc i ;;
    mod_inode i (set_itype 0) ;;
    iupdate i ;;
    mod_inode i (set_ivalid 0) ;;
    on_ilk i (releasesleep (inode_lk i)) ;;
    acquire itable_lock) ;;
  r <- get_inode i iref ;;
  mod_inode i (set_iref (r - 1)) ;;
  release itable_lock.

Definition iunlockput (i : nat) : K fstate unit :=
  iunlock (Some i) ;;
  iput i.

Definition ireclaim (dev : Z) : K fstate unit :=
  sb <- gets fsb ;;
  loop (Z.to_nat (sb_ninodes sb) + 1) (fun inum' =>
    if u32 inum' <? sb_ninodes sb then
      bp <- bc (bread me (u32 dev) (IBLOCK inum' sb)) ;;
      d <- get_data bp ;;
      let di := get_dinode (dip inum') d in
      ip <- (if negb (d_type di =? 0) && (d_nlink di =? 0)   (* is an orphaned inode *)
             then i <- iget (u32 dev) inum' ;; ret (Some i)
             else ret None) ;;
      bc (brelse me bp) ;;
      match ip with
      | None => skip
      | Some i =>
          lg begin_op ;;
          ilock ip ;;
          iunlock ip ;;
          iput i ;;
          lg (end_op me)
      end ;;
      ret (inl (inum' + 1))
    else ret (inr tt)) 1.

Definition fsinit (dev : Z) : K fstate unit :=
  readsb dev ;;
  sb <- gets fsb ;;
  if negb (sb_magic sb =? FSMAGIC) then panic "invalid file system"
  else
    lg (initlog me dev (sb_logstart sb)) ;;
    ireclaim dev.

(** ** Inode content *)

Definition bmap (i : nat) (bn : Z) : K fstate Z :=
  ip <- get_inode i id ;;
  if bn <? NDIRECT then
    let addr := iaddrs ip !!! Z.to_nat bn in
    if addr =? 0 then
      addr <- balloc (idev ip) ;;
      if addr =? 0 then ret 0
      else mod_inode i (set_iaddr (Z.to_nat bn) addr) ;; ret addr
    else ret addr
  else
    let bn := bn - NDIRECT in
    if bn <? NINDIRECT then
      (* Load indirect block, allocating if necessary. *)
      let addr := iaddrs ip !!! Z.to_nat NDIRECT in
      addr <- (if addr =? 0 then
                 addr <- balloc (idev ip) ;;
                 when (negb (addr =? 0)) (mod_inode i (set_iaddr (Z.to_nat NDIRECT) addr)) ;;
                 ret addr
               else ret addr) ;;
      if addr =? 0 then ret 0
      else
        bp <- bc (bread me (idev ip) addr) ;;
        a <- get_data bp ;;
        let addr := get32 (4 * bn) a in
        addr <- (if addr =? 0 then
                   addr <- balloc (idev ip) ;;
                   when (negb (addr =? 0)) (
                     a <- get_data bp ;;
                     put_data bp (put32 (4 * bn) addr a) ;;
                     lg (log_write bp)) ;;
                   ret addr
                 else ret addr) ;;
        bc (brelse me bp) ;;
        ret addr
    else panic "bmap: out of range".
End proc.

Definition stati (i : nat) : K fstate stat :=
  ip <- get_inode i id ;;
  ret (Stat (i32 (idev ip)) (inum ip) (itype ip) (inlink ip) (isize ip)).
End fs.

(** ** Reading and writing

    [either_copyout] and [either_copyin] (kernel/proc.c) move bytes between
    a kernel buffer and user memory, or between a kernel buffer and another
    kernel object.  [M] is the memory at the other end.  [either_copyin] gets
    the bytes its destination has before the copy and returns the bytes it has
    after it (part of them old ones when the copy failed midway), with the
    result code. *)
Class Mover (M : Type) := {
  either_copyout : Z -> list Z -> K M Z;
  either_copyin : list Z -> Z -> K M (list Z * Z);
}.

(** [user_dst = 0], [user_src = 0]: a kernel object, its bytes as a list and
    addresses relative to its start. *)
#[global] Instance kernel_object : Mover (list Z) := {|
  either_copyout dst bs := modify (putb dst bs) ;; ret 0;
  either_copyin old src := bs <- gets (getb (Z.of_nat (length old)) src) ;; ret (bs, 0);
|}.

Section rw.
Context {D : BlockDev} {M : Type} {MV : Mover M} (me : Z).

Definition fs {A} (m : K fstate A) : K (fstate * M) A := zoom fst (fun f s => (f, snd s)) m.
Definition mv {A} (m : K M A) : K (fstate * M) A := zoom snd (fun m s => (fst s, m)) m.

Definition readi (i : nat) (dst off n : Z) : K (fstate * M) Z :=
  size <- fs (get_inode i isize) ;;
  if (size <? off) || (u32 (off + n) <? off) then ret 0
  else
    let n := if size <? u32 (off + n) then u32 (size - off) else n in
    r <- loop (Z.to_nat n + 1) (fun '(tot, off, dst) =>
      if tot <? n then
        addr <- fs (bmap me i (off / BSIZE)) ;;
        if addr =? 0 then ret (inr tot)
        else
          dev <- fs (get_inode i idev) ;;
          bp <- fs (bc (bread me dev addr)) ;;
          let m := Z.min (n - tot) (BSIZE - off mod BSIZE) in
          d <- fs (get_data bp) ;;
          r <- mv (either_copyout dst (getb m (off mod BSIZE) d)) ;;
          fs (bc (brelse me bp)) ;;
          if r =? -1 then ret (inr (-1))
          else ret (inl (tot + m, off + m, u64 (dst + m)))
      else ret (inr tot)) (0, off, dst) ;;
    ret (i32 r).

(** The copy loop of [writei]: the number of bytes written and the offset. *)
Definition writei_loop (i : nat) (n : Z) : Z * Z * Z -> K (fstate * M) (Z * Z) :=
  loop (Z.to_nat n + 1) (fun '(tot, off, src) =>
    if tot <? n then
      addr <- fs (bmap me i (off / BSIZE)) ;;
      if addr =? 0 then ret (inr (tot, off))
      else
        dev <- fs (get_inode i idev) ;;
        bp <- fs (bc (bread me dev addr)) ;;
        let m := Z.min (n - tot) (BSIZE - off mod BSIZE) in
        d <- fs (get_data bp) ;;
        x <- mv (either_copyin (getb m (off mod BSIZE) d) src) ;;
        fs (put_data bp (putb (off mod BSIZE) (fst x) d)) ;;
        if snd x =? -1 then
          fs (bc (brelse me bp)) ;;
          ret (inr (tot, off))
        else
          fs (lg (log_write bp)) ;;
          fs (bc (brelse me bp)) ;;
          ret (inl (tot + m, off + m, u64 (src + m)))
    else ret (inr (tot, off))).

Definition writei (i : nat) (src off n : Z) : K (fstate * M) Z :=
  size <- fs (get_inode i isize) ;;
  if (size <? off) || (u32 (off + n) <? off) then ret (-1)
  else if MAXFILE * BSIZE <? u32 (off + n) then ret (-1)
  else
    r <- writei_loop i n (0, off, src) ;;
    let '(tot, off) := r in
    size <- fs (get_inode i isize) ;;
    fs (when (size <? off) (mod_inode i (set_isize off))) ;;
    (* even if the size didn't change: bmap may have added a block *)
    fs (iupdate me i) ;;
    ret (i32 tot).
End rw.
