(* ===== verification/FsDir.v ===== *)
(** * kernel/fs.c: directories and path names

    A C string is the list of its bytes up to, and not including, the NUL; a
    character array of fixed size is the list of its bytes.  Local structs
    live in a kernel object of their own ([with_local]). *)
From S2P Require Import Prelude Kmonad Riscv Mem Block KString Sleeplock Bio Log FsLayout Fs.

(** [strncmp] and [strncpy] of kernel/string.c on byte lists; reading past
    the list reads the terminating NUL. *)
Fixpoint strncmp_l (n : nat) (p q : list Z) : Z :=
  match n with
  | O => 0
  | S n' =>
      if negb (hd 0 p =? 0) && (hd 0 p =? hd 0 q) then strncmp_l n' (tl p) (tl q)
      else hd 0 p - hd 0 q
  end.

Fixpoint strncpy_l (n : nat) (t : list Z) : list Z :=
  match n with
  | O => []
  | S n' => if hd 0 t =? 0 then replicate (S n') 0 else hd 0 t :: strncpy_l n' (tl t)
  end.

Definition namecmp (s t : list Z) : Z := strncmp_l (Z.to_nat DIRSIZ) s t.

(** Runs [m] with a local object that starts as [l]; the result has its
    final value. *)
Definition with_local {S L A} (l : L) (m : K (S * L) A) : K S (A * L) := fun c s =>
  match m c (s, l) with
  | Ok a c' (s', l') => Ok (a, l') c' s'
  | Panic msg => Panic msg
  | Asleep ch c' (s', _) => Asleep ch c' s'
  | NoFuel => NoFuel
  end.

(** ** Path names *)

Definition SLASH : Z := 47.

(** [while( *path == '/') path++] *)
Fixpoint skip_slashes (path : list Z) : list Z :=
  match path with c :: p => if c =? SLASH then skip_slashes p else path | [] => [] end.

(** [while( *path != '/' && *path != 0) path++]: the bytes passed and the rest. *)
Fixpoint path_elem (path : list Z) : list Z * list Z :=
  match path with
  | c :: p => if c =? SLASH then ([], path) else let '(s, r) := path_elem p in (c :: s, r)
  | [] => ([], [])
  end.

Definition skipelem (path name : list Z) : option (list Z * list Z) :=
  match skip_slashes path with
  | [] => None
  | path =>
      let '(s, path) := path_elem path in
      let name := if DIRSIZ <=? Z.of_nat (length s) then putb 0 (take (Z.to_nat DIRSIZ) s) name
                  else putb 0 (s ++ [0]) name in
      Some (skip_slashes path, name)
  end.

Section dir.
Context {D : BlockDev} (me : Z).

(** The bytes of an uninitialised [struct dirent]; they are never read. *)
Definition de0 : list Z := replicate (Z.to_nat sizeof_dirent) 0.

(** [readi(dp, 0, (uint64)&de, off, sizeof(de))]: the count and [de]. *)
Definition read_dirent (dp : nat) (off : Z) (de : list Z) : K fstate (Z * list Z) :=
  with_local de (readi me dp 0 off sizeof_dirent).

(** The inode of the entry [name], with the offset of the entry. *)
Definition dirlookup (dp : nat) (name : list Z) : K fstate (option (nat * Z)) :=
  t <- get_inode dp itype ;;
  if negb (t =? T_DIR) then panic "dirlookup not DIR"
  else
    size <- get_inode dp isize ;;
    loop (Z.to_nat (size / sizeof_dirent) + 2) (fun '(off, de) =>
      if off <? size then
        r <- read_dirent dp off de ;;
        let de := snd r in
        if negb (fst r =? sizeof_dirent) then panic "dirlookup read"
        else if de_inum (get_dirent de) =? 0 then ret (inl (u32 (off + sizeof_dirent), de))
        else if namecmp name (de_name (get_dirent de)) =? 0 then
          dev <- get_inode dp idev ;;
          ip <- iget dev (de_inum (get_dirent de)) ;;
          ret (inr (Some (ip, off)))
        else ret (inl (u32 (off + sizeof_dirent), de))
      else ret (inr None)) (0, de0).

Definition dirlink (dp : nat) (name : list Z) (inum' : Z) : K fstate Z :=
  r <- dirlookup dp name ;;
  match r with
  | Some (ip, _) => iput me ip ;; ret (-1)
  | None =>
      size <- get_inode dp isize ;;
      (* Look for an empty dirent. *)
      r <- loop (Z.to_nat (size / sizeof_dirent) + 2) (fun '(off, de) =>
        if u32 off <? size then
          r <- read_dirent dp (u32 off) de ;;
          let de := snd r in
          if negb (fst r =? sizeof_dirent) then panic "dirlink read"
          else if de_inum (get_dirent de) =? 0 then ret (inr (off, de))
          else ret (inl (off + sizeof_dirent, de))
        else ret (inr (off, de))) (0, de0) ;;
      let '(off, de) := r in
      let de := put_dirent (Dirent inum' (strncpy_l (Z.to_nat DIRSIZ) name)) de in
      r <- with_local de (writei me dp 0 (u32 off) sizeof_dirent) ;;
      if negb (fst r =? sizeof_dirent) then ret (-1) else ret 0
  end.

(** [cwd] is [myproc()->cwd]; the result has the final contents of [name]. *)
Definition namex (cwd : nat) (path : list Z) (parent : bool) (name : list Z) : K fstate (option nat * list Z) :=
  ip <- (if match path with c :: _ => c =? SLASH | [] => false end
         then iget ROOTDEV ROOTINO else idup cwd) ;;
  loop (length path + 1) (fun '(path, name, ip) =>
    match skipelem path name with
    | Some (path, name) =>
        ilock me (Some ip) ;;
        t <- get_inode ip itype ;;
        if negb (t =? T_DIR) then iunlockput me ip ;; ret (inr (None, name))
        else if parent && match path with [] => true | _ => false end then
          (* Stop one level early. *)
          iunlock me (Some ip) ;;
          ret (inr (Some ip, name))
        else
          next <- dirlookup ip name ;;
          match next with
          | None => iunlockput me ip ;; ret (inr (None, name))
          | Some (next, _) => iunlockput me ip ;; ret (inl (path, name, next))
          end
    | None =>
        if parent then iput me ip ;; ret (inr (None, name))
        else ret (inr (Some ip, name))
    end) (path, name, ip).

(** [char name[DIRSIZ]], uninitialised. *)
Definition name0 : list Z := replicate (Z.to_nat DIRSIZ) 0.

Definition namei (cwd : nat) (path : list Z) : K fstate (option nat) :=
  r <- namex cwd path false name0 ;; ret (fst r).

Definition nameiparent (cwd : nat) (path name : list Z) : K fstate (option nat * list Z) :=
  namex cwd path true name.
End dir.
