(* ===== verification/Tx.v ===== *)
(** * Inside a transaction

    What the log layer promises to the code between [begin_op] and [end_op]:
    the blocks logged so far [L], the buffers held [H] (each with its block)
    and the contents [V] of every block as the file system sees it.  Nothing
    reaches the disk: a block that is not logged reads as the disk has it. *)
From S2P Require Import Prelude Kmonad Riscv Mem Block Sleeplock Bio BioRing BioCache BioSpec Log LogSpec LogRun.

Definition upd (V : Z -> block) (k : Z) (v : block) : Z -> block := fun j => if decide (j = k) then v else V j.

Lemma upd_eq V k v : upd V k v k = v.
Proof. unfold upd. by rewrite decide_True. Qed.
Lemma upd_ne V k v j : j <> k -> upd V k v j = V j.
Proof. intros. unfold upd. by rewrite decide_False. Qed.

(** The blocks logged once [k] is, too. *)
Definition logged (k : Z) (L : list Z) : list Z := if decide (k ∈ L) then L else L ++ [k].

Lemma elem_of_logged k L j : j ∈ logged k L <-> j ∈ L \/ j = k.
Proof. unfold logged. case_decide; set_solver. Qed.

Lemma length_logged k L : (length L <= length (logged k L) <= length L + 1)%nat.
Proof. unfold logged. case_decide; rewrite ?length_app; simpl; lia. Qed.

Section tx.
Context {D : BlockDev} (me start : Z).
(** The disk, the writes it has seen and the number of operations under way;
    none of them changes. *)
Context (d : disk) (W : list (Z * block)) (o : Z).
Implicit Types (s : lstate) (L : list Z) (H : list (nat * Z)) (V : Z -> block) (c : ctx) (k : Z).

Definition cnt (P : Prop) `{Decision P} : Z := if decide P then 1 else 0.

Record tx s L H V : Prop := {
  tx_inv : binv (lbio s);
  tx_logs : logs start (llog s) L;
  tx_able : loggable start L;
  tx_arr : length (lh_block (lh (llog s))) = Z.to_nat LOGBLOCKS;
  tx_out : outstanding (llog s) = o;
  tx_view : forall k, view (lbio s) k = V k;
  tx_refs : forall k, refs (lbio s) k = cnt (k ∈ L) + cnt (k ∈ H.*2);
  tx_busy : forall k, busy (lbio s) k <-> k ∈ H.*2;
  tx_hold : forall b k, (b, k) ∈ H -> holds me (lbio s) b k;
  tx_nodup : NoDup H.*2;
  tx_free : free_cnt (lbio s) = NBUF - Z.of_nat (length L) - Z.of_nat (length (filter (fun k => k ∉ L) H.*2));
  tx_clean : forall k, k ∉ L -> V k = dread d k;
  tx_dsk : dsk (lbio s) = d;
  tx_writes : dwrites (lbio s) = W;
  tx_comm : committing (llog s) = 0;
}.

Lemma tx_data s L H V b k : tx s L H V -> (b, k) ∈ H -> data (buf_at (lbio s) b) = V k.
Proof.
  intros Ht Hb. rewrite <- (tx_view _ _ _ _ Ht).
  by destruct (holds_data me _ _ _ (tx_inv _ _ _ _ Ht) (tx_hold _ _ _ _ Ht _ _ Hb)) as [-> _].
Qed.

Lemma tx_block_ok s L H V k : tx s L H V -> block_ok (V k).
Proof. intros Ht. rewrite <- (tx_view _ _ _ _ Ht). apply view_ok, Ht. Qed.

Lemma tx_ext s L H V V' : tx s L H V -> (forall k, V' k = V k) -> tx s L H V'.
Proof. intros [] E. split; try done; intros k; rewrite E; auto. Qed.

Lemma filter_len_le L (l : list Z) : (length (filter (fun k => k ∉ L) l) <= length l)%nat.
Proof. apply length_filter. Qed.

Lemma tx_bread s L H V k c :
  tx s L H V -> held c = [] -> k ∉ H.*2 -> k ∈ L \/ Z.of_nat (length L + length H) < NBUF ->
  wp (bio (bread me ROOTDEV k)) (fun b c' s' => c' = c /\ tx s' L ((b, k) :: H) V) c s.
Proof.
  intros Ht Hc Hk Hroom. destruct s as [s0 l]. pose proof Ht as [Hi Hl Ha Hr0 Ho Hv Hr Hb Hh Hn Hf Hcl Hd Hw Hcm]. simpl in *.
  apply wp_zoom. cbn [lbio]. eapply wp_mono; [apply (bread_client me s0 k c)|].
  - done.
  - by rewrite Hb.
  - rewrite Hr. unfold cnt. rewrite (decide_False (P := k ∈ H.*2)) by done. intros E.
    destruct (decide (k ∈ L)); [lia|]. destruct Hroom as [?|Hroom]; [done|].
    pose proof (filter_len_le L H.*2). rewrite length_fmap in *. lia.
  - rewrite Hr. unfold cnt. do 2 case_decide; lia.
  - by apply bio_free_nil.
  - intros b c' s' (-> & Hhb & Hdb & [Hi' Hv' Hr' Hb' Hf'] & Hd' & Hw' & Hk'). split; [done|].
    split; cbn [lbio llog set_bio fmap list_fmap snd]; try done.
    + intros j. by rewrite Hv', Hv.
    + intros j. rewrite Hr', Hr. unfold cnt, at1. destruct (decide (j = k)) as [->|E].
      * rewrite (decide_False (P := k ∈ H.*2)), (decide_True (P := k ∈ k :: _)) by (done || by left). lia.
      * destruct (decide (j ∈ H.*2)) as [E'|E'].
        -- rewrite (decide_True (P := j ∈ k :: _)) by (by right). lia.
        -- rewrite (decide_False (P := j ∈ k :: _)) by (by rewrite elem_of_cons; tauto). lia.
    + intros j. rewrite Hb', Hb, elem_of_cons. tauto.
    + intros b' k' [[= -> ->]|Hin]%elem_of_cons; [done|]. by apply Hk', Hh.
    + by constructor.
    + rewrite Hf', Hf, Hr. unfold cnt. rewrite (decide_False (P := k ∈ H.*2)) by done.
      destruct (decide (k ∈ L)) as [E|E].
      * rewrite filter_cons_False by tauto. rewrite decide_False by lia. lia.
      * rewrite filter_cons_True by done. simpl length. rewrite decide_True by lia. lia.
    + congruence.
    + congruence.
Qed.

Lemma tx_brelse s L H V b k c :
  tx s L ((b, k) :: H) V -> held c = [] ->
  wp (bio (brelse me b)) (fun _ c' s' => held c' = [] /\ tx s' L H V) c s.
Proof.
  intros Ht Hc. destruct s as [s0 l]. pose proof Ht as [Hi Hl Ha Hr0 Ho Hv Hr Hb Hh Hn Hf Hcl Hd Hw Hcm].
  cbn [lbio llog fmap list_fmap snd] in *. apply NoDup_cons in Hn as [Hk Hn].
  assert (holds me s0 b k) as Hbk by (apply Hh; by left).
  apply wp_zoom. cbn [lbio]. eapply wp_mono; [apply (brelse_client me s0 b k c)|].
  - done.
  - done.
  - by apply bio_free_nil.
  - rewrite Hr, Hv. unfold cnt. rewrite (decide_True (P := k ∈ k :: _)) by (by left).
    destruct (decide (k ∈ L)); [lia|]. intros _. rewrite Hd. by apply Hcl.
  - intros [] c' s' (Hc' & [Hi' Hv' Hr' Hb' Hf'] & Hd' & Hw' & Hk'). split; [congruence|].
    split; cbn [lbio llog set_bio]; try done.
    + intros j. by rewrite Hv', Hv.
    + intros j. rewrite Hr', Hr. unfold cnt, at1. destruct (decide (j = k)) as [->|E].
      * rewrite (decide_False (P := k ∈ H.*2)), (decide_True (P := k ∈ k :: _)) by (done || by left). lia.
      * destruct (decide (j ∈ H.*2)) as [E'|E'].
        -- rewrite (decide_True (P := j ∈ k :: _)) by (by right). lia.
        -- rewrite (decide_False (P := j ∈ k :: _)) by (by rewrite elem_of_cons; tauto). lia.
    + intros j. rewrite Hb', Hb, elem_of_cons. split; [|intros ?; split; [by right|by intros ->]]. intros [[?|?] ?]; done.
    + intros b' k' Hin. apply Hk'; [|apply Hh; by right]. intros ->. apply Hk. by apply (list_elem_of_fmap_2 snd) in Hin.
    + rewrite Hf', Hf, Hr. unfold cnt. rewrite (decide_True (P := k ∈ k :: _)) by (by left).
      destruct (decide (k ∈ L)) as [E|E].
      * rewrite filter_cons_False by tauto. rewrite decide_False by lia. lia.
      * rewrite filter_cons_True by done. simpl length. rewrite decide_True by lia. lia.
    + congruence.
    + congruence.
Qed.

(** ** Logging a block *)

Lemma log_index_spec (bs blk : list Z) k :
  take (length bs) blk = bs -> (forall b, b ∈ bs -> 0 <= b < 2 ^ 31) -> 0 <= k < 2 ^ 31 ->
  let i := log_index (length bs) blk k in
  if decide (k ∈ bs) then bs !! i = Some k else i = length bs.
Proof.
  revert blk. induction bs as [|b bs IH]; intros blk Ht Hr Hk; cbn [length log_index]; cbv zeta.
  - by rewrite decide_False by apply not_elem_of_nil.
  - destruct blk as [|b' blk]; [done|]. injection Ht as -> Ht.
    assert (u32 b = b) as -> by (apply u32_id; specialize (Hr b); set_solver by lia).
    destruct (Z.eqb_spec b k) as [->|E].
    + by rewrite decide_True by (by left).
    + specialize (IH blk Ht (fun x Hx => Hr x (list_elem_of_further _ _ _ Hx)) Hk). cbv zeta in IH.
      destruct (decide (k ∈ bs)).
      * rewrite decide_True by (by right). done.
      * rewrite decide_False by set_solver. by rewrite IH.
Qed.

Lemma logs_logged l L k i (n : Z) :
  logs start l L -> length (lh_block (lh l)) = Z.to_nat LOGBLOCKS -> Z.of_nat (length L) < LOGBLOCKS ->
  (if decide (k ∈ L) then L !! i = Some k else i = length L) ->
  n = (if decide (k ∈ L) then lh_n (lh l) else lh_n (lh l) + 1) ->
  logs start (set_lh (LogHeader n (<[i := k]> (lh_block (lh l)))) l) (logged k L).
Proof.
  intros [H1 H2 H3 H4] Hlen HL Hi ->. unfold logged. destruct (decide (k ∈ L)) as [Hin|Hin]; split; simpl; try done.
  - rewrite list_insert_id; [done|]. rewrite <- H4 in Hi. by apply lookup_take_Some in Hi as [? _].
  - rewrite length_app, H3. simpl. lia.
  - subst i. rewrite length_app. simpl. rewrite Nat.add_1_r.
    erewrite take_S_r by (apply list_lookup_insert_eq; lia). by rewrite take_insert_ge, H4 by lia.
Qed.

Lemma loggable_logged L k :
  loggable start L -> Z.of_nat (length L) < LOGBLOCKS -> 0 <= k < 2 ^ 31 -> ~ in_log start k ->
  loggable start (logged k L).
Proof.
  intros [H1 H2 H3 H4] HL Hk Hl. pose proof (length_logged k L). split; [done|lia| |].
  - intros b [?| ->]%elem_of_logged; [by apply H3|done].
  - unfold logged. case_decide; [done|]. apply NoDup_app. split_and!; [done|set_solver|apply NoDup_singleton].
Qed.

Lemma filter_unlogged L (l : list Z) k :
  k ∉ l -> filter (fun x => x ∉ L ++ [k]) l = filter (fun x => x ∉ L) l.
Proof.
  induction l as [|x l IH]; intros Hk; [done|]. destruct (decide (x ∈ L)) as [Hin|Hin].
  - rewrite !filter_cons_False by set_solver. apply IH. set_solver.
  - rewrite !filter_cons_True by set_solver. f_equal. apply IH. set_solver.
Qed.

Lemma filter_logged L (l : list Z) k :
  NoDup l -> k ∈ l -> k ∉ L ->
  length (filter (fun x => x ∉ L) l) = S (length (filter (fun x => x ∉ L ++ [k]) l)).
Proof.
  intros Hn Hk HL. induction l as [|x l IH]; [by apply elem_of_nil in Hk|].
  apply NoDup_cons in Hn as [Hx Hn]. destruct (decide (x = k)) as [->|E].
  - rewrite filter_cons_True, filter_cons_False by set_solver. by rewrite filter_unlogged.
  - assert (k ∈ l) as Hkl by set_solver. specialize (IH Hn Hkl).
    destruct (decide (x ∈ L)) as [Hin|Hin].
    + rewrite !filter_cons_False by set_solver. done.
    + rewrite !filter_cons_True by set_solver. simpl. by rewrite IH.
Qed.

(** [bp->data = v; log_write(bp)]. *)
Lemma tx_write s L H V b k v c :
  tx s L H V -> held c = [] -> (b, k) ∈ H -> block_ok v -> 0 <= k < 2 ^ 31 -> ~ in_log start k ->
  Z.of_nat (length L) < LOGBLOCKS -> 1 <= o ->
  wp (bio (mod_buf b (set_data v)) ;; log_write b)
    (fun _ c' s' => c' = c /\ tx s' (logged k L) H (upd V k v)) c s.
Proof.
  intros Ht Hc Hin Hv0 Hk Hkl HL Ho1. destruct s as [s0 l]. pose proof Ht as [Hi Hl Ha Hr0 Ho Hv Hr Hb Hh Hn Hf Hcl Hd Hw Hcm].
  cbn [lbio llog] in *. kstep. apply wp_zoom. cbn [lbio].
  eapply wp_mono; [apply (setdata_client me s0 b k v c); [done|by apply Hh|done]|].
  intros [] c1 s1 (-> & Hd1 & [Hi1 Hv1 Hr1 Hb1 Hf1] & Hdk1 & Hw1 & Hk1). cbn [lbio llog set_bio].
  assert (holds me s1 b k) as Hbk by (by apply Hk1, Hh).
  assert (k ∈ H.*2) as HkH by (by apply (list_elem_of_fmap_2 snd) in Hin).
  change (set_bio s1 _) with (Lst s1 l).
  unfold log_write. kstep. apply wp_acquire; [rewrite Hc; apply not_elem_of_nil|].
  unfold get_log, mod_log, bio, get_buf. ksteps. cbn [llog]. unfold id.
  rewrite (ls_n _ _ _ Hl), (proj2 (Z.leb_gt _ _)), (proj2 (Z.ltb_ge _ _)) by lia.
  kstep. apply wp_zoom. ksteps. cbn [lbio llog set_bio set_log]. rewrite Nat2Z.id.
  assert (blockno (buf_at s1 b) = k) as -> by apply Hbk.
  pose proof (log_index_spec L (lh_block (lh l)) k (ls_blocks _ _ _ Hl) (fun x Hx => proj1 (lg_range _ _ Ha x Hx)) Hk) as Hix.
  cbv zeta in Hix. set (i := log_index (length L) (lh_block (lh l)) k) in *. rewrite i32_id by lia.
  destruct (decide (k ∈ L)) as [HkL|HkL] eqn:EkL.
  - rewrite (proj2 (Z.eqb_neq _ _)) by (apply lookup_lt_Some in Hix; lia). ksteps.
    rewrite (ls_n _ _ _ Hl). split; [by destruct c|].
    match goal with |- tx (set_log ?x _) _ _ _ => change (tx (Lst s1 x) (logged k L) H (upd V k v)) end.
    split; cbn [lbio llog]; try done.
    + eapply logs_logged; [done..| |]; rewrite decide_True by done; [done|by rewrite (ls_n _ _ _ Hl)].
    + by apply loggable_logged.
    + simpl. by rewrite length_insert.
    + intros j. by rewrite Hv1, Hv.
    + intros j. rewrite Hr1, Hr. unfold logged. rewrite EkL. lia.
    + intros j. by rewrite Hb1.
    + intros b' k' ?. by apply Hk1, Hh.
    + unfold logged. rewrite EkL, Hf1, Hf. lia.
    + intros j Hj. rewrite elem_of_logged in Hj. rewrite upd_ne by tauto. apply Hcl. tauto.
    + congruence.
    + congruence.
  - subst i. rewrite Hix, Z.eqb_refl. unfold when. kstep. apply wp_zoom.
    match goal with |- context [set_log ?x _] => change (set_log x _) with (Lst s1 x) end. cbn [lbio].
    eapply wp_mono; [apply (bpin_client me s1 b k); [done|done|..]|].
    { cbn [held]. rewrite Hc. intros Hx%list_elem_of_singleton. done. }
    { rewrite Hr1, Hr. unfold cnt. do 2 case_decide; lia. }
    intros [] c2 s2 (-> & [Hi2 Hv2 Hr2 Hb2 Hf2] & Hd2 & Hw2 & Hk2). ksteps. split; [by destruct c|].
    change (tx (Lst s2 (set_lh (LogHeader (lh_n (lh l) + 1) (<[length L := k]> (lh_block (lh l)))) l)) (logged k L) H (upd V k v)).
    split; cbn [lbio llog]; try done.
    + eapply logs_logged; [done..| |]; by rewrite decide_False by done.
    + by apply loggable_logged.
    + simpl. by rewrite length_insert.
    + intros j. by rewrite Hv2, Hv1, Hv.
    + intros j. rewrite Hr2, Hr1, Hr. unfold cnt, at1. destruct (decide (j = k)) as [->|E].
      * rewrite (decide_False (P := k ∈ L)) by done. rewrite (decide_True (P := k ∈ logged _ _)) by (apply elem_of_logged; by right). lia.
      * destruct (decide (j ∈ L)) as [E'|E'].
        -- rewrite (decide_True (P := j ∈ logged _ _)) by (apply elem_of_logged; by left). lia.
        -- rewrite (decide_False (P := j ∈ logged _ _)) by (by intros [?|?]%elem_of_logged). lia.
    + intros j. by rewrite Hb2, Hb1.
    + intros b' k' ?. by apply Hk2, Hk1, Hh.
    + unfold logged. rewrite decide_False, length_app by done. simpl.
      rewrite Hf2, Hf1, Hf, (filter_logged L H.*2 k) by done. lia.
    + intros j Hj. rewrite elem_of_logged in Hj. rewrite upd_ne by tauto. apply Hcl. tauto.
    + congruence.
    + congruence.
Qed.
End tx.
