(* ===== verification/Transaction.v ===== *)
(** * Transactions

    [begin_op], an operation that changes blocks through the log, and
    [end_op]: from an idle file system to an idle file system, with the
    operation's changes on the disk, and atomically with respect to crashes. *)
From S2P Require Import Prelude Kmonad Riscv Mem Block Sleeplock Bio BioRing BioCache BioSpec Log LogSpec LogRun LogCrash LogSpace Tx.

Section transaction.
Context {D : BlockDev} (me start : Z).
Implicit Types (s r : lstate) (L : list Z) (V : Z -> block) (c : ctx) (k : Z) (d : disk) (W ws : list (Z * block)).

(** No operation under way and nothing in the log: the cache agrees with the disk. *)
Definition idle s : Prop :=
  tx me start (dsk (lbio s)) (dwrites (lbio s)) 0 s [] [] (dread (dsk (lbio s))) /\ on_disk start (dsk (lbio s)) [].

(** Whenever the machine stops during the writes [ws] to disk [d], recovery
    finds the blocks as they were, or all of them as in [V]. *)
Definition all_or_nothing d ws V : Prop := forall (i : nat) r F c,
  held c = [] -> dsk (lbio r) = apply_writes d (take i ws) -> quiet (lbio r) [] F -> 1 < F ->
  wp (initlog me ROOTDEV start) (fun _ _ r' =>
    (forall k, ~ in_log start k -> dread (dsk (lbio r')) k = dread d k) \/
    (forall k, ~ in_log start k -> dread (dsk (lbio r')) k = V k)) c r.

Lemma tx_quiet d W o s L V : tx me start d W o s L [] V -> quiet (lbio s) L (NBUF - Z.of_nat (length L)).
Proof.
  intros Ht. split; [apply Ht| | |].
  - intros k Hk%(tx_busy _ _ _ _ _ _ _ _ _ Ht). by apply elem_of_nil in Hk.
  - intros k. rewrite (tx_refs _ _ _ _ _ _ _ _ _ Ht). unfold cnt. rewrite (decide_False (P := k ∈ [].*2)) by apply not_elem_of_nil. lia.
  - rewrite (tx_free _ _ _ _ _ _ _ _ _ Ht). simpl. lia.
Qed.

(** A quiet cache with an empty log is the view of no transaction. *)
Lemma quiet_tx s l o : quiet (lbio s) [] NBUF -> llog s = l -> logs start l [] -> loggable start [] ->
  length (lh_block (lh l)) = Z.to_nat LOGBLOCKS -> outstanding l = o -> committing l = 0 ->
  tx me start (dsk (lbio s)) (dwrites (lbio s)) o s [] [] (dread (dsk (lbio s))).
Proof.
  intros Hq <- Hl Hlg Hlen Ho Hc. pose proof (fun k => q_refs _ _ _ Hq k) as Hr.
  assert (forall k, refs (lbio s) k = 0) as Hr0 by (intros k; by rewrite Hr, decide_False by apply not_elem_of_nil).
  assert (forall k, view (lbio s) k = dread (dsk (lbio s)) k) as Hv by (intros k; by apply unused_clean; [apply Hq|]).
  assert (forall k, ~ busy (lbio s) k) as Hb by apply Hq.
  split; cbn [fmap list_fmap]; try done.
  - apply Hq.
  - intros k. rewrite elem_of_nil. split; [apply Hb|done].
  - intros b k []%elem_of_nil.
  - constructor.
  - rewrite (q_free _ _ _ Hq). simpl. lia.
Qed.

Lemma begin_tx s c : idle s -> held c = [] ->
  wp begin_op (fun _ c' s' => held c' = [] /\ lbio s' = lbio s /\
    tx me start (dsk (lbio s)) (dwrites (lbio s)) 1 s' [] [] (dread (dsk (lbio s)))) c s.
Proof.
  intros [Ht _] Hc. unfold begin_op. kstep. apply wp_acquire; [rewrite Hc; apply not_elem_of_nil|].
  unfold get_log, mod_log. ksteps. unfold id.
  rewrite (tx_comm _ _ _ _ _ _ _ _ _ Ht), (ls_n _ _ _ (tx_logs _ _ _ _ _ _ _ _ _ Ht)), (tx_out _ _ _ _ _ _ _ _ _ Ht).
  cbn [Z.eqb negb length]. change (LOGBLOCKS <? Z.of_nat 0 + (0 + 1) * MAXOPBLOCKS) with false. cbn iota. ksteps.
  split; [done|]. split; [done|]. destruct Ht as [H1 [L1 L2 L3 L4] H3 H4 H5 H6 H7 H8 H9 H10 H11 H12 H13 H14 H15].
  split; try done.
Qed.

(** [commit] as part of [end_op]. *)
Lemma commit_tx d W s L V c :
  tx me start d W 0 (set_log (set_committing 0 (llog s)) s) L [] V -> held c = [] -> Z.of_nat (length L) < NBUF -> on_disk start d [] ->
  wp (commit me) (fun _ c' s' => held c' = [] /\ quiet (lbio s') [] NBUF /\ on_disk start (dsk (lbio s')) [] /\ logs start (llog s') [] /\
    exists ws, dwrites (lbio s') = W ++ ws /\ dsk (lbio s') = apply_writes d ws /\
      (forall k, ~ in_log start k -> dread (dsk (lbio s')) k = V k) /\ all_or_nothing d ws V) c s.
Proof.
  intros Ht Hc HL Hod. pose proof (tx_quiet _ _ _ _ _ _ Ht) as Hq. pose proof (tx_able _ _ _ _ _ _ _ _ _ Ht) as Hlg.
  assert (logs start (llog s) L) as Hlogs by (destruct (tx_logs _ _ _ _ _ _ _ _ _ Ht); by split). pose proof (tx_dsk _ _ _ _ _ _ _ _ _ Ht) as Hd. pose proof (tx_writes _ _ _ _ _ _ _ _ _ Ht) as HW.
  pose proof (tx_view _ _ _ _ _ _ _ _ _ Ht) as Hv. pose proof (tx_clean _ _ _ _ _ _ _ _ _ Ht) as Hcl. cbn [set_log lbio] in *.
  destruct (decide (L = [])) as [->|Hne].
  - unfold commit, get_log. kstep. kstep. rewrite (ls_n _ _ _ Hlogs). cbn. apply wp_ret.
    split; [done|]. split; [exact Hq|]. rewrite Hd. split; [done|]. split; [done|]. exists []. rewrite app_nil_r.
    assert (forall k, dread d k = V k) as E by (intros k; rewrite Hcl; [done|apply not_elem_of_nil]).
    split_and!; [done|done|by intros|]. intros i r F c' Hc' Hr Hqr HF. rewrite take_nil in Hr. simpl in Hr.
    eapply wp_mono; [apply (initlog_logical me start r F [] c'); [done..|by rewrite Hr]|].
    intros [] ? r' Hl. left. intros k Hk. rewrite Hl by done. rewrite Hr. unfold logical. by rewrite (od_blocks _ _ _ Hod).
  - pose proof (binv_disk _ (q_inv _ _ _ Hq)) as Hok. rewrite Hd in Hok.
    assert (forall k, in_log start k -> k ∉ L) as Hlb by (intros k Hk Hin; by apply (lg_range _ _ Hlg) in Hin as [_ ?]).
    assert (V start = dread d start) as Hvs by (apply Hcl, Hlb; unfold in_log, LOGBLOCKS, MAXOPBLOCKS; lia).
    eapply wp_mono; [apply (commit_run me start s L (NBUF - Z.of_nat (length L)) L c); try done; lia|].
    intros [] c' s' (Hc' & Hl' & Hq' & Hwr & Hds & Hws).
    set (ws := commit_writes start (view (lbio s)) L) in *.
    assert (forall k, ~ in_log start k -> on_disk start (apply_writes d ws) [] /\ dread (apply_writes d ws) k = V k) as Hend.
    { intros k Hk. destruct (crash_committed start d (view (lbio s)) L k Hok Hlg Hk) as (? & E1 & E2); [by rewrite Hv|].
      split; [done|]. unfold ws. rewrite E2, E1, Hv. case_decide; [done|]. by rewrite Hcl. }
    rewrite Hd in Hds. rewrite Hds. split; [done|]. split.
    { eapply quiet_ext; [| |exact Hq']; [intros k; rewrite list_elem_of_filter, elem_of_nil; tauto|lia]. }
    split; [apply (Hend (start - 1)); unfold in_log; lia|]. split; [done|]. exists ws. rewrite Hws, HW.
    split_and!; [done|done|intros k Hk; by apply Hend|].
    intros i r F c1 Hc1 Hr Hqr HF.
    assert (forall k, ~ in_log start k -> (exists bs', on_disk start (dsk (lbio r)) bs') /\ logical start (dsk (lbio r)) k =
      if decide (i <= length L)%nat then dread d k else V k) as Hlog.
    { intros k Hk. rewrite Hr. destruct (crash_commit start d (view (lbio s)) L i k Hok Hod Hlg Hk) as [He E]; [by rewrite Hv|].
      split; [done|]. unfold ws. rewrite E, Hv. repeat case_decide; try done. by rewrite Hcl. }
    destruct (Hlog (start - 1)) as [[bs' Hod'] _]; [unfold in_log; lia|].
    eapply wp_mono; [by apply (initlog_logical me start r F bs' c1)|].
    intros [] ? r' Hl. destruct (decide (i <= length L)%nat) as [E|E]; [left|right]; intros k Hk; rewrite Hl by done;
      destruct (Hlog k Hk) as [_ ->]; done.
Qed.

Lemma end_tx d W s L V c :
  tx me start d W 1 s L [] V -> held c = [] -> Z.of_nat (length L) < NBUF -> on_disk start d [] ->
  wp (end_op me) (fun _ c' s' => held c' = [] /\ idle s' /\
    exists ws, dwrites (lbio s') = W ++ ws /\ dsk (lbio s') = apply_writes d ws /\
      (forall k, ~ in_log start k -> dread (dsk (lbio s')) k = V k) /\ all_or_nothing d ws V) c s.
Proof.
  intros Ht Hc HL Hod. pose proof (tx_comm _ _ _ _ _ _ _ _ _ Ht) as Hcm. pose proof (tx_out _ _ _ _ _ _ _ _ _ Ht) as Ho.
  pose proof (tx_arr _ _ _ _ _ _ _ _ _ Ht) as Harr. pose proof (loggable_nil _ _ (tx_able _ _ _ _ _ _ _ _ _ Ht)) as Hnil.
  unfold end_op, get_log, mod_log. kstep. apply wp_acquire; [rewrite Hc; apply not_elem_of_nil|]. ksteps. unfold id. cbn [llog set_log].
  change (committing (set_outstanding _ (llog s))) with (committing (llog s)). rewrite Hcm, Ho. cbn [Z.eqb negb outstanding set_outstanding Z.sub Z.opp Z.add Z.pos_sub].
  change (1 - 1 =? 0) with true. cbn iota. ksteps. unfold when. kstep. set (s1 := set_log (set_committing 1 _) _).
  assert (tx me start d W 0 (set_log (set_committing 0 (llog s1)) s1) L [] V) as Ht1.
  { destruct Ht as [H1 [L1 L2 L3 L4] H3 H4 H5 H6 H7 H8 H9 H10 H11 H12 H13 H14 H15]. split; try done. }
  pose proof (commit_tx d W s1 L V (Ctx (held c) (woken c)) Ht1 Hc HL Hod) as Hcommit.
  apply wp_inv in Hcommit as ([] & c2 & s2 & E & Hc2 & Hq & Hod2 & Hl2 & ws & HW & Hd & HV & Hcr).
  unfold wp at 1. rewrite E. apply commit_log in E.
  kstep. apply wp_acquire; [rewrite Hc2; apply not_elem_of_nil|]. ksteps. split; [done|].
  assert (outstanding (llog s2) = 0 /\ length (lh_block (lh (llog s2))) = Z.to_nat LOGBLOCKS) as [Ho2 Ha2].
  { rewrite E. destruct (0 <? _); done. }
  split; [|by exists ws]. split; [|done]. cbn [lbio set_log].
  eapply (quiet_tx (set_log (set_committing 0 (llog s2)) s2)); try done. by destruct Hl2.
Qed.

(** An operation between [begin_op] and [end_op]. *)
Lemma op_tx {A} (m : K lstate A) (Q : A -> (Z -> block) -> lstate -> Prop) s c :
  idle s -> held c = [] ->
  (forall s1 c1, held c1 = [] -> lbio s1 = lbio s ->
     tx me start (dsk (lbio s)) (dwrites (lbio s)) 1 s1 [] [] (dread (dsk (lbio s))) ->
     wp m (fun a c2 s2 => held c2 = [] /\ exists L V, Z.of_nat (length L) < NBUF /\ Q a V s2 /\
       tx me start (dsk (lbio s)) (dwrites (lbio s)) 1 s2 L [] V) c1 s1) ->
  wp (begin_op ;; a <- m ;; end_op me ;; ret a) (fun a c' s' => held c' = [] /\ idle s' /\
    exists s2 V ws, Q a V s2 /\ dwrites (lbio s') = dwrites (lbio s) ++ ws /\ dsk (lbio s') = apply_writes (dsk (lbio s)) ws /\
      (forall k, ~ in_log start k -> dread (dsk (lbio s')) k = V k) /\ all_or_nothing (dsk (lbio s)) ws V) c s.
Proof.
  intros Hi Hc Hm. kstep. eapply wp_mono; [by apply begin_tx|]. intros [] c1 s1 (Hc1 & Hb & Ht1).
  kstep. eapply wp_mono; [by apply Hm|]. intros a c2 s2 (Hc2 & L & V & HL & HQ & Ht2).
  kstep. eapply wp_mono; [apply (end_tx _ _ s2 L V c2 Ht2 Hc2 HL (proj2 Hi))|].
  intros [] c3 s3 (Hc3 & Hi3 & ws & HW & Hd & HV & Hcr). kstep. split; [done|]. split; [done|]. exists s2, V, ws. done.
Qed.
End transaction.
