(* ===== verification/FsBlock.v ===== *)
(** * Block allocation

    [balloc] and [bfree] against the bit map as a predicate on block numbers:
    the block allocated is the first free one, it is zeroed and marked in
    use, and nothing else changes. *)
From S2P Require Import Prelude Kmonad Riscv Mem Block Sleeplock Bio BioRing BioCache BioSpec Log LogSpec LogRun.
From S2P Require Import FsLayout Fs Tx.

(** ** Bits of a bitmap block *)

Definition blkbit (d : block) (j : Z) : bool := Z.testbit (get8 (j / 8) d) (j mod 8).

Lemma get8_put8_eq off v b : 0 <= off < Z.of_nat (length b) -> get8 off (put8 off v b) = u8 v.
Proof.
  intros H. unfold get8, put8. rewrite getb_putb_eq by (rewrite ?le_enc_length; lia).
  rewrite le_dec_enc. done.
Qed.

Lemma get8_put8_ne off off' v b :
  0 <= off -> 0 <= off' < Z.of_nat (length b) -> off <> off' -> get8 off (put8 off' v b) = get8 off b.
Proof. intros. unfold get8, put8. rewrite getb_putb_ne by (rewrite ?le_enc_length; lia). done. Qed.

Lemma get8_range off b : 0 <= get8 off b < 256.
Proof.
  unfold get8. pose proof (le_dec_range (getb 1 off b)) as H.
  assert (length (getb 1 off b) <= 1)%nat by (unfold getb; rewrite length_take; lia).
  assert (256 ^ Z.of_nat (length (getb 1 off b)) <= 256 ^ 1) by (apply Z.pow_le_mono_r; lia). lia.
Qed.

Lemma put8_ok off v b : block_ok b -> 0 <= off < BSIZE -> block_ok (put8 off v b).
Proof. intros. apply putb_ok; [done|apply le_enc_bytes|lia|]. rewrite le_enc_length. lia. Qed.

Lemma bit_free d bi : 0 <= bi -> (Z.land (get8 (bi / 8) d) (Z.shiftl 1 (bi mod 8)) =? 0) = negb (blkbit d bi).
Proof.
  intros. assert (0 <= bi mod 8) by zlia. rewrite shiftl_mul, Z.mul_1_l by done. by apply land_flag.
Qed.

Lemma u8_testbit x i : 0 <= i < 8 -> Z.testbit (u8 x) i = Z.testbit x i.
Proof. intros. unfold u8. change 0x100 with (2 ^ 8). apply Z.mod_pow2_bits_low. lia. Qed.

Lemma pow2_testbit i j : 0 <= i -> 0 <= j -> Z.testbit (Z.shiftl 1 i) j = bool_decide (j = i).
Proof.
  intros. rewrite shiftl_mul, Z.mul_1_l by done. case_bool_decide as E.
  - subst. by apply Z.pow2_bits_true.
  - by apply Z.pow2_bits_false.
Qed.

(** Writing the byte of bit [bi]. *)
Lemma blkbit_put d bi j v :
  block_ok d -> 0 <= bi < BPB -> 0 <= j < BPB ->
  blkbit (put8 (bi / 8) v d) j = if decide (j / 8 = bi / 8) then Z.testbit v (j mod 8) else blkbit d j.
Proof.
  intros [Hl _] Hb Hj. unfold blkbit, BPB, BSIZE in *.
  assert (0 <= bi / 8 < 1024 /\ 0 <= j / 8 < 1024 /\ 0 <= j mod 8 < 8) as (? & ? & ?) by zlia.
  case_decide as E.
  - rewrite E, get8_put8_eq, u8_testbit by lia. done.
  - by rewrite get8_put8_ne by lia.
Qed.

Lemma blkbit_set d bi j :
  block_ok d -> 0 <= bi < BPB -> 0 <= j < BPB ->
  blkbit (put8 (bi / 8) (Z.lor (get8 (bi / 8) d) (Z.shiftl 1 (bi mod 8))) d) j = bool_decide (j = bi) || blkbit d j.
Proof.
  intros Hd Hb Hj. rewrite blkbit_put by done. case_decide as E.
  - rewrite Z.lor_spec, pow2_testbit by zlia. unfold blkbit. rewrite E, orb_comm. f_equal.
    apply bool_decide_ext. zlia.
  - rewrite bool_decide_false by (by intros ->). done.
Qed.

Lemma blkbit_clear d bi j :
  block_ok d -> 0 <= bi < BPB -> 0 <= j < BPB ->
  blkbit (put8 (bi / 8) (Z.land (get8 (bi / 8) d) (Z.lnot (Z.shiftl 1 (bi mod 8)))) d) j =
  negb (bool_decide (j = bi)) && blkbit d j.
Proof.
  intros Hd Hb Hj. rewrite blkbit_put by done. case_decide as E.
  - rewrite Z.land_spec, Z.lnot_spec, pow2_testbit by zlia. unfold blkbit. rewrite E, andb_comm. do 2 f_equal.
    apply bool_decide_ext. zlia.
  - rewrite bool_decide_false by (by intros ->). done.
Qed.

(** ** The layout of the disk *)

Section layout.
Context (sb : superblock) (start : Z).

Definition data_start : Z := sb_bmapstart sb + sb_size sb / BPB + 1.

(** The super block describes log, inodes, bit map and data in that order. *)
Record sb_ok : Prop := {
  so_log : sb_logstart sb = start /\ 2 <= start /\ start + LOGBLOCKS < sb_inodestart sb;
  so_inodes : 0 <= sb_ninodes sb /\ sb_inodestart sb + sb_ninodes sb / IPB < sb_bmapstart sb;
  so_data : data_start <= sb_size sb < 2 ^ 31;
}.

Definition is_data (k : Z) : Prop := data_start <= k < sb_size sb.

Definition used (V : Z -> block) (b : Z) : bool := blkbit (V (BBLOCK b sb)) (b mod BPB).

(** The blocks of the file system's own structures are marked in use. *)
Definition meta_used V : Prop := forall b, 0 <= b < data_start -> used V b = true.

Context (Hsb : sb_ok).

Lemma sb_bounds :
  2 <= start /\ start + LOGBLOCKS < sb_inodestart sb /\ sb_inodestart sb < sb_bmapstart sb /\
  sb_bmapstart sb < data_start /\ data_start <= sb_size sb < 2 ^ 31.
Proof.
  destruct Hsb as [(Hl & H2 & Hl2) (Hi & Hi2) Hd].
  assert (0 <= sb_ninodes sb / IPB) by (apply Z.div_pos; [done|by vm_compute]).
  unfold data_start, LOGBLOCKS, MAXOPBLOCKS, BPB, BSIZE in *. change (1024 * 8) with 8192 in *. zlia.
Qed.

Lemma BBLOCK_range b : 0 <= b < sb_size sb ->
  BBLOCK b sb = b / BPB + sb_bmapstart sb /\ sb_bmapstart sb <= BBLOCK b sb < data_start /\
  0 <= BBLOCK b sb < 2 ^ 31 /\ ~ in_log start (BBLOCK b sb) /\ ~ is_data (BBLOCK b sb).
Proof.
  intros Hb. destruct Hsb as [(Hl & H2 & Hl2) (Hi & Hi2) Hd]. unfold data_start, is_data, in_log, BPB, IPB, BSIZE, sizeof_dinode in *. change (1024 * 8) with 8192 in *. change (1024 / 64) with 16 in *.
  assert (0 <= sb_ninodes sb / 16) by (apply Z.div_pos; lia).
  assert (0 <= b / 8192 <= sb_size sb / 8192) by (split; [apply Z.div_pos|apply Z.div_le_mono]; lia).
  assert (BBLOCK b sb = b / 8192 + sb_bmapstart sb) as E.
  { unfold BBLOCK, BPB, BSIZE. apply u32_id. unfold LOGBLOCKS, MAXOPBLOCKS in *. lia. }
  rewrite E. unfold data_start, LOGBLOCKS, MAXOPBLOCKS, BPB, BSIZE in *. change (1024 * 8) with 8192 in *. change (1024 / 64) with 16 in *. lia.
Qed.

Lemma is_data_loggable k : is_data k -> 0 <= k < 2 ^ 31 /\ ~ in_log start k.
Proof.
  intros [Hk Hk2]. destruct Hsb as [(Hl & H2 & Hl2) (Hi & Hi2) Hd]. unfold data_start, in_log, IPB, BPB, BSIZE, sizeof_dinode in *. change (1024 * 8) with 8192 in *. change (1024 / 64) with 16 in *.
  assert (0 <= sb_ninodes sb / 16) by (apply Z.div_pos; lia).
  assert (0 <= sb_size sb / 8192) by (unfold LOGBLOCKS, MAXOPBLOCKS in *; zlia). unfold LOGBLOCKS, MAXOPBLOCKS in *. lia.
Qed.

Lemma BBLOCK_inj a b : 0 <= a < sb_size sb -> 0 <= b < sb_size sb ->
  BBLOCK a sb = BBLOCK b sb -> a mod BPB = b mod BPB -> a = b.
Proof.
  intros Ha Hb. destruct (BBLOCK_range a Ha) as (-> & _). destruct (BBLOCK_range b Hb) as (-> & _).
  unfold BPB, BSIZE. zlia.
Qed.

(** Block [a] allocated: marked and zeroed; block [a] freed. *)
Definition mark (V : Z -> block) (a : Z) (f : Z -> Z -> Z) : Z -> block :=
  let d := V (BBLOCK a sb) in
  let bi := a mod BPB in
  upd V (BBLOCK a sb) (put8 (bi / 8) (f (get8 (bi / 8) d) (Z.shiftl 1 (bi mod 8))) d).
Definition v_alloc V a : Z -> block := upd (mark V a Z.lor) a zblock.
Definition v_free V a : Z -> block := mark V a (fun x m => Z.land x (Z.lnot m)).

Lemma mark_other V a f k : k <> BBLOCK a sb -> mark V a f k = V k.
Proof. intros. unfold mark. by rewrite upd_ne. Qed.

Lemma v_alloc_other V a k : k <> a -> k <> BBLOCK a sb -> v_alloc V a k = V k.
Proof. intros. unfold v_alloc. by rewrite upd_ne, mark_other. Qed.

Lemma used_alloc V a b : (forall k, block_ok (V k)) -> is_data a -> 0 <= b < sb_size sb ->
  used (v_alloc V a) b = bool_decide (b = a) || used V b.
Proof.
  intros HV Ha Hb. assert (0 <= a < sb_size sb) as Ha' by (destruct (is_data_loggable a Ha), Ha; lia).
  destruct (BBLOCK_range b Hb) as (_ & _ & _ & _ & Hnd). unfold used, v_alloc.
  rewrite upd_ne by (by intros E; apply Hnd; rewrite E).
  destruct (decide (BBLOCK b sb = BBLOCK a sb)) as [E|E].
  - unfold mark. rewrite E, upd_eq, blkbit_set by (apply HV || apply Z.mod_pos_bound; by vm_compute). f_equal.
    apply bool_decide_ext. split; [by apply BBLOCK_inj|by intros ->].
  - rewrite mark_other by done. rewrite bool_decide_false by (by intros ->). done.
Qed.

Lemma used_free V a b : (forall k, block_ok (V k)) -> is_data a -> 0 <= b < sb_size sb ->
  used (v_free V a) b = negb (bool_decide (b = a)) && used V b.
Proof.
  intros HV Ha Hb. assert (0 <= a < sb_size sb) as Ha' by (destruct (is_data_loggable a Ha), Ha; lia).
  unfold used, v_free. destruct (decide (BBLOCK b sb = BBLOCK a sb)) as [E|E].
  - unfold mark. rewrite E, upd_eq, blkbit_clear by (apply HV || apply Z.mod_pos_bound; by vm_compute). do 2 f_equal.
    apply bool_decide_ext. split; [by apply BBLOCK_inj|by intros ->].
  - rewrite mark_other by done. rewrite bool_decide_false by (by intros ->). done.
Qed.
End layout.

(** ** The operations *)

Section ops.
Context {D : BlockDev} (me start : Z) (d : disk) (W : list (Z * block)) (o : Z).
Implicit Types (s : fstate) (L : list Z) (H : list (nat * Z)) (V : Z -> block) (c : ctx) (k : Z).

Notation tx := (tx me start d W o).

Lemma fx_bread s L H V k c :
  tx (flog s) L H V -> held c = [] -> k ∉ H.*2 -> k ∈ L \/ Z.of_nat (length L + length H) < NBUF ->
  wp (bc (bread me ROOTDEV k)) (fun b c' s' => c' = c /\ exists l, s' = set_flog l s /\ tx l L ((b, k) :: H) V) c s.
Proof.
  intros Ht Hc Hk Hr. apply wp_zoom. eapply wp_mono; [by apply (tx_bread me start d W o _ L H V k)|].
  intros b c' l [-> Hl]. eauto.
Qed.

Lemma fx_brelse s L H V b k c :
  tx (flog s) L ((b, k) :: H) V -> held c = [] ->
  wp (bc (brelse me b)) (fun _ c' s' => held c' = [] /\ exists l, s' = set_flog l s /\ tx l L H V) c s.
Proof.
  intros Ht Hc. apply wp_zoom. eapply wp_mono; [by eapply (tx_brelse me start d W o)|].
  intros [] c' l [? Hl]. eauto.
Qed.

Lemma fx_data s L H V b k c (Q : block -> ctx -> fstate -> Prop) :
  tx (flog s) L H V -> (b, k) ∈ H -> Q (V k) c s -> wp (get_data b) Q c s.
Proof.
  intros Ht Hb HQ. apply wp_zoom, wp_zoom. unfold get_buf. kstep.
  rewrite (tx_data me start d W o _ _ _ _ _ _ Ht Hb). by destruct s as [[] ? ?].
Qed.

Lemma fx_write s L H V b k v c :
  tx (flog s) L H V -> held c = [] -> (b, k) ∈ H -> block_ok v -> 0 <= k < 2 ^ 31 -> ~ in_log start k ->
  Z.of_nat (length L) < LOGBLOCKS -> 1 <= o ->
  wp (put_data b v ;; lg (log_write b))
    (fun _ c' s' => c' = c /\ exists l, s' = set_flog l s /\ tx l (logged k L) H (upd V k v)) c s.
Proof.
  intros. pose proof (tx_write me start d W o (flog s) L H V b k v c) as Hw.
  do 8 (specialize (Hw ltac:(assumption))). apply wp_inv in Hw as ([] & c' & l & Hrun & -> & Hl).
  unfold wp, put_data, bc, lg, bind, zoom. unfold bind in Hrun.
  destruct (bio _ c (flog s)) as [[] c1 l1|?|???|]; try done. cbn [flog set_flog]. rewrite Hrun. eauto.
Qed.

Lemma set_flog_twice l l' s : set_flog l (set_flog l' s) = set_flog l s.
Proof. done. Qed.

Lemma bzero_spec s L H V k c :
  tx (flog s) L H V -> held c = [] -> k ∉ H.*2 -> 0 <= k < 2 ^ 31 -> ~ in_log start k ->
  Z.of_nat (length L + length H) < NBUF -> 1 <= o ->
  wp (bzero me ROOTDEV k) (fun _ c' s' => held c' = [] /\
    exists l, s' = set_flog l s /\ tx l (logged k L) H (upd V k zblock)) c s.
Proof.
  intros Ht Hc Hk Hr Hl Hroom Ho. unfold bzero. rewrite u32_id by lia.
  kstep. eapply wp_mono; [by apply (fx_bread s L H V k); [..|right]|].
  intros bp c1 s1 (-> & l1 & -> & Ht1). apply wp_assoc. kstep.
  eapply wp_mono; [apply (fx_write (set_flog l1 s) L _ V bp k zblock c Ht1); try done; [by left|apply zblock_ok|unfold NBUF, LOGBLOCKS in *; lia]|].
  intros [] c2 s2 (-> & l2 & -> & Ht2). eapply wp_mono; [by eapply fx_brelse|].
  intros [] c3 s3 (Hc3 & l3 & -> & Ht3). eauto.
Qed.

Context (sb : superblock) (Hsb : sb_ok sb start).

(** Nothing held is a bitmap block or a free block. *)
Definition holds_used H V : Prop := forall k, k ∈ H.*2 -> is_data sb k /\ used sb V k = true.

Lemma balloc_found s L H V b bi bp c (m : K fstate (Z + option Z)) Q :
  fsb s = sb -> 0 <= b -> b mod BPB = 0 -> 0 <= bi < BPB -> is_data sb (b + bi) -> used sb V (b + bi) = false ->
  tx (flog s) L ((bp, BBLOCK b sb) :: H) V -> held c = [] -> holds_used H V ->
  Z.of_nat (length L + length H) + 1 < NBUF -> 1 <= o ->
  (forall c' l, held c' = [] ->
     tx l (logged (b + bi) (logged (BBLOCK (b + bi) sb) L)) H (v_alloc sb V (b + bi)) -> wp m Q c' (set_flog l s)) ->
  let d0 := V (BBLOCK b sb) in
  wp (put_data bp (put8 (bi / 8) (Z.lor (get8 (bi / 8) d0) (Z.shiftl 1 (bi mod 8))) d0) ;;
      lg (log_write bp) ;; bc (brelse me bp) ;; bzero me ROOTDEV (b + bi) ;; m) Q c s.
Proof.
  intros Es Hb0 Hbm Hbi Hd Hu Ht Hc HH Hroom Ho Hm d0.
  destruct (is_data_loggable sb start Hsb _ Hd) as [Hk Hkl].
  assert (BBLOCK (b + bi) sb = BBLOCK b sb /\ (b + bi) mod BPB = bi) as [EB Em].
  { unfold BBLOCK, BPB, BSIZE in *. split; [do 2 f_equal|]; zlia. }
  destruct (BBLOCK_range sb start Hsb (b + bi)) as (_ & _ & HB1 & HB2 & HB3); [destruct Hd; lia|]. rewrite EB in *.
  apply wp_assoc. kstep. eapply wp_mono; [apply (fx_write s L _ V bp (BBLOCK b sb) _ c Ht); try done|].
  { by left. } { apply put8_ok; [by eapply tx_block_ok|]. unfold BPB, BSIZE in *. zlia. }
  { unfold NBUF, LOGBLOCKS in *. lia. }
  intros [] c1 s1 (-> & l1 & -> & Ht1). kstep. eapply wp_mono; [by eapply fx_brelse|].
  intros [] c2 s2 (Hc2 & l2 & -> & Ht2). kstep.
  eapply wp_mono; [apply (bzero_spec (set_flog l2 s) _ H _ (b + bi) c2 Ht2); try done|].
  { intros Hin. destruct (HH _ Hin) as [_ E]. congruence. }
  { pose proof (length_logged (BBLOCK b sb) L). lia. }
  intros [] c3 s3 (Hc3 & l3 & -> & Ht3). rewrite !set_flog_twice. apply Hm; [done|].
  eapply tx_ext; [exact Ht3|]. intros k. unfold v_alloc, mark. rewrite EB, Em. done.
Qed.

(** What [balloc] does: it finds the first free block, or none. *)
Definition balloc_post s L H V (a : Z) s' : Prop :=
  exists l, s' = set_flog l s /\
    (a = 0 /\ (forall j, 0 <= j < sb_size sb -> used sb V j = true) /\ tx l L H V \/
     is_data sb a /\ used sb V a = false /\ (forall j, 0 <= j < a -> used sb V j = true) /\
     tx l (logged a (logged (BBLOCK a sb) L)) H (v_alloc sb V a)).

Lemma used_block V b bi : 0 <= b -> b mod BPB = 0 -> 0 <= bi < BPB ->
  used sb V (b + bi) = blkbit (V (BBLOCK b sb)) bi.
Proof.
  intros. unfold used, BBLOCK, BPB, BSIZE in *. f_equal; [do 3 f_equal|]; zlia.
Qed.

Lemma balloc_bits_spec s L H V b bp c :
  fsb s = sb -> 0 <= b < sb_size sb -> b mod BPB = 0 -> meta_used sb V ->
  (forall j, 0 <= j < b -> used sb V j = true) ->
  tx (flog s) L ((bp, BBLOCK b sb) :: H) V -> held c = [] -> holds_used H V ->
  Z.of_nat (length L + length H) + 1 < NBUF -> 1 <= o ->
  wp (balloc_bits me ROOTDEV b bp 0) (fun r c' s' => held c' = [] /\
    match r with
    | Some a => a <> 0 /\ balloc_post s L H V a s'
    | None => s' = s /\ forall j, 0 <= j < sb_size sb -> j < b + BPB -> used sb V j = true
    end) c s.
Proof.
  intros Es Hb Hbm Hmeta Hlow Ht Hc HH Hroom Ho. unfold balloc_bits.
  destruct (so_data _ _ Hsb) as [Hds Hsz]. assert (0 < BPB < 10000) as HBPB by (by vm_compute).
  apply wp_loop with (I := fun n bi c' s' => c' = c /\ s' = s /\ 0 <= bi <= BPB /\
    n = (Z.to_nat (BPB - bi) + 1)%nat /\ forall j, b <= j < b + bi -> used sb V j = true).
  2: { split_and!; [done..|lia|lia|f_equal; lia|]. intros j Hj. lia. }
  intros n bi c' s' (-> & -> & Hbi & -> & Hj). exists (Z.to_nat (BPB - bi)). split; [lia|].
  kstep. kstep. rewrite Es.
  destruct (Z.ltb_spec bi BPB) as [Hlt|Hge]; cbn [andb].
  2: { kstep. split_and!; [done..|]. intros j Hj1 Hj2. destruct (decide (j < b)); [by apply Hlow; lia|apply Hj; lia]. }
  rewrite u32_id by lia. destruct (Z.ltb_spec (b + bi) (sb_size sb)) as [Hlt2|Hge2].
  2: { kstep. split_and!; [done..|]. intros j Hj1 Hj2. destruct (decide (j < b)); [by apply Hlow; lia|apply Hj; lia]. }
  kstep. eapply fx_data; [done|by left|]. rewrite bit_free by lia. rewrite <- used_block by lia.
  destruct (used sb V (b + bi)) eqn:Eu; cbn [negb].
  - kstep. split_and!; [done..|lia|lia|f_equal; lia|]. intros j Hj1.
    destruct (decide (j = b + bi)) as [->|]; [done|]. apply Hj. lia.
  - assert (is_data sb (b + bi)) as Hd.
    { split; [|lia]. destruct (decide (b + bi < data_start sb)); [|lia].
      specialize (Hmeta (b + bi)). rewrite Eu in Hmeta. by discriminate Hmeta; lia. }
    destruct (is_data_loggable sb start Hsb _ Hd) as [Hk _].
    eapply balloc_found; try done; [lia|lia|]. intros c2 l Hc2 Hl. kstep. split; [done|]. split.
    + destruct (decide (b + bi = 0)) as [E|]; [|done]. destruct Hd as [Hd _]. rewrite E in Hd.
      destruct (BBLOCK_range sb start Hsb 0) as (_ & HB & HB' & _); lia.
    + exists l. split; [done|]. right. split_and!; [done..| |done].
      intros j Hj1. destruct (decide (j < b)); [by apply Hlow; lia|apply Hj; lia].
Qed.

Lemma balloc_spec s L H V c :
  fsb s = sb -> meta_used sb V -> tx (flog s) L H V -> held c = [] -> holds_used H V ->
  Z.of_nat (length L + length H) + 1 < NBUF -> 1 <= o ->
  wp (balloc me ROOTDEV) (fun a c' s' => held c' = [] /\ balloc_post s L H V a s') c s.
Proof.
  intros Es Hmeta Ht Hc HH Hroom Ho. unfold balloc. kstep. kstep. rewrite Es.
  destruct (so_data _ _ Hsb) as [Hds Hsz]. assert (0 < BPB < 10000) as HBPB by (by vm_compute).
  assert (0 < sb_size sb) as Hs0.
  { destruct (so_log _ _ Hsb) as (_ & ? & ?), (so_inodes _ _ Hsb) as [? ?]. unfold data_start in Hds.
    assert (0 <= sb_ninodes sb / IPB) by (apply Z.div_pos; [done|by vm_compute]).
    unfold LOGBLOCKS, MAXOPBLOCKS, BPB, BSIZE in *. zlia. }
  apply wp_loop with (I := fun n b c' s' => held c' = [] /\ 0 <= b /\ b mod BPB = 0 /\ b < sb_size sb + BPB /\
    n = (Z.to_nat (sb_size sb / BPB - b / BPB + 2))%nat /\
    (forall j, 0 <= j < sb_size sb -> j < b -> used sb V j = true) /\
    exists l, s' = set_flog l s /\ tx l L H V).
  2: { split_and!; [done|lia|by rewrite Z.mod_0_l by lia|lia|rewrite Z.div_0_l by lia; assert (0 <= sb_size sb / BPB) by (apply Z.div_pos; lia); lia|intros; lia|].
       exists (flog s). split; [by destruct s|done]. }
  intros n b c' s' (Hc' & Hb0 & Hbm & Hb1 & -> & Hlow & l & -> & Hl).
  exists (Z.to_nat (sb_size sb / BPB - b / BPB + 1)). split; [unfold BPB, BSIZE in *; zlia|].
  kstep. kstep. cbn [fsb set_flog]. rewrite Es, u32_id by lia.
  destruct (Z.ltb_spec b (sb_size sb)) as [Hlt|Hge].
  2: { kstep. split; [done|]. exists l. split; [done|]. left. split_and!; [done| |done]. intros; apply Hlow; lia. }
  destruct (BBLOCK_range sb start Hsb b) as (_ & _ & _ & _ & HBd); [lia|].
  kstep. eapply wp_mono; [apply (fx_bread (set_flog l s) L H V (BBLOCK b sb)); [done|done| |right; lia]|].
  { intros Hin. by destruct (HH _ Hin). }
  intros bp c1 s1 (-> & l1 & -> & Ht1). kstep.
  eapply wp_mono; [apply (balloc_bits_spec (set_flog l1 s) L H V b bp c'); try done; [intros; apply Hlow; lia]|].
  intros [a|] c2 s2 [Hc2 Hpost].
  - kstep. split; [done|]. destruct Hpost as (_ & l2 & -> & Hp). exists l2. split; [done|exact Hp].
  - destruct Hpost as [-> Hmore]. kstep. eapply wp_mono; [by eapply fx_brelse|].
    intros [] c3 s3 (Hc3 & l3 & -> & Ht3). kstep. split_and!; [done|lia| |lia| | |].
    + rewrite Z.add_mod, Hbm, Z.mod_same by lia. done.
    + unfold BPB, BSIZE in *. zlia.
    + intros j Hj1 Hj2. by apply Hmore.
    + eexists. done.
Qed.

Lemma bfree_spec s L H V b c :
  fsb s = sb -> tx (flog s) L H V -> held c = [] -> BBLOCK b sb ∉ H.*2 -> is_data sb b -> used sb V b = true ->
  Z.of_nat (length L + length H) < NBUF -> 1 <= o ->
  wp (bfree me ROOTDEV b) (fun _ c' s' => held c' = [] /\
    exists l, s' = set_flog l s /\ tx l (logged (BBLOCK b sb) L) H (v_free sb V b)) c s.
Proof.
  intros Es Ht Hc HH Hd Hu Hroom Ho. unfold bfree. kstep. kstep. rewrite Es.
  destruct (is_data_loggable sb start Hsb _ Hd) as [Hk _].
  destruct (BBLOCK_range sb start Hsb b) as (_ & _ & HB1 & HB2 & _); [destruct Hd; lia|].
  kstep. eapply wp_mono; [apply (fx_bread s L H V (BBLOCK b sb)); [done..|right; lia]|].
  intros bp c1 s1 (-> & l1 & -> & Ht1). kstep. eapply fx_data; [done|by left|].
  assert (0 <= b mod BPB < BPB) by (apply Z.mod_pos_bound; by vm_compute).
  rewrite bit_free by lia. unfold used in Hu. rewrite Hu. cbn [negb]. apply wp_assoc. kstep.
  eapply wp_mono; [apply (fx_write (set_flog l1 s) L _ V bp (BBLOCK b sb) _ c Ht1); try done|].
  { by left. } { apply put8_ok; [by eapply tx_block_ok|]. unfold BPB, BSIZE in *. zlia. }
  { unfold NBUF, LOGBLOCKS in *. lia. }
  intros [] c2 s2 (-> & l2 & -> & Ht2). eapply wp_mono; [by eapply fx_brelse|].
  intros [] c3 s3 (Hc3 & l3 & -> & Ht3). split; [done|]. eexists. split; [done|exact Ht3].
Qed.

(** Freeing a free block is caught. *)
Lemma bfree_free s L H V b c :
  fsb s = sb -> tx (flog s) L H V -> held c = [] -> BBLOCK b sb ∉ H.*2 -> 0 <= b < sb_size sb -> used sb V b = false ->
  Z.of_nat (length L + length H) < NBUF -> bfree me ROOTDEV b c s = Panic "freeing free block".
Proof.
  intros Es Ht Hc HH Hb Hu Hroom. unfold bfree. cbn [bind gets]. unfold bind at 1. cbn [gets]. rewrite Es.
  pose proof (fx_bread s L H V (BBLOCK b sb) c Ht Hc HH (or_intror Hroom)) as Hr.
  apply wp_inv in Hr as (bp & c1 & s1 & Hrun & -> & l1 & -> & Ht1). unfold bind at 1. rewrite Hrun.
  pose proof (fx_data (set_flog l1 s) L _ V bp (BBLOCK b sb) c (fun v c' s' => v = V (BBLOCK b sb) /\ c' = c /\ s' = set_flog l1 s) Ht1 ltac:(by left)) as Hdt.
  apply wp_inv in Hdt as (v & c2 & s2 & Hrun2 & -> & -> & ->); [|done]. unfold bind at 1. rewrite Hrun2.
  assert (0 <= b mod BPB) by (apply Z.mod_pos_bound; by vm_compute).
  rewrite bit_free by lia. unfold used in Hu. by rewrite Hu.
Qed.

(** ** The theorems *)

(** C37: [balloc] returns the first free block of the disk, in the data area,
    zeroed and now marked in use; no other bit of the bit map and no other
    block changes, and nothing is written to the disk.  It returns 0 only
    when every block is in use, and then changes nothing. *)
Theorem balloc_first_free s L H V c :
  fsb s = sb -> meta_used sb V -> tx (flog s) L H V -> held c = [] -> holds_used H V ->
  Z.of_nat (length L + length H) + 1 < NBUF -> 1 <= o ->
  wp (balloc me ROOTDEV) (fun a _ s' => exists l L' V', s' = set_flog l s /\ tx l L' H V' /\
    (a = 0 /\ (forall j, 0 <= j < sb_size sb -> used sb V j = true) /\ V' = V \/
     is_data sb a /\ used sb V a = false /\ (forall j, 0 <= j < a -> used sb V j = true) /\
     V' a = zblock /\ (forall j, 0 <= j < sb_size sb -> used sb V' j = bool_decide (j = a) || used sb V j) /\
     forall k, k <> a -> k <> BBLOCK a sb -> V' k = V k)) c s.
Proof.
  intros Es Hm Ht Hc HH Hroom Ho. eapply wp_mono; [by apply (balloc_spec s L H V c)|].
  intros a c' s' (_ & l & -> & [(-> & Hall & Hl)|(Ha & Hu & Hlow & Hl)]).
  - exists l, L, V. split_and!; [done..|]. by left.
  - eexists l, _, (v_alloc sb V a). split_and!; [done..|]. right. split_and!; [done..|apply upd_eq| |].
    + intros j Hj. eapply used_alloc; [done|intros k; by eapply tx_block_ok|done|done].
    + intros k. apply v_alloc_other.
Qed.

(** A block is freed once: [bfree] of a block in use clears its bit and
    no other, and a second [bfree] of the block panics. *)
Theorem bfree_once s L H V b c :
  fsb s = sb -> tx (flog s) L H V -> held c = [] -> BBLOCK b sb ∉ H.*2 -> is_data sb b -> used sb V b = true ->
  Z.of_nat (length L + length H) + 1 < NBUF -> 1 <= o ->
  wp (bfree me ROOTDEV b) (fun _ c' s' => bfree me ROOTDEV b c' s' = Panic "freeing free block" /\
    exists l L' V', s' = set_flog l s /\ tx l L' H V' /\
      (forall j, 0 <= j < sb_size sb -> used sb V' j = negb (bool_decide (j = b)) && used sb V j) /\
      forall k, k <> BBLOCK b sb -> V' k = V k) c s.
Proof.
  intros Es Ht Hc HH Hd Hu Hroom Ho. eapply wp_mono; [apply (bfree_spec s L H V b c); done || lia|].
  intros [] c' s' (Hc' & l & -> & Hl).
  assert (forall j, 0 <= j < sb_size sb -> used sb (v_free sb V b) j = negb (bool_decide (j = b)) && used sb V j) as Hu'.
  { intros j Hj. eapply used_free; [done|intros k; by eapply tx_block_ok|done|done]. }
  destruct (is_data_loggable sb start Hsb _ Hd) as [Hk _]. pose proof (length_logged (BBLOCK b sb) L).
  assert (0 <= b < sb_size sb) as Hb by (destruct Hd; lia). split.
  - apply (bfree_free (set_flog l s) _ _ _ _ _ Es Hl Hc' HH Hb); [|lia]. rewrite Hu' by done. by rewrite bool_decide_true.
  - eexists l, _, _. split_and!; [done..|]. intros k. apply mark_other.
Qed.
End ops.

(** ** An example disk

    Sixty blocks: the log in 2..32, inodes in 33 and 34, the bit map in 35,
    data from 36 on. *)
Definition ex_sb : superblock := Superblock FSMAGIC 60 24 16 31 2 33 35.
Definition ex_bitmap : block := [255; 255; 255; 255; 15] ++ drop 5 zblock.
Definition ex_disk : gmap Z block := {[ 35 := ex_bitmap ]}.

Lemma ex_bitmap_ok : block_ok ex_bitmap.
Proof.
  split; [by vm_compute|]. apply Forall_app. split; [|apply Forall_drop; apply zblock_ok].
  repeat (constructor; [unfold byte; lia|]). constructor.
Qed.

Lemma ex_fs_disk_ok : disk_ok (H := map_disk) ex_disk.
Proof.
  intros b. simpl. unfold ex_disk. destruct (decide (35 = b)) as [<-|E].
  - rewrite lookup_singleton_eq. apply ex_bitmap_ok.
  - rewrite lookup_singleton_ne by done. apply zblock_ok.
Qed.

Lemma ex_sb_ok : sb_ok ex_sb 2.
Proof. split; vm_compute; intuition discriminate. Qed.

(** A cache over any disk, in a transaction that has logged nothing. *)
Lemma fresh_tx {D : BlockDev} (d : disk) me start o :
  disk_ok d -> 0 <= start -> start + LOGBLOCKS < 2 ^ 31 ->
  exists l : lstate, tx me start d (dwrites (lbio l)) o l [] [] (dread d).
Proof.
  intros Hd H0 H1. destruct (fresh_cache d Hd) as (b & Hi & Hdb & Hf & _ & Hk).
  exists (Lst b (Log start o 0 ROOTDEV (lh log0))). split; cbn [lbio llog fmap list_fmap]; try done.
  - split; [done|by vm_compute|intros ? []%elem_of_nil|constructor].
  - intros k. by destruct (Hk k).
  - intros k. destruct (Hk k) as (_ & -> & _). unfold cnt.
    rewrite !decide_False by apply not_elem_of_nil. done.
  - intros k. rewrite elem_of_nil. by destruct (Hk k) as (_ & _ & ?).
  - intros b' k []%elem_of_nil.
  - constructor.
Qed.

Lemma ex_meta_used : meta_used ex_sb (dread (BlockDev := map_disk) ex_disk).
Proof.
  intros b Hb. assert (forall n, (n < 36)%nat -> used ex_sb (dread (BlockDev := map_disk) ex_disk) (Z.of_nat n) = true) as H.
  { intros n Hn. do 36 (destruct n as [|n]; [vm_compute; reflexivity|]). lia. }
  change (data_start ex_sb) with 36 in Hb. rewrite <- (Z2Nat.id b) by lia. apply H. lia.
Qed.

Lemma balloc_first_free_witness :
  exists (s : @fstate map_disk) c' s', balloc 1 ROOTDEV (Ctx [] []) s = Ok 36 c' s'.
Proof.
  destruct (fresh_tx (D := map_disk) ex_disk 1 2 1 ex_fs_disk_ok) as [l Hl]; [lia|by vm_compute|].
  set (s := Fst l ex_sb []). exists s.
  pose proof (balloc_first_free (D := map_disk) 1 2 ex_disk _ 1 ex_sb ex_sb_ok s [] [] _ (Ctx [] []) eq_refl ex_meta_used Hl eq_refl) as H.
  specialize (H ltac:(intros k []%elem_of_nil) ltac:(by vm_compute) ltac:(lia)).
  apply wp_inv in H as (a & c' & s' & Hrun & l' & L' & V' & _ & _ & Hcase). exists c', s'. rewrite Hrun. f_equal.
  assert (used ex_sb (dread (BlockDev := map_disk) ex_disk) 36 = false) as H36 by (vm_compute; reflexivity).
  destruct Hcase as [(_ & Hall & _)|([Ha _] & Hu & Hlow & _)].
  - rewrite Hall in H36 by (simpl; lia). discriminate H36.
  - change (data_start ex_sb) with 36 in Ha. destruct (decide (a = 36)) as [->|]; [done|].
    rewrite Hlow in H36 by lia. discriminate H36.
Defined.

Definition ex_disk_used : gmap Z block := {[ 35 := [255; 255; 255; 255; 31] ++ drop 5 zblock ]}.

Lemma bfree_once_witness :
  exists (s : @fstate map_disk) c' s', bfree 1 ROOTDEV 36 (Ctx [] []) s = Ok tt c' s' /\
    bfree 1 ROOTDEV 36 c' s' = Panic "freeing free block".
Proof.
  assert (disk_ok (H := map_disk) ex_disk_used) as Hok.
  { intros b. simpl. unfold ex_disk_used. destruct (decide (35 = b)) as [<-|E].
    - rewrite lookup_singleton_eq. split; [by vm_compute|]. apply Forall_app. split; [repeat (constructor; [unfold byte; lia|]); constructor|].
      apply Forall_drop; apply zblock_ok.
    - rewrite lookup_singleton_ne by done. apply zblock_ok. }
  destruct (fresh_tx (D := map_disk) ex_disk_used 1 2 1 Hok) as [l Hl]; [lia|by vm_compute|].
  set (s := Fst l ex_sb []). exists s.
  pose proof (bfree_once (D := map_disk) 1 2 ex_disk_used _ 1 ex_sb ex_sb_ok s [] [] _ 36 (Ctx [] []) eq_refl Hl eq_refl) as H.
  specialize (H ltac:(apply not_elem_of_nil) ltac:(split; by vm_compute) ltac:(vm_compute; reflexivity) ltac:(by vm_compute) ltac:(lia)).
  apply wp_inv in H as ([] & c' & s' & Hrun & Hp & _). exists c', s'. split; [exact Hrun|exact Hp].
Defined.
