(* ===== verification/FsFormat.v ===== *)
(** * Encoding and decoding on-disk structures

    Fields of a block are independent of each other, so that what is written
    as a disk inode or a directory entry is read back, and the neighbours in
    the block are untouched. *)
From S2P Require Import Prelude Mem Block Sleeplock Log FsLayout.

(** A block's worth of bytes. *)
Definition blen (b : block) : Prop := length b = Z.to_nat BSIZE.

Lemma block_ok_blen b : block_ok b -> blen b.
Proof. by intros []. Qed.

Lemma blen_putb off bs b : blen b -> 0 <= off -> off + Z.of_nat (length bs) <= 1024 -> blen (putb off bs b).
Proof. unfold blen. intros Hb ??. rewrite putb_length; [done|done|]. rewrite Hb. unfold BSIZE. lia. Qed.
Lemma blen_put16 off v b : blen b -> 0 <= off <= 1022 -> blen (put16 off v b).
Proof. intros. apply blen_putb; [done|lia|rewrite le_enc_length; lia]. Qed.
Lemma blen_put32 off v b : blen b -> 0 <= off <= 1020 -> blen (put32 off v b).
Proof. intros. apply blen_putb; [done|lia|rewrite le_enc_length; lia]. Qed.
Lemma blen_put_blocks bs off b : blen b -> 0 <= off -> off + 4 * Z.of_nat (length bs) <= 1024 -> blen (put_blocks off bs b).
Proof.
  revert off b. induction bs as [|x bs IH]; intros off b Hb H0 H1; [done|]. cbn [put_blocks length] in *.
  apply IH; [|lia..]. apply blen_put32; [done|lia].
Qed.

Lemma getb_put16_ne n off off' v b :
  blen b -> 0 <= off -> 0 <= off' <= 1022 -> off + n <= off' \/ off' + 2 <= off -> getb n off (put16 off' v b) = getb n off b.
Proof. intros Hb ???. apply getb_putb_ne; rewrite ?le_enc_length, ?Hb; unfold BSIZE; lia. Qed.
Lemma getb_put32_ne n off off' v b :
  blen b -> 0 <= off -> 0 <= off' <= 1020 -> off + n <= off' \/ off' + 4 <= off -> getb n off (put32 off' v b) = getb n off b.
Proof. intros Hb ???. apply getb_putb_ne; rewrite ?le_enc_length, ?Hb; unfold BSIZE; lia. Qed.
Lemma getb_put_blocks_ne n bs off off' b :
  blen b -> 0 <= off -> 0 <= off' -> off' + 4 * Z.of_nat (length bs) <= 1024 ->
  off + n <= off' \/ off' + 4 * Z.of_nat (length bs) <= off -> getb n off (put_blocks off' bs b) = getb n off b.
Proof.
  revert off' b. induction bs as [|x bs IH]; intros off' b Hb H0 H1 H2 H3; [done|]. cbn [put_blocks length] in *.
  rewrite IH; [|apply blen_put32; [done|lia]|lia..]. apply getb_put32_ne; [done|lia..].
Qed.
Lemma getb_put16_eq off v b : blen b -> 0 <= off <= 1022 -> getb 2 off (put16 off v b) = le_enc 2 v.
Proof. intros Hb ?. apply getb_putb_eq; rewrite ?le_enc_length, ?Hb; unfold BSIZE; lia. Qed.
Lemma getb_put32_eq off v b : blen b -> 0 <= off <= 1020 -> getb 4 off (put32 off v b) = le_enc 4 v.
Proof. intros Hb ?. apply getb_putb_eq; rewrite ?le_enc_length, ?Hb; unfold BSIZE; lia. Qed.

#[export] Hint Resolve block_ok_blen : blk.
#[export] Hint Extern 2 (blen (put16 _ _ _)) => apply blen_put16; [|lia] : blk.
#[export] Hint Extern 2 (blen (put32 _ _ _)) => apply blen_put32; [|lia] : blk.
#[export] Hint Extern 2 (blen (put_blocks _ _ _)) => apply blen_put_blocks; [|lia|lia] : blk.

(** Reads through the writes of other fields. *)
Ltac getb_skip := repeat match goal with
  | |- context [getb ?n ?o (put_blocks ?o' ?v ?b)] => rewrite (getb_put_blocks_ne n v o o' b) by (eauto 12 with blk || lia)
  | |- context [getb ?n ?o (put32 ?o' ?v ?b)] => rewrite (getb_put32_ne n o o' v b) by (eauto 12 with blk || lia)
  | |- context [getb ?n ?o (put16 ?o' ?v ?b)] => rewrite (getb_put16_ne n o o' v b) by (eauto 12 with blk || lia)
  end.

Lemma get_words_length k off b : length (get_words k off b) = k.
Proof. revert off. induction k; intros; simpl; auto. Qed.

Lemma get_words_ext k off b b' :
  (forall j, off <= j -> j + 4 <= off + 4 * Z.of_nat k -> getb 4 j b = getb 4 j b') -> get_words k off b = get_words k off b'.
Proof.
  revert off. induction k as [|k IH]; intros off H; [done|]. cbn [get_words]. f_equal.
  - unfold get32. rewrite (H off) by lia. done.
  - apply IH. intros j ??. apply H; lia.
Qed.

Lemma get_words_put_blocks bs off b :
  blen b -> 0 <= off -> off + 4 * Z.of_nat (length bs) <= 1024 -> Forall (fun x => 0 <= x < 2 ^ 32) bs ->
  get_words (length bs) off (put_blocks off bs b) = bs.
Proof.
  revert off b. induction bs as [|x bs IH]; intros off b Hb H0 H1 [Hx Hbs]%Forall_cons || intros; [done|].
  cbn [put_blocks get_words length] in *. f_equal.
  - unfold get32. rewrite getb_put_blocks_ne by (eauto 12 with blk || lia).
    rewrite getb_put32_eq, le_dec_enc by (done || lia). by apply Z.mod_small.
  - apply IH; [eauto 12 with blk|lia|lia|done].
Qed.

Lemma get_words_lookup k off b (i : nat) : (i < k)%nat -> get_words k off b !! i = Some (get32 (off + 4 * Z.of_nat i) b).
Proof.
  revert off i. induction k as [|k IH]; intros off [|i] Hi; try lia; cbn [get_words].
  - simpl. by rewrite Z.add_0_r.
  - cbn [lookup list_lookup]. change (get_words k (off + 4) b !! i = Some (get32 (off + 4 * Z.of_nat (S i)) b)).
    rewrite IH by lia. do 2 f_equal. lia.
Qed.

(** ** Disk inodes *)

Definition is_short (x : Z) : Prop := - 2 ^ 15 <= x < 2 ^ 15.

(** The fields of an inode have their types. *)
Record dinode_ok (di : dinode) : Prop := {
  do_type : is_short (d_type di);
  do_major : is_short (d_major di);
  do_minor : is_short (d_minor di);
  do_nlink : is_short (d_nlink di);
  do_size : 0 <= d_size di < 2 ^ 32;
  do_addrs : length (d_addrs di) = 13%nat /\ Forall (fun x => 0 <= x < 2 ^ 32) (d_addrs di);
}.

Lemma i16_roundtrip x : is_short x -> i16 (le_dec (le_enc 2 x)) = x.
Proof.
  intros Hx. rewrite le_dec_enc. change (256 ^ Z.of_nat 2) with 0x10000. unfold is_short, i16 in *. zlia.
Qed.

Lemma blen_put_dinode off di b :
  blen b -> 0 <= off -> off + 64 <= 1024 -> length (d_addrs di) = 13%nat -> blen (put_dinode off di b).
Proof. intros. unfold put_dinode. eauto 12 with blk. Qed.

Lemma get_put_dinode off di b :
  blen b -> 0 <= off -> off + 64 <= 1024 -> dinode_ok di -> get_dinode off (put_dinode off di b) = di.
Proof.
  intros Hb H0 H1 [Ht Hm Hn Hl Hs [Ha Ha']]. unfold get_dinode, put_dinode, get16, get32. getb_skip.
  rewrite !getb_put16_eq, getb_put32_eq by (eauto 12 with blk || lia).
  rewrite !i16_roundtrip by done. rewrite le_dec_enc, Z.mod_small by done.
  rewrite <- Ha at 1. rewrite get_words_put_blocks by (done || lia || eauto 12 with blk). by destruct di.
Qed.

Lemma get_put_dinode_ne off off' di b :
  blen b -> 0 <= off -> off + 64 <= 1024 -> 0 <= off' -> off' + 64 <= 1024 -> length (d_addrs di) = 13%nat ->
  off + 64 <= off' \/ off' + 64 <= off -> get_dinode off (put_dinode off' di b) = get_dinode off b.
Proof.
  intros Hb H0 H1 H2 H3 Ha Hd. unfold get_dinode, put_dinode, get16, get32. getb_skip. f_equal.
  apply get_words_ext. intros j ??. by getb_skip.
Qed.

Lemma put16_ok off v b : block_ok b -> 0 <= off <= 1022 -> block_ok (put16 off v b).
Proof. intros. apply putb_ok; [done|apply le_enc_bytes|lia|]. rewrite le_enc_length. unfold BSIZE. lia. Qed.

Lemma put_words_ok bs off d :
  block_ok d -> 0 <= off -> off + 4 * Z.of_nat (length bs) <= 1024 -> block_ok (put_blocks off bs d).
Proof.
  revert off d. induction bs as [|b bs IH]; intros off d Hd H0 Hl; cbn [put_blocks length] in *; [done|].
  apply IH; [|lia..]. apply put32_ok; [done|lia|unfold BSIZE; lia].
Qed.

Lemma put_dinode_ok off di b :
  block_ok b -> 0 <= off -> off + 64 <= 1024 -> length (d_addrs di) = 13%nat -> block_ok (put_dinode off di b).
Proof.
  intros Hb ?? Ha. unfold put_dinode. apply put_words_ok; [|lia..].
  apply put32_ok; [|lia|unfold BSIZE; lia]. repeat (apply put16_ok; [|lia]). done.
Qed.
