(* ===== verification/FsInode.v ===== *)
(** * Inodes on disk and the blocks of a file *)
From S2P Require Import Prelude Kmonad Riscv Mem Block Sleeplock Bio BioRing BioCache BioSpec Log LogSpec LogRun.
From S2P Require Import FsLayout Fs Tx FsBlock FsFormat.

Section inode.
Context {D : BlockDev} (me start : Z) (d : disk) (W : list (Z * block)) (o : Z).
Context (sb : superblock) (Hsb : sb_ok sb start).
Implicit Types (s : fstate) (L : list Z) (H : list (nat * Z)) (V : Z -> block) (c : ctx) (k n : Z) (a : list Z).

Notation tx := (tx me start d W o).

(** ** The inode blocks *)

Definition is_inum (i : Z) : Prop := 0 <= i < sb_ninodes sb.
Definition dinode_at V (i : Z) : dinode := get_dinode (dip i) (V (IBLOCK i sb)).

Lemma IBLOCK_range i : is_inum i ->
  IBLOCK i sb = i / IPB + sb_inodestart sb /\ sb_inodestart sb <= IBLOCK i sb < sb_bmapstart sb /\
  0 <= IBLOCK i sb < 2 ^ 31 /\ ~ in_log start (IBLOCK i sb) /\ ~ is_data sb (IBLOCK i sb) /\
  (forall b, 0 <= b < sb_size sb -> IBLOCK i sb <> BBLOCK b sb).
Proof.
  intros Hi. destruct Hsb as [(Hl & H2 & Hl2) (Hi1 & Hi2) Hd]. unfold is_inum, is_data, in_log in *.
  assert (0 <= i / IPB <= sb_ninodes sb / IPB) as Hdiv.
  { unfold IPB, BSIZE, sizeof_dinode in *. change (1024 / 64) with 16. split; [apply Z.div_pos|apply Z.div_le_mono]; lia. }
  assert (0 <= sb_size sb / BPB /\ data_start sb = sb_bmapstart sb + sb_size sb / BPB + 1) as [Hq Hds].
  { split; [|done]. unfold data_start, LOGBLOCKS, MAXOPBLOCKS, BPB, BSIZE in *. change (1024 * 8) with 8192 in *. zlia. }
  assert (IBLOCK i sb = i / IPB + sb_inodestart sb) as E.
  { unfold IBLOCK. apply u32_id. unfold LOGBLOCKS, MAXOPBLOCKS in *. lia. }
  rewrite E. split_and!; try done; try (unfold LOGBLOCKS, MAXOPBLOCKS in *; lia).
  intros b Hb E'. destruct (BBLOCK_range sb start Hsb b Hb) as (_ & ? & _). lia.
Qed.

Lemma dip_range i : 0 <= dip i /\ dip i + 64 <= 1024.
Proof. unfold dip, IPB, BSIZE, sizeof_dinode. change (1024 / 64) with 16. zlia. Qed.

(** Writing an inode changes that inode and no other. *)
Definition v_inode V (i : Z) (di : dinode) : Z -> block :=
  upd V (IBLOCK i sb) (put_dinode (dip i) di (V (IBLOCK i sb))).

Lemma dinode_at_update V i di j :
  (forall k, block_ok (V k)) -> is_inum i -> is_inum j -> dinode_ok di ->
  dinode_at (v_inode V i di) j = if decide (j = i) then di else dinode_at V j.
Proof.
  intros HV Hi Hj Hdi. destruct (dip_range i), (dip_range j). unfold dinode_at, v_inode.
  destruct (decide (IBLOCK j sb = IBLOCK i sb)) as [E|E].
  - rewrite E, upd_eq. case_decide as E'.
    + subst. apply get_put_dinode; [apply block_ok_blen, HV|done..].
    + apply get_put_dinode_ne; [apply block_ok_blen, HV|done..|apply Hdi|].
      assert (j mod IPB <> i mod IPB).
      { intros Em. apply E'. destruct (IBLOCK_range i Hi) as (E1 & _), (IBLOCK_range j Hj) as (E2 & _).
        rewrite E1, E2 in E. unfold IPB, BSIZE, sizeof_dinode in *. change (1024 / 64) with 16 in *. zlia. }
      unfold dip, sizeof_dinode. lia.
  - rewrite upd_ne by done. rewrite decide_False by (by intros ->). done.
Qed.

Lemma iupdate_spec s L H V i c :
  let ip := inode_at s i in
  fsb s = sb -> tx (flog s) L H V -> held c = [] -> idev ip = ROOTDEV -> is_inum (inum ip) -> dinode_ok (to_dinode ip) ->
  IBLOCK (inum ip) sb ∉ H.*2 -> Z.of_nat (length L + length H) < NBUF -> 1 <= o ->
  wp (iupdate me i) (fun _ c' s' => held c' = [] /\
    exists l, s' = set_flog l s /\ tx l (logged (IBLOCK (inum ip) sb) L) H (v_inode V (inum ip) (to_dinode ip))) c s.
Proof.
  intros ip Es Ht Hc Hdev Hin Hok HH Hroom Ho. destruct (IBLOCK_range _ Hin) as (_ & _ & HI1 & HI2 & _).
  destruct (dip_range (inum ip)). unfold iupdate, get_inode. kstep. kstep. kstep. kstep.
  unfold id. fold ip. rewrite Es, Hdev. kstep.
  eapply wp_mono; [apply (fx_bread me start d W o s L H V (IBLOCK (inum ip) sb)); [done..|right; lia]|].
  intros bp c1 s1 (-> & l1 & -> & Ht1). kstep. eapply fx_data; [done|by left|]. apply wp_assoc. kstep.
  eapply wp_mono; [apply (fx_write me start d W o (set_flog l1 s) L _ V bp (IBLOCK (inum ip) sb) _ c Ht1); try done|].
  { by left. } { apply put_dinode_ok; [by eapply tx_block_ok|done|done|apply Hok]. }
  { unfold NBUF, LOGBLOCKS in *. lia. }
  intros [] c2 s2 (-> & l2 & -> & Ht2). eapply wp_mono; [by eapply fx_brelse|].
  intros [] c3 s3 (Hc3 & l3 & -> & Ht3). split; [done|]. eexists. split; [done|exact Ht3].
Qed.

(** ** The blocks of a file *)

(** The address of block [n] of a file, 0 when there is none. *)
Definition baddr V a n : Z :=
  if n <? NDIRECT then a !!! Z.to_nat n
  else if a !!! Z.to_nat NDIRECT =? 0 then 0 else get32 (4 * (n - NDIRECT)) (V (a !!! Z.to_nat NDIRECT)).

(** [F]: the blocks that belong to other files. *)
Record file_ok V a (F : Z -> Prop) : Prop := {
  fo_len : length a = 13%nat;
  fo_meta : meta_used sb V;
  fo_ind : let x := a !!! Z.to_nat NDIRECT in x = 0 \/ is_data sb x /\ used sb V x = true /\ ~ F x;
  fo_blocks : forall n, 0 <= n < MAXFILE -> let x := baddr V a n in x = 0 \/ is_data sb x /\ used sb V x = true /\ ~ F x;
  fo_inj : forall n n', 0 <= n < MAXFILE -> 0 <= n' < MAXFILE -> baddr V a n <> 0 -> baddr V a n = baddr V a n' -> n = n';
  fo_indb : forall n, 0 <= n < MAXFILE -> baddr V a n <> 0 -> baddr V a n <> a !!! Z.to_nat NDIRECT;
  fo_frame : forall k, F k -> is_data sb k /\ used sb V k = true;
}.

Lemma is_data_nonzero k : is_data sb k -> k <> 0.
Proof.
  intros [Hk _] ->. destruct (so_log _ _ Hsb) as (_ & ? & ?), (so_inodes _ _ Hsb) as [Hn ?], (so_data _ _ Hsb) as [? ?].
  assert (0 <= sb_ninodes sb / IPB) by (apply Z.div_pos; [done|by vm_compute]).
  unfold data_start, LOGBLOCKS, MAXOPBLOCKS, BPB, BSIZE in *. change (1024 * 8) with 8192 in *. zlia.
Qed.

(** A block that is already there: no change. *)
Lemma bmap_there s L V i n c (F : Z -> Prop) :
  let ip := inode_at s i in let a := iaddrs ip in
  fsb s = sb -> tx (flog s) L [] V -> held c = [] -> idev ip = ROOTDEV -> file_ok V a F ->
  0 <= n < MAXFILE -> baddr V a n <> 0 -> Z.of_nat (length L) < NBUF ->
  wp (bmap me i n) (fun x c' s' => x = baddr V a n /\ held c' = [] /\ exists l, s' = set_flog l s /\ tx l L [] V) c s.
Proof.
  intros ip a Es Ht Hc Hdev Hf Hn Hx Hroom. unfold bmap, get_inode. kstep. kstep. unfold id. fold ip. fold a.
  unfold baddr in *. destruct (Z.ltb_spec n NDIRECT) as [Hd|Hd].
  - rewrite (proj2 (Z.eqb_neq _ 0)) by done. kstep. split_and!; [done..|]. exists (flog s). split; [by destruct s|done].
  - rewrite (proj2 (Z.ltb_lt (n - NDIRECT) NINDIRECT)) by (unfold MAXFILE in Hn; lia).
    destruct (Z.eqb_spec (a !!! Z.to_nat NDIRECT) 0) as [E|E]; [done|]. kstep. kstep.
    rewrite (proj2 (Z.eqb_neq _ 0)) by done. rewrite Hdev. kstep.
    eapply wp_mono; [apply (fx_bread me start d W o s L [] V); [done|done|apply not_elem_of_nil|right; simpl; lia]|].
    intros bp c1 s1 (-> & l1 & -> & Ht1). kstep. eapply fx_data; [done|by left|].
    rewrite (proj2 (Z.eqb_neq _ 0)) by done. kstep. kstep. kstep. eapply wp_mono; [by eapply fx_brelse|].
    intros [] c2 s2 (Hc2 & l2 & -> & Ht2). kstep. split_and!; [done..|]. eexists. done.
Qed.
End inode.
