(* ===== verification/FsRead.v ===== *)
(** * Reading a file *)
From S2P Require Import Prelude Kmonad Riscv Mem Block Sleeplock Bio BioRing BioCache BioSpec Log LogSpec LogRun.
From S2P Require Import FsLayout Fs Tx FsBlock FsFormat FsInode.

Lemma getb_lookup n off b (i : nat) : (i < Z.to_nat n)%nat -> getb n off b !! i = b !! (Z.to_nat off + i)%nat.
Proof. intros. unfold getb. by rewrite lookup_take_lt, lookup_drop. Qed.

Lemma getb_length n off b : 0 <= n -> 0 <= off -> off + n <= Z.of_nat (length b) -> length (getb n off b) = Z.to_nat n.
Proof. intros. unfold getb. rewrite length_take, length_drop. lia. Qed.

Section read.
Context {D : BlockDev} (me start : Z) (d : disk) (W : list (Z * block)) (o : Z).
Context (sb : superblock) (Hsb : sb_ok sb start).
Implicit Types (s : fstate) (L : list Z) (V : Z -> block) (c : ctx) (k n : Z) (a : list Z) (obj : list Z).

Notation tx := (tx me start d W o).

Lemma MAXFILE_bytes : MAXFILE * BSIZE = 274432.
Proof. reflexivity. Qed.

(** ** File contents *)

(** The byte at position [p] of a file, and [n] bytes from [off] on. *)
Definition fbyte V a (p : Z) : Z := V (baddr V a (p / BSIZE)) !!! Z.to_nat (p mod BSIZE).
Definition frange V a (off n : Z) : list Z := (fun i : nat => fbyte V a (off + Z.of_nat i)) <$> seq 0 (Z.to_nat n).

Lemma frange_length V a off n : length (frange V a off n) = Z.to_nat n.
Proof. unfold frange. by rewrite length_fmap, length_seq. Qed.

Lemma frange_lookup V a off n (i : nat) :
  (i < Z.to_nat n)%nat -> frange V a off n !! i = Some (fbyte V a (off + Z.of_nat i)).
Proof. intros. unfold frange. rewrite list_lookup_fmap, lookup_seq_lt by done. done. Qed.

Lemma frange_app V a off n m : 0 <= n -> 0 <= m -> frange V a off (n + m) = frange V a off n ++ frange V a (off + n) m.
Proof.
  intros. apply list_eq. intros i. destruct (decide (i < Z.to_nat n)%nat) as [Hi|Hi].
  - rewrite lookup_app_l by (by rewrite frange_length). rewrite !frange_lookup by lia. done.
  - rewrite lookup_app_r by (rewrite frange_length; lia). rewrite frange_length.
    destruct (decide (i < Z.to_nat (n + m))%nat).
    + rewrite !frange_lookup by lia. do 2 f_equal. lia.
    + rewrite !lookup_ge_None_2 by (rewrite frange_length; lia). done.
Qed.

(** A run of bytes within one block. *)
Lemma frange_block V a off m :
  (forall k, block_ok (V k)) -> 0 <= off -> 0 <= m -> off mod BSIZE + m <= BSIZE ->
  getb m (off mod BSIZE) (V (baddr V a (off / BSIZE))) = frange V a off m.
Proof.
  intros HV H0 Hm Hr. destruct (HV (baddr V a (off / BSIZE))) as [Hlen _].
  assert (0 <= off mod BSIZE < BSIZE) as Hmod by (apply Z.mod_pos_bound; by vm_compute).
  apply list_eq. intros i. destruct (decide (i < Z.to_nat m)%nat) as [Hi|Hi].
  - rewrite getb_lookup, frange_lookup by done. unfold fbyte.
    assert ((off + Z.of_nat i) / BSIZE = off / BSIZE /\ (off + Z.of_nat i) mod BSIZE = off mod BSIZE + Z.of_nat i) as [-> ->].
    { unfold BSIZE in *. zlia. }
    rewrite Z2Nat.inj_add, Nat2Z.id by lia. apply list_lookup_lookup_total_lt. rewrite Hlen. lia.
  - rewrite !lookup_ge_None_2; [done|rewrite frange_length; lia|]. unfold getb. rewrite length_take. lia.
Qed.

(** No holes: every block below the size is there. *)
Definition no_holes V a (size : Z) : Prop := forall n, 0 <= n -> n * BSIZE < size -> baddr V a n <> 0.

(** How many bytes a read of [n] at [off] gets. *)
Definition read_count (size off n : Z) : Z :=
  if (size <? off) || (2 ^ 32 <=? off + n) then 0 else Z.min n (size - off).

Lemma u32_overflow off n : 0 <= off < 2 ^ 32 -> 0 <= n < 2 ^ 32 -> (u32 (off + n) <? off) = (2 ^ 32 <=? off + n).
Proof.
  intros Ho Hn. unfold u32. destruct (Z.leb_spec (2 ^ 32) (off + n)) as [H|H].
  - apply Z.ltb_lt. zlia.
  - apply Z.ltb_ge. zlia.
Qed.

Lemma readi_spec s L V i dst off n c (F : Z -> Prop) obj :
  let ip := inode_at s i in let a := iaddrs ip in
  fsb s = sb -> tx (flog s) L [] V -> held c = [] -> idev ip = ROOTDEV -> file_ok sb V a F ->
  0 <= isize ip <= MAXFILE * BSIZE -> no_holes V a (isize ip) -> Z.of_nat (length L) < NBUF ->
  0 <= off < 2 ^ 32 -> 0 <= n < 2 ^ 32 -> 0 <= dst -> dst + n <= Z.of_nat (length obj) -> dst + n < 2 ^ 64 ->
  wp (readi me i dst off n) (fun r c' t => r = read_count (isize ip) off n /\ held c' = [] /\
    exists l, t = (set_flog l s, putb dst (frange V a off r) obj) /\ tx l L [] V) c (s, obj).
Proof.
  intros ip a Es Ht Hc Hdev Hf Hsz Hnh Hroom Hoff Hn Hdst Hobj Hw.
  unfold readi, fs at 1, get_inode at 1. kstep. apply wp_zoom. kstep. cbn [fst snd].
  change (isize (inode_at s i)) with (isize ip). rewrite u32_overflow by done. unfold read_count.
  destruct ((isize ip <? off) || (2 ^ 32 <=? off + n)) eqn:E.
  { kstep. split_and!; [done..|]. exists (flog s). split; [|done]. f_equal; [by destruct s|].
    symmetry. apply putb_nil. lia. }
  apply orb_false_iff in E as [E1%Z.ltb_ge E2%Z.leb_gt]. rewrite (u32_id (off + n)) by lia.
  assert ((if isize ip <? off + n then u32 (isize ip - off) else n) = Z.min n (isize ip - off)) as ->.
  { destruct (Z.ltb_spec (isize ip) (off + n)); [|lia]. rewrite MAXFILE_bytes in Hsz. rewrite u32_id; lia. }
  set (cnt := Z.min n (isize ip - off)). kstep.
  apply wp_loop with (I := fun fuel '(tot, off', dst') c' t => held c' = [] /\ 0 <= tot <= cnt /\ off' = off + tot /\
    dst' = dst + tot /\ cnt - tot < Z.of_nat fuel /\
    exists l, t = (set_flog l s, putb dst (frange V a off tot) obj) /\ tx l L [] V).
  2: { split_and!; [done|lia..|]. exists (flog s). split; [|done]. f_equal; [by destruct s|].
       symmetry. apply putb_nil. lia. }
  intros fuel [[tot off'] dst'] c' t (Hc' & Htot & -> & -> & Hfuel & l & -> & Hl).
  destruct fuel as [|fuel]; [lia|]. exists fuel. split; [done|].
  destruct (Z.ltb_spec tot cnt) as [Hlt|Hge].
  2: { kstep. kstep. replace tot with cnt in * by lia.
       rewrite i32_id by (rewrite MAXFILE_bytes in Hsz; lia). split_and!; [done..|]. by exists l. }
  assert (0 <= (off + tot) / BSIZE < MAXFILE /\ (off + tot) / BSIZE * BSIZE < isize ip) as [Hb1 Hb2].
  { rewrite MAXFILE_bytes in Hsz. change MAXFILE with 268. unfold BSIZE in *. zlia. }
  pose proof (Hnh _ (proj1 Hb1) Hb2) as Hx.
  assert (inode_at (set_flog l s) i = ip) as Eip by done.
  unfold fs at 1. kstep. apply wp_zoom. cbn [fst snd].
  eapply wp_mono; [eapply (bmap_there me start d W o sb (set_flog l s) L V i); [done|exact Hl|done|done|done|exact Hb1|exact Hx|done]|].
  rewrite Eip. fold a. intros x c1 s1 (-> & Hc1 & l1 & -> & Ht1). rewrite (proj2 (Z.eqb_neq _ 0)) by done.
  unfold fs at 1, get_inode. kstep. apply wp_zoom. kstep. cbn [fst snd].
  change (idev (inode_at _ i)) with (idev ip). rewrite Hdev.
  unfold fs at 1. kstep. apply wp_zoom. cbn [fst snd].
  eapply wp_mono; [eapply (fx_bread me start d W o (set_flog l1 s) L [] V); [done|done|apply not_elem_of_nil|right; simpl; lia]|].
  intros bp c2 s2 (-> & l2 & -> & Ht2). unfold fs at 1. kstep. apply wp_zoom. cbn [fst snd].
  eapply fx_data; [exact Ht2|by left|]. set (m := Z.min (cnt - tot) (BSIZE - (off + tot) mod BSIZE)).
  assert (0 <= (off + tot) mod BSIZE < BSIZE) as Hmod by (apply Z.mod_pos_bound; by vm_compute).
  rewrite frange_block; [|intros k; by eapply tx_block_ok|lia..].
  unfold mv. kstep. apply wp_zoom. cbn [either_copyout kernel_object]. kstep. kstep. cbn [fst snd]. kstep.
  unfold fs. kstep. apply wp_zoom. cbn [fst snd]. eapply wp_mono; [by eapply fx_brelse|].
  intros [] c3 s3 (Hc3 & l3 & -> & Ht3). cbn [Z.eqb Z.opp]. kstep.
  rewrite u64_id by lia. split_and!; [done|lia..|].
  exists l3. split; [|done]. f_equal. rewrite frange_app by lia. rewrite <- putb_app; rewrite ?frange_length; [|lia..].
  by rewrite Z2Nat.id by lia.
Qed.
End read.
