(* ===== verification/FsBmap.v ===== *)
(** * Growing a file

    The effect of [bmap] when it has to allocate: the file gets the block,
    and keeps the ones it had with their contents; no block of another file
    is touched or taken. *)
From S2P Require Import Prelude Kmonad Riscv Mem Block Sleeplock Bio BioRing BioCache BioSpec Log LogSpec LogRun.
From S2P Require Import FsLayout Fs Tx FsBlock FsFormat FsInode.

Lemma get32_zblock off : get32 off zblock = 0.
Proof.
  unfold get32, getb. Transparent zblock. unfold zblock. Opaque zblock. rewrite drop_replicate, take_replicate.
  generalize (Z.to_nat 4 `min` (Z.to_nat BSIZE - Z.to_nat off))%nat as m. induction m as [|m IH]; [done|].
  cbn [replicate le_dec]. by rewrite IH.
Qed.

Section grow.
Context {D : BlockDev} (me start : Z) (d : disk) (W : list (Z * block)) (o : Z).
Context (sb : superblock) (Hsb : sb_ok sb start).
Implicit Types (s : fstate) (L : list Z) (H : list (nat * Z)) (V : Z -> block) (c : ctx) (k n x : Z) (a : list Z) (F : Z -> Prop).

Notation tx := (tx me start d W o).
Notation file_ok := (file_ok sb).
Notation ind a := (a !!! Z.to_nat NDIRECT).

(** ** Address lists *)

Record fresh V a F x : Prop := {
  fr_data : is_data sb x;
  fr_used : used sb V x = true;
  fr_frame : ~ F x;
  fr_ind : x <> ind a;
  fr_blocks : forall n, 0 <= n < MAXFILE -> baddr V a n <> x;
}.

(** Blocks in use keep their contents when another is allocated. *)
Lemma alloc_keeps V x k : is_data sb x -> used sb V x = false -> is_data sb k -> used sb V k = true -> v_alloc sb V x k = V k.
Proof.
  intros Hx Hu Hk Hk'. apply v_alloc_other; [congruence|]. intros ->.
  destruct (is_data_loggable sb start Hsb _ Hx), (BBLOCK_range sb start Hsb x) as (_ & _ & _ & _ & ?); [destruct Hx; lia|done].
Qed.

Lemma alloc_used V x k : (forall k, block_ok (V k)) -> is_data sb x -> is_data sb k -> used sb V k = true ->
  used sb (v_alloc sb V x) k = true.
Proof.
  intros HV Hx Hk Hu. destruct (is_data_loggable sb start Hsb _ Hk).
  rewrite (used_alloc sb start Hsb) by (done || destruct Hk; lia). by rewrite Hu, orb_true_r.
Qed.

Lemma baddr_alloc V a F x n : file_ok V a F -> is_data sb x -> used sb V x = false ->
  baddr (v_alloc sb V x) a n = baddr V a n.
Proof.
  intros Hf Hx Hu. unfold baddr. destruct (n <? NDIRECT); [done|].
  destruct (Z.eqb_spec (ind a) 0) as [|E]; [done|]. destruct (fo_ind _ _ _ _ Hf) as [|(Hd & Hy & _)]; [done|].
  by rewrite (alloc_keeps V x).
Qed.

Lemma file_ok_alloc V a F x :
  (forall k, block_ok (V k)) -> file_ok V a F -> is_data sb x -> used sb V x = false ->
  file_ok (v_alloc sb V x) a F /\ fresh (v_alloc sb V x) a F x.
Proof.
  intros HV Hf Hx Hu. pose proof (fun n => baddr_alloc V a F x n Hf Hx Hu) as Eb. split.
  - split.
    + apply Hf.
    + intros b Hb. destruct (so_data _ _ Hsb). rewrite (used_alloc sb start Hsb) by (done || lia).
      rewrite (fo_meta _ _ _ _ Hf b Hb). apply orb_true_r.
    + destruct (fo_ind _ _ _ _ Hf) as [?|(? & ? & ?)]; [by left|right]. split_and!; [done|by apply alloc_used|done].
    + intros n Hn. rewrite Eb. destruct (fo_blocks _ _ _ _ Hf n Hn) as [?|(? & ? & ?)]; [by left|right].
      split_and!; [done|by apply alloc_used|done].
    + intros n n'. rewrite !Eb. apply Hf.
    + intros n. rewrite Eb. apply Hf.
    + intros k Hk. destruct (fo_frame _ _ _ _ Hf k Hk). split; [done|by apply alloc_used].
  - destruct (is_data_loggable sb start Hsb _ Hx) as [Hr _]. split.
    + done.
    + rewrite (used_alloc sb start Hsb) by (done || destruct Hx; lia). by rewrite bool_decide_true.
    + intros Hk. destruct (fo_frame _ _ _ _ Hf x Hk). congruence.
    + intros ->. destruct (fo_ind _ _ _ _ Hf) as [E|(_ & E & _)]; [|congruence].
      by apply (is_data_nonzero start sb Hsb) in Hx.
    + intros n Hn. rewrite Eb. intros <-. destruct (fo_blocks _ _ _ _ Hf n Hn) as [E|(_ & E & _)]; [|congruence].
      by apply (is_data_nonzero start sb Hsb) in Hx.
Qed.

(** A new block as block [n] of the file: what the address list of the file
    must become. *)
Lemma file_ok_add V a F x V' a' n :
  file_ok V a F -> fresh V a F x -> 0 <= n < MAXFILE -> baddr V a n = 0 ->
  length a' = 13%nat -> ind a' = ind a -> (forall k, is_data sb k -> used sb V' k = used sb V k) -> meta_used sb V' ->
  (forall m, 0 <= m < MAXFILE -> baddr V' a' m = if decide (m = n) then x else baddr V a m) ->
  file_ok V' a' F.
Proof.
  intros Hf [Hd Hu HF Hi Hb] Hn H0 Hl Ei Eu Hm Eb. split.
  - done.
  - done.
  - rewrite Ei. destruct (fo_ind _ _ _ _ Hf) as [?|(? & ? & ?)]; [by left|right]. rewrite Eu by done. done.
  - intros m Hmr. rewrite Eb by done. case_decide; [right; by rewrite Eu|].
    destruct (fo_blocks _ _ _ _ Hf m Hmr) as [?|(? & ? & ?)]; [by left|right]. rewrite Eu by done. done.
  - intros m m' Hm1 Hm2. rewrite !Eb by done. repeat case_decide; subst; try done.
    + intros _ E. by apply Hb in Hm2.
    + intros _ E. by apply Hb in Hm1.
    + by apply Hf.
  - intros m Hm1. rewrite Eb, Ei by done. case_decide; [done|]. by apply Hf.
  - intros k Hk. destruct (fo_frame _ _ _ _ Hf k Hk). by rewrite Eu.
Qed.

Lemma NDIRECT_nat : Z.to_nat NDIRECT = 12%nat.
Proof. done. Qed.

Lemma file_ok_direct V a F x n :
  file_ok V a F -> fresh V a F x -> 0 <= n < NDIRECT -> a !!! Z.to_nat n = 0 ->
  let a' := <[Z.to_nat n := x]> a in
  file_ok V a' F /\ forall m, 0 <= m < MAXFILE -> baddr V a' m = if decide (m = n) then x else baddr V a m.
Proof.
  intros Hf Hx Hn H0 a'. assert (n < 12) as Hn12 by (unfold NDIRECT in Hn; lia). pose proof (fo_len _ _ _ _ Hf) as Hl.
  assert (ind a' = ind a) as Ei.
  { unfold a'. rewrite list_insert_total by lia. rewrite NDIRECT_nat, decide_False by lia. done. }
  assert (forall m, 0 <= m < MAXFILE -> baddr V a' m = if decide (m = n) then x else baddr V a m) as Eb.
  { intros m Hm. unfold baddr. rewrite Ei. destruct (Z.ltb_spec m NDIRECT) as [Hlt|Hge].
    - unfold a'. rewrite list_insert_total by lia. repeat case_decide; subst; try done; lia.
    - rewrite decide_False by lia. done. }
  split; [|done]. apply (file_ok_add V a F x V a' n); try done.
  - unfold MAXFILE. split; [lia|]. pose proof (eq_refl : NINDIRECT = 256). lia.
  - unfold baddr. by rewrite (proj2 (Z.ltb_lt n NDIRECT)) by lia.
  - unfold a'. by rewrite length_insert.
  - apply Hf.
Qed.

(** A zeroed block as the indirect block: no block of the file changes. *)
Lemma file_ok_indirect V a F x :
  file_ok V a F -> fresh V a F x -> ind a = 0 -> V x = zblock ->
  let a' := <[Z.to_nat NDIRECT := x]> a in
  file_ok V a' F /\ ind a' = x /\ forall m, baddr V a' m = baddr V a m.
Proof.
  intros Hf [Hd Hu HF Hi Hb] H0 Hz a'. pose proof (fo_len _ _ _ _ Hf) as Hl.
  assert (ind a' = x) as Ei.
  { unfold a'. rewrite list_insert_total by (rewrite NDIRECT_nat; lia). by rewrite decide_True. }
  assert (forall m, baddr V a' m = baddr V a m) as Eb.
  { intros m. unfold baddr. rewrite Ei, H0. destruct (Z.ltb_spec m NDIRECT) as [Hlt|Hge].
    - unfold a'. rewrite list_insert_total by (rewrite NDIRECT_nat; lia). rewrite decide_False; [done|].
      unfold NDIRECT in *. lia.
    - rewrite Hz, get32_zblock. by destruct (x =? 0). }
  split_and!; [|done|done]. split.
  - unfold a'. by rewrite length_insert.
  - apply Hf.
  - rewrite Ei. right. done.
  - intros n Hn. rewrite Eb. by apply Hf.
  - intros n n'. rewrite !Eb. apply Hf.
  - intros n Hn. rewrite Eb, Ei. intros _. by apply Hb.
  - apply Hf.
Qed.

(** A new entry in the indirect block. *)
Lemma file_ok_entry V a F x n :
  (forall k, block_ok (V k)) -> file_ok V a F -> fresh V a F x -> NDIRECT <= n < MAXFILE -> ind a <> 0 -> baddr V a n = 0 ->
  let V' := upd V (ind a) (put32 (4 * (n - NDIRECT)) x (V (ind a))) in
  file_ok V' a F /\ (forall m, 0 <= m < MAXFILE -> baddr V' a m = if decide (m = n) then x else baddr V a m).
Proof.
  intros HV Hf Hx Hn Hi H0 V'. destruct (is_data_loggable sb start Hsb _ (fr_data _ _ _ _ Hx)) as [Hxr _].
  destruct (fo_ind _ _ _ _ Hf) as [|(Hid & Hiu & HiF)]; [done|]. destruct (HV (ind a)) as [Hlen _].
  assert (NDIRECT = 12 /\ MAXFILE = 268) as [E1 E2] by done.
  assert (forall m, 0 <= m < MAXFILE -> baddr V' a m = if decide (m = n) then x else baddr V a m) as Eb.
  { intros m Hm. unfold baddr, V'. rewrite upd_eq, (proj2 (Z.eqb_neq (ind a) 0)) by done.
    destruct (Z.ltb_spec m NDIRECT); [rewrite decide_False by lia; done|]. case_decide as E.
    - subst m. rewrite get32_put32_eq by (rewrite ?Hlen; unfold BSIZE; lia). apply u32_id. lia.
    - rewrite get32_put32_ne by (rewrite ?Hlen; unfold BSIZE; lia). done. }
  assert (forall k, 0 <= k < sb_size sb -> used sb V' k = used sb V k) as Eu.
  { intros k Hk. unfold used, V'. destruct (BBLOCK_range sb start Hsb k Hk) as (_ & _ & _ & _ & HB).
    rewrite upd_ne; [done|]. by intros E; rewrite <- E in Hid. }
  split; [|done]. apply (file_ok_add V a F x V' a n); try done.
  - lia.
  - apply Hf.
  - intros k Hk. destruct (is_data_loggable sb start Hsb _ Hk). apply Eu. destruct Hk. lia.
  - intros b Hb. destruct (so_data _ _ Hsb). rewrite Eu by lia. by apply (fo_meta _ _ _ _ Hf).
Qed.

(** ** bmap *)

Definition set_iaddrs a (ip : inode) : inode :=
  Inode (idev ip) (inum ip) (iref ip) (ilk ip) (ivalid ip) (itype ip) (imajor ip) (iminor ip) (inlink ip) (isize ip) a.

(** The state with another log layer and other addresses in inode [i]. *)
Definition put_file (l : lstate) (i : nat) a s : fstate := upd_inode i (set_iaddrs a) (set_flog l s).

Lemma inode_at_put l i a s : (i < length (itab s))%nat -> inode_at (put_file l i a s) i = set_iaddrs a (inode_at s i).
Proof. intros. unfold inode_at, put_file, upd_inode. simpl. by rewrite list_lookup_total_insert_eq. Qed.

Lemma put_file_id l i a s : (i < length (itab s))%nat -> a = iaddrs (inode_at s i) -> put_file l i a s = set_flog l s.
Proof.
  intros Hi ->. unfold put_file, upd_inode, set_flog. simpl. f_equal. apply list_insert_id.
  unfold inode_at. simpl. rewrite (list_lookup_lookup_total_lt _ _ Hi). f_equal. by destruct (itab s !!! i).
Qed.

Lemma put_file_addr l l' i a s j x : (i < length (itab s))%nat ->
  upd_inode i (set_iaddr j x) (set_flog l' (put_file l i a s)) = put_file l' i (<[j := x]> a) s.
Proof.
  intros Hi. unfold put_file, upd_inode, set_flog, inode_at. simpl. f_equal.
  rewrite list_insert_insert_eq. f_equal. by rewrite list_lookup_total_insert_eq.
Qed.

(** No free block is left. *)
Definition full V : Prop := forall j, 0 <= j < sb_size sb -> used sb V j = true.

Definition is_bitmap k : Prop := sb_bmapstart sb <= k < data_start sb.

(** Block [n] of the file is now [x], or the disk is full and [x] is 0. *)
Record bmapped V a n x V' a' F L L' : Prop := {
  bm_ok : file_ok V' a' F;
  bm_at : x <> 0 -> baddr V' a' n = x;
  bm_others : forall m, 0 <= m < MAXFILE -> m <> n \/ baddr V a m <> 0 -> baddr V' a' m = baddr V a m;
  bm_data : forall m, 0 <= m < MAXFILE -> baddr V a m <> 0 -> V' (baddr V a m) = V (baddr V a m);
  bm_new : x <> 0 -> baddr V a n = 0 -> V' x = zblock;
  bm_ind : ind a <> 0 -> ind a' = ind a;
  bm_frame : forall k, F k -> V' k = V k;
  bm_meta : forall k, k < sb_bmapstart sb -> V' k = V k;
  bm_log : forall k, k ∈ L' -> k ∈ L \/ is_bitmap k \/ k <> 0 /\ k = ind a' \/ k <> 0 /\ k = x;
}.

Lemma v_alloc_meta V x k : is_data sb x -> k < sb_bmapstart sb -> v_alloc sb V x k = V k.
Proof.
  intros Hx Hk. destruct (is_data_loggable sb start Hsb _ Hx) as [Hr _].
  destruct (BBLOCK_range sb start Hsb x) as (_ & HB & _); [destruct Hx; lia|].
  apply v_alloc_other; [|lia]. intros ->. destruct Hx. lia.
Qed.

Lemma bitmap_BBLOCK x : is_data sb x -> is_bitmap (BBLOCK x sb).
Proof.
  intros Hx. destruct (is_data_loggable sb start Hsb _ Hx) as [Hr _].
  destruct (BBLOCK_range sb start Hsb x) as (_ & HB & _); [destruct Hx; lia|]. done.
Qed.

(** After [balloc] the new block goes to the address list; [K] is how. *)
Lemma bmapped_alloc V a n x V' a' F L L' :
  (forall k, block_ok (V k)) -> file_ok V a F -> is_data sb x -> used sb V x = false -> baddr V a n = 0 -> 0 <= n < MAXFILE ->
  file_ok V' a' F -> (forall m, 0 <= m < MAXFILE -> baddr V' a' m = if decide (m = n) then x else baddr V a m) ->
  (forall k, k <> ind a \/ k = 0 -> V' k = v_alloc sb V x k) -> ind a' = ind a ->
  (forall k, k ∈ L' -> k ∈ L \/ k = BBLOCK x sb \/ k = x \/ k <> 0 /\ k = ind a) ->
  bmapped V a n x V' a' F L L'.
Proof.
  intros HV Hf Hx Hu H0 Hn Hf' Eb EV Ei HL. pose proof (is_data_nonzero start sb Hsb _ Hx) as Hx0.
  assert (x <> ind a) as Hxi by (destruct (fo_ind _ _ _ _ Hf) as [?|(_ & ? & _)]; congruence).
  assert (forall k, is_data sb k -> used sb V k = true -> k <> ind a -> V' k = V k) as Hkeep.
  { intros k Hk1 Hk2 Hk3. rewrite EV by (by left). by apply alloc_keeps. }
  split; [done|..].
  - intros _. rewrite Eb by done. by rewrite decide_True.
  - intros m Hm [?|?]; rewrite Eb by done; case_decide; subst; done.
  - intros m Hm Hm0. destruct (fo_blocks _ _ _ _ Hf m Hm) as [?|(? & ? & ?)]; [done|].
    apply Hkeep; [done..|by apply (fo_indb _ _ _ _ Hf)].
  - intros _ _. rewrite EV by (by left). apply upd_eq.
  - done.
  - intros k Hk. destruct (fo_frame _ _ _ _ Hf k Hk) as [Hk1 Hk2]. apply Hkeep; [done..|]. intros ->.
    destruct (fo_ind _ _ _ _ Hf) as [?|(_ & _ & ?)]; [|done]. by apply (is_data_nonzero start sb Hsb) in Hk1.
  - intros k Hk. rewrite EV; [by apply v_alloc_meta|]. destruct (decide (k = ind a)) as [->|]; [|by left]. right.
    destruct (fo_ind _ _ _ _ Hf) as [?|([? ?] & _)]; [done|]. destruct (bitmap_BBLOCK x Hx). lia.
  - intros k Hk. rewrite Ei. pose proof (bitmap_BBLOCK x Hx). destruct (HL k Hk) as [?|[->|[->|?]]];
      [by left|by right; left|by do 3 right|by right; right; left].
Qed.

(** Nothing to do, or nothing left to allocate. *)
Lemma bmapped_same V a n x F L : file_ok V a F -> (x <> 0 -> baddr V a n = x) -> bmapped V a n x V a F L L.
Proof. intros Hf Hx. split; try done; [|by left]. intros H1 H2. specialize (Hx H1). congruence. Qed.

Lemma bmapped_full V a n F L V' a' L' :
  file_ok V' a' F -> (forall m, baddr V' a' m = baddr V a m) ->
  (forall m, 0 <= m < MAXFILE -> baddr V a m <> 0 -> V' (baddr V a m) = V (baddr V a m)) ->
  (forall k, F k -> V' k = V k) -> (forall k, k < sb_bmapstart sb -> V' k = V k) ->
  (ind a <> 0 -> ind a' = ind a) ->
  (forall k, k ∈ L' -> k ∈ L \/ is_bitmap k \/ k <> 0 /\ k = ind a') -> bmapped V a n 0 V' a' F L L'.
Proof. intros Hf Eb HD HF HM HI HL. split; try done. intros k Hk. destruct (HL k Hk) as [?|[?|?]]; [by left|by right; left|by right; right; left]. Qed.

Lemma bmapped_trans V a n x F L V1 a1 L1 V' L' :
  bmapped V a n 0 V1 a1 F L L1 -> bmapped V1 a1 n x V' a1 F L1 L' -> (forall m, baddr V1 a1 m = baddr V a m) ->
  bmapped V a n x V' a1 F L L'.
Proof.
  intros [A1 A2 A3 A4 A5 AI A6 A7 A8] [B1 B2 B3 B4 B5 BI B6 B7 B8] E. split; [done|done|..].
  - intros m Hm Hc. rewrite <- E in *. by apply B3.
  - intros m Hm Hm0. rewrite <- (A4 m Hm Hm0), <- E. apply B4; [done|]. by rewrite E.
  - intros Hx H0. apply B5; [done|]. by rewrite E.
  - done.
  - intros k Hk. rewrite B6, A6; done.
  - intros k Hk. rewrite B7, A7; done.
  - intros k Hk. destruct (B8 k Hk) as [Hk1|Hk1]; [|by right].
    destruct (A8 k Hk1) as [?|[?|[?|[? ?]]]]; [by left|by right; left|by right; right; left|done].
Qed.

Lemma bmap_entry s L V a F n c :
  fsb s = sb -> tx (flog s) L [] V -> held c = [] -> file_ok V a F -> ind a <> 0 -> NDIRECT <= n < MAXFILE ->
  Z.of_nat (length L) + 3 < NBUF -> 1 <= o ->
  wp (bp <- bc (bread me ROOTDEV (ind a)) ;;
      v <- get_data bp ;;
      let addr := get32 (4 * (n - NDIRECT)) v in
      addr <- (if addr =? 0 then
                 addr <- balloc me ROOTDEV ;;
                 when (negb (addr =? 0)) (
                   v <- get_data bp ;;
                   put_data bp (put32 (4 * (n - NDIRECT)) addr v) ;;
                   lg (log_write bp)) ;;
                 ret addr
               else ret addr) ;;
      bc (brelse me bp) ;;
      ret addr)
    (fun x c' s' => held c' = [] /\ exists l L' V', s' = set_flog l s /\ tx l L' [] V' /\
       bmapped V a n x V' a F L L' /\ (x = 0 -> full V')) c s.
Proof.
  intros Es Ht Hc Hf Hi Hn Hroom Ho. destruct (fo_ind _ _ _ _ Hf) as [|(Hid & Hiu & HiF)]; [done|].
  kstep. eapply wp_mono; [apply (fx_bread me start d W o s L [] V); [done|done|apply not_elem_of_nil|right; simpl; lia]|].
  intros bp c1 s1 (-> & l1 & -> & Ht1). kstep. eapply fx_data; [done|by left|]. cbv zeta.
  assert (baddr V a n = get32 (4 * (n - NDIRECT)) (V (ind a))) as Eb.
  { unfold baddr. rewrite (proj2 (Z.ltb_ge n NDIRECT)), (proj2 (Z.eqb_neq (ind a) 0)) by (done || lia). done. }
  rewrite <- Eb. destruct (Z.eqb_spec (baddr V a n) 0) as [H0|H0].
  2: { kstep. kstep. kstep. eapply wp_mono; [by eapply fx_brelse|]. intros [] c2 s2 (Hc2 & l2 & -> & Ht2). kstep.
       split; [done|]. exists l2, L, V. split_and!; [done..|by apply bmapped_same|done]. }
  kstep. kstep. eapply wp_mono; [apply (balloc_spec me start d W o sb Hsb (set_flog l1 s) L [(bp, ind a)] V c); try done|].
  { apply Hf. } { intros k ->%list_elem_of_singleton. done. } { simpl. lia. }
  intros x c2 s2 (Hc2 & l2 & -> & [(-> & Hfull & Ht2)|(Hxd & Hxu & _ & Ht2)]).
  { cbn [Z.eqb negb]. unfold when. ksteps. eapply wp_mono; [by eapply fx_brelse|].
    intros [] c3 s3 (Hc3 & l3 & -> & Ht3). kstep.
    split; [done|]. exists l3, L, V. split_and!; [done..|by apply bmapped_same|done]. }
  assert (forall k, block_ok (V k)) as HV by (intros k; by eapply tx_block_ok).
  destruct (file_ok_alloc V a F x HV Hf Hxd Hxu) as [Hf2 Hfr].
  rewrite (proj2 (Z.eqb_neq x 0)) by (by apply (is_data_nonzero start sb Hsb)). cbn [negb]. unfold when.
  kstep. kstep. eapply fx_data; [exact Ht2|by left|].
  pose proof (length_logged x (logged (BBLOCK x sb) L)). pose proof (length_logged (BBLOCK x sb) L).
  eapply wp_mono; [apply (fx_write me start d W o (set_flog l2 s) _ _ _ bp (ind a) _ c2 Ht2); try done|].
  { by left. } { apply put32_ok; [by eapply tx_block_ok|..]; [lia|]. unfold BSIZE. pose proof (eq_refl : MAXFILE = 268).
    unfold NDIRECT in *. lia. }
  { by apply (is_data_loggable sb start Hsb). } { by apply (is_data_loggable sb start Hsb). }
  { unfold NBUF, LOGBLOCKS in *. lia. }
  intros [] c3 s3 (-> & l3 & -> & Ht3). ksteps. eapply wp_mono; [by eapply fx_brelse|].
  intros [] c4 s4 (Hc4 & l4 & -> & Ht4). kstep. split; [done|].
  eexists l4, _, _. split; [done|]. split; [exact Ht4|]. pose proof (is_data_nonzero start sb Hsb _ Hxd). split; [|done].
  pose proof (baddr_alloc V a F x n Hf Hxd Hxu) as Ea.
  destruct (file_ok_entry (v_alloc sb V x) a F x n) as [Hf4 Eb4]; try done.
  { intros k. by eapply tx_block_ok. } { by rewrite Ea. }
  eapply (bmapped_alloc V a n x); try done.
  - unfold NDIRECT in *. lia.
  - intros m Hm. rewrite Eb4 by done. by rewrite (baddr_alloc V a F x m Hf Hxd Hxu).
  - intros k [?| ->]; rewrite upd_ne; done.
  - intros k. rewrite !elem_of_logged. intros [[[?| ->]| ->]| ->]; [by left|by right; left|by right; right; left|by do 3 right].
Qed.

Lemma bmap_direct s L V i n c F :
  let ip := inode_at s i in let a := iaddrs ip in
  (i < length (itab s))%nat -> fsb s = sb -> tx (flog s) L [] V -> held c = [] -> idev ip = ROOTDEV -> file_ok V a F ->
  0 <= n < NDIRECT -> a !!! Z.to_nat n = 0 -> Z.of_nat (length L) + 5 < NBUF -> 1 <= o ->
  wp (addr <- balloc me (idev ip) ;;
      if addr =? 0 then ret 0 else mod_inode i (set_iaddr (Z.to_nat n) addr) ;; ret addr)
    (fun x c' s' => held c' = [] /\ exists l L' V' a', s' = put_file l i a' s /\ tx l L' [] V' /\
       bmapped V a n x V' a' F L L' /\ (x = 0 -> full V')) c s.
Proof.
  intros ip a Hi Es Ht Hc Hdev Hf Hn H0 Hroom Ho. rewrite Hdev. kstep.
  eapply wp_mono; [apply (balloc_spec me start d W o sb Hsb s L [] V c); try done|].
  { apply Hf. } { intros k []%elem_of_nil. } { simpl. lia. }
  intros x c2 s2 (Hc2 & l2 & -> & [(-> & Hfull & Ht2)|(Hxd & Hxu & _ & Ht2)]).
  { cbn [Z.eqb]. kstep. split; [done|]. exists l2, L, V, a. rewrite put_file_id by done.
    split_and!; [done..|by apply bmapped_same|done]. }
  assert (forall k, block_ok (V k)) as HV by (intros k; by eapply tx_block_ok).
  destruct (file_ok_alloc V a F x HV Hf Hxd Hxu) as [Hf2 Hfr].
  rewrite (proj2 (Z.eqb_neq x 0)) by (by apply (is_data_nonzero start sb Hsb)).
  unfold mod_inode. kstep. kstep. kstep. split; [done|]. eexists l2, _, _, (<[Z.to_nat n := x]> a).
  split. { rewrite <- (put_file_addr (flog s) l2 i a s _ x Hi). by rewrite (put_file_id _ _ a s). }
  split; [exact Ht2|]. pose proof (is_data_nonzero start sb Hsb _ Hxd). split; [|done]. destruct (file_ok_direct _ a F x n Hf2 Hfr) as [Hf3 Eb3]; [done..|].
  pose proof (eq_refl : NINDIRECT = 256) as EN.
  eapply (bmapped_alloc V a n x); try done.
  - unfold baddr. by rewrite (proj2 (Z.ltb_lt n NDIRECT)) by lia.
  - unfold MAXFILE. lia.
  - intros m Hm. rewrite Eb3 by done. by rewrite (baddr_alloc V a F x m Hf Hxd Hxu).
  - rewrite list_insert_total by (rewrite (fo_len _ _ _ _ Hf); unfold NDIRECT in *; lia).
    rewrite decide_False; [done|]. unfold NDIRECT in *. lia.
  - intros k. rewrite !elem_of_logged. intros [[?| ->]| ->]; [by left|by right; left|by right; right; left].
Qed.

(** Allocating the indirect block. *)
Lemma bmap_ind_alloc V a F n x L :
  (forall k, block_ok (V k)) -> file_ok V a F -> is_data sb x -> used sb V x = false -> ind a = 0 ->
  let a' := <[Z.to_nat NDIRECT := x]> a in let V' := v_alloc sb V x in
  bmapped V a n 0 V' a' F L (logged x (logged (BBLOCK x sb) L)) /\ ind a' = x /\ forall m, baddr V' a' m = baddr V a m.
Proof.
  intros HV Hf Hxd Hxu Hi a' V'. destruct (file_ok_alloc V a F x HV Hf Hxd Hxu) as [Hf2 Hfr].
  destruct (file_ok_indirect V' a F x Hf2 Hfr Hi) as (Hf3 & Ei & Eb3); [apply upd_eq|]. fold a' in Hf3, Ei, Eb3.
  assert (forall m, baddr V' a' m = baddr V a m) as Eb.
  { intros m. rewrite Eb3. exact (baddr_alloc V a F x m Hf Hxd Hxu). }
  split_and!; [|done|done]. apply bmapped_full; try done.
  - intros m Hm Hm0. destruct (fo_blocks _ _ _ _ Hf m Hm) as [?|(? & ? & _)]; [done|]. by apply alloc_keeps.
  - intros k Hk. destruct (fo_frame _ _ _ _ Hf k Hk). by apply alloc_keeps.
  - intros k Hk. by apply v_alloc_meta.
  - intros k. rewrite !elem_of_logged, Ei. pose proof (is_data_nonzero start sb Hsb _ Hxd).
    intros [[?| ->]| ->]; [by left|right; left; by apply bitmap_BBLOCK|by right; right].
Qed.

Lemma bmap_spec s L V i n c F :
  let ip := inode_at s i in let a := iaddrs ip in
  (i < length (itab s))%nat -> fsb s = sb -> tx (flog s) L [] V -> held c = [] -> idev ip = ROOTDEV -> file_ok V a F ->
  0 <= n < MAXFILE -> Z.of_nat (length L) + 5 < NBUF -> 1 <= o ->
  wp (bmap me i n) (fun x c' s' => held c' = [] /\ exists l L' V' a', s' = put_file l i a' s /\ tx l L' [] V' /\
    bmapped V a n x V' a' F L L' /\ (x = 0 -> full V')) c s.
Proof.
  intros ip a Hi Es Ht Hc Hdev Hf Hn Hroom Ho. unfold bmap, get_inode. kstep. kstep. unfold id. fold ip. fold a.
  destruct (Z.ltb_spec n NDIRECT) as [Hd|Hd].
  - destruct (Z.eqb_spec (a !!! Z.to_nat n) 0) as [H0|H0]; [apply (bmap_direct s L V i n c F); done || lia|].
    kstep. split; [done|]. exists (flog s), L, V, a. rewrite put_file_id by done. split_and!; [by destruct s|done| |done].
    apply bmapped_same; [done|]. intros _. unfold baddr. by rewrite (proj2 (Z.ltb_lt _ _)) by lia.
  - rewrite (proj2 (Z.ltb_lt (n - NDIRECT) NINDIRECT)) by (unfold MAXFILE in Hn; lia). rewrite Hdev.
    destruct (Z.eqb_spec (ind a) 0) as [H0|H0].
    2: { kstep. kstep. rewrite (proj2 (Z.eqb_neq (ind a) 0)) by done.
         eapply wp_mono; [apply (bmap_entry s L V a F n c); done || lia|].
         intros x c' s' (Hc' & l & L' & V' & -> & Ht' & Hb & Hfu). split; [done|]. exists l, L', V', a. by rewrite put_file_id. }
    kstep. kstep. eapply wp_mono; [apply (balloc_spec me start d W o sb Hsb s L [] V c); try done|].
    { apply Hf. } { intros k []%elem_of_nil. } { simpl. lia. }
    intros x c2 s2 (Hc2 & l2 & -> & [(-> & Hfull & Ht2)|(Hxd & Hxu & _ & Ht2)]).
    { cbn [Z.eqb negb]. unfold when. ksteps. split; [done|]. exists l2, L, V, a. rewrite put_file_id by done.
      split_and!; [done..|by apply bmapped_same|done]. }
    pose proof (is_data_nonzero start sb Hsb _ Hxd) as Hx0. rewrite (proj2 (Z.eqb_neq x 0)) by done. cbn [negb]. unfold when, mod_inode.
    kstep. kstep. kstep. rewrite (proj2 (Z.eqb_neq x 0)) by done.
    destruct (bmap_ind_alloc V a F n x L) as (Hb1 & Ei & Eb); [intros k; by eapply tx_block_ok|done..|].
    set (a1 := <[Z.to_nat NDIRECT := x]> a) in *.
    assert (upd_inode i (set_iaddr (Z.to_nat NDIRECT) x) (set_flog l2 s) = put_file l2 i a1 s) as ->.
    { unfold a1. rewrite <- (put_file_addr (flog s) l2 i a s _ x Hi). by rewrite (put_file_id _ _ a s). }
    pose proof (length_logged x (logged (BBLOCK x sb) L)). pose proof (length_logged (BBLOCK x sb) L).
    replace (bread me ROOTDEV x) with (bread me ROOTDEV (ind a1)) by (by rewrite Ei).
    eapply wp_mono; [apply (bmap_entry (put_file l2 i a1 s) (logged x (logged (BBLOCK x sb) L)) (v_alloc sb V x) a1 F n c2); try (done || lia)|].
    { apply Hb1. }
    intros y c3 s3 (Hc3 & l3 & L3 & V3 & -> & Ht3 & Hb3 & Hfu). split; [done|]. exists l3, L3, V3, a1.
    split_and!; [done..|by eapply bmapped_trans|done].
Qed.
End grow.
