(* ===== verification/FsWrite.v ===== *)
(** * Writing a file *)
From S2P Require Import Prelude Kmonad Riscv Mem Block Sleeplock Bio BioRing BioCache BioSpec Log LogSpec LogRun.
From S2P Require Import FsLayout Fs Tx FsBlock FsFormat FsInode FsRead FsBmap.

Lemma putb_lookup_total off bs b (i : nat) :
  0 <= off -> off + Z.of_nat (length bs) <= Z.of_nat (length b) ->
  putb off bs b !!! i = if decide (Z.to_nat off <= i < Z.to_nat off + length bs)%nat
                        then bs !!! (i - Z.to_nat off)%nat else b !!! i.
Proof. intros. rewrite !list_lookup_total_alt, putb_lookup by done. by case_decide. Qed.

Section write.
Context {D : BlockDev} (me start : Z) (d : disk) (W : list (Z * block)) (o : Z).
Context (sb : superblock) (Hsb : sb_ok sb start).
Implicit Types (s : fstate) (L : list Z) (V : Z -> block) (c : ctx) (k n x : Z) (a : list Z) (F : Z -> Prop) (obj bs ch : list Z).

Notation tx := (tx me start d W o).
Notation file_ok := (file_ok sb).
Notation bmapped := (bmapped sb).
Notation ind a := (a !!! Z.to_nat NDIRECT).

(** ** Contents *)

(** New contents for a data block of the file. *)
Lemma file_ok_data V a F n v :
  file_ok V a F -> 0 <= n < MAXFILE -> baddr V a n <> 0 ->
  let V' := upd V (baddr V a n) v in
  file_ok V' a F /\ (forall m, baddr V' a m = baddr V a m) /\ (forall k, F k -> V' k = V k).
Proof.
  intros Hf Hn Hx V'. destruct (fo_blocks _ _ _ _ Hf n Hn) as [|(Hd & Hu & HF)]; [done|].
  pose proof (fo_indb _ _ _ _ Hf n Hn Hx) as Hni.
  assert (forall m, baddr V' a m = baddr V a m) as Eb.
  { intros m. unfold baddr at 1 2. destruct (m <? NDIRECT); [done|]. destruct (ind a =? 0); [done|].
    unfold V'. by rewrite upd_ne. }
  assert (forall k, 0 <= k < sb_size sb -> used sb V' k = used sb V k) as Eu.
  { intros k Hk. unfold used, V'. destruct (BBLOCK_range sb start Hsb k Hk) as (_ & _ & _ & _ & HB).
    rewrite upd_ne; [done|]. by intros E; rewrite <- E in Hd. }
  assert (forall k, is_data sb k -> used sb V' k = used sb V k) as Eu'.
  { intros k Hk. destruct (is_data_loggable sb start Hsb _ Hk). apply Eu. destruct Hk. lia. }
  split_and!; [|done|]. 2: { intros k Hk. unfold V'. rewrite upd_ne; [done|]. by intros ->. }
  split.
  - apply Hf.
  - intros b Hb. destruct (so_data _ _ Hsb). rewrite Eu by lia. by apply (fo_meta _ _ _ _ Hf).
  - destruct (fo_ind _ _ _ _ Hf) as [?|(? & ? & ?)]; [by left|right]. by rewrite Eu'.
  - intros m Hm. rewrite Eb. destruct (fo_blocks _ _ _ _ Hf m Hm) as [?|(? & ? & ?)]; [by left|right]. by rewrite Eu'.
  - intros m m'. rewrite !Eb. apply Hf.
  - intros m. rewrite Eb. apply Hf.
  - intros k Hk. destruct (fo_frame _ _ _ _ Hf k Hk). by rewrite Eu'.
Qed.

Lemma file_ok_addrs V a F : file_ok V a F -> Forall (fun x => 0 <= x < 2 ^ 32) a.
Proof.
  intros Hf. apply Forall_lookup_2. intros j x Hj. pose proof (lookup_lt_Some _ _ _ Hj) as Hlt. rewrite (fo_len _ _ _ _ Hf) in Hlt.
  apply list_lookup_total_correct in Hj.
  assert (x = 0 \/ is_data sb x) as [->|Hx]; [|lia|].
  { destruct (decide (j = 12)%nat) as [->|Hj12].
    - destruct (fo_ind _ _ _ _ Hf) as [E|[E _]]; change (Z.to_nat NDIRECT) with 12%nat in E; rewrite Hj in E; auto.
    - assert (baddr V a (Z.of_nat j) = x) as E.
      { unfold baddr. rewrite (proj2 (Z.ltb_lt _ _)) by (unfold NDIRECT; lia). by rewrite Nat2Z.id. }
      destruct (fo_blocks _ _ _ _ Hf (Z.of_nat j)) as [E'|[E' _]]; [|rewrite E in E'; auto..].
      pose proof (eq_refl : MAXFILE = 268). lia. }
  destruct (is_data_loggable sb start Hsb _ Hx). lia.
Qed.

(** [V'] and [a'] are the file with the bytes [bs] written at [off]. *)
Record wrote_to V a F (size off : Z) bs L V' a' L' : Prop := {
  wt_ok : file_ok V' a' F;
  wt_byte : forall p, 0 <= p < Z.max size (off + Z.of_nat (length bs)) ->
    fbyte V' a' p = if decide (off <= p < off + Z.of_nat (length bs)) then bs !!! Z.to_nat (p - off) else fbyte V a p;
  wt_holes : no_holes V' a' (Z.max size (off + Z.of_nat (length bs)));
  wt_frame : forall k, F k -> V' k = V k;
  wt_meta : forall k, k < sb_bmapstart sb -> V' k = V k;
  wt_log : forall k, k ∈ L' -> k ∈ L \/ is_bitmap sb k \/ k <> 0 /\ k = ind a' \/
    exists j, off / BSIZE <= j /\ j * BSIZE < off + Z.of_nat (length bs) /\ k = baddr V' a' j;
}.

Lemma wrote_nothing V a F size off L :
  file_ok V a F -> no_holes V a size -> 0 <= off <= size -> wrote_to V a F size off [] L V a L.
Proof.
  intros Hf Hh Ho. split; cbn [length]; try done.
  - intros p Hp. rewrite decide_False by lia. done.
  - rewrite Z.max_l by lia. done.
  - intros k Hk. by left.
Qed.

Lemma block_of p size : 0 <= p < size -> size <= MAXFILE * BSIZE ->
  0 <= p / BSIZE < MAXFILE /\ p / BSIZE * BSIZE <= p < p / BSIZE * BSIZE + BSIZE /\ p mod BSIZE = p - p / BSIZE * BSIZE.
Proof. intros. rewrite MAXFILE_bytes in *. pose proof (eq_refl : MAXFILE = 268) as ->. unfold BSIZE. zlia. Qed.

(** What is there already is not affected by [bmap]. *)
Lemma carry V a F size off bs L V1 a1 L1 n x V2 a2 L2 :
  0 <= off -> size <= MAXFILE * BSIZE -> off + Z.of_nat (length bs) <= MAXFILE * BSIZE ->
  wrote_to V a F size off bs L V1 a1 L1 -> bmapped V1 a1 n x V2 a2 F L1 L2 ->
  (forall m, 0 <= m -> m * BSIZE < Z.max size (off + Z.of_nat (length bs)) ->
     0 <= m < MAXFILE /\ baddr V1 a1 m <> 0 /\ baddr V2 a2 m = baddr V1 a1 m /\ V2 (baddr V1 a1 m) = V1 (baddr V1 a1 m)) /\
  (forall k, k ∈ L2 -> (k ∈ L \/ is_bitmap sb k \/ k <> 0 /\ k = ind a2 \/
     exists j, off / BSIZE <= j /\ j * BSIZE < off + Z.of_nat (length bs) /\ k = baddr V2 a2 j) \/ k <> 0 /\ k = x).
Proof.
  intros H0 Hs Hl [A1 A2 A3 A4 A5 A6] [B1 _ B3 B4 _ BI B6 B7 B8].
  assert (forall m, 0 <= m -> m * BSIZE < Z.max size (off + Z.of_nat (length bs)) -> 0 <= m < MAXFILE) as Hr.
  { intros m Hm Hlt. rewrite MAXFILE_bytes in *. pose proof (eq_refl : MAXFILE = 268) as ->. unfold BSIZE in *. lia. }
  split.
  - intros m Hm Hlt. assert (baddr V1 a1 m <> 0) as Hnz by (by apply A3). specialize (Hr m Hm Hlt).
    split_and!; [lia..|done| |by apply B4]. apply B3; [done|by right].
  - intros k Hk. destruct (B8 k Hk) as [Hk1|[?|[?|?]]];
      [left|by left; right; left|by left; right; right; left|by right].
    destruct (A6 k Hk1) as [?|[?|[[Hk0 Hki]|(j & Hj1 & Hj2 & ->)]]]; [by left|by right; left| |].
    + right; right; left. split; [done|]. rewrite BI; [done|congruence].
    + right; right; right. exists j. split_and!; [done..|]. symmetry.
      assert (0 <= j) as Hj0 by (assert (0 <= off / BSIZE) by (apply Z.div_pos; [lia|by vm_compute]); lia).
      apply B3; [apply Hr; lia|]. right. apply A3; lia.
Qed.

Lemma wrote_no_block V a F size off bs L V1 a1 L1 n V2 a2 L2 :
  0 <= off -> size <= MAXFILE * BSIZE -> off + Z.of_nat (length bs) <= MAXFILE * BSIZE ->
  wrote_to V a F size off bs L V1 a1 L1 -> bmapped V1 a1 n 0 V2 a2 F L1 L2 -> wrote_to V a F size off bs L V2 a2 L2.
Proof.
  intros H0 Hs Hl HA HB. destruct (carry _ _ _ _ _ _ _ _ _ _ _ _ _ _ _ H0 Hs Hl HA HB) as [Hc HL].
  destruct HA as [A1 A2 A3 A4 A5 _], HB as [B1 _ _ _ _ _ B6 B7 _]. split; [done| | | | |].
  - intros p Hp. rewrite <- A2 by done. destruct (block_of p _ Hp) as (? & ? & _); [lia|].
    destruct (Hc (p / BSIZE)) as (_ & _ & E1 & E2); [lia..|]. unfold fbyte. by rewrite E1, E2.
  - intros m Hm Hlt. destruct (Hc m Hm Hlt) as (_ & ? & -> & _). done.
  - intros k Hk. rewrite B6, A4; done.
  - intros k Hk. rewrite B7, A5; done.
  - intros k Hk. destruct (HL k Hk) as [?|[? ?]]; done.
Qed.

(** One more chunk, within block [n] of the file. *)
Lemma wrote_chunk V a F size off bs L V1 a1 L1 n x V2 a2 L2 ch :
  let pos := off + Z.of_nat (length bs) in
  let V3 := upd V2 x (putb (pos mod BSIZE) ch (V2 x)) in
  0 <= off -> size <= MAXFILE * BSIZE -> pos + Z.of_nat (length ch) <= MAXFILE * BSIZE ->
  wrote_to V a F size off bs L V1 a1 L1 -> bmapped V1 a1 n x V2 a2 F L1 L2 ->
  x <> 0 -> n = pos / BSIZE -> ch <> [] -> pos mod BSIZE + Z.of_nat (length ch) <= BSIZE -> block_ok (V2 x) ->
  wrote_to V a F size off (bs ++ ch) L V3 a2 (logged x L2).
Proof.
  intros pos V3 H0 Hs Hl HA HB Hx -> Hch Hblk [Hlen _].
  assert (0 < Z.of_nat (length ch)) as Hch0 by (destruct ch; [done|simpl; lia]).
  assert (off + Z.of_nat (length bs) <= MAXFILE * BSIZE) as Hpos by (unfold pos in *; lia).
  assert (off <= pos) as Hop by (unfold pos; lia).
  destruct (carry _ _ _ _ _ _ _ _ _ _ _ _ _ _ _ H0 Hs Hpos HA HB) as [Hc HL].
  destruct HA as [A1 A2 A3 A4 A5 _], HB as [B1 B2 B3 _ _ _ B6 B7 _]. specialize (B2 Hx).
  destruct (block_of pos (pos + 1)) as (Hn & Hpn & Hpm); [unfold pos in *; lia..|]. set (n := pos / BSIZE) in *.
  destruct (file_ok_data V2 a2 F n (putb (pos mod BSIZE) ch (V2 x)) B1 Hn) as (Hf3 & Eb & EF); [by rewrite B2|].
  rewrite B2 in Hf3, Eb, EF. fold V3 in Hf3, Eb, EF.
  assert (length (bs ++ ch) = length bs + length ch)%nat as Elen by apply length_app.
  assert (forall m, m <> n -> 0 <= m -> m * BSIZE < Z.max size (pos + Z.of_nat (length ch)) -> m * BSIZE < Z.max size pos) as Hne.
  { intros m Hmn Hm Hlt. unfold BSIZE in *. lia. }
  split; rewrite ?Elen, ?Nat2Z.inj_add, ?Z.add_assoc; fold pos.
  - done.
  - intros p Hp. destruct (block_of p _ Hp) as (Hj & Hpj & Hpmod); [lia|]. unfold fbyte at 1. rewrite Eb.
    destruct (decide (pos <= p < pos + Z.of_nat (length ch))) as [Hin|Hout].
    + rewrite decide_True by lia. assert (p / BSIZE = n) as En by (unfold BSIZE in *; lia). rewrite En in *.
      rewrite B2. unfold V3. rewrite upd_eq, putb_lookup_total by (rewrite ?Hlen; lia).
      rewrite decide_True by lia. rewrite lookup_total_app_r by (unfold pos in *; lia). f_equal. unfold pos in *. lia.
    + assert (fbyte V1 a1 p = if decide (off <= p < pos + Z.of_nat (length ch)) then (bs ++ ch) !!! Z.to_nat (p - off) else fbyte V a p) as <-.
      { rewrite A2 by (fold pos; lia). fold pos. destruct (decide (off <= p < pos)).
        - rewrite decide_True by lia. by rewrite lookup_total_app_l by (unfold pos in *; lia).
        - by rewrite decide_False by lia. }
      destruct (Hc (p / BSIZE)) as (_ & Hnz & E1 & E2); [lia|fold pos; lia|]. unfold fbyte. rewrite E1.
      destruct (decide (p / BSIZE = n)) as [En|En].
      * assert (baddr V1 a1 (p / BSIZE) = x) as Ex by (rewrite <- E1, En; done). rewrite <- E2, Ex. unfold V3.
        rewrite upd_eq, putb_lookup_total by (rewrite ?Hlen; lia). rewrite decide_False; [done|]. unfold BSIZE in *. lia.
      * rewrite <- E2. unfold V3. rewrite upd_ne; [done|]. intros E. apply En.
        apply (fo_inj _ _ _ _ B1); [done..|by rewrite E1|]. by rewrite E1, B2.
  - intros m Hm Hlt. rewrite Eb. destruct (decide (m = n)) as [->|Hmn]; [by rewrite B2|].
    destruct (Hc m Hm) as (_ & ? & -> & _); [fold pos; by apply Hne|]. done.
  - intros k Hk. rewrite EF, B6, A4 by done. done.
  - intros k Hk. unfold V3. rewrite upd_ne; [by rewrite B7, A5|]. intros ->.
    destruct (fo_blocks _ _ _ _ B1 n Hn) as [E|([E _] & _)]; rewrite B2 in E; [done|].
    destruct (sb_bounds sb start Hsb) as (_ & _ & _ & ? & _). lia.
  - intros k Hk. apply elem_of_logged in Hk as [Hk| ->].
    + destruct (HL k Hk) as [[?|[?|[?|(j & Hj1 & Hj2 & ->)]]]|[_ ->]]; [by left|by right; left|by right; right; left| |].
      * right; right; right. exists j. split_and!; [done|lia|by rewrite Eb].
      * right; right; right. exists n. rewrite Eb, B2. split_and!; [|lia|done].
        apply Z.div_le_mono; [by vm_compute|unfold pos; lia].
    + right; right; right. exists n. rewrite Eb, B2. split_and!; [|lia|done].
      apply Z.div_le_mono; [by vm_compute|unfold pos; lia].
Qed.

(** ** The log space of a write *)

(** How many blocks of the file [n] bytes at [off] touch. *)
Definition nblocks (off n : Z) : Z := (off + n + BSIZE - 1) / BSIZE - off / BSIZE.

Lemma wrote_log_length V a F size off bs L V' a' L' :
  0 <= off -> NoDup L' -> wrote_to V a F size off bs L V' a' L' ->
  Z.of_nat (length L') <= Z.of_nat (length L) + (data_start sb - sb_bmapstart sb) + 1 + nblocks off (Z.of_nat (length bs)).
Proof.
  intros H0 Hn Hw. destruct (sb_bounds sb start Hsb) as (_ & _ & _ & ? & _).
  set (m := nblocks off (Z.of_nat (length bs))).
  assert (0 <= m) as Hm by (unfold m, nblocks, BSIZE; zlia).
  set (X := L ++ seqZ (sb_bmapstart sb) (data_start sb - sb_bmapstart sb) ++ [ind a'] ++ (baddr V' a' <$> seqZ (off / BSIZE) m)).
  assert (length L' <= length X)%nat as Hle.
  { apply submseteq_length, NoDup_submseteq; [done|]. intros k Hk. unfold X. rewrite !elem_of_app.
    destruct (wt_log _ _ _ _ _ _ _ _ _ _ Hw k Hk) as [?|[[? ?]|[[_ ->]|(j & Hj1 & Hj2 & ->)]]].
    - by left.
    - right; left. apply elem_of_seqZ. lia.
    - right; right; left. by apply list_elem_of_singleton.
    - right; right; right. apply list_elem_of_fmap. exists j. split; [done|]. apply elem_of_seqZ.
      unfold m, nblocks, BSIZE in *. zlia. }
  unfold X in Hle. rewrite !length_app, length_fmap, !length_seqZ in Hle. cbn [length] in Hle. lia.
Qed.

Lemma nblocks_mono off n n' : n <= n' -> nblocks off n <= nblocks off n'.
Proof. intros. unfold nblocks. assert ((off + n + BSIZE - 1) / BSIZE <= (off + n' + BSIZE - 1) / BSIZE); [|lia].
  apply Z.div_le_mono; [by vm_compute|lia]. Qed.

(** ** writei *)

Definition put_file_size (l : lstate) (i : nat) a size s : fstate :=
  upd_inode i (fun ip => set_isize size (set_iaddrs a ip)) (set_flog l s).

Lemma fx_chunk {R} s L V bp x m ch c obj (k : K (fstate * list Z) R) Q :
  tx (flog s) L [(bp, x)] V -> held c = [] -> is_data sb x -> 0 <= m -> Forall byte ch ->
  m + Z.of_nat (length ch) <= BSIZE -> Z.of_nat (length L) < LOGBLOCKS -> 1 <= o ->
  (forall c' l, held c' = [] -> tx l (logged x L) [] (upd V x (putb m ch (V x))) -> wp k Q c' (set_flog l s, obj)) ->
  wp (fs (put_data bp (putb m ch (V x))) ;; fs (lg (log_write bp)) ;; fs (bc (brelse me bp)) ;; k) Q c (s, obj).
Proof.
  intros Ht Hc Hx Hm Hch Hlen HL Ho HQ.
  assert (wp (put_data bp (putb m ch (V x)) ;; lg (log_write bp)) (fun _ c' s' => c' = c /\
    exists l, s' = set_flog l s /\ tx l (logged x L) [(bp, x)] (upd V x (putb m ch (V x)))) c s) as Hp.
  { apply (fx_write me start d W o s L _ V bp x _ c Ht); try done; [by left|..].
    - apply putb_ok; [by eapply tx_block_ok|done..].
    - by apply (is_data_loggable sb start Hsb).
    - by apply (is_data_loggable sb start Hsb). }
  unfold wp, bind, fs, zoom in *. cbn [fst snd]. destruct (put_data bp _ c s) as [[] c1 s1|?|???|]; try done. cbn [fst snd].
  destruct (lg (log_write bp) c1 s1) as [[] c2 s2|?|???|]; try done. destruct Hp as (-> & l & -> & Hl). cbn [fst snd].
  pose proof (fx_brelse me start d W o (set_flog l s) (logged x L) [] _ bp x c Hl Hc) as Hr.
  apply wp_inv in Hr as ([] & c3 & s3 & -> & Hc3 & l3 & -> & Hl3). by apply HQ.
Qed.

Lemma getb_app m1 m2 off (b : list Z) : 0 <= off -> 0 <= m1 -> 0 <= m2 -> off + m1 + m2 <= Z.of_nat (length b) ->
  getb (m1 + m2) off b = getb m1 off b ++ getb m2 (off + m1) b.
Proof.
  intros. unfold getb. rewrite !Z2Nat.inj_add by lia. by rewrite <- take_take_drop, drop_drop.
Qed.

Section one.
Context (s : fstate) (i : nat) (V : Z -> block) (L : list Z) (F : Z -> Prop) (src off n : Z) (obj : list Z).
Let ip := inode_at s i.
Let a := iaddrs ip.
Let size := isize ip.
Context (Hi : (i < length (itab s))%nat) (Es : fsb s = sb) (Hdev : idev ip = ROOTDEV) (Ho : 1 <= o).
Context (Hsz : size <= MAXFILE * BSIZE) (Hoff : 0 <= off) (Hn : 0 <= n) (Hmax : off + n <= MAXFILE * BSIZE).
Context (Hsrc : 0 <= src) (Hobj : src + n <= Z.of_nat (length obj)) (Hw : src + n < 2 ^ 64) (Hbyte : Forall byte obj).
Context (Hroom : Z.of_nat (length L) + (data_start sb - sb_bmapstart sb) + nblocks off n + 6 < NBUF).

(** After [tot] bytes. *)
Definition wrote_state (tot : Z) (t : fstate * list Z) (full_disk : Prop) : Prop :=
  exists l L1 V1 a1, t = (put_file l i a1 s, obj) /\ tx l L1 [] V1 /\
    wrote_to V a F size off (getb tot src obj) L V1 a1 L1 /\ (full_disk -> full sb V1).

Lemma writei_loop_spec c : held c = [] -> wrote_state 0 (s, obj) False ->
  wp (writei_loop me i n (0, off, src)) (fun r c' t => held c' = [] /\ exists tot, r = (tot, off + tot) /\ 0 <= tot <= n /\
    wrote_state tot t (tot < n)) c (s, obj).
Proof.
  intros Hc H0. unfold writei_loop.
  apply wp_loop with (I := fun fuel '(tot, off', src') c' t => held c' = [] /\ 0 <= tot <= n /\ off' = off + tot /\
    src' = src + tot /\ n - tot < Z.of_nat fuel /\ wrote_state tot t False).
  2: { split_and!; [done|lia..|done]. }
  intros fuel [[tot off'] src'] c' t (Hc' & Htot & -> & -> & Hfuel & l & L1 & V1 & a1 & -> & Ht1 & Hw1 & _).
  destruct fuel as [|fuel]; [lia|]. exists fuel. split; [done|].
  destruct (Z.ltb_spec tot n) as [Hlt|Hge].
  2: { kstep. split; [done|]. exists tot. split_and!; [done|lia|lia|]. exists l, L1, V1, a1. split_and!; [done..|lia]. }
  assert (Z.of_nat (length (getb tot src obj)) = tot) as Elen by (rewrite getb_length; lia).
  destruct (block_of (off + tot) (off + tot + 1)) as (Hb & Hb1 & Hb2); [lia..|].
  assert (Z.of_nat (length L1) + 5 < NBUF) as HL1.
  { pose proof (wrote_log_length _ _ _ _ _ _ _ _ _ _ Hoff (lg_nodup _ _ (tx_able _ _ _ _ _ _ _ _ _ Ht1)) Hw1).
    rewrite Elen in *. pose proof (nblocks_mono off tot n). lia. }
  unfold fs at 1. kstep. apply wp_zoom. cbn [fst snd].
  eapply wp_mono; [apply (bmap_spec me start d W o sb Hsb (put_file l i a1 s) L1 V1 i _ c' F); try done|].
  all: rewrite ?inode_at_put by done; cbn [iaddrs idev set_iaddrs]; try done.
  { unfold put_file, upd_inode. cbn [itab]. by rewrite length_insert. }
  { apply Hw1. }
  intros x c1 s1 (Hc1 & l2 & L2 & V2 & a2 & -> & Ht2 & Hbm & Hfull).
  assert (put_file l2 i a2 (put_file l i a1 s) = put_file l2 i a2 s) as ->.
  { unfold put_file, upd_inode, set_flog, inode_at. simpl. rewrite list_insert_insert_eq. f_equal. f_equal.
    by rewrite list_lookup_total_insert_eq. }
  destruct (Z.eqb_spec x 0) as [->|Hx].
  { kstep. split; [done|]. exists tot. split_and!; [done|lia|lia|]. exists l2, L2, V2, a2. split_and!; [done..| |auto].
    eapply (wrote_no_block V a F size off _ L V1 a1 L1); try done; rewrite Elen; lia. }
  unfold fs at 1, get_inode. kstep. apply wp_zoom. kstep. cbn [fst snd]. rewrite inode_at_put by done. cbn [idev set_iaddrs]. fold ip. rewrite Hdev.
  assert (is_data sb x) as Hxd.
  { destruct (fo_blocks _ _ _ _ (bm_ok _ _ _ _ _ _ _ _ _ _ Hbm) _ Hb) as [E|[E _]]; rewrite (bm_at _ _ _ _ _ _ _ _ _ _ Hbm Hx) in E; done. }
  assert (0 <= (off + tot) mod BSIZE < BSIZE) as Hmod by (apply Z.mod_pos_bound; by vm_compute).
  set (m := Z.min (n - tot) (BSIZE - (off + tot) mod BSIZE)). set (ch := getb m (src + tot) obj).
  assert (Z.of_nat (length ch) = m) as Ech by (unfold ch; rewrite getb_length; lia).
  pose proof (wrote_chunk V a F size off (getb tot src obj) L V1 a1 L1 ((off + tot) / BSIZE) x V2 a2 L2 ch) as Hw3.
  rewrite Elen in Hw3. cbv zeta in Hw3. rewrite Ech in Hw3.
  specialize (Hw3 Hoff Hsz ltac:(lia) Hw1 Hbm Hx eq_refl ltac:(intros E; rewrite E in Ech; simpl in Ech; lia) ltac:(lia)
    (tx_block_ok _ _ _ _ _ _ _ _ _ _ Ht2)).
  unfold ch in Hw3 at 1. rewrite <- getb_app in Hw3 by lia.
  assert (Z.of_nat (length L2) + 4 < NBUF) as HL2.
  { pose proof (length_logged x L2). destruct (tx_able _ _ _ _ _ _ _ _ _ Ht2) as [_ _ _ Hnd].
    assert (NoDup (logged x L2)) as Hnd3.
    { unfold logged. case_decide; [done|]. apply NoDup_app. split_and!; [done|set_solver|apply NoDup_singleton]. }
    pose proof (wrote_log_length _ _ _ _ _ _ _ _ _ _ Hoff Hnd3 Hw3) as Hb3. rewrite getb_length, Z2Nat.id in Hb3 by lia.
    pose proof (nblocks_mono off (tot + m) n). lia. }
  unfold fs at 1. kstep. apply wp_zoom. cbn [fst snd].
  eapply wp_mono; [apply (fx_bread me start d W o (put_file l2 i a2 s) L2 [] V2); [done|done|apply not_elem_of_nil|right; simpl; lia]|].
  intros bp c2 s2 (-> & l3 & -> & Ht3). unfold fs at 1. kstep. apply wp_zoom. cbn [fst snd].
  eapply fx_data; [exact Ht3|by left|]. unfold mv. kstep. apply wp_zoom. cbn [either_copyin kernel_object fst snd].
  assert (Z.of_nat (length (getb m ((off + tot) mod BSIZE) (V2 x))) = m) as ->.
  { destruct (tx_block_ok _ _ _ _ _ _ _ _ _ x Ht3) as [Hlx _]. rewrite getb_length; rewrite ?Hlx; lia. }
  kstep. kstep. kstep. cbn [fst snd]. change (0 =? -1) with false. cbn match. fold ch.
  eapply (fx_chunk (set_flog l3 (put_file l2 i a2 s)) L2 V2); try done; [lia| |lia|unfold NBUF, LOGBLOCKS in *; lia|].
  { unfold ch, getb. by apply Forall_take, Forall_drop. }
  intros c3 l4 Hc3 Ht4. kstep. rewrite u64_id by lia. split_and!; [done|lia..|].
  eexists l4, (logged x L2), _, a2. split; [done|]. split; [exact Ht4|]. split; [exact Hw3|done].
Qed.

Lemma writei_spec c :
  tx (flog s) L [] V -> held c = [] -> is_inum sb (inum ip) -> dinode_ok (to_dinode ip) -> file_ok V a F -> no_holes V a size ->
  off <= size -> n < 2 ^ 31 ->
  wp (writei me i src off n) (fun r c' t => held c' = [] /\ 0 <= r <= n /\
    exists l L1 V1 a1, let size' := Z.max size (off + r) in
      wrote_to V a F size off (getb r src obj) L V1 a1 L1 /\ (r < n -> full sb V1) /\
      t = (put_file_size l i a1 size' s, obj) /\
      tx l (logged (IBLOCK (inum ip) sb) L1) [] (v_inode sb V1 (inum ip) (to_dinode (set_isize size' (set_iaddrs a1 ip))))) c (s, obj).
Proof.
  intros Ht Hc Hin Hdi Hf Hnh Hos Hn31. pose proof MAXFILE_bytes as EMB.
  unfold writei, fs at 1, get_inode at 1. kstep. apply wp_zoom. kstep. cbn [fst snd].
  change (isize (inode_at s i)) with size. rewrite u32_overflow, (u32_id (off + n)) by lia.
  rewrite (proj2 (Z.ltb_ge size off)), (proj2 (Z.leb_gt (2 ^ 32) (off + n))), (proj2 (Z.ltb_ge _ (off + n))) by lia. cbn [orb].
  kstep. eapply wp_mono; [apply writei_loop_spec; [done|]|].
  { exists (flog s), L, V, a. split_and!; [|done|by apply wrote_nothing|done].
    rewrite put_file_id by done. by destruct s. }
  intros r c1 t (Hc1 & tot & -> & Htot & l & L1 & V1 & a1 & -> & Ht1 & Hw1 & Hfull).
  assert (Z.of_nat (length (getb tot src obj)) = tot) as Elen by (rewrite getb_length; lia).
  assert (Z.of_nat (length L1) < NBUF) as HL1.
  { pose proof (wrote_log_length _ _ _ _ _ _ _ _ _ _ Hoff (lg_nodup _ _ (tx_able _ _ _ _ _ _ _ _ _ Ht1)) Hw1).
    rewrite Elen in *. pose proof (nblocks_mono off tot n). lia. }
  set (size' := Z.max size (off + tot)).
  unfold fs at 1, get_inode. kstep. apply wp_zoom. kstep. cbn [fst snd]. rewrite inode_at_put by done. cbn [isize set_iaddrs]. fold ip. fold size.
  assert (wp (fs (when (size <? off + tot) (mod_inode i (set_isize (off + tot)))))
    (fun _ c' t => c' = c1 /\ t = (put_file_size l i a1 size' s, obj)) c1 (put_file l i a1 s, obj)) as Hset.
  { unfold fs, wp, zoom, when, mod_inode, modify, skip, ret. cbn [fst snd]. unfold put_file_size, put_file, upd_inode, set_flog, inode_at. simpl.
    destruct (Z.ltb_spec size (off + tot)); cbn [fst snd itab]; split; try done; do 2 f_equal.
    - rewrite list_insert_insert_eq, list_lookup_total_insert_eq by done. f_equal. f_equal. unfold size'. lia.
    - f_equal. unfold set_isize, set_iaddrs. simpl. f_equal. change (isize (itab s !!! i)) with size. unfold size'. lia. }
  kstep. eapply wp_mono; [exact Hset|]. intros [] c2 t2 [-> ->]. unfold fs. kstep. apply wp_zoom. cbn [fst snd].
  assert (inode_at (put_file_size l i a1 size' s) i = set_isize size' (set_iaddrs a1 ip)) as Eip.
  { unfold inode_at, put_file_size, upd_inode, set_flog. simpl. by rewrite list_lookup_total_insert_eq. }
  eapply wp_mono; [apply (iupdate_spec me start d W o sb Hsb _ L1 [] V1); rewrite ?Eip; cbn [inum idev set_isize set_iaddrs]; try done|].
  { destruct Hdi as [D1 D2 D3 D4 D5 _]. split; try done; simpl; [unfold size'; lia|].
    split; [apply Hw1|]. eapply file_ok_addrs, Hw1. }
  { apply not_elem_of_nil. } { simpl. lia. }
  rewrite Eip. intros [] c3 s3 (Hc3 & l3 & -> & Ht3). kstep. rewrite i32_id by lia. split_and!; [done|lia|lia|].
  exists l3, L1, V1, a1. split_and!; [done..|exact Ht3].
Qed.
End one.
End write.
