(* ===== verification/FsFile.v ===== *)
(** * Files as byte sequences

    The theorems on reading and writing file contents. *)
From S2P Require Import Prelude Kmonad Riscv Mem Block Sleeplock Bio BioRing BioCache BioSpec Log LogSpec LogRun.
From S2P Require Import FsLayout Fs Tx FsBlock FsFormat FsInode FsRead FsBmap FsWrite.

Section file.
Context {D : BlockDev} (me start : Z) (d : disk) (W : list (Z * block)) (o : Z).
Context (sb : superblock) (Hsb : sb_ok sb start).
Implicit Types (s : fstate) (L : list Z) (V : Z -> block) (c : ctx) (k n x : Z) (a : list Z) (F : Z -> Prop) (obj : list Z).

Notation tx := (tx me start d W o).
Notation file_ok := (file_ok sb).

(** Updating an inode block changes no file. *)
Lemma v_inode_data V j di k : is_inum sb j -> sb_bmapstart sb <= k -> v_inode sb V j di k = V k.
Proof.
  intros Hj Hk. destruct (IBLOCK_range start sb Hsb j Hj) as (_ & ? & _). unfold v_inode. rewrite upd_ne; [done|lia].
Qed.

Lemma is_data_bmap k : is_data sb k -> sb_bmapstart sb <= k.
Proof. intros [? _]. destruct (sb_bounds sb start Hsb) as (_ & _ & _ & ? & _). lia. Qed.

Lemma baddr_inode V a F j di n : file_ok V a F -> is_inum sb j -> baddr (v_inode sb V j di) a n = baddr V a n.
Proof.
  intros Hf Hj. unfold baddr. destruct (n <? NDIRECT); [done|].
  destruct (Z.eqb_spec (a !!! Z.to_nat NDIRECT) 0) as [|E]; [done|]. destruct (fo_ind _ _ _ _ Hf) as [|(Hd & _)]; [done|].
  rewrite v_inode_data; [done|done|by apply is_data_bmap].
Qed.

Lemma used_inode V j di b : is_inum sb j -> 0 <= b < sb_size sb -> used sb (v_inode sb V j di) b = used sb V b.
Proof.
  intros Hj Hb. unfold used. destruct (BBLOCK_range sb start Hsb b Hb) as (_ & ? & _). rewrite v_inode_data; [done|done|lia].
Qed.

Lemma file_ok_inode V a F j di : file_ok V a F -> is_inum sb j -> file_ok (v_inode sb V j di) a F.
Proof.
  intros Hf Hj. pose proof (fun n => baddr_inode V a F j di n Hf Hj) as Eb.
  assert (forall k, is_data sb k -> used sb (v_inode sb V j di) k = used sb V k) as Eu.
  { intros k Hk. destruct (is_data_loggable sb start Hsb _ Hk). apply used_inode; [done|]. destruct Hk. lia. }
  split.
  - apply Hf.
  - intros b Hb. destruct (so_data _ _ Hsb). rewrite used_inode by (done || lia). by apply (fo_meta _ _ _ _ Hf).
  - destruct (fo_ind _ _ _ _ Hf) as [?|(? & ? & ?)]; [by left|right]. by rewrite Eu.
  - intros n Hn. rewrite Eb. destruct (fo_blocks _ _ _ _ Hf n Hn) as [?|(? & ? & ?)]; [by left|right]. by rewrite Eu.
  - intros n n'. rewrite !Eb. apply Hf.
  - intros n. rewrite Eb. apply Hf.
  - intros k Hk. destruct (fo_frame _ _ _ _ Hf k Hk). by rewrite Eu.
Qed.

Lemma fbyte_inode V a F j di p size :
  file_ok V a F -> no_holes V a size -> size <= MAXFILE * BSIZE -> is_inum sb j -> 0 <= p < size ->
  fbyte (v_inode sb V j di) a p = fbyte V a p.
Proof.
  intros Hf Hh Hs Hj Hp. unfold fbyte. rewrite (baddr_inode V a F) by done. destruct (block_of p size Hp Hs) as (Hb & ? & _).
  destruct (fo_blocks _ _ _ _ Hf _ Hb) as [E|(Hd & _)]; [by apply Hh in E; [|lia..]|].
  rewrite v_inode_data; [done|done|by apply is_data_bmap].
Qed.

(** An inode of the table that holds a file with contents; [F] are the
    blocks of all other files. *)
Record file_at s i V F : Prop := {
  fa_index : (i < length (itab s))%nat;
  fa_dev : idev (inode_at s i) = ROOTDEV;
  fa_inum : is_inum sb (inum (inode_at s i));
  fa_fields : dinode_ok (to_dinode (inode_at s i));
  fa_ok : file_ok V (iaddrs (inode_at s i)) F;
  fa_size : isize (inode_at s i) <= MAXFILE * BSIZE;
  fa_holes : no_holes V (iaddrs (inode_at s i)) (isize (inode_at s i));
}.

(** The contents of the file. *)
Definition content s i V : list Z := frange V (iaddrs (inode_at s i)) 0 (isize (inode_at s i)).

(** [bs] written over the bytes of [f] from [off] on. *)
Definition splice (f : list Z) (off : Z) (bs : list Z) : list Z :=
  take (Z.to_nat off) f ++ bs ++ drop (Z.to_nat off + length bs) f.

Lemma inode_at_size l i a size s : (i < length (itab s))%nat ->
  inode_at (put_file_size l i a size s) i = set_isize size (set_iaddrs a (inode_at s i)).
Proof. intros. unfold inode_at, put_file_size, upd_inode, set_flog. simpl. by rewrite list_lookup_total_insert_eq. Qed.

Lemma splice_frange V a V' a' size off bs :
  0 <= off <= size ->
  (forall p, 0 <= p < Z.max size (off + Z.of_nat (length bs)) ->
     fbyte V' a' p = if decide (off <= p < off + Z.of_nat (length bs)) then bs !!! Z.to_nat (p - off) else fbyte V a p) ->
  frange V' a' 0 (Z.max size (off + Z.of_nat (length bs))) = splice (frange V a 0 size) off bs.
Proof.
  intros Ho Hb. assert (length (splice (frange V a 0 size) off bs) = Z.to_nat (Z.max size (off + Z.of_nat (length bs)))) as Hlen.
  { unfold splice. rewrite !length_app, length_take, length_drop, frange_length. lia. }
  apply list_eq. intros j. destruct (decide (j < Z.to_nat (Z.max size (off + Z.of_nat (length bs))))%nat) as [Hj|Hj].
  2: { rewrite !lookup_ge_None_2; [done|lia|rewrite frange_length; lia]. }
  rewrite frange_lookup, Hb by lia. rewrite Z.add_0_l. unfold splice. case_decide as E.
  - rewrite lookup_app_r by (rewrite length_take, frange_length; lia). rewrite length_take, frange_length.
    rewrite lookup_app_l by lia. symmetry. replace (j - Z.to_nat off `min` Z.to_nat size)%nat with (Z.to_nat (Z.of_nat j - off)) by lia.
    apply list_lookup_lookup_total_lt. lia.
  - destruct (decide (Z.of_nat j < off)).
    + rewrite lookup_app_l by (rewrite length_take, frange_length; lia). rewrite lookup_take_lt by lia.
      rewrite frange_lookup by lia. by rewrite Z.add_0_l.
    + rewrite !lookup_app_r by (rewrite ?length_take, ?frange_length; lia). rewrite length_take, frange_length, lookup_drop.
      rewrite frange_lookup by lia. do 2 f_equal. lia.
Qed.

(** The effect of a write of [r] bytes of [obj] at [src]. *)
Definition written_file s i V F L (src off n : Z) obj (r : Z) (t : fstate * list Z) : Prop :=
  exists L' V', tx (flog (fst t)) L' [] V' /\ file_at (fst t) i V' F /\
      content (fst t) i V' = splice (content s i V) off (getb r src obj) /\
      (forall k, F k -> V' k = V k) /\
      (forall j, is_inum sb j ->
         dinode_at sb V' j = if decide (j = inum (inode_at s i)) then to_dinode (inode_at (fst t) i) else dinode_at sb V j) /\
      (r < n -> full sb V') /\
      Z.of_nat (length L') <= Z.of_nat (length L) + (data_start sb - sb_bmapstart sb) + nblocks off n + 2.

(** The state and the arguments of a write that is not rejected; the log and
    the cache have room for it. *)
Record can_write s i V F L (src off n : Z) obj : Prop := {
  cw_tx : tx (flog s) L [] V;
  cw_file : file_at s i V F;
  cw_begun : 1 <= o;
  cw_room : Z.of_nat (length L) + (data_start sb - sb_bmapstart sb) + nblocks off n + 6 < NBUF;
  cw_off : 0 <= off <= isize (inode_at s i);
  cw_max : 0 <= n /\ off + n <= MAXFILE * BSIZE;
  cw_src : 0 <= src /\ src + n <= Z.of_nat (length obj) /\ src + n < 2 ^ 64;
  cw_bytes : Forall byte obj;
}.

Lemma writei_file s L V i src off n c F obj :
  fsb s = sb -> held c = [] -> can_write s i V F L src off n obj ->
  wp (writei me i src off n) (fun r c' t => held c' = [] /\ 0 <= r <= n /\ snd t = obj /\ fsb (fst t) = sb /\
    (exists l a1 z, fst t = put_file_size l i a1 z s) /\ written_file s i V F L src off n obj r t) c (s, obj).
Proof.
  intros Es Hc [Ht [Hi Hdev Hin Hdi Hf Hsz Hnh] Ho Hroom Hoff [Hn Hmax] (Hsrc & Hobj & Hw) Hb]. set (ip := inode_at s i) in *. pose proof MAXFILE_bytes as EMB.
  eapply wp_mono; [apply (writei_spec me start d W o sb Hsb s i V L F src off n obj); fold ip; done || lia|].
  fold ip.
  intros r c' t (Hc' & Hr & l & L1 & V1 & a1 & Hw1 & Hfull & -> & Ht1). cbn [fst snd].
  assert (Z.of_nat (length (getb r src obj)) = r) as Elen by (rewrite getb_length; lia).
  set (size' := Z.max (isize ip) (off + r)) in *. set (ip' := set_isize size' (set_iaddrs a1 ip)).
  assert (inode_at (put_file_size l i a1 size' s) i = ip') as Eip by (by rewrite inode_at_size).
  pose proof Hw1 as [A1 A2 A3 A4 A5 A6]. rewrite Elen in A2, A3. fold size' in A2, A3.
  set (V' := v_inode sb V1 (inum ip) (to_dinode ip')) in *.
  assert (dinode_ok (to_dinode ip')) as Hdi'.
  { destruct Hdi as [D1 D2 D3 D4 D5 _]. split; try done; simpl; [unfold size'; fold ip in D5; simpl in D5; lia|].
    split; [apply A1|]. by eapply file_ok_addrs. }
  split_and!; [done|lia|lia|done|done|by eexists _, _, _|]. unfold written_file. cbn [fst snd]. fold ip. eexists _, V'. split; [exact Ht1|]. split_and!.
  - split; rewrite ?Eip; try done.
    + unfold put_file_size, upd_inode. cbn [itab]. by rewrite length_insert.
    + by apply file_ok_inode.
    + simpl. unfold size'. lia.
    + intros m Hm Hlt. unfold V'. cbn [iaddrs ip' set_isize set_iaddrs]. rewrite (baddr_inode V1 a1 F) by done. by apply A3.
  - unfold content. rewrite Eip. cbn [iaddrs isize ip' set_isize set_iaddrs]. fold ip.
    rewrite <- (splice_frange V (iaddrs ip) V' a1 (isize ip) off (getb r src obj)); rewrite ?Elen; [done|lia|].
    intros p Hp. rewrite <- A2 by done. eapply fbyte_inode; [exact A1|exact A3|unfold size'; lia|done|done].
  - intros k Hk. unfold V'. rewrite v_inode_data; [by apply A4|done|]. apply is_data_bmap. by apply (fo_frame _ _ _ _ Hf).
  - intros j Hj. rewrite Eip. unfold V'. rewrite (dinode_at_update start sb Hsb); [|intros k|done..].
    + case_decide; [done|]. unfold dinode_at. rewrite A5; [done|]. destruct (IBLOCK_range start sb Hsb j Hj) as (_ & ? & _). lia.
    + destruct (decide (k = IBLOCK (inum ip) sb)) as [->|Hk].
      * rewrite A5; [by eapply tx_block_ok|]. destruct (IBLOCK_range start sb Hsb _ Hin) as (_ & ? & _). fold ip. lia.
      * replace (V1 k) with (V' k) by (unfold V', v_inode; by rewrite upd_ne). by eapply tx_block_ok.
  - intros Hlt j Hj. unfold V'. rewrite used_inode by done. by apply Hfull.
  - pose proof (length_logged (IBLOCK (inum ip) sb) L1).
    assert (NoDup L1) as Hnd.
    { destruct (tx_able _ _ _ _ _ _ _ _ _ Ht1) as [_ _ _ Hnd]. unfold logged in Hnd. case_decide; [done|]. by apply NoDup_app in Hnd as [? _]. }
    assert (0 <= off) as Hoff0 by lia.
    pose proof (wrote_log_length start sb Hsb _ _ _ _ _ _ _ _ _ _ Hoff0 Hnd Hw1) as Hb3. rewrite Elen in Hb3.
    pose proof (nblocks_mono off r n). lia.
Qed.

Lemma frange_slice V a size off n : 0 <= off -> 0 <= n -> off + n <= size -> frange V a off n = getb n off (frange V a 0 size).
Proof.
  intros. apply list_eq. intros j. destruct (decide (j < Z.to_nat n)%nat).
  - rewrite getb_lookup, !frange_lookup by lia. do 2 f_equal. lia.
  - rewrite !lookup_ge_None_2; [done|unfold getb; rewrite length_take; lia|rewrite frange_length; lia].
Qed.

Lemma readi_file s L V i dst off n c F obj :
  fsb s = sb -> tx (flog s) L [] V -> held c = [] -> file_at s i V F -> Z.of_nat (length L) < NBUF ->
  0 <= off < 2 ^ 32 -> 0 <= n < 2 ^ 32 -> 0 <= dst -> dst + n <= Z.of_nat (length obj) -> dst + n < 2 ^ 64 ->
  wp (readi me i dst off n) (fun r c' t => held c' = [] /\ r = read_count (isize (inode_at s i)) off n /\
    exists l, t = (set_flog l s, putb dst (getb r off (content s i V)) obj) /\ tx l L [] V) c (s, obj).
Proof.
  intros Es Ht Hc [Hi Hdev Hin Hdi Hf Hsz Hnh] Hroom Hoff Hn Hdst Hobj Hw.
  pose proof (do_size _ Hdi) as Hs0. cbn [d_size to_dinode] in Hs0.
  eapply wp_mono; [apply (readi_spec me start d W o sb s L V i dst off n c F obj); done || lia|].
  intros r c' t (Hr & Hc' & l & -> & Hl). split_and!; [done..|]. exists l. split; [|done]. do 2 f_equal.
  unfold read_count in Hr. destruct ((_ <? off) || _) eqn:E; [by rewrite Hr|]. apply orb_false_iff in E as [E1%Z.ltb_ge _].
  apply frange_slice; lia.
Qed.

(** C10: [writei] writes the bytes of its source at [off] in the file and
    changes no other file: with [r] the number of bytes written, the contents
    of the file are the old ones with those [r] bytes spliced in, all blocks of
    other files and all other inodes on disk are as they were, the inode on
    disk agrees with the one in memory, and [r] is less than asked for only
    when no block is free.  At most one block for each block of the file
    touched, the bitmap blocks, the indirect block and the inode block are
    logged. *)
Theorem writei_correct s L V i src off n c F obj :
  fsb s = sb -> held c = [] -> can_write s i V F L src off n obj ->
  wp (writei me i src off n) (fun r _ t => 0 <= r <= n /\ snd t = obj /\
    exists L' V', tx (flog (fst t)) L' [] V' /\ file_at (fst t) i V' F /\
      content (fst t) i V' = splice (content s i V) off (getb r src obj) /\
      (forall k, F k -> V' k = V k) /\
      (forall j, is_inum sb j ->
         dinode_at sb V' j = if decide (j = inum (inode_at s i)) then to_dinode (inode_at (fst t) i) else dinode_at sb V j) /\
      (r < n -> full sb V') /\
      Z.of_nat (length L') <= Z.of_nat (length L) + (data_start sb - sb_bmapstart sb) + nblocks off n + 2) c (s, obj).
Proof.
  intros Es Hc Hcw. eapply wp_mono; [by apply (writei_file s L V i src off n c F obj)|].
  intros r c' t (_ & Hr & Et & _ & _ & Hp). split_and!; [lia|lia|done|exact Hp].
Qed.

(** C31: [readi] copies to the destination the bytes of the file from [off]
    on, as many as asked for or as there are (none when the offset is past the
    end or [off + n] overflows), and changes neither the file system nor the
    log: in particular it never allocates a block. *)
Theorem readi_correct s L V i dst off n c F obj :
  fsb s = sb -> tx (flog s) L [] V -> held c = [] -> file_at s i V F -> Z.of_nat (length L) < NBUF ->
  0 <= off < 2 ^ 32 -> 0 <= n < 2 ^ 32 -> 0 <= dst -> dst + n <= Z.of_nat (length obj) -> dst + n < 2 ^ 64 ->
  wp (readi me i dst off n) (fun r _ t =>
    r = (if (isize (inode_at s i) <? off) || (2 ^ 32 <=? off + n) then 0 else Z.min n (isize (inode_at s i) - off)) /\
    exists l, t = (set_flog l s, putb dst (getb r off (content s i V)) obj) /\ tx l L [] V) c (s, obj).
Proof.
  intros. eapply wp_mono; [by apply (readi_file s L V i dst off n c F obj)|].
  intros r c' t (_ & Hr & Ht). by split.
Qed.

Lemma splice_get f off bs : 0 <= off <= Z.of_nat (length f) -> getb (Z.of_nat (length bs)) off (splice f off bs) = bs.
Proof.
  intros. unfold getb, splice. rewrite drop_app_ge by (rewrite length_take; lia). rewrite length_take.
  replace (Z.to_nat off - Z.to_nat off `min` length f)%nat with 0%nat by lia. rewrite drop_0, Nat2Z.id. by rewrite take_app_length.
Qed.

(** What was written is read back: [readi] of the bytes that [writei]
    reported as written copies exactly those bytes to the destination. *)
Theorem writei_readi_roundtrip s L V i src off n c F obj dst :
  fsb s = sb -> held c = [] -> can_write s i V F L src off n obj ->
  Z.of_nat (length dst) = n ->
  wp (writei me i src off n) (fun r c' t =>
    wp (readi me i 0 off r) (fun r' _ t' => r' = r /\ snd t' = putb 0 (getb r src obj) dst) c' (fst t, dst)) c (s, obj).
Proof.
  intros Es Hc Hcw Hdst. pose proof Hcw as [Ht Hfa Ho Hroom Hoff [Hn Hmax] (Hsrc & Hobj & Hw) Hb]. pose proof MAXFILE_bytes as EMB.
  pose proof (do_size _ (fa_fields _ _ _ _ Hfa)) as Hs0. cbn [d_size to_dinode] in Hs0.
  eapply wp_mono; [by apply (writei_file s L V i src off n c F obj)|].
  intros r c' t (Hc' & Hr & _ & Es' & _ & L' & V' & Ht' & Hfa' & Hcont & _ & _ & _ & HL').
  assert (Z.of_nat (length (getb r src obj)) = r) as Elen by (rewrite getb_length; lia).
  assert (isize (inode_at (fst t) i) = Z.max (isize (inode_at s i)) (off + r)) as Esz.
  { pose proof (do_size _ (fa_fields _ _ _ _ Hfa')) as Hs1. cbn [d_size to_dinode] in Hs1.
    apply (f_equal length) in Hcont. unfold content, splice in Hcont.
    rewrite !length_app, length_take, length_drop, !frange_length in Hcont. lia. }
  eapply wp_mono; [apply (readi_file (fst t) L' V' i 0 off r c' F dst); done || lia|].
  intros r' c2 t2 (_ & -> & l & -> & _). unfold read_count. rewrite Esz.
  rewrite (proj2 (Z.ltb_ge _ off)), (proj2 (Z.leb_gt (2 ^ 32) _)) by lia. cbn [orb]. rewrite Z.min_l by lia.
  split; [done|]. cbn [snd]. f_equal. rewrite Hcont.
  rewrite <- (splice_get (content s i V) off (getb r src obj)) at 2; [by rewrite Elen|].
  unfold content. rewrite frange_length. lia.
Qed.
End file.

(** ** Witnesses: an empty file on the example disk *)

Definition ex_inode : inode := Inode ROOTDEV 1 1 (SleepLock 1 1) 1 T_FILE 0 0 1 0 (replicate 13 0).
Definition ex_fs (l : @lstate map_disk) : fstate := Fst l ex_sb [ex_inode].

Lemma ex_baddr V n : 0 <= n < MAXFILE -> baddr V (replicate 13 0) n = 0.
Proof.
  intros Hn. unfold baddr. destruct (Z.ltb_spec n NDIRECT) as [Hlt|]; [|done]. unfold NDIRECT in Hlt.
  rewrite list_lookup_total_alt, lookup_replicate_2 by lia. done.
Qed.

Lemma ex_file_at l : file_at ex_sb (ex_fs l) 0 (dread (BlockDev := map_disk) ex_disk) (fun _ => False).
Proof.
  split; try done.
  - simpl. lia.
  - split; simpl; try (unfold is_short, T_FILE; lia). split; [done|]. apply (Forall_replicate _ 13 0). lia.
  - split; [done|..|done].
    + apply ex_meta_used.
    + by left.
    + intros n Hn. left. by apply ex_baddr.
    + intros n n' Hn _ Hx. exfalso. apply Hx. by apply ex_baddr.
    + intros n Hn Hx. exfalso. apply Hx. by apply ex_baddr.
  - intros n Hn Hlt. exfalso. cbn in Hlt. unfold BSIZE in Hlt. lia.
Qed.

Definition hello : list Z := [104; 101; 108; 108; 111].

Lemma hello_bytes : Forall byte hello.
Proof. repeat (constructor; [unfold byte; lia|]). constructor. Qed.

Lemma ex_can_write l : tx 1 2 (ex_disk : disk (BlockDev := map_disk)) (dwrites (lbio l)) 1 l [] [] (dread (BlockDev := map_disk) ex_disk) ->
  can_write (D := map_disk) 1 2 ex_disk (dwrites (lbio l)) 1 ex_sb (ex_fs l) 0 (dread (BlockDev := map_disk) ex_disk) (fun _ => False) [] 0 0 5 hello.
Proof.
  intros Hl. split; [done|apply ex_file_at|done|by vm_compute|done|by vm_compute|by vm_compute|apply hello_bytes].
Qed.

Lemma writei_correct_witness :
  exists (s : @fstate map_disk) r c' t, writei (M := list Z) 1 0 0 0 5 (Ctx [] []) (s, hello) = Ok r c' t /\ snd t = hello.
Proof.
  destruct (fresh_tx (D := map_disk) ex_disk 1 2 1 ex_fs_disk_ok) as [l Hl]; [lia|by vm_compute|].
  pose proof (writei_correct (D := map_disk) 1 2 ex_disk _ 1 ex_sb ex_sb_ok (ex_fs l) [] _ 0 0 0 5 (Ctx [] []) _ hello eq_refl eq_refl (ex_can_write l Hl)) as H.
  apply wp_inv in H as (r & c' & t & Hrun & _ & Et & _). exists (ex_fs l), r, c', t. split; [exact Hrun|exact Et].
Defined.

Lemma readi_correct_witness :
  exists (s : @fstate map_disk) c' t, readi (M := list Z) 1 0 0 0 5 (Ctx [] []) (s, hello) = Ok 0 c' t.
Proof.
  destruct (fresh_tx (D := map_disk) ex_disk 1 2 1 ex_fs_disk_ok) as [l Hl]; [lia|by vm_compute|].
  pose proof (readi_correct (D := map_disk) 1 2 ex_disk _ 1 ex_sb (ex_fs l) [] _ 0 0 0 5 (Ctx [] []) _ hello eq_refl Hl eq_refl (ex_file_at l)) as H.
  specialize (H ltac:(by vm_compute) ltac:(lia) ltac:(lia) ltac:(lia) ltac:(simpl; lia) ltac:(lia)).
  apply wp_inv in H as (r & c' & t & Hrun & -> & _). exists (ex_fs l), c', t. exact Hrun.
Defined.

Lemma writei_readi_roundtrip_witness :
  exists (s : @fstate map_disk) r c' t, writei (M := list Z) 1 0 0 0 5 (Ctx [] []) (s, hello) = Ok r c' t /\
    wp (readi (M := list Z) 1 0 0 0 r) (fun r' _ t' => r' = r /\ snd t' = putb 0 (getb r 0 hello) [0; 0; 0; 0; 0]) c' (fst t, [0; 0; 0; 0; 0]).
Proof.
  destruct (fresh_tx (D := map_disk) ex_disk 1 2 1 ex_fs_disk_ok) as [l Hl]; [lia|by vm_compute|].
  pose proof (writei_readi_roundtrip (D := map_disk) 1 2 ex_disk _ 1 ex_sb ex_sb_ok (ex_fs l) [] _ 0 0 0 5 (Ctx [] []) _ hello [0; 0; 0; 0; 0]
    eq_refl eq_refl (ex_can_write l Hl) eq_refl) as H.
  apply wp_inv in H as (r & c' & t & Hrun & H). exists (ex_fs l), r, c', t. split; [exact Hrun|exact H].
Defined.
