(* ===== verification/FsPath.v ===== *)
(** * kernel/fs.c: path names

    [skipelem] called again and again, as [namex] does, yields the parts of
    the path between its slashes, the empty ones left out and long ones cut
    to [DIRSIZ] bytes; the number of turns is at most the length of the path. *)
From S2P Require Import Prelude Block FsLayout FsDir.

Implicit Types (path name s : list Z).

(** ** The reference: split at the slashes *)

Fixpoint split_slash path : list (list Z) :=
  match path with
  | [] => [[]]
  | c :: p =>
      if c =? SLASH then [] :: split_slash p
      else match split_slash p with
           | s :: l => (c :: s) :: l
           | [] => [[c]]
           end
  end.

Definition parts path : list (list Z) := filter (fun s => s <> []) (split_slash path).

(** The C string in the array [name] of [DIRSIZ] bytes. *)
Definition name_str name : list Z := before_nul (take (Z.to_nat DIRSIZ) name).

(** The names [namex] sees: [skipelem] until it returns null, and whether it did. *)
Fixpoint path_names (fuel : nat) path name : option (list (list Z)) :=
  match fuel with
  | O => None
  | S n =>
      match skipelem path name with
      | None => Some []
      | Some (path, name) => (fun l => name_str name :: l) <$> path_names n path name
      end
  end.

(** ** Lemmas *)

Lemma parts_skip path : parts (skip_slashes path) = parts path.
Proof.
  induction path as [|c p IH]; [done|]. cbn [skip_slashes]. destruct (c =? SLASH) eqn:E; [|done]. rewrite IH.
  unfold parts. cbn [split_slash]. by rewrite E.
Qed.

Lemma path_elem_spec path s r : path_elem path = (s, r) ->
  path = s ++ r /\ split_slash path = match r with [] => [s] | _ :: p => s :: split_slash p end /\
  (r = [] \/ exists p, r = SLASH :: p).
Proof.
  revert s r. induction path as [|c p IH]; cbn; intros s r.
  - intros [= <- <-]. split_and!; [done|done|by left].
  - destruct (Z.eqb_spec c SLASH) as [->|Hc]; [intros [= <- <-]; split_and!; [done|done|right; by exists p]|].
    destruct (path_elem p) as [s' r'] eqn:E. intros [= <- <-]. destruct (IH _ _ eq_refl) as (-> & -> & Hr).
    split_and!; [done|by destruct r'|done].
Qed.

(** The element in the array. *)
Lemma name_put s name : length name = Z.to_nat DIRSIZ -> no_nul s ->
  let name' := if DIRSIZ <=? Z.of_nat (length s) then putb 0 (take (Z.to_nat DIRSIZ) s) name else putb 0 (s ++ [0]) name in
  name_str name' = take (Z.to_nat DIRSIZ) s /\ length name' = Z.to_nat DIRSIZ.
Proof.
  intros Hn Hs. cbn zeta. unfold putb, name_str. change (Z.to_nat 0) with O. rewrite take_0. cbn [app Nat.add]. destruct (Z.leb_spec DIRSIZ (Z.of_nat (length s))).
  - split; [|rewrite length_app, length_drop, length_take; lia].
    rewrite take_app_le by (rewrite length_take; lia). rewrite take_take, Nat.min_id. apply before_nul_all. by apply Forall_take.
  - split; [|rewrite !length_app, length_drop, ?length_app; cbn [length]; lia].
    rewrite <- app_assoc, take_app_ge by lia. cbn [app]. rewrite (take_ge s) by lia.
    replace (Z.to_nat DIRSIZ - length s)%nat with (S (Z.to_nat DIRSIZ - length s - 1)) by lia. cbn [take]. by apply before_nul_app.
Qed.

Lemma skip_slashes_spec path : no_nul path -> no_nul (skip_slashes path) /\ (length (skip_slashes path) <= length path)%nat /\
  match skip_slashes path with c :: _ => c <> SLASH | [] => True end.
Proof.
  induction 1 as [|c p Hc Hp IH]; cbn; [by split_and!; [constructor| |]|]. destruct (Z.eqb_spec c SLASH).
  - destruct IH as (? & ? & ?). split_and!; [done|lia|done].
  - split_and!; [by constructor|cbn; lia|done].
Qed.

(** One step: the first part, and what is left of the path. *)
Lemma skipelem_step path name : length name = Z.to_nat DIRSIZ -> no_nul path ->
  match skipelem path name with
  | None => parts path = []
  | Some (path', name') => exists s, parts path = s :: parts path' /\ name_str name' = take (Z.to_nat DIRSIZ) s /\
      length name' = Z.to_nat DIRSIZ /\ no_nul path' /\ (length path' < length path)%nat
  end.
Proof.
  intros Hn Hp. unfold skipelem. rewrite <- (parts_skip path). destruct (skip_slashes_spec path Hp) as (Hq & Hl & Hc).
  destruct (skip_slashes path) as [|c q]; [done|]. destruct (path_elem (c :: q)) as [s r] eqn:E.
  destruct (path_elem_spec _ _ _ E) as (Eq & Esp & Hr). rewrite Eq in Hq, Hl. apply Forall_app in Hq as [Hs Hr'].
  destruct (skip_slashes_spec r Hr') as (Hk & Hkl & _). destruct (name_put s name Hn Hs) as [H1 H2].
  assert (s <> []) as Hne by (intros ->; destruct Hr as [->|[p ->]]; [done|]; by injection Eq as ->).
  exists s. split_and!; [|done|done|done|].
  - rewrite parts_skip. unfold parts. rewrite Esp. destruct r as [|x r].
    + by rewrite filter_cons_True.
    + rewrite filter_cons_True by done. destruct Hr as [?|[p [= -> ->]]]; [done|]. cbn [split_slash]. by rewrite Z.eqb_refl, filter_cons_False by tauto.
  - rewrite length_app in Hl. assert (length s <> 0)%nat by (by destruct s). lia.
Qed.

(** C33: The loop of [namex] sees exactly the parts of the path between its
    slashes, in order, without the empty ones and each cut to [DIRSIZ] bytes,
    whatever the array [name] held before; and it ends after at most as many
    turns as the path has bytes, which is the fuel [namex] has. *)
Theorem skipelem_splits path name : length name = Z.to_nat DIRSIZ -> no_nul path ->
  path_names (length path + 1) path name = Some (take (Z.to_nat DIRSIZ) <$> parts path).
Proof.
  intros Hn Hp. assert (forall n, (length path < n)%nat -> path_names n path name = Some (take (Z.to_nat DIRSIZ) <$> parts path)) as H; [|apply H; lia].
  intros n. revert path name Hn Hp. induction n as [|n IH]; intros path name Hn Hp Hl; [lia|]. cbn [path_names].
  pose proof (skipelem_step path name Hn Hp) as H. destruct (skipelem path name) as [[path' name']|]; [|by rewrite H].
  destruct H as (s & -> & -> & Hn' & Hp' & Hlt). rewrite IH by (done || lia). done.
Qed.

Lemma skipelem_splits_witness :
  path_names 10 [47; 47; 97; 47; 98; 98; 47; 99; 47] (replicate 14 0) = Some [[97]; [98; 98]; [99]].
Proof.
  refine (skipelem_splits [47; 47; 97; 47; 98; 98; 47; 99; 47] (replicate 14 0) _ _); [reflexivity|]. repeat constructor; discriminate.
Defined.
