(* ===== verification/FsLookup.v ===== *)
(** * kernel/fs.c: directories

    A directory is a file of 16-byte entries.  [dirlookup] finds the first
    used entry with the name, and gets its inode from the table of inodes
    ([iget]), which keeps one entry per inode in use. *)
From S2P Require Import Prelude Kmonad Riscv Mem Block Sleeplock Bio BioSpec Log LogSpec Tx FsLayout Fs FsDir FsBlock FsFormat FsInode FsRead FsBmap FsWrite FsFile FsPath.

(** ** Names *)

Lemma strncmp_l_eq n p q : Forall byte p -> Forall byte q ->
  strncmp_l n p q = 0 <-> before_nul (take n p) = before_nul (take n q).
Proof.
  revert p q. induction n as [|n IH]; intros p q Hp Hq; [done|]. cbn [strncmp_l].
  destruct Hp as [|x p Hx Hp], Hq as [|y q Hy Hq]; cbn [hd tl take before_nul]; unfold byte in *.
  - done.
  - destruct (Z.eqb_spec y 0); cbn; split; intros; (lia || done).
  - destruct (Z.eqb_spec x 0); cbn; [split; intros; (lia || done)|]. destruct (Z.eqb_spec x 0); [lia|]. cbn. split; intros; (lia || done).
  - destruct (Z.eqb_spec x 0) as [->|Hx0]; cbn.
    + destruct (Z.eqb_spec y 0); split; intros; (lia || done).
    + destruct (Z.eqb_spec x y) as [->|Hne].
      * rewrite (proj2 (Z.eqb_neq y 0)) by done. rewrite IH by done. split; [by intros ->|by intros [= ->]].
      * destruct (Z.eqb_spec y 0); split; intros; try lia; simplify_eq.
Qed.

(** ** iget *)

Definition cached (dev inum' : Z) (ip : inode) : Prop := 0 < iref ip /\ idev ip = dev /\ inum ip = inum'.
#[global] Instance cached_dec dev i ip : Decision (cached dev i ip).
Proof. unfold cached. apply _. Defined.
Definition first_cached dev inum' (t : list inode) : option (nat * inode) := list_find (cached dev inum') t.
Definition first_free (t : list inode) : option (nat * inode) := list_find (fun ip => iref ip = 0) t.

Section lookup.
Context {D : BlockDev} (me start : Z) (d : disk) (W : list (Z * block)) (o : Z) (sb : superblock).
Notation tx := (tx me start d W o).
Implicit Types (s : fstate) (L : list Z) (V : Z -> block) (c : ctx) (F : Z -> Prop).

(** The inode table after [iget] returned entry [i] for inode [inum'] of [dev]. *)
Inductive got dev inum' s : nat -> fstate -> Prop :=
  | got_cached i ip : first_cached dev inum' (itab s) = Some (i, ip) -> got dev inum' s i (upd_inode i (set_iref (iref ip + 1)) s)
  | got_fresh i ip : first_cached dev inum' (itab s) = None -> first_free (itab s) = Some (i, ip) ->
      got dev inum' s i (upd_inode i (fun ip => set_ivalid 0 (set_iref 1 (set_iid dev inum' ip))) s).

Lemma upd_inode_twice i f g s : upd_inode i f (upd_inode i g s) = upd_inode i (fun ip => f (g ip)) s.
Proof.
  unfold upd_inode, inode_at. cbn. f_equal. rewrite list_insert_insert_eq. destruct (decide (i < length (itab s))%nat) as [Hi|Hi].
  - by rewrite list_lookup_total_insert_eq.
  - by rewrite !list_insert_ge by lia.
Qed.

(** The first free entry below [i], as the loop keeps it in [empty]. *)
Definition free_below (t : list inode) (i : nat) (e : option nat) : Prop :=
  match e with
  | None => forall j, (j < i)%nat -> iref (t !!! j) <> 0
  | Some k => (k < i)%nat /\ iref (t !!! k) = 0 /\ forall j, (j < k)%nat -> iref (t !!! j) <> 0
  end.

Lemma free_below_S t i e : free_below t i e ->
  free_below t (i + 1) (match e with None => if iref (t !!! i) =? 0 then Some i else None | Some _ => e end).
Proof.
  destruct e as [k|]; cbn.
  - intros (? & ? & ?). split_and!; [lia|done|done].
  - intros H. destruct (Z.eqb_spec (iref (t !!! i)) 0); cbn; [split_and!; [lia|done|done]|]. by apply below_S.
Qed.

Lemma iget_spec dev inum' c s : length (itab s) = ninode -> held c = [] ->
  (exists i, (i < ninode)%nat /\ iref (inode_at s i) = 0) ->
  wp (iget dev inum') (fun i c' s' => held c' = [] /\ got dev inum' s i s') c s.
Proof.
  intros Hn Hc (f & Hf & Hfree). unfold iget. kstep. apply wp_acquire; [rewrite Hc; apply not_elem_of_nil|]. kstep.
  apply (wp_loop (fun k '(i, e) c' s' => held c' = [itable_lock] /\ s' = s /\ (ninode - i < k)%nat /\ (i <= ninode)%nat /\
    free_below (itab s) i e /\ forall j, (j < i)%nat -> ~ cached dev inum' (itab s !!! j))).
  2: { cbn [held]. rewrite Hc. split_and!; [done|done|lia|lia|cbn; lia|lia]. }
  intros k [i e] [h w] s1 (Hc1 & -> & Hk & Hi & He & Hj). cbn [held] in Hc1. subst h. destruct k as [|k]; [lia|]. exists k. split; [done|].
  destruct (Nat.ltb_spec i ninode) as [Hlt|].
  - unfold get_inode, mod_inode. ksteps. unfold id. fold (inode_at s i).
    destruct ((0 <? iref (inode_at s i)) && (idev (inode_at s i) =? dev) && (inum (inode_at s i) =? inum')) eqn:E.
    + apply andb_prop in E as [[E1%Z.ltb_lt E2%Z.eqb_eq]%andb_prop E3%Z.eqb_eq]. ksteps. split; [done|]. apply got_cached. apply list_find_first; [lia|done|done].
    + kstep. split_and!; [done|done|lia|lia|by apply free_below_S|]. apply below_S; [done|]. fold (inode_at s i). intros (H1 & H2 & H3).
      by rewrite (proj2 (Z.ltb_lt _ _) H1), H2, H3, !Z.eqb_refl in E.
  - apply wp_ret. assert (i = ninode) as -> by lia.
    assert (first_cached dev inum' (itab s) = None) as Hnone by (apply list_find_none; rewrite Hn; done).
    destruct e as [i|]; cbn in He; [|by destruct (He f)]. destruct He as (Hi1 & Hi2 & Hi3).
    unfold mod_inode. ksteps. split; [done|]. rewrite !upd_inode_twice. apply (got_fresh _ _ _ _ (itab s !!! i)); [done|]. apply list_find_first; [lia|done|done].
Qed.

(** ** Entries of a directory *)

(** Entry [k] of a directory with contents [f]. *)
Definition entry (f : list Z) (k : nat) : dirent := get_dirent (getb sizeof_dirent (sizeof_dirent * Z.of_nat k) f).
Definition dirents (f : list Z) : list dirent := entry f <$> seq 0 (length f / 16).
#[global] Instance dirent_inhabited : Inhabited dirent := populate (Dirent 0 []).

(** The entry is in use and has the name. *)
Definition matches (name : list Z) (de : dirent) : Prop := de_inum de <> 0 /\ name_str (de_name de) = name_str name.
#[global] Instance matches_dec name de : Decision (matches name de).
Proof. unfold matches. apply _. Defined.

Lemma dirents_length f : length (dirents f) = (length f / 16)%nat.
Proof. unfold dirents. by rewrite length_fmap, length_seq. Qed.

Lemma dirents_at f k : (k < length f / 16)%nat -> dirents f !!! k = entry f k.
Proof. intros Hk. unfold dirents. by rewrite list_lookup_total_alt, list_lookup_fmap, lookup_seq_lt. Qed.

Lemma wp_local {A} {Lc : Type} (l : Lc) (m : K (fstate * Lc) A) Q c s :
  wp m (fun a c' t => Q (a, snd t) c' (fst t)) c (s, l) -> wp (with_local l m) Q c s.
Proof. unfold wp, with_local. by destruct (m c (s, l)) as [a c' [s' l']|?|? ? [s' l']|]. Qed.

Lemma content_bytes s L V i : tx (flog s) L [] V -> Forall byte (content s i V).
Proof.
  intros Ht. unfold content, frange. apply Forall_fmap, Forall_true. intros j. unfold compose, fbyte.
  destruct (tx_block_ok _ _ _ _ _ _ _ _ _ (baddr V (iaddrs (inode_at s i)) ((0 + Z.of_nat j) / BSIZE)) Ht) as [Hl Hb].
  apply (Forall_lookup_total_1 _ _ _ Hb). rewrite Hl. unfold BSIZE. zlia.
Qed.

Lemma whole_object bs de : length bs = length de -> putb 0 bs de = bs.
Proof. intros E. unfold putb. change (Z.to_nat 0) with O. rewrite take_0, drop_ge by lia. by rewrite app_nil_r. Qed.

(** [dp] is a directory. *)
Record dir_at s dp V F : Prop := {
  da_file : file_at sb s dp V F;
  da_type : itype (inode_at s dp) = T_DIR;
  da_size : isize (inode_at s dp) mod sizeof_dirent = 0;
}.

Lemma dir_at_flog l s dp V F : dir_at s dp V F -> dir_at (set_flog l s) dp V F.
Proof. intros [[H1 H2 H3 H4 H5 H6 H7] H8 H9]. split; [split|..]; done. Qed.

Lemma read_dirent_spec s L V dp k de c F :
  fsb s = sb -> tx (flog s) L [] V -> held c = [] -> dir_at s dp V F -> Z.of_nat (length L) < NBUF ->
  (k < length (content s dp V) / 16)%nat -> length de = 16%nat ->
  wp (read_dirent me dp (sizeof_dirent * Z.of_nat k) de) (fun r c' s' => held c' = [] /\ fst r = sizeof_dirent /\
    length (snd r) = 16%nat /\ get_dirent (snd r) = entry (content s dp V) k /\ exists l, s' = set_flog l s /\ tx l L [] V) c s.
Proof.
  intros Es Ht Hc [Hfa Hty Hsz] HL Hk Hde. pose proof (do_size _ (fa_fields _ _ _ _ _ Hfa)) as Hs0. cbn [d_size to_dinode] in Hs0.
  pose proof (fa_size _ _ _ _ _ Hfa) as Hmax. rewrite MAXFILE_bytes in Hmax.
  assert (length (content s dp V) = Z.to_nat (isize (inode_at s dp))) as Hlen by (unfold content; by rewrite frange_length).
  assert (16 * Z.of_nat k + 16 <= isize (inode_at s dp)) as Hin.
  { rewrite Hlen in Hk. pose proof (Nat.Div0.mul_div_le (Z.to_nat (isize (inode_at s dp))) 16). lia. }
  unfold read_dirent, sizeof_dirent. apply wp_local. eapply wp_mono; [apply (readi_file me start d W o sb s L V dp 0 (16 * Z.of_nat k) 16 c F de); done || lia|].
  intros r c' t (Hc' & -> & l & -> & Hl). cbn [fst snd]. unfold read_count.
  rewrite (proj2 (Z.ltb_ge _ _)), (proj2 (Z.leb_gt (2 ^ 32) _)) by lia. cbn [orb]. rewrite Z.min_l by lia.
  assert (length (getb 16 (16 * Z.of_nat k) (content s dp V)) = 16%nat) as Hg.
  { unfold getb. rewrite length_take, length_drop. lia. }
  rewrite whole_object by lia. split_and!; [done|done|done|done|]. by exists l.
Qed.

Lemma namecmp_matches f k name : Forall byte f -> Forall byte name ->
  matches name (entry f k) <-> de_inum (entry f k) <> 0 /\ namecmp name (de_name (entry f k)) = 0.
Proof.
  intros Hf Hn. unfold matches, namecmp, name_str. rewrite strncmp_l_eq; [|done|].
  - split; intros [? E]; by rewrite E.
  - unfold entry, get_dirent, getb. cbn [de_name]. by apply Forall_take, Forall_drop, Forall_take, Forall_drop.
Qed.

(** C32: [dirlookup] returns the first entry of the directory that is in use
    and has the name (compared as C strings of at most [DIRSIZ] bytes), with
    its offset, and the entry of the inode table for its inode, one reference
    more or newly taken; or null when there is none. The file system and the
    log do not change, and it panics on no well-formed directory. *)
Theorem dirlookup_finds s L V dp name c F :
  fsb s = sb -> tx (flog s) L [] V -> held c = [] -> dir_at s dp V F -> Z.of_nat (length L) < NBUF ->
  length (itab s) = ninode -> (exists i, (i < ninode)%nat /\ iref (inode_at s i) = 0) -> Forall byte name ->
  wp (dirlookup me dp name) (fun r c' s' => held c' = [] /\ exists l, tx l L [] V /\
    match list_find (matches name) (dirents (content s dp V)) with
    | None => r = None /\ s' = set_flog l s
    | Some (k, de) => exists ip, r = Some (ip, sizeof_dirent * Z.of_nat k) /\ got ROOTDEV (de_inum de) (set_flog l s) ip s'
    end) c s.
Proof.
  intros Es Ht Hc Hd HL Hn Hfree Hname. pose proof Hd as [Hfa Hty Hsz]. pose proof (do_size _ (fa_fields _ _ _ _ _ Hfa)) as Hs0. cbn [d_size to_dinode] in Hs0.
  pose proof (fa_size _ _ _ _ _ Hfa) as Hmax. rewrite MAXFILE_bytes in Hmax. unfold dirlookup, get_inode. kstep. kstep. rewrite Hty, Z.eqb_refl. cbn [negb]. kstep. kstep.
  set (f := content s dp V). assert (Forall byte f) as Hb by (by eapply content_bytes). set (size := isize (inode_at s dp)) in *.
  assert (length f = Z.to_nat size) as Hlen by (unfold f, content; by rewrite frange_length).
  set (n := (length f / 16)%nat). assert (size = 16 * Z.of_nat n) as Hsize by (unfold n, sizeof_dirent in *; rewrite Hlen, Nat2Z.inj_div; zlia).
  apply (wp_loop (fun (fuel : nat) '(off, de) c' s' => exists k l, off = 16 * Z.of_nat k /\ (k <= n)%nat /\ (n - k < fuel)%nat /\ length de = 16%nat /\
    held c' = [] /\ s' = set_flog l s /\ tx l L [] V /\ forall j, (j < k)%nat -> ~ matches name (dirents f !!! j))).
  2: { exists O, (flog s). split_and!; try done; try lia; [|by destruct s]. unfold sizeof_dirent. rewrite Hsize, Z.mul_comm, Z.div_mul, Nat2Z.id by lia. lia. }
  intros fuel [off de] c1 s1 (k & l & -> & Hk & Hfuel & Hde & Hc1 & -> & Hl & Hj). destruct fuel as [|fuel]; [lia|]. exists fuel. split; [done|].
  destruct (Z.ltb_spec (16 * Z.of_nat k) size) as [Hlt|].
  2: { apply wp_ret. split; [done|]. exists l. split; [done|]. rewrite list_find_none; [done|]. rewrite dirents_length. intros j Hj'. apply Hj. fold n in Hj'. lia. }
  kstep. eapply wp_mono; [apply (read_dirent_spec (set_flog l s) L V dp k de c1 F); [done|done|done|by apply dir_at_flog|done| |done]|].
  { change (k < n)%nat. lia. }
  intros [r de'] c2 s2 (Hc2 & -> & Hde' & Eent & l2 & -> & Hl2). cbn [fst snd] in *. change (content (set_flog l s) dp V) with f in Eent.
  change (set_flog l2 (set_flog l s)) with (set_flog l2 s). rewrite Z.eqb_refl. cbn [negb]. rewrite Eent.
  assert (u32 (16 * Z.of_nat k + sizeof_dirent) = 16 * Z.of_nat (k + 1)) as Eoff by (unfold sizeof_dirent; rewrite u32_id; lia).
  assert (k < n)%nat as Hkn by lia. assert (dirents f !!! k = entry f k) as Edk by (by apply dirents_at).
  assert (~ matches name (entry f k) -> forall j, (j < k + 1)%nat -> ~ matches name (dirents f !!! j)) as Hnext.
  { intros H. apply below_S; [done|]. by rewrite Edk. }
  pose proof (namecmp_matches f k name Hb Hname) as Hm. destruct (Z.eqb_spec (de_inum (entry f k)) 0) as [E0|E0].
  { apply wp_ret. exists (k + 1)%nat, l2. split_and!; [done|lia|lia|done|done|done|done|]. apply Hnext. by intros []. }
  destruct (Z.eqb_spec (namecmp name (de_name (entry f k))) 0) as [E1|E1].
  - ksteps. change (idev (inode_at (set_flog l2 s) dp)) with (idev (inode_at s dp)). rewrite (fa_dev _ _ _ _ _ Hfa).
    eapply wp_mono; [apply (iget_spec _ _ c2 (set_flog l2 s)); done|]. intros ip c3 s3 [Hc3 Hgot]. kstep. split; [done|]. exists l2. split; [done|].
    rewrite (list_find_first _ _ k); [|rewrite dirents_length; lia|rewrite Edk; tauto|done]. rewrite Edk. by exists ip.
  - apply wp_ret. exists (k + 1)%nat, l2. split_and!; [done|lia|lia|done|done|done|done|]. apply Hnext. tauto.
Qed.
End lookup.

(** ** Witness: a root directory with the entries ., .. and init *)

Definition ex_name (s : list Z) : list Z := s ++ replicate (14 - length s) 0.
Definition ex_dir_block : block :=
  concat [le_enc 2 1; ex_name [46]; le_enc 2 1; ex_name [46; 46]; le_enc 2 2; ex_name [105; 110; 105; 116]] ++ drop 48 zblock.
Definition ex_dir_disk : gmap Z block := <[36 := ex_dir_block]> ex_disk_used.
Definition ex_dir : inode := Inode ROOTDEV 1 1 (SleepLock 1 1) 1 T_DIR 0 0 1 48 (36 :: replicate 12 0).
Definition ex_dir_fs (l : @lstate map_disk) : fstate := Fst l ex_sb (ex_dir :: replicate 49 (Inode 0 0 0 (SleepLock 0 0) 0 0 0 0 0 0 [])).
Notation ex_dir_V := (dread (BlockDev := map_disk) ex_dir_disk).

Lemma ex_dir_disk_ok : disk_ok (H := map_disk) ex_dir_disk.
Proof.
  intros b. simpl. unfold ex_dir_disk, ex_disk_used. destruct (decide (36 = b)) as [<-|E].
  - rewrite lookup_insert_eq. split; [by vm_compute|]. apply Forall_app. split; [|apply Forall_drop; apply zblock_ok].
    vm_compute. repeat (constructor; [split; [discriminate|reflexivity]|]). constructor.
  - rewrite lookup_insert_ne by done. destruct (decide (35 = b)) as [<-|E'].
    + rewrite lookup_singleton_eq. split; [by vm_compute|]. apply Forall_app. split; [|apply Forall_drop; apply zblock_ok].
      repeat (constructor; [unfold byte; lia|]). constructor.
    + rewrite lookup_singleton_ne by done. apply zblock_ok.
Qed.

Lemma ex_dir_baddr V n : 0 <= n < MAXFILE -> baddr V (36 :: replicate 12 0) n = if decide (n = 0) then 36 else 0.
Proof.
  intros Hn. unfold baddr. case_decide as E; [by subst|]. destruct (Z.ltb_spec n NDIRECT) as [Hlt|]; [|done]. unfold NDIRECT in Hlt.
  replace (Z.to_nat n) with (S (Z.to_nat (n - 1))) by lia. rewrite list_lookup_total_alt.
  change ((36 :: replicate 12 0) !! S (Z.to_nat (n - 1))) with (replicate 12 0 !! Z.to_nat (n - 1)). by rewrite lookup_replicate_2 by lia.
Qed.

Lemma ex_dir_at l : dir_at ex_sb (ex_dir_fs l) 0 ex_dir_V (fun _ => False).
Proof.
  assert (is_data ex_sb 36 /\ used ex_sb ex_dir_V 36 = true) as H36 by (split; [split; by vm_compute|vm_compute; reflexivity]).
  split; [|done|done]. split; try done.
  - simpl. lia.
  - split; simpl; try (unfold is_short, T_DIR; lia). split; [done|]. constructor; [lia|]. apply (Forall_replicate _ 12 0). lia.
  - split; [done|..|done].
    + intros b Hb. assert (forall n, (n < 36)%nat -> used ex_sb ex_dir_V (Z.of_nat n) = true) as H.
      { intros n Hn. do 36 (destruct n as [|n]; [vm_compute; reflexivity|]). lia. }
      change (data_start ex_sb) with 36 in Hb. rewrite <- (Z2Nat.id b) by lia. apply H. lia.
    + by left.
    + intros n Hn. cbv zeta. change (iaddrs (inode_at (ex_dir_fs l) 0)) with (36 :: replicate 12 0). rewrite ex_dir_baddr by done. case_decide; [right|by left]. split; [apply H36|]. split; [apply H36|tauto].
    + change (iaddrs (inode_at (ex_dir_fs l) 0)) with (36 :: replicate 12 0). intros n n' Hn Hn'. rewrite !ex_dir_baddr by done. repeat case_decide; done || lia.
    + change (iaddrs (inode_at (ex_dir_fs l) 0)) with (36 :: replicate 12 0). intros n Hn. rewrite ex_dir_baddr by done. by case_decide.
  - intros n Hn Hlt. change (isize (inode_at (ex_dir_fs l) 0)) with 48 in Hlt. change (iaddrs (inode_at (ex_dir_fs l) 0)) with (36 :: replicate 12 0).
    unfold BSIZE in Hlt. assert (n = 0) as -> by lia. done.
Qed.

Lemma dirlookup_finds_witness :
  exists l c' s' ip, dirlookup 1 0 (ex_name [105; 110; 105; 116]) (Ctx [] []) (ex_dir_fs l) = Ok (Some (ip, 32)) c' s' /\ inum (inode_at s' ip) = 2.
Proof.
  destruct (fresh_tx (D := map_disk) ex_dir_disk 1 2 1 ex_dir_disk_ok) as [l Hl]; [lia|by vm_compute|].
  pose proof (dirlookup_finds (D := map_disk) 1 2 ex_dir_disk _ 1 ex_sb (ex_dir_fs l) [] _ 0 (ex_name [105; 110; 105; 116]) (Ctx [] []) _ eq_refl Hl eq_refl (ex_dir_at l)) as H.
  specialize (H ltac:(by vm_compute) eq_refl ltac:(exists 1%nat; split; [vm_compute; lia|reflexivity])).
  specialize (H ltac:(vm_compute; repeat (constructor; [split; [discriminate|reflexivity]|]); constructor)).
  apply wp_inv in H as (r & c' & s' & Hrun & _ & l' & _ & H).
  change (content (ex_dir_fs l) 0 ex_dir_V) with (frange ex_dir_V (36 :: replicate 12 0) 0 48) in H.
  assert (list_find (matches (ex_name [105; 110; 105; 116])) (dirents (frange ex_dir_V (36 :: replicate 12 0) 0 48)) =
    Some (2%nat, Dirent 2 (ex_name [105; 110; 105; 116]))) as E by (vm_compute; reflexivity).
  rewrite E in H. destruct H as (ip & -> & Hgot). exists l, c', s', ip. split; [exact Hrun|].
  cbn [de_inum] in Hgot. change (itab (set_flog l' (ex_dir_fs l))) with (itab (ex_dir_fs l)) in Hgot.
  inversion Hgot as [i ipx Hf|i ipx Hf Hfr]; subst; [vm_compute in Hf; discriminate Hf|]. vm_compute in Hfr. injection Hfr as <- <-. reflexivity.
Defined.
