(* ===== verification/Pipe.v ===== *)
(** * kernel/pipe.c: pipes

    A pipe is a ring of [PIPESIZE] bytes with the counts of bytes read and
    written, both [uint] that wrap around.  The state of [pipewrite] and
    [piperead] is the pipe and the memory [M] of the calling process
    ([either_copyin] and [either_copyout] with a user address are [copyin] and
    [copyout]); [killed] reads the flag of the calling process. *)
From S2P Require Import Prelude Kmonad Mem Block Fs.

Definition PIPESIZE : Z := 512.

Record pipe := Pipe {
  pdata : list Z;
  nread : Z;       (** number of bytes read *)
  nwrite : Z;      (** number of bytes written *)
  readopen : Z;    (** read fd is still open *)
  writeopen : Z;   (** write fd is still open *)
}.

Definition pipe_lock (pi : Z) : lockid := ("pipe", pi).
Definition nread_chan (pi : Z) : chan := ("pipe nread", pi).
Definition nwrite_chan (pi : Z) : chan := ("pipe nwrite", pi).

(** The part of [pipealloc] that sets up the pipe in its page, whose other
    bytes keep what they were. *)
Definition pipe_init (pi : Z) : K pipe unit :=
  modify (fun p => Pipe (pdata p) (nread p) (nwrite p) 1 (writeopen p)) ;;
  modify (fun p => Pipe (pdata p) (nread p) (nwrite p) (readopen p) 1) ;;
  modify (fun p => Pipe (pdata p) (nread p) 0 (readopen p) (writeopen p)) ;;
  modify (fun p => Pipe (pdata p) 0 (nwrite p) (readopen p) (writeopen p)) ;;
  initlock (pipe_lock pi).

Section rw.
Context {M : Type} {MV : Mover M} (killed : K M Z).

Definition pp {A} (m : K pipe A) : K (pipe * M) A := zoom fst (fun p s => (p, snd s)) m.
Definition um {A} (m : K M A) : K (pipe * M) A := zoom snd (fun m s => (fst s, m)) m.

(** [kfree] frees the page of the pipe. *)
Definition pipeclose (kfree : K M unit) (pi : Z) (writable : bool) : K (pipe * M) unit :=
  pp (acquire (pipe_lock pi)) ;;
  (if writable then
     pp (modify (fun p => Pipe (pdata p) (nread p) (nwrite p) (readopen p) 0)) ;;
     pp (wakeup (nread_chan pi))
   else
     pp (modify (fun p => Pipe (pdata p) (nread p) (nwrite p) 0 (writeopen p))) ;;
     pp (wakeup (nwrite_chan pi))) ;;
  p <- pp get ;;
  if (readopen p =? 0) && (writeopen p =? 0) then
    pp (release (pipe_lock pi)) ;;
    um kfree
  else pp (release (pipe_lock pi)).

(** [pi->data[pi->nwrite++ % PIPESIZE] = ch] *)
Definition put_byte (ch : Z) (p : pipe) : pipe :=
  Pipe (<[Z.to_nat (nwrite p mod PIPESIZE) := ch]> (pdata p)) (nread p) (u32 (nwrite p + 1)) (readopen p) (writeopen p).

(** [ch = pi->data[pi->nread++ % PIPESIZE]] *)
Definition next_byte (p : pipe) : Z := pdata p !!! Z.to_nat (nread p mod PIPESIZE).
Definition take_byte (p : pipe) : pipe := Pipe (pdata p) (u32 (nread p + 1)) (nwrite p) (readopen p) (writeopen p).

(** From the loop head, with [i] bytes written and the lock held: at the
    first call, or after a wakeup. *)
Definition pipewrite_from (pi addr n i : Z) : K (pipe * M) Z :=
  r <- loop (Z.to_nat (n - i) + 1) (fun i =>
    if i <? n then
      ro <- pp (gets readopen) ;;
      k <- (if ro =? 0 then ret 1 else um killed) ;;
      if negb (k =? 0) then
        pp (release (pipe_lock pi)) ;;
        ret (inr None)
      else
        p <- pp get ;;
        if nwrite p =? u32 (nread p + PIPESIZE) then
          pp (wakeup (nread_chan pi)) ;;
          pp (sleep (nwrite_chan pi) (pipe_lock pi))
        else
          x <- um (either_copyin [0] (u64 (addr + i))) ;;
          if snd x =? -1 then ret (inr (Some i))
          else
            pp (modify (put_byte (hd 0 (fst x)))) ;;
            ret (inl (i + 1))
    else ret (inr (Some i))) i ;;
  match r with
  | None => ret (-1)
  | Some i =>
      pp (wakeup (nread_chan pi)) ;;
      pp (release (pipe_lock pi)) ;;
      ret i
  end.

Definition pipewrite (pi addr n : Z) : K (pipe * M) Z :=
  pp (acquire (pipe_lock pi)) ;;
  pipewrite_from pi addr n 0.

(** The [for] loop of the reader and what follows it. *)
Definition piperead_copy (pi addr n : Z) : K (pipe * M) Z :=
  i <- loop (Z.to_nat n + 1) (fun i =>
    if i <? n then
      p <- pp get ;;
      if nread p =? nwrite p then ret (inr i)
      else
        let ch := next_byte p in
        pp (modify take_byte) ;;
        r <- um (either_copyout (u64 (addr + i)) [ch]) ;;
        if r =? -1 then ret (inr i) else ret (inl (i + 1))
    else ret (inr i)) 0 ;;
  pp (wakeup (nwrite_chan pi)) ;;
  pp (release (pipe_lock pi)) ;;
  ret i.

(** From the test of the [while], with the lock held. *)
Definition piperead_from (pi addr n : Z) : K (pipe * M) Z :=
  p <- pp get ;;
  if (nread p =? nwrite p) && negb (writeopen p =? 0) then
    k <- um killed ;;
    if negb (k =? 0) then
      pp (release (pipe_lock pi)) ;;
      ret (-1)
    else pp (sleep (nread_chan pi) (pipe_lock pi))
  else piperead_copy pi addr n.

Definition piperead (pi addr n : Z) : K (pipe * M) Z :=
  pp (acquire (pipe_lock pi)) ;;
  piperead_from pi addr n.
End rw.

(** ** The queue a pipe implements *)

Section queue.
Implicit Types (p : pipe) (obj : list Z).

Definition qlen p : Z := u32 (nwrite p - nread p).
Definition qbyte p (j : Z) : Z := pdata p !!! Z.to_nat ((nread p + j) mod PIPESIZE).
Definition queue p : list Z := (fun j : nat => qbyte p (Z.of_nat j)) <$> seq 0 (Z.to_nat (qlen p)).

Record pipe_ok p : Prop := {
  po_len : length (pdata p) = Z.to_nat PIPESIZE;
  po_nread : 0 <= nread p < 2 ^ 32;
  po_nwrite : 0 <= nwrite p < 2 ^ 32;
  po_count : qlen p <= PIPESIZE;
}.

Lemma queue_length p : Z.of_nat (length (queue p)) = qlen p.
Proof. unfold queue. rewrite length_fmap, length_seq. unfold qlen. pose proof (u32_range (nwrite p - nread p)). lia. Qed.

Lemma is_empty p : pipe_ok p -> (nread p =? nwrite p) = (qlen p =? 0).
Proof.
  intros [_ Hr Hw _]. unfold qlen, u32. destruct (Z.eqb_spec (nread p) (nwrite p)) as [E|E].
  - rewrite E, Z.sub_diag. done.
  - symmetry. apply Z.eqb_neq. zlia.
Qed.

Lemma is_full p : pipe_ok p -> (nwrite p =? u32 (nread p + PIPESIZE)) = (qlen p =? PIPESIZE).
Proof.
  intros [_ Hr Hw _]. unfold qlen, u32, PIPESIZE. destruct (Z.eqb_spec (nwrite p) ((nread p + 512) mod 0x100000000)) as [E|E].
  - symmetry. apply Z.eqb_eq. zlia.
  - symmetry. apply Z.eqb_neq. zlia.
Qed.

(** Wrap-around of the counts is harmless: [PIPESIZE] divides [2 ^ 32]. *)
Lemma u32_mod x : u32 x mod PIPESIZE = x mod PIPESIZE.
Proof. unfold u32, PIPESIZE. zlia. Qed.

Lemma put_byte_ok p ch : pipe_ok p -> qlen p < PIPESIZE ->
  pipe_ok (put_byte ch p) /\ queue (put_byte ch p) = queue p ++ [ch] /\ qlen (put_byte ch p) = qlen p + 1.
Proof.
  intros [Hl Hr Hw Hc] Hlt. pose proof (u32_range (nwrite p - nread p)) as H0. fold (qlen p) in H0.
  assert (qlen (put_byte ch p) = qlen p + 1) as Eq.
  { unfold qlen, put_byte, PIPESIZE in *. simpl. unfold u32 in *. zlia. }
  assert (0 <= nwrite p mod PIPESIZE < PIPESIZE) as Hm by (apply Z.mod_pos_bound; done).
  split_and!; [|..|done].
  - split; [simpl; by rewrite length_insert|done|simpl; apply u32_range|rewrite Eq; lia].
  - unfold queue. rewrite Eq, Z2Nat.inj_add, Nat.add_1_r, seq_snoc, fmap_app by lia. cbn [fmap list_fmap]. f_equal.
    + apply list_fmap_ext. intros j x Hx%lookup_seq. destruct Hx as [-> Hx]. rewrite Nat.add_0_l in *. unfold qbyte, put_byte. simpl.
      rewrite list_insert_total by lia. rewrite decide_False; [done|]. unfold qlen, PIPESIZE, u32 in *. intros E.
      apply Z2Nat.inj in E; zlia.
    + f_equal. unfold qbyte, put_byte. simpl. rewrite list_insert_total by lia. rewrite decide_True; [done|].
      f_equal. unfold qlen in *. unfold PIPESIZE, u32 in *. zlia.
Qed.

Lemma take_byte_ok p : pipe_ok p -> 0 < qlen p ->
  pipe_ok (take_byte p) /\ queue p = next_byte p :: queue (take_byte p) /\ qlen (take_byte p) = qlen p - 1.
Proof.
  intros [Hl Hr Hw Hc] Hlt.
  assert (qlen (take_byte p) = qlen p - 1) as Eq.
  { unfold qlen, take_byte in *. simpl. unfold u32 in *. zlia. }
  split_and!; [|..|done].
  - split; [done|simpl; apply u32_range|done|rewrite Eq; lia].
  - unfold queue. rewrite Eq. replace (Z.to_nat (qlen p)) with (S (Z.to_nat (qlen p - 1))) by lia. cbn [seq fmap list_fmap]. f_equal.
    + unfold qbyte, next_byte. by rewrite Z.add_0_r.
    + rewrite <- fmap_S_seq, <- list_fmap_compose. apply list_fmap_ext. intros j x _. unfold qbyte, compose, take_byte. simpl.
      do 2 f_equal. unfold u32, PIPESIZE. zlia.
Qed.
End queue.
