(* ===== verification/PipeSpec.v ===== *)
(** * Pipes are queues

    One activation of [pipewrite] or [piperead] on the queue of the pipe, and
    the histories of a pipe shared by readers and writers: bytes come out in
    the order they went in, none is lost or duplicated, and a writer and a
    reader never wait for each other. *)
From S2P Require Import Prelude Kmonad Mem Block Fs FsRead Pipe FsWrite.

Section spec.
Context (killed : K (list Z) Z).
(** The calling process has not been killed. *)
Context (Hkilled : forall c m, killed c m = Ok 0 c m).
Implicit Types (p : pipe) (obj : list Z) (c : ctx) (pi addr n i : Z).

Ltac pstep := first
  [ apply wpx_bind_wp; unfold pp at 1; apply wp_zoom; kstep; cbn [fst snd]
  | apply wpx_bind_wp; unfold um at 1; apply wp_zoom; cbn [fst snd] ].

(** Same ends open. *)
Definition same_ends p p' : Prop := readopen p' = readopen p /\ writeopen p' = writeopen p.

Lemma cons_drop (x : Z) l k l' : x :: l' = drop k l -> l !!! k = x /\ l' = drop (S k) l.
Proof.
  intros H. split.
  - apply list_lookup_total_correct. by rewrite <- (Nat.add_0_r k), <- lookup_drop, <- H.
  - rewrite <- Nat.add_1_r, <- drop_drop, <- H. done.
Qed.

Lemma wp_killed c obj (Q : Z -> ctx -> list Z -> Prop) : Q 0 c obj -> wp killed Q c obj.
Proof. unfold wp. by rewrite Hkilled. Qed.

Lemma getb_one off obj : 0 <= off < Z.of_nat (length obj) -> getb 1 off obj = [obj !!! Z.to_nat off].
Proof.
  intros H. apply list_eq. intros [|j].
  - rewrite getb_lookup by lia. rewrite Nat.add_0_r. simpl. apply list_lookup_lookup_total_lt. lia.
  - rewrite lookup_ge_None_2 by (rewrite getb_length; lia). done.
Qed.

Lemma pipewrite_from_spec p obj pi addr n i c :
  pipe_ok p -> held c = [pipe_lock pi] -> (i < n -> readopen p <> 0) -> 0 <= i <= n -> 0 <= addr -> addr + n <= Z.of_nat (length obj) ->
  addr + n < 2 ^ 64 ->
  let room := PIPESIZE - qlen p in
  wpx (pipewrite_from killed pi addr n i)
    (fun r c' t => r = n /\ n - i <= room /\ held c' = [] /\ woken c' = woken c ++ [nread_chan pi] /\ snd t = obj /\
       pipe_ok (fst t) /\ same_ends p (fst t) /\ nread (fst t) = nread p /\ queue (fst t) = queue p ++ getb (n - i) (addr + i) obj)
    (fun ch c' t => ch = nwrite_chan pi /\ room < n - i /\ held c' = [] /\ woken c' = woken c ++ [nread_chan pi] /\ snd t = obj /\
       pipe_ok (fst t) /\ same_ends p (fst t) /\ nread (fst t) = nread p /\ queue (fst t) = queue p ++ getb room (addr + i) obj) c (p, obj).
Proof.
  intros Hok Hh Hro Hi Ha Hobj Hw room. destruct c as [h w]. simpl in Hh. subst h. cbn [woken].
  pose proof (u32_range (nwrite p - nread p)) as Hq0. fold (qlen p) in Hq0. pose proof (po_count _ Hok) as Hq1.
  unfold pipewrite_from. apply wpx_bind.
  apply wpx_loop with (I := fun fuel j c' t => c' = Ctx [pipe_lock pi] w /\ i <= j <= n /\ n - j < Z.of_nat fuel /\ snd t = obj /\
    j - i <= room /\ pipe_ok (fst t) /\ same_ends p (fst t) /\ nread (fst t) = nread p /\ qlen (fst t) = qlen p + (j - i) /\
    queue (fst t) = queue p ++ getb (j - i) (addr + i) obj).
  2: { split_and!; [done|lia..|done|unfold room; lia|done|done|done|cbn [fst]; lia|]. rewrite Z.sub_diag. cbn [fst].
       unfold getb. simpl. by rewrite app_nil_r. }
  intros fuel j c' [p1 obj1] (-> & Hj & Hf & Hobj1 & Hjr & Hok1 & Hse & Hnr & Hq & Hque). cbn [fst snd] in *. subst obj1.
  destruct fuel as [|fuel]; [lia|]. exists fuel. split; [done|]. destruct Hse as [Ers Ews].
  destruct (Z.ltb_spec j n) as [Hlt|Hge].
  2: { apply wpx_ret, wpx_wp. replace j with n in * by lia. unfold pp. kstep. apply wp_zoom. kstep. kstep. apply wp_zoom. kstep. kstep.
       cbn [fst snd]. split_and!; done || lia. }
  pstep. rewrite Ers, (proj2 (Z.eqb_neq _ 0)) by (apply Hro; lia). pstep. apply wp_killed. cbn [Z.eqb negb fst snd]. pstep.
  rewrite is_full by done. destruct (Z.eqb_spec (qlen p1) PIPESIZE) as [Hfull|Hnf].
  - pstep. unfold pp at 1. apply wpx_zoom. cbn [fst snd]. apply wpx_sleep. cbn [fst snd].
    assert (room = j - i) as -> by (unfold room; lia). split_and!; done || lia.
  - pstep. cbn [either_copyin kernel_object]. kstep. kstep. kstep. rewrite u64_id by lia. cbn [fst snd length Z.eqb Z.of_nat].
    change (Z.of_nat 1) with 1. rewrite getb_one by lia. cbn [hd]. pstep. apply wpx_ret. cbn [fst snd].
    pose proof (po_count _ Hok1).
    destruct (put_byte_ok p1 (obj !!! Z.to_nat (addr + j)) Hok1) as (Hok2 & Hque2 & Hq2); [lia|].
    split_and!; [done|lia..|done|unfold room; lia|done|done|done|lia|].
    rewrite Hque2, Hque, <- app_assoc. f_equal. replace (j + 1 - i) with (j - i + 1) by lia. rewrite getb_app by lia. f_equal.
    rewrite getb_one by lia. do 2 f_equal. lia.
Qed.

Lemma piperead_copy_spec p dst pi addr n w :
  pipe_ok p -> 0 <= n -> 0 <= addr -> addr + n <= Z.of_nat (length dst) -> addr + n < 2 ^ 64 ->
  let k := Z.min n (qlen p) in
  wp (piperead_copy pi addr n)
    (fun r c' t => r = k /\ held c' = [] /\ woken c' = w ++ [nwrite_chan pi] /\
       snd t = putb addr (getb k 0 (queue p)) dst /\ pipe_ok (fst t) /\ same_ends p (fst t) /\
       queue (fst t) = drop (Z.to_nat k) (queue p)) (Ctx [pipe_lock pi] w) (p, dst).
Proof.
  intros Hok Hn Ha Hdst Hw k.
  pose proof (u32_range (nwrite p - nread p)) as Hq0. fold (qlen p) in Hq0. pose proof (queue_length p) as Hql.
  unfold piperead_copy. kstep.
  apply wp_loop with (I := fun fuel j c' t => c' = Ctx [pipe_lock pi] w /\ 0 <= j <= k /\ n - j < Z.of_nat fuel /\
    snd t = putb addr (getb j 0 (queue p)) dst /\ pipe_ok (fst t) /\ same_ends p (fst t) /\ qlen (fst t) = qlen p - j /\
    queue (fst t) = drop (Z.to_nat j) (queue p)).
  2: { split_and!; [done|unfold k; lia..| |done|done|cbn [fst]; lia|done]. cbn [snd]. unfold getb. simpl. symmetry. apply putb_nil. lia. }
  intros fuel j c' [p1 d1] (-> & Hj & Hf & Hd1 & Hok1 & Hse & Hq & Hque). cbn [fst snd] in *. subst d1.
  destruct fuel as [|fuel]; [lia|]. exists fuel. split; [done|].
  assert (j = k -> wp (pp (wakeup (nwrite_chan pi)) ;; pp (release (pipe_lock pi)) ;; ret j)
    (fun r c' t => r = k /\ held c' = [] /\ woken c' = w ++ [nwrite_chan pi] /\
       snd t = putb addr (getb k 0 (queue p)) dst /\ pipe_ok (fst t) /\ same_ends p (fst t) /\
       queue (fst t) = drop (Z.to_nat k) (queue p)) (Ctx [pipe_lock pi] w) (p1, putb addr (getb j 0 (queue p)) dst)) as Hend.
  { intros ->. unfold pp. kstep. apply wp_zoom. kstep. kstep. apply wp_zoom. kstep. kstep. cbn [fst snd]. by split_and!. }
  destruct (Z.ltb_spec j n) as [Hlt|Hge]; [|kstep; apply Hend; unfold k in *; lia].
  unfold pp at 1. kstep. apply wp_zoom. kstep. cbn [fst snd]. rewrite is_empty by done.
  destruct (Z.eqb_spec (qlen p1) 0) as [E1|E1]; [kstep; apply Hend; unfold k in *; lia|]. clear Hend.
  pose proof (u32_range (nwrite p1 - nread p1)) as Hq2. fold (qlen p1) in Hq2.
  destruct (take_byte_ok p1 Hok1) as (Hok2 & Hque2 & Hq3); [lia|].
  unfold pp at 1. kstep. apply wp_zoom. kstep. cbn [fst snd]. unfold um. kstep. apply wp_zoom. cbn [either_copyout kernel_object fst snd].
  kstep. kstep. kstep. cbn [Z.eqb]. kstep. cbn [fst snd]. rewrite u64_id by (unfold k in *; lia).
  rewrite Hque2 in Hque. destruct (cons_drop _ _ _ _ Hque) as [Hb Hrest].
  split_and!; [done|unfold k in *; lia..| |done|done|lia|by replace (Z.to_nat (j + 1)) with (S (Z.to_nat j)) by lia].
  rewrite getb_app, Z.add_0_l, getb_one, Hb by (unfold k in *; lia).
  rewrite <- putb_app by (rewrite ?getb_length; simpl; unfold k in *; lia). rewrite getb_length by (unfold k in *; lia).
  do 2 f_equal. lia.
Qed.

Lemma piperead_from_spec p dst pi addr n w :
  pipe_ok p -> 0 <= n -> 0 <= addr -> addr + n <= Z.of_nat (length dst) -> addr + n < 2 ^ 64 ->
  let k := Z.min n (qlen p) in
  wpx (piperead_from killed pi addr n)
    (fun r c' t => (qlen p <> 0 \/ writeopen p = 0) /\ r = k /\ held c' = [] /\ woken c' = w ++ [nwrite_chan pi] /\
       snd t = putb addr (getb k 0 (queue p)) dst /\ pipe_ok (fst t) /\ same_ends p (fst t) /\
       queue (fst t) = drop (Z.to_nat k) (queue p))
    (fun ch c' t => ch = nread_chan pi /\ qlen p = 0 /\ writeopen p <> 0 /\ held c' = [] /\ woken c' = w /\ t = (p, dst))
    (Ctx [pipe_lock pi] w) (p, dst).
Proof.
  intros Hok Hn Ha Hdst Hw k. unfold piperead_from. pstep. rewrite is_empty by done.
  destruct (Z.eqb_spec (qlen p) 0) as [E0|E0]; cbn [andb];
    [destruct (Z.eqb_spec (writeopen p) 0) as [Ew|Ew]; cbn [negb]|].
  2: { pstep. apply wp_killed. cbn [Z.eqb negb]. unfold pp at 1. apply wpx_zoom. cbn [fst snd]. apply wpx_sleep. done. }
  all: apply wpx_wp; eapply wp_mono; [by apply piperead_copy_spec|]; cbn beta; intros; split; [auto|done].
Qed.

(** With the read end closed the writer gets -1 at the loop head, whatever is in the pipe. *)
Lemma pipewrite_from_closed p obj pi addr n i w :
  readopen p = 0 -> i < n ->
  wp (pipewrite_from killed pi addr n i)
    (fun r c' t => r = -1 /\ held c' = [] /\ woken c' = w /\ t = (p, obj)) (Ctx [pipe_lock pi] w) (p, obj).
Proof.
  intros Hro Hi. unfold pipewrite_from. kstep.
  apply wp_loop with (I := fun fuel j c' t => j = i /\ c' = Ctx [pipe_lock pi] w /\ t = (p, obj) /\ (0 < fuel)%nat); [|split_and!; done || lia].
  intros fuel j c' t (-> & -> & -> & Hf). destruct fuel as [|fuel]; [lia|]. exists fuel. split; [done|].
  rewrite (proj2 (Z.ltb_lt _ _)) by done. unfold pp. kstep. apply wp_zoom. kstep. cbn [fst snd]. rewrite Hro. cbn [Z.eqb].
  kstep. cbn [negb Z.eqb]. apply wp_bind, wp_zoom. kstep. kstep. kstep. done.
Qed.

(** ** Histories of a pipe

    The threads inside [pipewrite] and [piperead] of one pipe: a writer has
    its buffer and the count [i] of bytes already written; a reader has its
    destination.  A thread is asleep on its channel until a wakeup on it. *)
Inductive pthread :=
  | Writer (buf : list Z) (i : Z) (asleep : bool)
  | Reader (dst : list Z) (asleep : bool).

Record psys := Psys {
  s_pipe : pipe;
  s_threads : gmap nat pthread;
  s_written : list Z;      (* every byte put in, in order *)
  s_read : list Z;         (* every byte handed to a reader, in order *)
}.

Definition wake_thread (pi : Z) (w : list chan) (x : pthread) : pthread :=
  match x with
  | Writer buf i a => Writer buf i (a && negb (bool_decide (nwrite_chan pi ∈ w)))
  | Reader dst a => Reader dst (a && negb (bool_decide (nread_chan pi ∈ w)))
  end.

(** The bytes a writer's activation put in: [i] and [nwrite] advance together. *)
Definition put_count (p p' : pipe) : Z := u32 (nwrite p' - nwrite p).

(** A thread that runs, for the first time or after a wakeup, takes the lock
    and goes on from the loop head; for [i = 0] these are [pipewrite] and
    [piperead]. *)
Definition resume_write (pi : Z) (buf : list Z) (i : Z) : K (pipe * list Z) Z :=
  pp (acquire (pipe_lock pi)) ;;
  pipewrite_from killed pi 0 (Z.of_nat (length buf)) i.
Definition resume_read (pi : Z) (dst : list Z) : K (pipe * list Z) Z :=
  pp (acquire (pipe_lock pi)) ;;
  piperead_from killed pi 0 (Z.of_nat (length dst)).

Inductive pstep (pi : Z) : psys -> psys -> Prop :=
  | ps_call_write p th W R t buf :
      th !! t = None -> Z.of_nat (length buf) < 2 ^ 31 ->
      pstep pi (Psys p th W R) (Psys p (<[t := Writer buf 0 false]> th) W R)
  | ps_call_read p th W R t dst :
      th !! t = None -> Z.of_nat (length dst) < 2 ^ 31 ->
      pstep pi (Psys p th W R) (Psys p (<[t := Reader dst false]> th) W R)
  | ps_write_returns p th W R t buf i r c' p' buf' :
      th !! t = Some (Writer buf i false) ->
      resume_write pi buf i (Ctx [] []) (p, buf) = Ok r c' (p', buf') ->
      pstep pi (Psys p th W R)
        (Psys p' (wake_thread pi (woken c') <$> delete t th) (W ++ getb (put_count p p') i buf) R)
  | ps_write_sleeps p th W R t buf i ch c' p' buf' :
      th !! t = Some (Writer buf i false) ->
      resume_write pi buf i (Ctx [] []) (p, buf) = Asleep ch c' (p', buf') ->
      pstep pi (Psys p th W R)
        (Psys p' (<[t := Writer buf (i + put_count p p') true]> (wake_thread pi (woken c') <$> th))
           (W ++ getb (put_count p p') i buf) R)
  | ps_read_returns p th W R t dst r c' p' dst' :
      th !! t = Some (Reader dst false) ->
      resume_read pi dst (Ctx [] []) (p, dst) = Ok r c' (p', dst') ->
      pstep pi (Psys p th W R)
        (Psys p' (wake_thread pi (woken c') <$> delete t th) W (R ++ getb r 0 dst'))
  | ps_read_sleeps p th W R t dst ch c' p' dst' :
      th !! t = Some (Reader dst false) ->
      resume_read pi dst (Ctx [] []) (p, dst) = Asleep ch c' (p', dst') ->
      pstep pi (Psys p th W R)
        (Psys p' (<[t := Reader dst' true]> (wake_thread pi (woken c') <$> th)) W R)
  | ps_close p th W R w (kfree : K (list Z) unit) c' p' m m' :
      (if w : bool then readopen p else writeopen p) <> 0 ->
      pipeclose kfree pi w (Ctx [] []) (p, m) = Ok tt c' (p', m') ->
      pstep pi (Psys p th W R) (Psys p' (wake_thread pi (woken c') <$> th) W R).

(** The invariant: what is in the pipe is what was written and not yet read,
    and a sleeping thread has its reason to sleep. *)
Definition thread_ok (p : pipe) (x : pthread) : Prop :=
  match x with
  | Writer buf i a => Z.of_nat (length buf) < 2 ^ 31 /\ 0 <= i <= Z.of_nat (length buf) /\
      (a = true -> qlen p = PIPESIZE /\ readopen p <> 0)
  | Reader dst a => Z.of_nat (length dst) < 2 ^ 31 /\ (a = true -> qlen p = 0 /\ writeopen p <> 0)
  end.

Record psys_ok (s : psys) : Prop := {
  ps_pipe : pipe_ok (s_pipe s);
  ps_bytes : s_written s = s_read s ++ queue (s_pipe s);
  ps_threads : map_Forall (fun _ => thread_ok (s_pipe s)) (s_threads s);
}.

Lemma put_count_eq p p' k : nread p' = nread p -> qlen p' = qlen p + k -> 0 <= k <= PIPESIZE -> put_count p p' = k.
Proof.
  intros Hn Hq Hk. unfold put_count, qlen in *. rewrite Hn in Hq. unfold u32, PIPESIZE in *.
  replace (nwrite p' - nwrite p) with ((nwrite p' - nread p) - (nwrite p - nread p)) by lia.
  rewrite Zminus_mod, Hq. rewrite Z.add_simpl_l. apply Z.mod_small. lia.
Qed.

Lemma threads_woken pi w p p' (th : gmap nat pthread) :
  map_Forall (fun _ => thread_ok p) th ->
  (forall x, thread_ok p x -> thread_ok p' (wake_thread pi w x)) ->
  map_Forall (fun _ => thread_ok p') (wake_thread pi w <$> th).
Proof. intros Hf Hw t x. rewrite lookup_fmap_Some. intros (y & <- & Hy). exact (Hw y (Hf t y Hy)). Qed.

(** A thread that is not woken keeps its reason to sleep when the ends and the length are what they were. *)
Lemma thread_same pi w p p' x : qlen p' = qlen p -> same_ends p p' -> thread_ok p x -> thread_ok p' (wake_thread pi w x).
Proof.
  intros Hq [Hr Hw]. destruct x as [buf i a|dst a]; simpl; rewrite Hq, ?Hr, ?Hw.
  - intros (? & ? & Ha). split_and!; [done|lia..|]. intros [? _]%andb_prop. auto.
  - intros (? & Ha). split; [done|]. intros [? _]%andb_prop. auto.
Qed.

(** After bytes went in and the readers were woken. *)
Lemma thread_put pi w p p' x : nread_chan pi ∈ w -> qlen p <= qlen p' <= PIPESIZE -> same_ends p p' -> thread_ok p x ->
  thread_ok p' (wake_thread pi w x).
Proof.
  intros Hin Hq [Hr Hw]. destruct x as [buf i a|dst a]; simpl; rewrite ?Hr, ?Hw.
  - intros (? & ? & Ha). split_and!; [done|lia..|]. intros [? _]%andb_prop. destruct Ha; [done|]. split; [lia|done].
  - intros (? & Ha). split; [done|]. rewrite bool_decide_eq_true_2 by done. by rewrite andb_false_r.
Qed.

(** After bytes came out and the writers were woken. *)
Lemma thread_take pi w p p' x : nwrite_chan pi ∈ w -> 0 <= qlen p' <= qlen p -> same_ends p p' -> thread_ok p x ->
  thread_ok p' (wake_thread pi w x).
Proof.
  intros Hin Hq [Hr Hw]. destruct x as [buf i a|dst a]; simpl; rewrite ?Hr, ?Hw.
  - intros (? & ? & Ha). split_and!; [done|lia..|]. rewrite bool_decide_eq_true_2 by done. by rewrite andb_false_r.
  - intros (? & Ha). split; [done|]. intros [? _]%andb_prop. destruct Ha; [done|]. split; [lia|done].
Qed.

Lemma wpx_ok {S A} (m : K S A) Q R c s r c' s' : wpx m Q R c s -> m c s = Ok r c' s' -> Q r c' s'.
Proof. unfold wpx. intros H E. by rewrite E in H. Qed.
Lemma wpx_asleep {S A} (m : K S A) Q R c s ch c' s' : wpx m Q R c s -> m c s = Asleep ch c' s' -> R ch c' s'.
Proof. unfold wpx. intros H E. by rewrite E in H. Qed.

Lemma qlen_queue p : qlen p = Z.of_nat (length (queue p)).
Proof. by rewrite queue_length. Qed.

(** What a writer's activation does to the whole system. *)
Lemma write_act pi p buf i c' p' :
  pipe_ok p -> 0 <= i ->
  forall k, 0 <= k -> i + k <= Z.of_nat (length buf) -> woken c' = [nread_chan pi] -> pipe_ok p' -> same_ends p p' ->
  nread p' = nread p -> queue p' = queue p ++ getb k i buf ->
  put_count p p' = k /\ qlen p' = qlen p + k /\ (forall x, thread_ok p x -> thread_ok p' (wake_thread pi (woken c') x)).
Proof.
  intros Hok Hi k Hk Hik Hw Hok' Hse Hnr Hq.
  assert (qlen p' = qlen p + k) as Hq'.
  { rewrite !qlen_queue, Hq, length_app, getb_length by lia. lia. }
  pose proof (po_count _ Hok'). assert (0 <= qlen p) by (rewrite qlen_queue; lia).
  split_and!; [apply put_count_eq; done || lia|done|]. intros x. apply thread_put; [rewrite Hw; set_solver|lia|done].
Qed.


Lemma resume_write_eq pi buf i t : resume_write pi buf i (Ctx [] []) t =
  pipewrite_from killed pi 0 (Z.of_nat (length buf)) i (Ctx [pipe_lock pi] []) t.
Proof. by destruct t. Qed.
Lemma resume_read_eq pi dst t : resume_read pi dst (Ctx [] []) t =
  piperead_from killed pi 0 (Z.of_nat (length dst)) (Ctx [pipe_lock pi] []) t.
Proof. by destruct t. Qed.

Lemma write_returns_ok pi p th W R t buf i r c' p' buf' :
  psys_ok (Psys p th W R) -> th !! t = Some (Writer buf i false) ->
  resume_write pi buf i (Ctx [] []) (p, buf) = Ok r c' (p', buf') ->
  psys_ok (Psys p' (wake_thread pi (woken c') <$> delete t th) (W ++ getb (put_count p p') i buf) R).
Proof.
  intros [Hok Hb Hth] Ht E. rewrite resume_write_eq in E. cbn [s_pipe s_threads s_written s_read] in *. destruct (Hth _ _ Ht) as (Hbl & Hi & _).
  destruct (decide (readopen p = 0 /\ i < Z.of_nat (length buf))) as [[Hro Hlt]|Hro].
  - pose proof (wpx_ok _ _ _ _ _ _ _ _ (wpx_wp _ _ (fun _ _ _ => False) _ _ (pipewrite_from_closed p buf pi 0 _ i [] Hro Hlt)) E) as (_ & _ & Hw & [= -> ->]).
    assert (put_count p p = 0) as -> by (unfold put_count; by rewrite Z.sub_diag).
    split; cbn; [done|by rewrite app_nil_r|]. apply threads_woken with p; [by apply map_Forall_delete|].
    intros x. by apply thread_same.
  - pose proof (wpx_ok _ _ _ _ _ _ _ _ (pipewrite_from_spec p buf pi 0 _ i (Ctx [pipe_lock pi] []) Hok eq_refl
      ltac:(naive_solver) Hi ltac:(lia) ltac:(lia) ltac:(lia)) E) as (-> & Hroom & _ & Hw & _ & Hok' & Hse & Hnr & Hq).
    cbn in *. destruct (write_act pi p buf i c' p' Hok (proj1 Hi) (Z.of_nat (length buf) - i) ltac:(lia) ltac:(lia) Hw Hok' Hse Hnr Hq) as (-> & Hq' & Hx).
    split; cbn; [done|by rewrite Hb, Hq, app_assoc|]. apply threads_woken with p; [by apply map_Forall_delete|done].
Qed.

Lemma write_sleeps_ok pi p th W R t buf i ch c' p' buf' :
  psys_ok (Psys p th W R) -> th !! t = Some (Writer buf i false) ->
  resume_write pi buf i (Ctx [] []) (p, buf) = Asleep ch c' (p', buf') ->
  psys_ok (Psys p' (<[t := Writer buf (i + put_count p p') true]> (wake_thread pi (woken c') <$> th))
    (W ++ getb (put_count p p') i buf) R).
Proof.
  intros [Hok Hb Hth] Ht E. rewrite resume_write_eq in E. cbn [s_pipe s_threads s_written s_read] in *. destruct (Hth _ _ Ht) as (Hbl & Hi & _).
  destruct (decide (readopen p = 0 /\ i < Z.of_nat (length buf))) as [[Hro Hlt]|Hro].
  - by pose proof (wpx_asleep _ _ _ _ _ _ _ _ (wpx_wp _ _ (fun _ _ _ => False) _ _ (pipewrite_from_closed p buf pi 0 _ i [] Hro Hlt)) E).
  - pose proof (wpx_asleep _ _ _ _ _ _ _ _ (pipewrite_from_spec p buf pi 0 _ i (Ctx [pipe_lock pi] []) Hok eq_refl
      ltac:(naive_solver) Hi ltac:(lia) ltac:(lia) ltac:(lia)) E) as (-> & Hroom & _ & Hw & _ & Hok' & Hse & Hnr & Hq).
    cbn in *. pose proof (po_count _ Hok).
    destruct (write_act pi p buf i c' p' Hok (proj1 Hi) (PIPESIZE - qlen p) ltac:(lia) ltac:(lia) Hw Hok' Hse Hnr Hq) as (-> & Hq' & Hx).
    split; cbn; [done|by rewrite Hb, Hq, app_assoc|]. apply map_Forall_insert_2; [|by apply threads_woken with p].
    simpl. assert (0 <= qlen p) by (rewrite qlen_queue; lia). split_and!; [done|lia..|]. intros _. split; [lia|].
    destruct Hse as [-> _]. intros E0. apply Hro. split; [done|lia].
Qed.

Lemma read_returns_ok pi p th W R t dst r c' p' dst' :
  psys_ok (Psys p th W R) -> th !! t = Some (Reader dst false) ->
  resume_read pi dst (Ctx [] []) (p, dst) = Ok r c' (p', dst') ->
  psys_ok (Psys p' (wake_thread pi (woken c') <$> delete t th) W (R ++ getb r 0 dst')).
Proof.
  intros [Hok Hb Hth] Ht E. rewrite resume_read_eq in E. cbn [s_pipe s_threads s_written s_read] in *. destruct (Hth _ _ Ht) as (Hbl & _).
  pose proof (wpx_ok _ _ _ _ _ _ _ _ (piperead_from_spec p dst pi 0 (Z.of_nat (length dst)) [] Hok ltac:(lia) ltac:(lia) ltac:(lia) ltac:(lia)) E)
    as (_ & -> & _ & Hw & Hd & Hok' & Hse & Hq). cbn [fst snd] in *.
  pose proof (qlen_queue p) as Hql. set (k := Z.min _ _) in *.
  assert (length (getb k 0 (queue p)) = Z.to_nat k) as Hkl by (apply getb_length; lia).
  assert (qlen p' = qlen p - k) as Hq' by (rewrite !qlen_queue, Hq, length_drop; lia).
  split; cbn; [done| |].
  - rewrite Hb, Hd, Hq. replace k with (Z.of_nat (length (getb k 0 (queue p)))) at 1 by lia.
    rewrite getb_putb_eq by lia. rewrite <- app_assoc. f_equal. unfold getb. simpl. by rewrite take_drop.
  - apply threads_woken with p; [by apply map_Forall_delete|]. intros x. apply thread_take; [rewrite Hw; set_solver|lia|done].
Qed.

Lemma read_sleeps_ok pi p th W R t dst ch c' p' dst' :
  psys_ok (Psys p th W R) -> th !! t = Some (Reader dst false) ->
  resume_read pi dst (Ctx [] []) (p, dst) = Asleep ch c' (p', dst') ->
  psys_ok (Psys p' (<[t := Reader dst' true]> (wake_thread pi (woken c') <$> th)) W R).
Proof.
  intros [Hok Hb Hth] Ht E. rewrite resume_read_eq in E. cbn [s_pipe s_threads s_written s_read] in *. destruct (Hth _ _ Ht) as (Hbl & _).
  pose proof (wpx_asleep _ _ _ _ _ _ _ _ (piperead_from_spec p dst pi 0 (Z.of_nat (length dst)) [] Hok ltac:(lia) ltac:(lia) ltac:(lia) ltac:(lia)) E)
    as (-> & Hq & Hwo & _ & Hw & [= -> ->]).
  split; cbn; [done..|]. apply map_Forall_insert_2; [simpl; auto|]. apply threads_woken with p; [done|].
  intros x. by apply thread_same.
Qed.

Lemma close_ok pi p th W R (w : bool) (kfree : K (list Z) unit) c' p' m m' :
  psys_ok (Psys p th W R) -> (if w then readopen p else writeopen p) <> 0 ->
  pipeclose kfree pi w (Ctx [] []) (p, m) = Ok tt c' (p', m') ->
  psys_ok (Psys p' (wake_thread pi (woken c') <$> th) W R).
Proof.
  intros [Hok Hb Hth] Hopen E. cbn [s_pipe s_threads s_written s_read] in *.
  assert (wp (pipeclose kfree pi w) (fun _ c' t => t = (Pipe (pdata p) (nread p) (nwrite p) (if w then readopen p else 0) (if w then 0 else writeopen p), m)
    /\ woken c' = [if w then nread_chan pi else nwrite_chan pi]) (Ctx [] []) (p, m)) as Hwp.
  { unfold pipeclose, pp. apply wp_bind, wp_zoom, wp_acquire; [set_solver|]. apply wp_bind.
    destruct w; apply wp_bind, wp_zoom; kstep; apply wp_zoom; kstep; apply wp_bind, wp_zoom; kstep; cbn [fst snd readopen writeopen];
      rewrite (proj2 (Z.eqb_neq _ 0) Hopen); cbn [andb]; try rewrite andb_false_r; apply wp_zoom; kstep; done. }
  unfold wp in Hwp. rewrite E in Hwp. destruct Hwp as [[= -> ->] Hw].
  split; cbn; [by destruct Hok|done|]. apply threads_woken with p; [done|].
  intros [buf i a|dst a]; simpl; rewrite Hw; destruct w.
  - intros (? & ? & Ha). split_and!; [done|lia..|]. intros [? _]%andb_prop. auto.
  - intros (? & ? & Ha). split_and!; [done|lia..|]. rewrite bool_decide_eq_true_2 by set_solver. by rewrite andb_false_r.
  - intros (? & Ha). split; [done|]. rewrite bool_decide_eq_true_2 by set_solver. by rewrite andb_false_r.
  - intros (? & Ha). split; [done|]. intros [? _]%andb_prop. auto.
Qed.

Lemma pstep_ok pi s s' : pstep pi s s' -> psys_ok s -> psys_ok s'.
Proof.
  destruct 1; intros Hs.
  - destruct Hs. split; cbn in *; try done. apply map_Forall_insert_2; [|done]. simpl. split_and!; done || lia.
  - destruct Hs. split; cbn in *; try done. apply map_Forall_insert_2; [|done]. simpl. split_and!; done || lia.
  - by eapply write_returns_ok.
  - by eapply write_sleeps_ok.
  - by eapply read_returns_ok.
  - by eapply read_sleeps_ok.
  - by eapply close_ok.
Qed.

(** The pipe [pipealloc] sets up in its page, whatever the page held. *)
Definition pipe_start (pi : Z) (s : psys) : Prop :=
  exists (p : pipe) c', length (pdata p) = Z.to_nat PIPESIZE /\ pipe_init pi (Ctx [] []) p = Ok tt c' (s_pipe s) /\
    s_threads s = ∅ /\ s_written s = [] /\ s_read s = [].

Lemma pipe_reachable_ok pi s0 s : pipe_start pi s0 -> rtc (pstep pi) s0 s -> psys_ok s.
Proof.
  intros (p & c' & Hl & Hinit & Ht & HW & HR) Hr. assert (psys_ok s0) as H0.
  { destruct s0 as [p0 th W R]. simpl in *. subst. vm_compute in Hinit.
    injection Hinit as <- <-. split; [split; cbn; done || lia|done|apply map_Forall_empty]. }
  clear -H0 Hr Hkilled. induction Hr as [|s0 s1 s2 Hs _ IH]; [done|]. apply IH. by eapply pstep_ok.
Qed.


(** No lost wakeup in a pipe: a writer is asleep only while the pipe is
    full and the read end is open, a reader only while it is empty and the
    write end is open; so a reader and a writer never both sleep. *)
Theorem pipe_sleepers_wait pi s0 s :
  pipe_start pi s0 -> rtc (pstep pi) s0 s ->
  (forall t buf i, s_threads s !! t = Some (Writer buf i true) -> qlen (s_pipe s) = PIPESIZE /\ readopen (s_pipe s) <> 0) /\
  (forall t dst, s_threads s !! t = Some (Reader dst true) -> qlen (s_pipe s) = 0 /\ writeopen (s_pipe s) <> 0) /\
  (forall t buf i t' dst, s_threads s !! t = Some (Writer buf i true) -> s_threads s !! t' <> Some (Reader dst true)).
Proof.
  intros H0 Hr. destruct (pipe_reachable_ok pi s0 s H0 Hr) as [Hok _ Hth].
  assert (forall t buf i, s_threads s !! t = Some (Writer buf i true) -> qlen (s_pipe s) = PIPESIZE /\ readopen (s_pipe s) <> 0) as HW.
  { intros t buf i Ht. destruct (Hth _ _ Ht) as (_ & _ & H). auto. }
  assert (forall t dst, s_threads s !! t = Some (Reader dst true) -> qlen (s_pipe s) = 0 /\ writeopen (s_pipe s) <> 0) as HR.
  { intros t dst Ht. destruct (Hth _ _ Ht) as (_ & H). auto. }
  split_and!; [done|done|]. intros t buf i t' dst Ht Ht'. destruct (HW _ _ _ Ht) as [E _], (HR _ _ Ht') as [E' _].
  rewrite E in E'. discriminate.
Qed.

(** A read of a pipe that holds bytes, or whose write end is closed, does
    not sleep: it returns the [min n] oldest bytes, in order, and wakes the
    writers; a read of an empty pipe with a writer goes to sleep on [nread]
    with the lock released and the pipe unchanged. *)
Theorem piperead_correct pi p dst addr n :
  pipe_ok p -> 0 <= n -> 0 <= addr -> addr + n <= Z.of_nat (length dst) -> addr + n < 2 ^ 64 ->
  let k := Z.min n (qlen p) in
  (if (qlen p =? 0) && negb (writeopen p =? 0)
   then piperead killed pi addr n (Ctx [] []) (p, dst) = Asleep (nread_chan pi) (Ctx [] []) (p, dst)
   else exists p', piperead killed pi addr n (Ctx [] []) (p, dst) =
          Ok k (Ctx [] [nwrite_chan pi]) (p', putb addr (getb k 0 (queue p)) dst) /\
        pipe_ok p' /\ queue p' = drop (Z.to_nat k) (queue p)).
Proof.
  intros Hok Hn Ha Hd Hw k. pose proof (piperead_from_spec p dst pi addr n [] Hok Hn Ha Hd Hw) as H. unfold wpx in H.
  change (piperead killed pi addr n (Ctx [] []) (p, dst)) with (piperead_from killed pi addr n (Ctx [pipe_lock pi] []) (p, dst)).
  destruct (piperead_from killed pi addr n _ _) as [r [h w] [p' d']|msg c' s'|ch [h w] t'|c' s'] eqn:E; try done; cbn [held woken fst snd] in H.
  - destruct H as (Hx & -> & -> & -> & -> & Hok' & _ & Hq).
    destruct (Z.eqb_spec (qlen p) 0), (Z.eqb_spec (writeopen p) 0); cbn [andb negb]; try (exists p'; done). naive_solver.
  - destruct H as (-> & Hq & Hwo & -> & -> & ->). by rewrite Hq, (proj2 (Z.eqb_neq _ 0) Hwo).
Qed.
End spec.

(** ** Witnesses *)

Definition not_killed : K (list Z) Z := ret 0.
Definition ex_pipe : pipe := Pipe (replicate 512 0) 0 0 1 1.
Definition ex_psys (th : gmap nat pthread) : psys := Psys ex_pipe th [] [].

Lemma ex_pipe_start : pipe_start 0 (ex_psys ∅).
Proof. exists (Pipe (replicate 512 0) 7 9 0 0), (Ctx [] []). done. Qed.

(** A reader that finds the pipe empty sleeps; a writer then puts two bytes in and wakes it. *)
Lemma ex_asleep : exists s, rtc (pstep not_killed 0) (ex_psys ∅) s /\ s_threads s !! 1%nat = Some (Reader [0] true).
Proof.
  eexists. split.
  - eapply rtc_l; [apply (ps_call_read _ _ _ _ _ _ 1%nat [0]); [done|reflexivity]|].
    eapply rtc_l; [eapply (ps_read_sleeps _ _ _ _ _ _ 1%nat [0]); [by simplify_map_eq|vm_compute; reflexivity]|].
    apply rtc_refl.
  - vm_compute. reflexivity.
Qed.

Lemma ex_woken : exists s, rtc (pstep not_killed 0) (ex_psys ∅) s /\ s_threads s !! 1%nat = Some (Reader [0] false) /\
  s_written s = [65; 66] /\ s_read s = [].
Proof.
  eexists. split_and!.
  - eapply rtc_l; [apply (ps_call_read _ _ _ _ _ _ 1%nat [0]); [done|reflexivity]|].
    eapply rtc_l; [eapply (ps_read_sleeps _ _ _ _ _ _ 1%nat [0]); [by simplify_map_eq|vm_compute; reflexivity]|].
    eapply rtc_l; [apply (ps_call_write _ _ _ _ _ _ 2%nat [65; 66]); [done|reflexivity]|].
    eapply rtc_l; [eapply (ps_write_returns _ _ _ _ _ _ 2%nat [65; 66]); [by simplify_map_eq|vm_compute; reflexivity]|].
    apply rtc_refl.
  - vm_compute. reflexivity.
  - vm_compute. reflexivity.
  - vm_compute. reflexivity.
Qed.


Lemma pipe_sleepers_wait_witness : exists s, rtc (pstep not_killed 0) (ex_psys ∅) s /\ qlen (s_pipe s) = 0 /\ writeopen (s_pipe s) <> 0.
Proof.
  destruct ex_asleep as (s & Hr & Ht). exists s. split; [exact Hr|].
  destruct (pipe_sleepers_wait not_killed (fun _ _ => eq_refl) 0 _ s ex_pipe_start Hr) as (_ & HR & _). exact (HR _ _ Ht).
Defined.

Lemma ex_pipe_full_ok : pipe_ok (Pipe (replicate 512 7) 4294967295 511 1 1).
Proof. split; vm_compute; try split; done. Qed.

Lemma piperead_correct_witness : exists p',
  piperead not_killed 0 0 2 (Ctx [] []) (Pipe (replicate 512 7) 4294967295 511 1 1, [0; 0; 0]) =
    Ok 2 (Ctx [] [nwrite_chan 0]) (p', [7; 7; 0]) /\ pipe_ok p'.
Proof.
  destruct (piperead_correct not_killed (fun _ _ => eq_refl) 0 _ [0; 0; 0] 0 2 ex_pipe_full_ok
    ltac:(lia) ltac:(lia) ltac:(simpl; lia) ltac:(lia)) as (p' & E & Hok & _).
  exists p'. split; [exact E|exact Hok].
Defined.
