(* ===== verification/File.v ===== *)
(** * kernel/file.c, and [pipealloc] of kernel/pipe.c

    The table of open files over the file system, the pipes and the memory
    [M] of the calling process.  A [struct file *] is the index of the file
    in [ftable.file], a [struct pipe *] the address of the page of the pipe.
    The page allocator is reached through the interface [Pages]; the device
    switch [devsw], filled by the drivers at boot, is a parameter. *)
From S2P Require Import Prelude Kmonad Riscv Mem Kalloc Block Sleeplock Bio Log FsLayout Fs Pipe.

Inductive fdtype := FD_NONE | FD_PIPE | FD_INODE | FD_DEVICE.
#[global] Instance fdtype_eq_dec : EqDecision fdtype.
Proof. solve_decision. Defined.

Record file := File {
  ftype : fdtype;
  fref : Z;            (** reference count *)
  freadable : Z;
  fwritable : Z;
  fpipe : Z;           (** [FD_PIPE] *)
  fip : option nat;    (** [FD_INODE] and [FD_DEVICE] *)
  foff : Z;            (** [FD_INODE] *)
  fmajor : Z;          (** [FD_DEVICE] *)
}.
Definition file0 : file := File FD_NONE 0 0 0 0 None 0 0.
#[global] Instance file_inhabited : Inhabited file := populate file0.

Definition set_ref (r : Z) (f : file) : file :=
  File (ftype f) r (freadable f) (fwritable f) (fpipe f) (fip f) (foff f) (fmajor f).
Definition set_type (t : fdtype) (f : file) : file :=
  File t (fref f) (freadable f) (fwritable f) (fpipe f) (fip f) (foff f) (fmajor f).
Definition set_rw (r w : Z) (f : file) : file :=
  File (ftype f) (fref f) r w (fpipe f) (fip f) (foff f) (fmajor f).
Definition set_pipe (p : Z) (f : file) : file :=
  File (ftype f) (fref f) (freadable f) (fwritable f) p (fip f) (foff f) (fmajor f).
Definition set_ip (i : option nat) (f : file) : file :=
  File (ftype f) (fref f) (freadable f) (fwritable f) (fpipe f) i (foff f) (fmajor f).
Definition set_off (o : Z) (f : file) : file :=
  File (ftype f) (fref f) (freadable f) (fwritable f) (fpipe f) (fip f) o (fmajor f).
Definition set_major (m : Z) (f : file) : file :=
  File (ftype f) (fref f) (freadable f) (fwritable f) (fpipe f) (fip f) (foff f) m.

(** What pipes need of the page allocator. *)
Class Pages (M : Type) := {
  page_alloc : K M Z;
  page_free : Z -> K M unit;
}.
#[global] Instance kernel_pages {L : Layout} : Pages mstate := {|
  page_alloc := kalloc;
  page_free := kfree;
|}.

Definition nfile : nat := Z.to_nat NFILE.
Definition ftable_lock : lockid := ("ftable", 0).

Section file.
Context {D : BlockDev} {M : Type} {MV : Mover M} {PG : Pages M}.
(** The calling process: its pid, and its [killed] flag. *)
Context (me : Z) (killed : K M Z).

Record kst := Kst {
  kfs : fstate;
  kft : list file;            (** [ftable.file] *)
  kpipes : gmap Z pipe;       (** the pipes, by the address of their page *)
  kmem : M;
}.

Definition fsys {A} (m : K fstate A) : K kst A :=
  zoom kfs (fun f s => Kst f (kft s) (kpipes s) (kmem s)) m.
Definition umem {A} (m : K M A) : K kst A :=
  zoom kmem (fun u s => Kst (kfs s) (kft s) (kpipes s) u) m.
Definition fsmem {A} (m : K (fstate * M) A) : K kst A :=
  zoom (fun s => (kfs s, kmem s)) (fun x s => Kst (fst x) (kft s) (kpipes s) (snd x)) m.
Definition pipe0 : pipe := Pipe (replicate (Z.to_nat PIPESIZE) 0) 0 0 0 0.
Definition on_pipe {A} (pi : Z) (m : K (pipe * M) A) : K kst A :=
  zoom (fun s => (default pipe0 (kpipes s !! pi), kmem s))
       (fun x s => Kst (kfs s) (kft s) (<[pi := fst x]> (kpipes s)) (snd x)) m.
Definition get_file {A} (f : nat) (g : file -> A) : K kst A := gets (fun s => g (kft s !!! f)).
Definition mod_file (f : nat) (g : file -> file) : K kst unit :=
  modify (fun s => Kst (kfs s) (<[f := g (kft s !!! f)]> (kft s)) (kpipes s) (kmem s)).

(** [devsw[major].read] and [.write], null when the device has none; the
    first argument says whether the address is a user address. *)
Definition devfn : Type := option (bool -> Z -> Z -> K kst Z).
Context (devsw : Z -> devfn * devfn).

Definition fileinit : K kst unit := initlock ftable_lock.

Definition filealloc : K kst (option nat) :=
  acquire ftable_lock ;;
  r <- loop (nfile + 1) (fun f =>
    if (f <? nfile)%nat then
      r <- get_file f fref ;;
      if r =? 0 then
        mod_file f (set_ref 1) ;;
        release ftable_lock ;;
        ret (inr (Some f))
      else ret (inl (f + 1)%nat)
    else ret (inr None)) O ;;
  match r with
  | Some f => ret (Some f)
  | None => release ftable_lock ;; ret None
  end.

Definition filedup (f : nat) : K kst nat :=
  acquire ftable_lock ;;
  r <- get_file f fref ;;
  if r <? 1 then panic "filedup"
  else
    mod_file f (set_ref (r + 1)) ;;
    release ftable_lock ;;
    ret f.

Definition fileclose (f : nat) : K kst unit :=
  acquire ftable_lock ;;
  r <- get_file f fref ;;
  if r <? 1 then panic "fileclose"
  else
    mod_file f (set_ref (r - 1)) ;;
    if 0 <? r - 1 then release ftable_lock
    else
      ff <- get_file f id ;;
      mod_file f (set_ref 0) ;;
      mod_file f (set_type FD_NONE) ;;
      release ftable_lock ;;
      match ftype ff, fip ff with
      | FD_PIPE, _ => on_pipe (fpipe ff) (pipeclose (page_free (fpipe ff)) (fpipe ff) (negb (fwritable ff =? 0)))
      | (FD_INODE | FD_DEVICE), Some ip =>
          fsys (lg begin_op) ;;
          fsys (iput me ip) ;;
          fsys (lg (end_op me))
      | (FD_INODE | FD_DEVICE), None => panic "kerneltrap"   (* a fault in [iput] *)
      | FD_NONE, _ => skip
      end.

(** The bytes of a [struct stat]; the compiler pads [size] to a multiple of
    8, and [junk] is what the stack had in the padding. *)
Definition stat_bytes (junk : list Z) (st : stat) : list Z :=
  le_enc 4 (st_dev st) ++ le_enc 4 (st_ino st) ++ le_enc 2 (st_type st) ++ le_enc 2 (st_nlink st) ++ junk ++
  le_enc 8 (st_size st).

Definition filestat (junk : list Z) (f : nat) (addr : Z) : K kst Z :=
  ff <- get_file f id ;;
  match ftype ff, fip ff with
  | (FD_INODE | FD_DEVICE), Some i =>
      fsys (ilock me (Some i)) ;;
      st <- fsys (stati i) ;;
      fsys (iunlock me (Some i)) ;;
      r <- umem (either_copyout addr (stat_bytes junk st)) ;;
      if r <? 0 then ret (-1) else ret 0
  | (FD_INODE | FD_DEVICE), None => fsys (ilock me None) ;; ret 0
  | _, _ => ret (-1)
  end.

Definition fileread (f : nat) (addr n : Z) : K kst Z :=
  ff <- get_file f id ;;
  if freadable ff =? 0 then ret (-1)
  else
    match ftype ff with
    | FD_PIPE => on_pipe (fpipe ff) (piperead killed (fpipe ff) addr n)
    | FD_DEVICE =>
        if (fmajor ff <? 0) || (NDEV <=? fmajor ff) then ret (-1)
        else
          match fst (devsw (fmajor ff)) with
          | None => ret (-1)
          | Some read => read true addr n
          end
    | FD_INODE =>
        fsys (ilock me (fip ff)) ;;
        r <- match fip ff with
             | Some i => fsmem (readi me i addr (foff ff) (u32 n))
             | None => ret 0
             end ;;
        when (0 <? r) (mod_file f (fun ff => set_off (u32 (foff ff + r)) ff)) ;;
        fsys (iunlock me (fip ff)) ;;
        ret r
    | FD_NONE => panic "fileread"
    end.

(** [max] of [filewrite]: the bytes of one transaction. *)
Definition max_chunk : Z := ((MAXOPBLOCKS - 1 - 1 - 2) / 2) * BSIZE.

(** One turn of the loop of [filewrite]: a transaction that writes [n1]
    bytes; returns [r]. *)
Definition write_chunk (f : nat) (addr i n1 : Z) : K kst Z :=
  fsys (lg begin_op) ;;
  ip <- get_file f fip ;;
  fsys (ilock me ip) ;;
  off <- get_file f foff ;;
  r <- match ip with
       | Some ip => fsmem (writei me ip (u64 (addr + i)) off n1)
       | None => ret 0
       end ;;
  when (0 <? r) (mod_file f (fun ff => set_off (u32 (foff ff + r)) ff)) ;;
  fsys (iunlock me ip) ;;
  fsys (lg (end_op me)) ;;
  ret r.

Definition filewrite (f : nat) (addr n : Z) : K kst Z :=
  ff <- get_file f id ;;
  if fwritable ff =? 0 then ret (-1)
  else
    match ftype ff with
    | FD_PIPE => on_pipe (fpipe ff) (pipewrite killed (fpipe ff) addr n)
    | FD_DEVICE =>
        if (fmajor ff <? 0) || (NDEV <=? fmajor ff) then ret (-1)
        else
          match snd (devsw (fmajor ff)) with
          | None => ret (-1)
          | Some write => write true addr n
          end
    | FD_INODE =>
        i <- loop (Z.to_nat n + 1) (fun i =>
          if i <? n then
            let n1 := if max_chunk <? n - i then max_chunk else n - i in
            r <- write_chunk f addr i n1 ;;
            if negb (r =? n1) then ret (inr i)
            else ret (inl (i + r))
          else ret (inr i)) 0 ;;
        ret (if i =? n then n else -1)
    | FD_NONE => panic "filewrite"
    end.

(** The label [bad] of [pipealloc]; [pi] is null there. *)
Definition pipealloc_bad (f0 f1 : option nat) : K kst (option (nat * nat)) :=
  match f0 with Some f => fileclose f | None => skip end ;;
  match f1 with Some f => fileclose f | None => skip end ;;
  ret None.

(** Returns the two files, or [None] for -1. *)
Definition pipealloc : K kst (option (nat * nat)) :=
  r0 <- filealloc ;;
  match r0 with
  | None => pipealloc_bad None None
  | Some f0 =>
      r1 <- filealloc ;;
      match r1 with
      | None => pipealloc_bad (Some f0) None
      | Some f1 =>
          pi <- umem page_alloc ;;
          if pi =? 0 then pipealloc_bad (Some f0) (Some f1)
          else
            on_pipe pi (pp (pipe_init pi)) ;;
            mod_file f0 (set_type FD_PIPE) ;;
            mod_file f0 (set_rw 1 0) ;;
            mod_file f0 (set_pipe pi) ;;
            mod_file f1 (set_type FD_PIPE) ;;
            mod_file f1 (set_rw 0 1) ;;
            mod_file f1 (set_pipe pi) ;;
            ret (Some (f0, f1))
      end
  end.
End file.
