(* ===== verification/FileWrite.v ===== *)
(** * filewrite (kernel/file.c) on a file of the disk

    [filewrite] cuts a write into transactions of at most [max_chunk] bytes.
    Each is one [begin_op] ... [end_op], which composes the file system
    (FsFile), the log (Transaction) and the locks; it logs no more blocks than
    an operation may, and a crash finds it done or not done. *)
From S2P Require Import Prelude Kmonad Riscv Mem Block Sleeplock Bio BioRing BioCache BioSpec Log LogSpec LogRun LogCrash LogSpace.
From S2P Require Import FsLayout Fs Tx FsBlock FsFormat FsInode FsRead FsBmap FsWrite FsFile Transaction Pipe File.

Section filewrite.
Context {D : BlockDev} (me start : Z) (sb : superblock) (Hsb : sb_ok sb start).
Implicit Types (s : fstate) (x : @kst D (list Z)) (V : Z -> block) (c : ctx) (F : Z -> Prop) (obj : list Z) (k n off : Z).

(** ** Blocks outside the log decide *)

Definition same_fs (V V' : Z -> block) : Prop := forall k, ~ in_log start k -> V' k = V k.

Lemma inode_block_free k : sb_inodestart sb <= k -> ~ in_log start k.
Proof. intros Hk [_ H]. destruct (sb_bounds sb start Hsb) as (_ & ? & _). lia. Qed.

Lemma bitmap_free b : 0 <= b < sb_size sb -> ~ in_log start (BBLOCK b sb).
Proof.
  intros Hb. apply inode_block_free. destruct (BBLOCK_range sb start Hsb b Hb) as (_ & ? & _).
  destruct (sb_bounds sb start Hsb) as (_ & _ & ? & _). lia.
Qed.

Lemma data_free k : is_data sb k -> ~ in_log start k.
Proof.
  intros [Hk _]. apply inode_block_free. destruct (sb_bounds sb start Hsb) as (_ & _ & ? & ? & _). lia.
Qed.

Lemma used_same V V' b : same_fs V V' -> 0 <= b < sb_size sb -> used sb V' b = used sb V b.
Proof. intros H Hb. unfold used. by rewrite (H _ (bitmap_free b Hb)). Qed.

Lemma baddr_same V V' a F n : same_fs V V' -> file_ok sb V a F -> baddr V' a n = baddr V a n.
Proof.
  intros H Hf. unfold baddr. destruct (n <? NDIRECT); [done|].
  destruct (Z.eqb_spec (a !!! Z.to_nat NDIRECT) 0) as [|E]; [done|]. destruct (fo_ind _ _ _ _ Hf) as [|(Hd & _)]; [done|].
  by rewrite (H _ (data_free _ Hd)).
Qed.

Lemma data_size k : is_data sb k -> 0 <= k < sb_size sb.
Proof. intros Hk. destruct (is_data_loggable sb start Hsb _ Hk). destruct Hk. lia. Qed.

Lemma file_ok_same V V' a F : same_fs V V' -> file_ok sb V a F -> file_ok sb V' a F.
Proof.
  intros H Hf. pose proof (fun n => baddr_same V V' a F n H Hf) as Eb.
  assert (forall k, is_data sb k -> used sb V' k = used sb V k) as Eu.
  { intros k Hk. apply used_same; [done|by apply data_size]. }
  split.
  - apply Hf.
  - intros b Hb. destruct (so_data _ _ Hsb). rewrite (used_same V) by (done || lia). by apply (fo_meta _ _ _ _ Hf).
  - destruct (fo_ind _ _ _ _ Hf) as [?|(? & ? & ?)]; [by left|right]. by rewrite Eu.
  - intros n Hn. rewrite Eb. destruct (fo_blocks _ _ _ _ Hf n Hn) as [?|(? & ? & ?)]; [by left|right]. by rewrite Eu.
  - intros n n'. rewrite !Eb. apply Hf.
  - intros n. rewrite Eb. apply Hf.
  - intros k Hk. destruct (fo_frame _ _ _ _ Hf k Hk). by rewrite Eu.
Qed.

Lemma file_at_same s i V V' F : same_fs V V' -> file_at sb s i V F ->
  file_at sb s i V' F /\ content s i V' = content s i V.
Proof.
  intros H [H1 H2 H3 H4 H5 H6 H7]. split.
  - split; try done; [by apply (file_ok_same V)|]. intros n Hn Hs. rewrite (baddr_same V V' _ F) by done. by apply H7.
  - unfold content, frange. apply list_fmap_ext. intros j y [-> Hj]%lookup_seq. cbn [Nat.add]. unfold fbyte. rewrite (baddr_same V V' _ F) by done.
    destruct (block_of (0 + Z.of_nat j) (isize (inode_at s i))) as (Hb & Hlt & _); [lia|done|].
    destruct (fo_blocks _ _ _ _ H5 _ Hb) as [E|(Hd & _)]; [by apply H7 in E; [|lia..]|]. by rewrite (H _ (data_free _ Hd)).
Qed.

(** ** Locking a valid inode *)

Definition relock (i : nat) (l : sleeplock) (s : fstate) : fstate := upd_inode i (set_ilk l) s.

Lemma relock_at i l s : (i < length (itab s))%nat -> inode_at (relock i l s) i = set_ilk l (inode_at s i).
Proof. intros. unfold inode_at, relock, upd_inode. cbn. by rewrite list_lookup_total_insert_eq. Qed.

Lemma ilock_valid s i c : held c = [] -> (i < length (itab s))%nat -> 1 <= iref (inode_at s i) ->
  locked (ilk (inode_at s i)) = 0 -> ivalid (inode_at s i) <> 0 ->
  wp (ilock me (Some i)) (fun _ c' s' => held c' = [] /\ s' = relock i (SleepLock 1 me) s) c s.
Proof.
  intros Hc Hi Hr Hl Hv. unfold ilock, get_inode. kstep. kstep. rewrite (proj2 (Z.ltb_ge _ _)) by done.
  kstep. unfold on_ilk. apply wp_zoom. apply acquiresleep_spec; [rewrite Hc; apply not_elem_of_nil|done|]. kstep. kstep.
  unfold when. fold (relock i (SleepLock 1 me) s). rewrite relock_at by done. cbn [ivalid set_ilk id].
  rewrite (proj2 (Z.eqb_neq _ 0)) by done. apply wp_ret. done.
Qed.

Lemma iunlock_held s i c : held c = [] -> (i < length (itab s))%nat -> 1 <= iref (inode_at s i) ->
  ilk (inode_at s i) = SleepLock 1 me ->
  wp (iunlock me (Some i)) (fun _ c' s' => held c' = [] /\ s' = relock i (SleepLock 0 0) s) c s.
Proof.
  intros Hc Hi Hr Hl. unfold iunlock, get_inode. kstep. unfold on_ilk at 1. apply wp_zoom.
  apply holdingsleep_spec; [rewrite Hc; apply not_elem_of_nil|]. rewrite Hl. cbn [locked lpid Z.eqb negb andb]. rewrite Z.eqb_refl.
  fold (relock i (SleepLock 1 me) s). set (s1 := relock i (SleepLock 1 me) s).
  assert (inode_at s1 i = set_ilk (SleepLock 1 me) (inode_at s i)) as E1 by (by apply relock_at).
  kstep. kstep. rewrite E1. cbn [iref set_ilk]. rewrite (proj2 (Z.ltb_ge _ _)) by done. cbn [negb orb].
  unfold on_ilk. apply wp_zoom. apply releasesleep_spec; [rewrite Hc; apply not_elem_of_nil|]. split; [done|].
  unfold s1, relock, upd_inode, inode_at. cbn [itab flog fsb]. rewrite list_lookup_total_insert_eq, list_insert_insert_eq by done. done.
Qed.

(** The lock of the inode is no part of the file. *)
Lemma file_at_lock s s' i l V F : length (itab s') = length (itab s) -> inode_at s' i = set_ilk l (inode_at s i) ->
  file_at sb s i V F -> file_at sb s' i V F /\ content s' i V = content s i V.
Proof.
  intros Hlen E [H1 H2 H3 H4 H5 H6 H7]. split; [split; rewrite ?E; try done; lia|]. unfold content. by rewrite E.
Qed.

Lemma all_or_nothing_same d ws V V' : same_fs V V' -> all_or_nothing me start d ws V -> all_or_nothing me start d ws V'.
Proof.
  intros H Ha i r F c Hc Hd Hq HF. eapply wp_mono; [by apply (Ha i r F c)|].
  intros [] c' r' [Hl|Hr]; [by left|right]. intros k Hk. rewrite Hr, H by done. done.
Qed.

Lemma dinode_at_same V V' j : same_fs V V' -> is_inum sb j -> dinode_at sb V' j = dinode_at sb V j.
Proof.
  intros H Hj. unfold dinode_at. destruct (IBLOCK_range start sb Hsb j Hj) as (_ & _ & _ & Hnl & _). by rewrite (H _ Hnl).
Qed.

(** ** One transaction *)

Definition disk_of x : disk := dsk (lbio (flog (kfs x))).
Definition blocks_of x : Z -> block := dread (disk_of x).

(** File [f] is open for writing on inode [i], which is loaded and not
    locked, and the file system is idle; [F] are the blocks of other files. *)
Record open_file_at x (f i : nat) F : Prop := {
  op_f : (f < length (kft x))%nat;
  op_type : ftype (kft x !!! f) = FD_INODE;
  op_writable : fwritable (kft x !!! f) <> 0;
  op_ip : fip (kft x !!! f) = Some i;
  op_idle : idle me start (flog (kfs x));
  op_sb : fsb (kfs x) = sb;
  op_file : file_at sb (kfs x) i (blocks_of x) F;
  op_ref : 1 <= iref (inode_at (kfs x) i);
  op_lk : locked (ilk (inode_at (kfs x) i)) = 0;
  op_valid : ivalid (inode_at (kfs x) i) <> 0;
  op_off : 0 <= foff (kft x !!! f) <= isize (inode_at (kfs x) i);
}.

(** What a write of [bs] at the file's offset leaves. *)
Record wrote_file x (f i : nat) F (bs : list Z) x' : Prop := {
  wf_open : open_file_at x' f i F;
  wf_content : content (kfs x') i (blocks_of x') = splice (content (kfs x) i (blocks_of x)) (foff (kft x !!! f)) bs;
  wf_off : foff (kft x' !!! f) = foff (kft x !!! f) + Z.of_nat (length bs);
  wf_others : forall k, F k -> blocks_of x' k = blocks_of x k;
  wf_inodes : forall j, is_inum sb j -> j <> inum (inode_at (kfs x) i) -> dinode_at sb (blocks_of x') j = dinode_at sb (blocks_of x) j;
  wf_inum : inum (inode_at (kfs x') i) = inum (inode_at (kfs x) i);
  wf_table : forall g, g <> f -> kft x' !!! g = kft x !!! g;
  wf_rest : kpipes x' = kpipes x /\ kmem x' = kmem x;
}.

Lemma chunk_blocks off n : 0 <= off -> 0 <= n <= max_chunk -> 0 <= nblocks off n <= 4.
Proof. intros H0 Hn. unfold nblocks, max_chunk, MAXOPBLOCKS, BSIZE in *. change ((10 - 1 - 1 - 2) / 2 * 1024) with 3072 in *. zlia. Qed.

(** The numbers of bitmap blocks for which a chunk fits into an operation. *)
Definition small_bitmap : Prop := data_start sb - sb_bmapstart sb <= 4.
Context (Hbm : small_bitmap).

(** The steps of a chunk: the inode locked, written and unlocked, and the transaction committed. *)
Definition chunk_run x (f i : nat) F addr i0 n1 r x' : Prop :=
  let off := foff (kft x !!! f) in let obj := kmem x in let d := disk_of x in
  exists l1 s3 l3 a3 z3 l6 L V ws, let s2 := relock i (SleepLock 1 me) (set_flog l1 (kfs x)) in
    s3 = put_file_size l3 i a3 z3 s2 /\ file_at sb s3 i V F /\
    content s3 i V = splice (content s2 i (dread d)) off (getb r (addr + i0) obj) /\
    (forall k, F k -> V k = dread d k) /\
    (forall j, is_inum sb j -> dinode_at sb V j =
       if decide (j = inum (inode_at s2 i)) then to_dinode (inode_at s3 i) else dinode_at sb (dread d) j) /\
    (r < n1 -> full sb V) /\ Z.of_nat (length L) <= MAXOPBLOCKS /\ (forall k, k ∉ L -> V k = dread d k) /\
    idle me start l6 /\ dsk (lbio l6) = apply_writes d ws /\ same_fs V (dread (dsk (lbio l6))) /\ all_or_nothing me start d ws V /\
    x' = Kst (set_flog l6 (relock i (SleepLock 0 0) s3)) (<[f := set_off (off + r) (kft x !!! f)]> (kft x)) (kpipes x) obj.

Lemma write_chunk_run x (f i : nat) F addr i0 n1 c :
  held c = [] -> open_file_at x f i F -> 0 < n1 <= max_chunk -> foff (kft x !!! f) + n1 <= MAXFILE * BSIZE ->
  0 <= addr -> 0 <= i0 -> addr + i0 + n1 <= Z.of_nat (length (kmem x)) -> addr + i0 + n1 < 2 ^ 64 -> Forall byte (kmem x) ->
  wp (write_chunk me f addr i0 n1) (fun r c' x' => held c' = [] /\ 0 <= r <= n1 /\ chunk_run x f i F addr i0 n1 r x') c x.
Proof.
  intros Hc Ho Hn Hmax Ha Hi0 Hsrc Hw Hb. pose proof Ho as [O1 O2 O3 O4 O5 O6 O7 O8 O9 O10 O11]. destruct x as [s ft pi obj].
  cbn [kfs kft kmem] in *. pose proof (fa_index _ _ _ _ _ O7) as Hi. set (d := dsk (lbio (flog s))) in *. change (blocks_of _) with (dread d) in *.
  unfold write_chunk, fsys, lg. kstep. apply wp_zoom. cbn [kfs]. apply wp_zoom.
  eapply wp_mono; [by apply (begin_tx me start)|]. intros [] c1 l1 (Hc1 & Hb1 & Ht1). cbn [kft kpipes kmem].
  unfold get_file. kstep. kstep. cbn [kft]. rewrite O4.
  kstep. apply wp_zoom. cbn [kfs].
  eapply wp_mono; [apply (ilock_valid (set_flog l1 s)); done|]. intros [] c2 s2 [Hc2 ->]. cbn [kft kpipes kmem]. set (s2 := relock _ _ _).
  assert (inode_at s2 i = set_ilk (SleepLock 1 me) (inode_at s i)) as E2 by (unfold s2; by rewrite relock_at).
  kstep. kstep. cbn [kft]. set (off := foff (ft !!! f)) in *. pose proof (chunk_blocks off n1 ltac:(lia) ltac:(lia)) as Hnb.
  kstep. unfold fsmem. apply wp_zoom. cbn [kfs kmem].
  rewrite u64_id by lia.
  eapply wp_mono; [apply (writei_file me start d (dwrites (lbio (flog s))) 1 sb Hsb s2 [] (dread d) i (addr + i0) off n1 c2 F obj); [done|done|]|].
  { split; rewrite ?E2; cbn [isize set_ilk]; try done; try lia.
    - destruct O7 as [P1 P2 P3 P4 P5 P6 P7]. split; rewrite ?E2; try done. unfold s2, relock, upd_inode. cbn. by rewrite length_insert.
    - unfold small_bitmap, NBUF, MAXOPBLOCKS in *. simpl. lia. }
  intros r c3 [s3 obj3] (Hc3 & Hr & [= ->] & Hsb3 & (l3 & a3 & z3 & Es3) & L & V & Ht3 & Hfa3 & Hcont & HF & Hdi & Hfull & HL).
  cbn [fst snd kft kpipes kmem] in *.
  assert (length (itab s3) = length (itab s) /\ inode_at s3 i = set_isize z3 (set_iaddrs a3 (inode_at s2 i))) as [Elen3 Ei3].
  { rewrite Es3. unfold put_file_size, upd_inode, set_flog, inode_at, s2, relock, upd_inode. cbn. rewrite !length_insert. split; [done|].
    rewrite list_lookup_total_insert_eq by (rewrite length_insert; done). done. }
  set (ft' := <[f := set_off (off + r) (ft !!! f)]> ft).
  kstep. assert (wp (when (0 <? r) (mod_file f (fun ff => set_off (u32 (foff ff + r)) ff)))
    (fun _ c' x' => c' = c3 /\ x' = Kst s3 ft' pi obj) c3 (Kst s3 ft pi obj)) as Hset.
  { unfold when, mod_file. destruct (Z.ltb_spec 0 r); [kstep; cbn [kfs kft kpipes kmem]; rewrite u32_id by (pose proof MAXFILE_bytes; lia); done|].
    apply wp_ret. split; [done|]. f_equal. unfold ft'. replace (off + r) with off by lia. symmetry. apply list_insert_id.
    rewrite list_lookup_lookup_total_lt by done. by destruct (ft !!! f). }
  eapply wp_mono; [exact Hset|]. intros [] c4 x4 [-> ->]. kstep. apply wp_zoom. cbn [kfs].
  eapply wp_mono; [apply (iunlock_held s3 i c3); rewrite ?Elen3, ?Ei3, ?E2; done|]. intros [] c5 s5 [Hc5 ->]. cbn [kft kpipes kmem].
  kstep. apply wp_zoom. cbn [kfs]. apply wp_zoom.
  eapply wp_mono; [apply (end_tx me start d (dwrites (lbio (flog s))) (flog s3) L V c5); [done|done| |apply O5]|].
  { unfold small_bitmap, NBUF, MAXOPBLOCKS in *. simpl in HL. lia. }
  intros [] c6 l6 (Hc6 & Hi6 & ws & _ & Hd6 & HV6 & Hcr). kstep. cbn [kft kpipes kmem].
  split; [done|]. split; [lia|]. exists l1, s3, l3, a3, z3, l6, L, V, ws. cbn [kft kfs kmem kpipes]. fold off s2 d.
  split_and!; try done; [unfold small_bitmap, MAXOPBLOCKS in *; simpl in HL; lia|]. apply (tx_clean _ _ _ _ _ _ _ _ _ Ht3).
Qed.

Lemma chunk_run_wrote x (f i : nat) F addr i0 n1 r x' :
  open_file_at x f i F -> 0 <= r -> 0 <= addr + i0 -> addr + i0 + r <= Z.of_nat (length (kmem x)) ->
  chunk_run x f i F addr i0 n1 r x' ->
  wrote_file x f i F (getb r (addr + i0) (kmem x)) x'.
Proof.
  intros [O1 O2 O3 O4 O5 O6 O7 O8 O9 O10 O11] Hr Ha Hobj
    (l1 & s3 & l3 & a3 & z3 & l6 & L & V & ws & Es3 & Hfa & Hcont & HF & Hdi & _ & _ & _ & Hi6 & Hd6 & Hsame & _ & Ex).
  set (off := foff (kft x !!! f)) in *. set (s2 := relock i _ (set_flog l1 (kfs x))) in *. pose proof (fa_index _ _ _ _ _ O7) as Hi.
  assert (Z.of_nat (length (getb r (addr + i0) (kmem x))) = r) as Elen by (rewrite getb_length; lia).
  assert (inode_at s2 i = set_ilk (SleepLock 1 me) (inode_at (kfs x) i)) as E2 by (unfold s2; by rewrite relock_at).
  assert (length (itab s2) = length (itab (kfs x))) as El2 by (unfold s2, relock, upd_inode; cbn; by rewrite length_insert).
  assert (inode_at s3 i = set_isize z3 (set_iaddrs a3 (inode_at s2 i))) as E3 by (rewrite Es3; apply inode_at_size; by rewrite El2).
  pose proof (fa_index _ _ _ _ _ Hfa) as Hi3. set (s6 := set_flog l6 (relock i (SleepLock 0 0) s3)) in *.
  assert (inode_at s6 i = set_ilk (SleepLock 0 0) (inode_at s3 i)) as E6.
  { change (inode_at s6 i) with (inode_at (relock i (SleepLock 0 0) s3) i). by apply relock_at. }
  assert (length (itab s6) = length (itab s3)) as El6 by (unfold s6, relock, upd_inode; cbn; by rewrite length_insert).
  destruct (file_at_lock s3 s6 i _ V F El6 E6 Hfa) as [Hfa6 Hc6].
  destruct (file_at_same s6 i V (dread (dsk (lbio l6))) F Hsame Hfa6) as [Hfa7 Hc7].
  destruct (file_at_lock (kfs x) s2 i _ (blocks_of x) F El2 E2 O7) as [_ Hc2].
  assert (content s6 i (dread (dsk (lbio l6))) = splice (content (kfs x) i (blocks_of x)) off (getb r (addr + i0) (kmem x))) as Econt
    by (by rewrite Hc7, Hc6, Hcont, <- Hc2).
  assert (off + r <= isize (inode_at s6 i)) as Hsz.
  { pose proof (do_size _ (fa_fields _ _ _ _ _ Hfa7)) as Hs1. cbn [d_size to_dinode] in Hs1. pose proof (do_size _ (fa_fields _ _ _ _ _ O7)) as Hs0.
    cbn [d_size to_dinode] in Hs0. apply (f_equal length) in Econt. unfold content, splice in Econt.
    rewrite !length_app, length_take, length_drop, !frange_length in Econt. lia. }
  assert (inode_at s6 i = set_ilk (SleepLock 0 0) (set_isize z3 (set_iaddrs a3 (set_ilk (SleepLock 1 me) (inode_at (kfs x) i))))) as E6'
    by (by rewrite E6, E3, E2).
  rewrite Ex. split; cbn [kft kfs kmem kpipes]; try done.
  - split; cbn [kft kfs kmem kpipes]; rewrite ?list_lookup_total_insert_eq, ?length_insert by done; try done; try (by rewrite E6').
    + change (fsb s6) with (fsb s3). by rewrite Es3.
    + cbn [foff set_off]. lia.
  - by rewrite list_lookup_total_insert_eq, Elen by done.
  - intros k Hk. change (blocks_of x k) with (dread (disk_of x) k). rewrite <- (HF k Hk). apply Hsame, data_free.
    by destruct (fo_frame _ _ _ _ (fa_ok _ _ _ _ _ O7) k Hk).
  - intros j Hj Hne. unfold blocks_of at 1. unfold disk_of. cbn [kfs]. rewrite (dinode_at_same V) by done. rewrite Hdi by done.
    rewrite decide_False by (rewrite E2; done). done.
  - by rewrite E6'.
  - intros g Hg. by apply list_lookup_total_insert_ne.
Qed.

Lemma splice_app (l : list Z) off b1 b2 : 0 <= off <= Z.of_nat (length l) ->
  splice (splice l off b1) (off + Z.of_nat (length b1)) b2 = splice l off (b1 ++ b2).
Proof.
  intros H. unfold splice. rewrite length_app.
  assert (length (take (Z.to_nat off) l ++ b1) = Z.to_nat (off + Z.of_nat (length b1))) as E by (rewrite length_app, length_take; lia).
  rewrite (app_assoc (take (Z.to_nat off) l) b1). rewrite <- E at 1. rewrite take_app_length, <- !app_assoc. do 3 f_equal.
  rewrite (app_assoc _ b1), drop_app_ge by lia. rewrite E, drop_drop. f_equal. lia.
Qed.

Lemma content_length s i V : length (content s i V) = Z.to_nat (isize (inode_at s i)).
Proof. unfold content. by rewrite frange_length. Qed.

Lemma wrote_none x f i F : open_file_at x f i F -> wrote_file x f i F [] x.
Proof.
  intros Ho. split; try done; [|simpl; lia]. pose proof (op_off _ _ _ _ Ho). unfold splice. cbn [length app].
  by rewrite Nat.add_0_r, take_drop.
Qed.

Lemma wrote_more x f i F b1 b2 x1 x2 : open_file_at x f i F ->
  wrote_file x f i F b1 x1 -> wrote_file x1 f i F b2 x2 -> wrote_file x f i F (b1 ++ b2) x2.
Proof.
  intros Ho [O1 C1 F1 K1 D1 N1 T1 [R1 R1']] [O2 C2 F2 K2 D2 N2 T2 [R2 R2']]. pose proof (op_off _ _ _ _ Ho).
  split; try done.
  - rewrite C2, F1, C1. apply splice_app. rewrite content_length. lia.
  - rewrite F2, F1, length_app. lia.
  - intros k Hk. by rewrite K2, K1.
  - intros j Hj Hn. rewrite D2, D1 by (done || by rewrite N1). done.
  - by rewrite N2.
  - intros g Hg. by rewrite T2, T1.
  - by rewrite R2, R2'.
Qed.

Lemma full_same V V' : same_fs V V' -> full sb V -> full sb V'.
Proof. intros H Hf j Hj. rewrite (used_same V) by done. by apply Hf. Qed.

Lemma chunk_full x f i F addr i0 n1 r x' : chunk_run x f i F addr i0 n1 r x' -> r < n1 -> full sb (blocks_of x').
Proof. intros (l1 & s3 & l3 & a3 & z3 & l6 & L & V & ws & _ & _ & _ & _ & _ & Hfull & _ & _ & _ & _ & Hsame & _ & ->) Hlt. by apply (full_same V), Hfull. Qed.

Lemma getb_nothing off (l : list Z) : getb 0 off l = [].
Proof. done. Qed.


Context (killed : K (list Z) Z) (devsw : Z -> devfn (M := list Z) * devfn (M := list Z)).


End filewrite.

(** ** Witnesses: the empty file of the example disk, opened for writing *)

Definition ex_unlocked : inode := set_ilk (SleepLock 0 0) ex_inode.
Definition ex_open_file : file := File FD_INODE 1 1 1 0 (Some 0%nat) 0 0.
Definition ex_open (l : @lstate map_disk) : @kst map_disk (list Z) := Kst (Fst l ex_sb [ex_unlocked]) [ex_open_file] ∅ hello.

Lemma ex_idle : exists l : @lstate map_disk, idle 1 2 l /\ dsk (lbio l) = ex_disk.
Proof.
  destruct (fresh_tx (D := map_disk) ex_disk 1 2 0 ex_fs_disk_ok) as [l Hl]; [lia|by vm_compute|]. exists l.
  pose proof (tx_dsk _ _ _ _ _ _ _ _ _ Hl) as E. split; [|done]. unfold idle. rewrite E. split; [exact Hl|].
  split; [vm_compute; reflexivity|vm_compute; reflexivity|]. apply (tx_able _ _ _ _ _ _ _ _ _ Hl).
Qed.

Lemma ex_open_at (l : @lstate map_disk) : idle 1 2 l -> dsk (lbio l) = ex_disk -> open_file_at (D := map_disk) 1 2 ex_sb (ex_open l) 0 0 (fun _ => False).
Proof.
  intros Hl Hd. split; try done; cbn; try lia.
  unfold blocks_of, disk_of. cbn [kfs flog ex_open]. rewrite Hd.
  by apply (file_at_lock (D := map_disk) ex_sb (ex_fs l) (kfs (ex_open l)) 0 (SleepLock 0 0) _ _ eq_refl eq_refl), ex_file_at.
Qed.

Lemma ex_small_bitmap : small_bitmap ex_sb.
Proof. unfold small_bitmap. change (data_start ex_sb) with 36. simpl. lia. Qed.


