(* ===== verification/Proc.v ===== *)
(** * kernel/proc.c: the process table and its operations

    Processes are entries of [proc], a [struct proc *] the index of one.  The
    state has the table, [nextpid], [initproc], the process each CPU runs and
    the machine's memory.  The running process is [cur] ([myproc()]); [kbuf]
    is the address of the kernel object a copy to or from user space names.
    [noff] is the number of spinlocks held ([Spinlock.h_noff], no bare
    [push_off] being open), and interrupts are off while one is held.

    A process that calls [sched] leaves the CPU at [swtch]: its activation
    ends there with the lock of the process held, which the scheduler drops. *)
From S2P Require Import Prelude Kmonad Riscv Mem KString Kalloc Vm Block Sleeplock Bio Log FsLayout Fs FsDir Pipe File.

Definition NCPU : Z := 8.

Inductive procstate := UNUSED | USED | SLEEPING | RUNNABLE | RUNNING | ZOMBIE.
#[global] Instance procstate_eq_dec : EqDecision procstate.
Proof. solve_decision. Defined.

(** The callee-saved registers [swtch] saves. *)
Record context := Context { c_ra : Z; c_sp : Z; c_s : list Z }.
Definition context0 : context := Context 0 0 (replicate 12 0).

Record proc := Proc {
  state : procstate;
  pchan : option chan;         (** if non-null, sleeping on it *)
  pkilled : Z;
  xstate : Z;                  (** exit status for the parent's wait *)
  pid : Z;
  parent : option nat;
  kstack : Z;
  sz : Z;                      (** size of process memory *)
  pagetable : Z;
  trapframe : Z;               (** address of the page, or 0 *)
  pcontext : context;
  ofile : list (option nat);   (** open files *)
  cwd : option nat;
  pname : list Z;
}.
Definition proc0 : proc :=
  Proc UNUSED None 0 0 0 None 0 0 0 0 context0 (replicate (Z.to_nat NOFILE) None) None (replicate 16 0).
#[global] Instance proc_inhabited : Inhabited proc := populate proc0.

Definition set_state v p := Proc v (pchan p) (pkilled p) (xstate p) (pid p) (parent p) (kstack p) (sz p) (pagetable p) (trapframe p) (pcontext p) (ofile p) (cwd p) (pname p).
Definition set_chan v p := Proc (state p) v (pkilled p) (xstate p) (pid p) (parent p) (kstack p) (sz p) (pagetable p) (trapframe p) (pcontext p) (ofile p) (cwd p) (pname p).
Definition set_killed v p := Proc (state p) (pchan p) v (xstate p) (pid p) (parent p) (kstack p) (sz p) (pagetable p) (trapframe p) (pcontext p) (ofile p) (cwd p) (pname p).
Definition set_xstate v p := Proc (state p) (pchan p) (pkilled p) v (pid p) (parent p) (kstack p) (sz p) (pagetable p) (trapframe p) (pcontext p) (ofile p) (cwd p) (pname p).
Definition set_pid v p := Proc (state p) (pchan p) (pkilled p) (xstate p) v (parent p) (kstack p) (sz p) (pagetable p) (trapframe p) (pcontext p) (ofile p) (cwd p) (pname p).
Definition set_parent v p := Proc (state p) (pchan p) (pkilled p) (xstate p) (pid p) v (kstack p) (sz p) (pagetable p) (trapframe p) (pcontext p) (ofile p) (cwd p) (pname p).
Definition set_kstack v p := Proc (state p) (pchan p) (pkilled p) (xstate p) (pid p) (parent p) v (sz p) (pagetable p) (trapframe p) (pcontext p) (ofile p) (cwd p) (pname p).
Definition set_sz v p := Proc (state p) (pchan p) (pkilled p) (xstate p) (pid p) (parent p) (kstack p) v (pagetable p) (trapframe p) (pcontext p) (ofile p) (cwd p) (pname p).
Definition set_pagetable v p := Proc (state p) (pchan p) (pkilled p) (xstate p) (pid p) (parent p) (kstack p) (sz p) v (trapframe p) (pcontext p) (ofile p) (cwd p) (pname p).
Definition set_trapframe v p := Proc (state p) (pchan p) (pkilled p) (xstate p) (pid p) (parent p) (kstack p) (sz p) (pagetable p) v (pcontext p) (ofile p) (cwd p) (pname p).
Definition set_context v p := Proc (state p) (pchan p) (pkilled p) (xstate p) (pid p) (parent p) (kstack p) (sz p) (pagetable p) (trapframe p) v (ofile p) (cwd p) (pname p).
Definition set_ofile v p := Proc (state p) (pchan p) (pkilled p) (xstate p) (pid p) (parent p) (kstack p) (sz p) (pagetable p) (trapframe p) (pcontext p) v (cwd p) (pname p).
Definition set_cwd v p := Proc (state p) (pchan p) (pkilled p) (xstate p) (pid p) (parent p) (kstack p) (sz p) (pagetable p) (trapframe p) (pcontext p) (ofile p) v (pname p).
Definition set_name v p := Proc (state p) (pchan p) (pkilled p) (xstate p) (pid p) (parent p) (kstack p) (sz p) (pagetable p) (trapframe p) (pcontext p) (ofile p) (cwd p) v.

(** Offsets in [struct trapframe] (kernel/proc.h). *)
Definition sizeof_trapframe : Z := 288.
Definition tf_kernel_satp : Z := 0.
Definition tf_kernel_sp : Z := 8.
Definition tf_kernel_trap : Z := 16.
Definition tf_epc : Z := 24.
Definition tf_kernel_hartid : Z := 32.
Definition tf_sp : Z := 48.
Definition tf_a (n : Z) : Z := 112 + 8 * n.    (** [a0] .. [a7] *)

Record pst := Pst {
  pmem : mstate;
  procs : list proc;
  nextpid : Z;
  initproc : option nat;
  cproc : list (option nat);   (** [c->proc] of each CPU *)
  ticks : Z;                   (** kernel/trap.c *)
}.

Definition nproc : nat := Z.to_nat NPROC.
Definition proc_lock (i : nat) : lockid := ("proc", Z.of_nat i).
Definition wait_lock : lockid := ("wait_lock", 0).
Definition pid_lock : lockid := ("nextpid", 0).
(** The address of a [struct proc] as a channel; [None] is the null pointer. *)
Definition proc_chan (i : option nat) : option chan :=
  match i with Some i => Some ("proc", Z.of_nat i) | None => None end.

Definition pm {A} (m : K mstate A) : K pst A :=
  zoom pmem (fun x s => Pst x (procs s) (nextpid s) (initproc s) (cproc s) (ticks s)) m.
Definition proc_at (s : pst) (i : nat) : proc := procs s !!! i.
Definition get_proc {A} (i : nat) (f : proc -> A) : K pst A := gets (fun s => f (proc_at s i)).
Definition upd_proc (i : nat) (f : proc -> proc) (s : pst) : pst :=
  Pst (pmem s) (<[i := f (proc_at s i)]> (procs s)) (nextpid s) (initproc s) (cproc s) (ticks s).
Definition mod_proc (i : nat) (f : proc -> proc) : K pst unit := modify (upd_proc i f).

Lemma proc_at_upd p f s q : (p < length (procs s))%nat ->
  proc_at (upd_proc p f s) q = if decide (q = p) then f (proc_at s p) else proc_at s q.
Proof.
  intros Hp. unfold proc_at, upd_proc. cbn. case_decide as E; [subst; by apply list_lookup_total_insert_eq|].
  by apply list_lookup_total_insert_ne.
Qed.

Lemma upd_proc_twice i f g (s : pst) : upd_proc i f (upd_proc i g s) = upd_proc i (fun p => f (g p)) s.
Proof.
  unfold upd_proc, proc_at. cbn. f_equal. rewrite list_insert_insert_eq. destruct (decide (i < length (procs s))%nat) as [Hi|Hi].
  - by rewrite list_lookup_total_insert_eq.
  - rewrite !list_insert_ge by lia. done.
Qed.

(** [safestrcpy] on an array given by its elements. *)
Fixpoint safestrcpy_l (n : nat) (s t : list Z) : list Z :=
  match n, s with
  | O, _ | _, [] => s
  | S O, _ :: s => 0 :: s
  | S n, _ :: s =>
      match t with
      | [] => 0 :: s
      | ch :: t => if ch =? 0 then 0 :: s else ch :: safestrcpy_l n s t
      end
  end.

Section proc.
Context {L : Layout} {D : BlockDev}.
(** The address of [forkret]. *)
Context (forkret : Z).

(** ** Creation and destruction *)

Definition procinit : K pst unit :=
  initlock pid_lock ;;
  initlock wait_lock ;;
  loop (nproc + 1) (fun p =>
    if (p <? nproc)%nat then
      initlock (proc_lock p) ;;
      mod_proc p (set_state UNUSED) ;;
      mod_proc p (set_kstack (KSTACK (Z.of_nat p))) ;;
      ret (inl (p + 1)%nat)
    else ret (inr tt)) O.

Definition allocpid : K pst Z :=
  acquire pid_lock ;;
  pid <- gets nextpid ;;
  modify (fun s => Pst (pmem s) (procs s) (i32 (nextpid s + 1)) (initproc s) (cproc s) (ticks s)) ;;
  release pid_lock ;;
  ret pid.

Definition proc_pagetable (p : nat) : K pst Z :=
  pagetable <- pm uvmcreate ;;
  if pagetable =? 0 then ret 0
  else
    r <- pm (mappages pagetable TRAMPOLINE PGSIZE trampoline (Z.lor PTE_R PTE_X)) ;;
    if r <? 0 then pm (uvmfree pagetable 0) ;; ret 0
    else
      tf <- get_proc p trapframe ;;
      r <- pm (mappages pagetable TRAPFRAME PGSIZE tf (Z.lor PTE_R PTE_W)) ;;
      if r <? 0 then
        pm (uvmunmap pagetable TRAMPOLINE 1 false) ;;
        pm (uvmfree pagetable 0) ;;
        ret 0
      else ret pagetable.

Definition proc_freepagetable (pagetable sz : Z) : K pst unit :=
  pm (uvmunmap pagetable TRAMPOLINE 1 false) ;;
  pm (uvmunmap pagetable TRAPFRAME 1 false) ;;
  pm (uvmfree pagetable sz).

Definition freeproc (p : nat) : K pst unit :=
  tf <- get_proc p trapframe ;;
  when (negb (tf =? 0)) (pm (kfree tf)) ;;
  mod_proc p (set_trapframe 0) ;;
  pt <- get_proc p pagetable ;;
  size <- get_proc p sz ;;
  when (negb (pt =? 0)) (proc_freepagetable pt size) ;;
  mod_proc p (set_pagetable 0) ;;
  mod_proc p (set_sz 0) ;;
  mod_proc p (set_pid 0) ;;
  mod_proc p (set_parent None) ;;
  mod_proc p (fun x => set_name (<[O := 0]> (pname x)) x) ;;
  mod_proc p (set_chan None) ;;
  mod_proc p (set_killed 0) ;;
  mod_proc p (set_xstate 0) ;;
  mod_proc p (set_state UNUSED).

(** The label [found] of [allocproc]. *)
Definition allocproc_found (p : nat) : K pst (option nat) :=
  i <- allocpid ;;
  mod_proc p (set_pid i) ;;
  mod_proc p (set_state USED) ;;
  tf <- pm kalloc ;;
  mod_proc p (set_trapframe tf) ;;
  if tf =? 0 then
    freeproc p ;;
    release (proc_lock p) ;;
    ret None
  else
    pt <- proc_pagetable p ;;
    mod_proc p (set_pagetable pt) ;;
    if pt =? 0 then
      freeproc p ;;
      release (proc_lock p) ;;
      ret None
    else
      ks <- get_proc p kstack ;;
      mod_proc p (set_context (Context forkret (ks + PGSIZE) (replicate 12 0))) ;;
      ret (Some p).

Definition allocproc : K pst (option nat) :=
  r <- loop (nproc + 1) (fun p =>
    if (p <? nproc)%nat then
      acquire (proc_lock p) ;;
      st <- get_proc p state ;;
      if decide (st = UNUSED) then ret (inr (Some p))
      else
        release (proc_lock p) ;;
        ret (inl (p + 1)%nat)
    else ret (inr None)) O ;;
  match r with
  | None => ret None
  | Some p => allocproc_found p
  end.

Section current.
Context (cur : nat).

Definition growproc (n : Z) : K pst Z :=
  p <- get_proc cur id ;;
  if 0 <? n then
    r <- pm (uvmalloc (pagetable p) (sz p) (u64 (sz p + n)) PTE_W) ;;
    if r =? 0 then ret (-1)
    else mod_proc cur (set_sz r) ;; ret 0
  else if n <? 0 then
    r <- pm (uvmdealloc (pagetable p) (sz p) (u64 (sz p + n))) ;;
    mod_proc cur (set_sz r) ;; ret 0
  else mod_proc cur (set_sz (sz p)) ;; ret 0.

(** ** Switching, sleep and wakeup *)

(** Saves the registers of this thread and resumes another one. *)
Definition swtch {S A} : K S A := fun c s => Asleep ("swtch", Z.of_nat cur) c s.

Definition sched {A} : K pst A := fun c s =>
  if negb (bool_decide (proc_lock cur ∈ held c)) then Panic "sched p->lock"
  else if negb (length (held c) =? 1)%nat then Panic "sched locks"
  else if decide (state (proc_at s cur) = RUNNING) then Panic "sched RUNNING"
  else swtch c s.

Definition yield : K pst unit :=
  acquire (proc_lock cur) ;;
  mod_proc cur (set_state RUNNABLE) ;;
  sched (A := unit) ;;
  release (proc_lock cur).

(** [sleep(chan, lk)] up to [swtch], and after it. *)
Definition sleep_on {A} (ch : chan) (lk : lockid) : K pst A :=
  acquire (proc_lock cur) ;;
  release lk ;;
  mod_proc cur (set_chan (Some ch)) ;;
  mod_proc cur (set_state SLEEPING) ;;
  sched.
Definition sleep_return (lk : lockid) : K pst unit :=
  mod_proc cur (set_chan None) ;;
  release (proc_lock cur) ;;
  acquire lk.

(** One turn of the loop of [wakeup]. *)
Definition wakeup_one (ch : option chan) (p : nat) : K pst unit :=
  if (p =? cur)%nat then skip
  else
    acquire (proc_lock p) ;;
    x <- get_proc p id ;;
    when (bool_decide (state x = SLEEPING /\ pchan x = ch)) (mod_proc p (set_state RUNNABLE)) ;;
    release (proc_lock p).
Definition wakeup_procs (ch : option chan) : K pst unit :=
  loop (nproc + 1) (fun p =>
    if (p <? nproc)%nat then wakeup_one ch p ;; ret (inl (p + 1)%nat)
    else ret (inr tt)) O.

(** The body of the scheduler's loop on CPU [k], for process [p]: up to
    [swtch], and after it. *)
Definition set_cproc (k : nat) (v : option nat) (s : pst) : pst :=
  Pst (pmem s) (procs s) (nextpid s) (initproc s) (<[k := v]> (cproc s)) (ticks s).
Definition scheduler_try (k p : nat) : K pst unit :=
  acquire (proc_lock p) ;;
  st <- get_proc p state ;;
  if decide (st = RUNNABLE) then
    mod_proc p (set_state RUNNING) ;;
    modify (set_cproc k (Some p)) ;;
    swtch
  else release (proc_lock p).
Definition scheduler_back (k p : nat) : K pst unit :=
  modify (set_cproc k None) ;;
  release (proc_lock p).

(** ** Kill *)

Definition kkill (pid' : Z) : K pst Z :=
  loop (nproc + 1) (fun p =>
    if (p <? nproc)%nat then
      acquire (proc_lock p) ;;
      x <- get_proc p id ;;
      if pid x =? pid' then
        mod_proc p (set_killed 1) ;;
        when (bool_decide (state x = SLEEPING)) (mod_proc p (set_state RUNNABLE)) ;;
        release (proc_lock p) ;;
        ret (inr 0)
      else
        release (proc_lock p) ;;
        ret (inl (p + 1)%nat)
    else ret (inr (-1))) O.

Definition setkilled (p : nat) : K pst unit :=
  acquire (proc_lock p) ;;
  mod_proc p (set_killed 1) ;;
  release (proc_lock p).

Definition killed (p : nat) : K pst Z :=
  acquire (proc_lock p) ;;
  k <- get_proc p pkilled ;;
  release (proc_lock p) ;;
  ret k.

(** ** Copies to and from the memory of the running process *)

Context (kbuf : Z).

Definition user_copyout (dst : Z) (bs : list Z) : K pst Z :=
  p <- get_proc cur id ;;
  pm (modify (fun s => set_mem (wrbytes (mmem s) kbuf bs) s)) ;;
  pm (copyout (sz p) (pagetable p) (pagetable p) dst kbuf (Z.of_nat (length bs))).

Definition user_copyin (old : list Z) (src : Z) : K pst (list Z * Z) :=
  p <- get_proc cur id ;;
  pm (modify (fun s => set_mem (wrbytes (mmem s) kbuf old) s)) ;;
  r <- pm (copyin (sz p) (pagetable p) (pagetable p) kbuf src (Z.of_nat (length old))) ;;
  bs <- gets (fun s => rdbytes (length old) (mmem (pmem s)) kbuf) ;;
  ret (bs, r).

(** [either_copyout] and [either_copyin] with a user address. *)
#[local] Instance user_mover : Mover pst := {|
  either_copyout := user_copyout;
  either_copyin := user_copyin;
|}.
#[local] Instance user_pages : Pages pst := {|
  page_alloc := pm kalloc;
  page_free pa := pm (kfree pa);
|}.

(** ** fork, exit and wait *)

Definition pr {A} (m : K pst A) : K (kst (M := pst)) A := umem m.

Definition userinit : K kst unit :=
  r <- pr allocproc ;;
  pr (modify (fun s => Pst (pmem s) (procs s) (nextpid s) r (cproc s) (ticks s))) ;;
  match r with
  | None => panic "kerneltrap"      (* a null pointer *)
  | Some p =>
      i <- fsys (namei 0 O [SLASH]) ;;
      pr (mod_proc p (set_cwd i)) ;;
      pr (mod_proc p (set_state RUNNABLE)) ;;
      pr (release (proc_lock p))
  end.

(** The loop of [kfork] over the open files. *)
Definition dup_files (np : nat) : K kst unit :=
  loop (Z.to_nat NOFILE + 1) (fun i =>
    if (i <? Z.to_nat NOFILE)%nat then
      f <- pr (get_proc cur (fun p => ofile p !!! i)) ;;
      match f with
      | None => skip
      | Some f =>
          f' <- filedup f ;;
          pr (mod_proc np (fun x => set_ofile (<[i := Some f']> (ofile x)) x))
      end ;;
      ret (inl (i + 1)%nat)
    else ret (inr tt)) O.

Definition kfork : K kst Z :=
  r <- pr allocproc ;;
  match r with
  | None => ret (-1)
  | Some np =>
      p <- pr (get_proc cur id) ;;
      npt <- pr (get_proc np pagetable) ;;
      r <- pr (pm (uvmcopy (pagetable p) npt (sz p))) ;;
      if r <? 0 then
        pr (freeproc np) ;;
        pr (release (proc_lock np)) ;;
        ret (-1)
      else
        pr (mod_proc np (set_sz (sz p))) ;;
        ntf <- pr (get_proc np trapframe) ;;
        pr (pm (kmemmove ntf (trapframe p) sizeof_trapframe)) ;;
        pr (pm (st64 (ntf + tf_a 0) 0)) ;;
        dup_files np ;;
        match cwd p with
        | None => panic "kerneltrap"
        | Some i =>
            i <- fsys (idup i) ;;
            pr (mod_proc np (set_cwd (Some i))) ;;
            pr (mod_proc np (fun x => set_name (safestrcpy_l 16 (pname x) (pname p)) x)) ;;
            i <- pr (get_proc np pid) ;;
            pr (release (proc_lock np)) ;;
            pr (acquire wait_lock) ;;
            pr (mod_proc np (set_parent (Some cur))) ;;
            pr (release wait_lock) ;;
            pr (acquire (proc_lock np)) ;;
            pr (mod_proc np (set_state RUNNABLE)) ;;
            pr (release (proc_lock np)) ;;
            ret i
        end
  end.

Definition reparent (p : nat) : K pst unit :=
  loop (nproc + 1) (fun i =>
    if (i <? nproc)%nat then
      x <- get_proc i parent ;;
      when (bool_decide (x = Some p)) (
        init <- gets initproc ;;
        mod_proc i (set_parent init) ;;
        wakeup_procs (proc_chan init)) ;;
      ret (inl (i + 1)%nat)
    else ret (inr tt)) O.

(** The loop of [kexit] over the open files. *)
Definition close_files : K kst unit :=
  me <- pr (get_proc cur pid) ;;
  loop (Z.to_nat NOFILE + 1) (fun fd =>
    if (fd <? Z.to_nat NOFILE)%nat then
      f <- pr (get_proc cur (fun p => ofile p !!! fd)) ;;
      match f with
      | None => skip
      | Some f =>
          fileclose me f ;;
          pr (mod_proc cur (fun x => set_ofile (<[fd := None]> (ofile x)) x))
      end ;;
      ret (inl (fd + 1)%nat)
    else ret (inr tt)) O.

(** [kexit] from [acquire(&p->lock)] on. *)
Definition become_zombie {A} (status : Z) : K pst A :=
  acquire (proc_lock cur) ;;
  mod_proc cur (set_xstate status) ;;
  mod_proc cur (set_state ZOMBIE) ;;
  release wait_lock ;;
  sched (A := unit) ;;
  panic "zombie exit".

(** [kexit] from [acquire(&wait_lock)] on. *)
Definition kexit_zombie {A} (status : Z) : K pst A :=
  acquire wait_lock ;;
  reparent cur ;;
  pp <- get_proc cur parent ;;
  wakeup_procs (proc_chan pp) ;;
  become_zombie status.

Definition kexit {A} (status : Z) : K kst A :=
  init <- pr (gets initproc) ;;
  if bool_decide (init = Some cur) then panic "init exiting"
  else
    close_files ;;
    me <- pr (get_proc cur pid) ;;
    dir <- pr (get_proc cur cwd) ;;
    fsys (lg begin_op) ;;
    match dir with Some i => fsys (iput me i) | None => panic "kerneltrap" end ;;
    fsys (lg (end_op me)) ;;
    pr (mod_proc cur (set_cwd None)) ;;
    pr (kexit_zombie status).

(** [kwait] from the loop head, with [wait_lock] held; the value of the scan
    is the result of [kwait], or [havekids]. *)
Definition kwait_scan (addr : Z) : K pst (Z + bool) :=
  loop (nproc + 1) (fun '(i, havekids) =>
    if (i <? nproc)%nat then
      x <- get_proc i parent ;;
      if bool_decide (x = Some cur) then
        acquire (proc_lock i) ;;
        x <- get_proc i id ;;
        if decide (state x = ZOMBIE) then
          r <- (if negb (addr =? 0) then user_copyout addr (le_enc 4 (xstate x)) else ret 0) ;;
          if r <? 0 then
            release (proc_lock i) ;;
            release wait_lock ;;
            ret (inr (inl (-1)))
          else
            freeproc i ;;
            release (proc_lock i) ;;
            release wait_lock ;;
            ret (inr (inl (pid x)))
        else
          release (proc_lock i) ;;
          ret (inl ((i + 1)%nat, true))
      else ret (inl ((i + 1)%nat, havekids))
    else ret (inr (inr havekids))) (O, false).

Definition kwait_from (addr : Z) : K pst Z :=
  r <- kwait_scan addr ;;
  match r with
  | inl v => ret v
  | inr havekids =>
      k <- (if havekids then killed cur else ret 1) ;;
      if negb (k =? 0) then release wait_lock ;; ret (-1)
      else sleep_on ("proc", Z.of_nat cur) wait_lock
  end.

Definition kwait (addr : Z) : K pst Z :=
  acquire wait_lock ;;
  kwait_from addr.
End current.
End proc.
