(* ===== verification/SleepWake.v ===== *)
(** * kernel/proc.c: [sleep] and [wakeup] do not lose wakeups

    Kernel threads, one per process, use a condition protected by a lock [lk]
    and a channel the way the kernel does everywhere:
<<
      acquire(lk); while(!cond) sleep(chan, lk); ...; release(lk);
      acquire(lk); cond = 1; wakeup(chan); release(lk);
>>
    The threads interleave at every acquisition and release of [lk] and of
    the locks of the processes (which are atomic: [Spinlock]); [kkill] may
    wake a sleeper at any time; the scheduler resumes runnable threads. *)
From stdpp Require Import functions.
From S2P Require Import Prelude Kmonad Proc.

(** Where a thread is; [lk] and [p->lock] say which locks it holds. *)
Inductive tpc :=
  | Out               (** in neither *)
  | Check             (** at the [while], lk *)
  | InCS              (** after the [while], lk *)
  | Sleep1            (** in [sleep] after [acquire(&p->lock)]: lk, p->lock *)
  | Sleep2            (** after [release(lk)]: p->lock *)
  | Sleep3            (** before [sched]: p->lock *)
  | Switched          (** after [swtch]; the scheduler has dropped p->lock *)
  | Woken1            (** back from [sched]: p->lock *)
  | Woken2            (** before [acquire(lk)] *)
  | Set_              (** before [cond = 1]: lk *)
  | Scan (j : nat)    (** in [wakeup], about to look at process [j]: lk *)
  | Test (j : nat).   (** in [wakeup], before [p->state == SLEEPING]: lk, lock of [j] *)

Record sw := Sw {
  cond : bool;
  lk : option nat;               (** the thread that holds it *)
  plk : nat -> option nat;       (** the holder of each [p->lock] *)
  pst_of : nat -> procstate;
  pch_of : nat -> bool;          (** [p->chan == chan] *)
  pcs : nat -> tpc;
}.

Definition goto (t : nat) (p : tpc) (s : sw) : sw := Sw (cond s) (lk s) (plk s) (pst_of s) (pch_of s) (<[t := p]> (pcs s)).
Definition set_lk (o : option nat) (s : sw) : sw := Sw (cond s) o (plk s) (pst_of s) (pch_of s) (pcs s).
Definition set_plk (j : nat) (o : option nat) (s : sw) : sw := Sw (cond s) (lk s) (<[j := o]> (plk s)) (pst_of s) (pch_of s) (pcs s).
Definition set_pst (j : nat) (x : procstate) (s : sw) : sw := Sw (cond s) (lk s) (plk s) (<[j := x]> (pst_of s)) (pch_of s) (pcs s).
Definition set_pch (j : nat) (b : bool) (s : sw) : sw := Sw (cond s) (lk s) (plk s) (pst_of s) (<[j := b]> (pch_of s)) (pcs s).
Definition set_cond (b : bool) (s : sw) : sw := Sw b (lk s) (plk s) (pst_of s) (pch_of s) (pcs s).

(** The next step of thread [t] in [sleep(chan, lk)], called at [Check];
    [None] while it waits for a lock or for the scheduler. *)
Definition sleep_step (t : nat) (s : sw) : option sw :=
  match pcs s t with
  | Check => match plk s t with
             | None => Some (goto t Sleep1 (set_plk t (Some t) s))          (* acquire(&p->lock) *)
             | Some _ => None
             end
  | Sleep1 => Some (goto t Sleep2 (set_lk None s))                          (* release(lk) *)
  | Sleep2 => Some (goto t Sleep3 (set_pst t SLEEPING (set_pch t true s)))  (* p->chan, p->state *)
  | Sleep3 => Some (goto t Switched (set_plk t None s))                     (* sched() *)
  | Switched => match plk s t, pst_of s t with                              (* scheduler() *)
                | None, RUNNABLE => Some (goto t Woken1 (set_pst t RUNNING (set_plk t (Some t) s)))
                | _, _ => None
                end
  | Woken1 => Some (goto t Woken2 (set_plk t None (set_pch t false s)))     (* p->chan = 0; release(&p->lock) *)
  | Woken2 => match lk s with
              | None => Some (goto t Check (set_lk (Some t) s))             (* acquire(lk) *)
              | Some _ => None
              end
  | _ => None
  end.

(** The next step of thread [t] in [wakeup(chan)]. *)
Definition wakeup_step (t : nat) (s : sw) : option sw :=
  match pcs s t with
  | Scan j =>
      if (j <? nproc)%nat then
        if (j =? t)%nat then Some (goto t (Scan (j + 1)) s)                 (* p != myproc() *)
        else match plk s j with
             | None => Some (goto t (Test j) (set_plk j (Some t) s))        (* acquire(&p->lock) *)
             | Some _ => None
             end
      else None
  | Test j =>
      let s' := if bool_decide (pst_of s j = SLEEPING) && pch_of s j then set_pst j RUNNABLE s else s in
      Some (goto t (Scan (j + 1)) (set_plk j None s'))                      (* release(&p->lock) *)
  | _ => None
  end.

(** A step of thread [t]. *)
Inductive swstep (t : nat) (s : sw) : sw -> Prop :=
  | sw_enter : (t < nproc)%nat -> pcs s t = Out -> lk s = None -> swstep t s (goto t Check (set_lk (Some t) s))
  | sw_ready : pcs s t = Check -> cond s = true -> swstep t s (goto t InCS s)
  | sw_sleep s' : (pcs s t = Check -> cond s = false) -> sleep_step t s = Some s' -> swstep t s s'
  | sw_leave b : pcs s t = InCS -> (b = true -> cond s = true) -> swstep t s (goto t Out (set_lk None (set_cond b s)))
  | sw_signal : pcs s t = Out -> lk s = None -> swstep t s (goto t Set_ (set_lk (Some t) s))
  | sw_set : pcs s t = Set_ -> swstep t s (goto t (Scan 0) (set_cond true s))
  | sw_wakeup s' : wakeup_step t s = Some s' -> swstep t s s'
  | sw_done j : pcs s t = Scan j -> (nproc <= j)%nat -> swstep t s (goto t Out (set_lk None s))
  | sw_kill j : plk s j = None -> pst_of s j = SLEEPING -> swstep t s (set_pst j RUNNABLE s).

Definition sw0 (b : bool) : sw := Sw b None (fun _ => None) (fun _ => RUNNING) (fun _ => false) (fun _ => Out).

Inductive swreach : sw -> Prop :=
  | swreach_0 b : swreach (sw0 b)
  | swreach_step t s s' : swreach s -> swstep t s s' -> swreach s'.

(** ** The invariant *)

Definition has_lk (p : tpc) : bool :=
  match p with Check | InCS | Sleep1 | Set_ | Scan _ | Test _ => true | _ => false end.
Definition has_plk (p : tpc) : bool :=
  match p with Sleep1 | Sleep2 | Sleep3 | Woken1 => true | _ => false end.

(** Thread [w] has still to look at process [j]. *)
Definition will_see (p : tpc) (j : nat) : Prop :=
  match p with Scan k | Test k => (k <= j)%nat | _ => False end.

(** Process [j] has seen the condition false and is on its way to sleep, or asleep. *)
Definition unaware (s : sw) (j : nat) : Prop :=
  pcs s j = Sleep2 \/ pcs s j = Sleep3 \/ (pcs s j = Switched /\ pst_of s j = SLEEPING).

Record sw_ok (s : sw) : Prop := {
  w_lk t : has_lk (pcs s t) = true <-> lk s = Some t;
  w_plk t : has_plk (pcs s t) = true -> plk s t = Some t;
  w_test t j : pcs s t = Test j -> plk s j = Some t /\ t <> j;
  w_st j : pst_of s j = SLEEPING -> pch_of s j = true /\ (pcs s j = Sleep3 \/ pcs s j = Switched);
  w_s1 j : pcs s j = Sleep1 -> cond s = false;
  w_in j : pcs s j <> Out -> pcs s j <> Set_ -> (forall k, pcs s j <> Scan k /\ pcs s j <> Test k) -> (j < nproc)%nat;
  w_key j : cond s = true -> unaware s j -> exists w, w <> j /\ will_see (pcs s w) j;
}.

(** Only one thread holds [lk]. *)
Lemma lk_one s t u : sw_ok s -> has_lk (pcs s t) = true -> has_lk (pcs s u) = true -> t = u.
Proof. intros H Ht%H Hu%H. congruence. Qed.

Lemma will_see_lk p j : will_see p j -> has_lk p = true.
Proof. by destruct p. Qed.

(** A thread on its way to sleep, or back, or asleep or in the loop is a process of the table. *)
Definition sleeper (p : tpc) : Prop := p <> Out /\ p <> Set_ /\ forall k, p <> Scan k /\ p <> Test k.

(** What a step of thread [t] to [p] has to respect, field by field. *)
Record step_ok (s s1 : sw) (t : nat) (p : tpc) : Prop := {
  so_pcs : pcs s1 = pcs s;
  so_lk u : u <> t -> lk s1 = Some u <-> lk s = Some u;
  so_lk_t : has_lk p = true <-> lk s1 = Some t;
  so_plk_t : has_plk p = true -> plk s1 t = Some t;
  so_plk u : u <> t -> has_plk (pcs s u) = true -> plk s1 u = Some u;
  so_test_t j : p = Test j -> plk s1 j = Some t /\ t <> j;
  so_test u j : u <> t -> pcs s u = Test j -> plk s1 j = Some u;
  so_st j : j <> t -> pst_of s1 j = SLEEPING -> pst_of s j = SLEEPING /\ pch_of s1 j = pch_of s j;
  so_st_t : pst_of s1 t = SLEEPING -> pch_of s1 t = true /\ (p = Sleep3 \/ p = Switched);
  so_s1 j : j <> t -> pcs s j = Sleep1 -> cond s1 = false;
  so_s1_t : p = Sleep1 -> cond s1 = false;
  so_in : sleeper p -> (t < nproc)%nat;
}.

Lemma goto_ok s s1 t p : sw_ok s -> step_ok s s1 t p ->
  (forall j, cond s1 = true -> unaware (goto t p s1) j -> exists w, w <> j /\ will_see (pcs (goto t p s1) w) j) ->
  sw_ok (goto t p s1).
Proof.
  intros Hs Ho Hkey. destruct Ho as [Hp o2 o3 o4 o5 o6 o7 o8 o9 o10 o11 o12].
  assert (forall u, pcs (goto t p s1) u = if decide (u = t) then p else pcs s u) as Hpc.
  { intros u. unfold goto. cbn. rewrite Hp. case_decide; [subst; apply fn_lookup_insert|by apply fn_lookup_insert_ne]. }
  split; try (intros u; rewrite Hpc).
  - case_decide; [subst; exact o3|]. change (lk (goto t p s1)) with (lk s1). rewrite o2 by done. apply (w_lk _ Hs).
  - case_decide; [subst; exact o4|by apply o5].
  - intros j. rewrite ?Hpc. case_decide; [subst; apply o6|]. intros E. split; [by apply (o7 u)|by apply (w_test _ Hs u)].
  - change (pst_of (goto t p s1) u) with (pst_of s1 u). change (pch_of (goto t p s1) u) with (pch_of s1 u). rewrite ?Hpc.
    case_decide; [subst; exact o9|]. intros E. destruct (o8 u) as [E' ->]; [done..|]. by apply (w_st _ Hs).
  - change (cond (goto t p s1)) with (cond s1). case_decide; [done|by apply o10].
  - case_decide; [subst; intros; by apply o12|apply (w_in _ Hs)].
  - done.
Qed.

(** The key part of the invariant, for a step that leaves the condition alone. *)
Lemma key_keep s s1 t p : sw_ok s -> pcs s1 = pcs s -> (cond s1 = true -> cond s = true) ->
  (forall j, j <> t -> pst_of s1 j = SLEEPING -> pst_of s j = SLEEPING) ->
  (cond s = true -> unaware (goto t p s1) t -> unaware s t) ->
  (forall j, j <> t -> unaware (goto t p s1) j -> will_see (pcs s t) j -> will_see p j) ->
  forall j, cond s1 = true -> unaware (goto t p s1) j -> exists w, w <> j /\ will_see (pcs (goto t p s1) w) j.
Proof.
  intros Hs Hp Hc Hst Ht Hw j Hc1 Hu. specialize (Hc Hc1).
  assert (unaware s j) as Hu0.
  { destruct (decide (j = t)) as [->|Hj]; [auto|]. unfold unaware, goto in Hu. cbn in Hu. rewrite Hp, fn_lookup_insert_ne in Hu by done.
    unfold unaware. naive_solver. }
  destruct (w_key _ Hs j Hc Hu0) as (w & Hwj & Hsee). exists w. split; [done|]. unfold goto. cbn. rewrite Hp.
  destruct (decide (w = t)) as [->|Hwt]; [rewrite fn_lookup_insert|by rewrite fn_lookup_insert_ne]. apply Hw; done.
Qed.

Lemma unaware_at s1 t p : unaware (goto t p s1) t <-> p = Sleep2 \/ p = Sleep3 \/ (p = Switched /\ pst_of s1 t = SLEEPING).
Proof. unfold unaware, goto. cbn. by rewrite fn_lookup_insert. Qed.

(** The holder of a process's lock is the process or a thread that tests it. *)
Ltac own t :=
  cbn [set_lk set_plk set_pst set_pch set_cond cond lk plk pst_of pch_of pcs];
  intros; simplify_eq; rewrite ?fn_lookup_insert; rewrite ?fn_lookup_insert_ne by (done || congruence);
  repeat match goal with
    | H : context [<[?i := _]> ?f ?i] |- _ => rewrite fn_lookup_insert in H
    | H : context [<[?i := _]> ?f ?j], N : ?j <> ?i |- _ => rewrite fn_lookup_insert_ne in H by done
    end.

Ltac fin :=
  match goal with
  | Hs : sw_ok ?s |- plk ?s ?u = Some ?u => by apply (w_plk _ Hs)
  | Hs : sw_ok ?s, H : pcs ?s ?u = Test ?j |- plk ?s ?j = Some ?u => by apply (w_test _ Hs)
  | Hs : sw_ok ?s, H : pcs ?s ?u = Test ?j |- <[?k := _]> (plk ?s) ?j = Some ?u =>
      destruct (w_test _ Hs u j H); destruct (decide (j = k)); [subst; congruence|by rewrite fn_lookup_insert_ne]
  | Hin : _ -> _ -> _ -> (?t < nproc)%nat |- (?t < nproc)%nat => apply Hin; done
  | H : ?x = ?x -> ?g |- ?g => by apply H
  | H : true = true <-> lk ?s = Some ?t |- _ <-> _ => pose proof (proj1 H eq_refl); split; congruence
  | |- _ <-> _ => split; congruence
  | Hs : sw_ok ?s, H : pcs ?s ?j = Sleep1 |- cond ?s = false => by apply (w_s1 _ Hs j)
  | H : sleeper Out |- _ => by destruct H
  | H : sleeper Set_ |- _ => by destruct H as (_ & H & _)
  | H : sleeper (Scan ?k) |- _ => by destruct H as (_ & _ & H); destruct (H k)
  | H : sleeper (Test ?k) |- _ => by destruct H as (_ & _ & H); destruct (H k)
  | H : ?A -> ?B /\ _, HA : ?A |- _ => destruct (H HA) as [? [?|?]]; first [discriminate|split; [done|by auto]]
  end.
Ltac obl t := split; own t; try (done || lia || congruence || fin || by auto).

Lemma sleep_step_ok t s s' : sw_ok s -> (pcs s t = Check -> cond s = false) -> sleep_step t s = Some s' -> sw_ok s'.
Proof.
  intros Hs Hc. pose proof (w_lk _ Hs t) as Hl. pose proof (w_plk _ Hs t) as Hpl. pose proof (w_st _ Hs t) as Hst. pose proof (w_in _ Hs t) as Hin.
  unfold sleep_step. destruct (pcs s t) eqn:Hpc; try done; cbn [has_lk has_plk] in *; try specialize (Hpl eq_refl).
  - (* acquire(&p->lock) *) destruct (plk s t) eqn:Hp; intros [= <-]. apply goto_ok with s; [done| |].
    + obl t.
    + apply key_keep with s; try done. 1: by rewrite unaware_at; naive_solver. by rewrite Hpc.
  - (* release(lk) *) intros [= <-]. apply goto_ok with s; [done| |].
    + obl t.
    + cbn. by rewrite (w_s1 _ Hs t).
  - (* p->chan, p->state *) intros [= <-]. apply goto_ok with s; [done| |].
    + obl t.
    + apply key_keep with s; try done. 3: by rewrite Hpc. 2: by left. by own t.
  - (* sched *) intros [= <-]. apply goto_ok with s; [done| |].
    + obl t.
    + apply key_keep with s; try done. 2: by rewrite Hpc. right. by left.
  - (* scheduler *) destruct (plk s t) eqn:Hp; [done|]. destruct (pst_of s t) eqn:Hps; try done. intros [= <-]. apply goto_ok with s; [done| |].
    + obl t.
    + apply key_keep with s; try done. 3: by rewrite Hpc. 2: rewrite unaware_at; naive_solver. by own t.
  - (* p->chan = 0 *) intros [= <-]. apply goto_ok with s; [done| |].
    + obl t.
    + apply key_keep with s; try done. 2: by rewrite Hpc. rewrite unaware_at; naive_solver.
  - (* acquire(lk) *) destruct (lk s) eqn:Hlk; [done|]. intros [= <-]. apply goto_ok with s; [done| |].
    + obl t.
    + apply key_keep with s; try done. 2: by rewrite Hpc. rewrite unaware_at; naive_solver.
Qed.

Lemma wakeup_step_ok t s s' : sw_ok s -> wakeup_step t s = Some s' -> sw_ok s'.
Proof.
  intros Hs. pose proof (w_lk _ Hs t) as Hl. pose proof (w_plk _ Hs t) as Hpl. pose proof (w_st _ Hs t) as Hst. pose proof (w_test _ Hs t) as Hte.
  unfold wakeup_step. destruct (pcs s t) as [| | | | | | | | | |j|j] eqn:Hpc; try done; cbn [has_lk has_plk] in *.
  - destruct (Nat.ltb_spec j nproc) as [Hj|]; [|done]. destruct (Nat.eqb_spec j t) as [->|Hne].
    + intros [= <-]. apply goto_ok with s; [done| |].
      * obl t.
      * apply key_keep with s; try done. 1: rewrite unaware_at; naive_solver. rewrite Hpc. cbn. intros k Hk _ ?. lia.
    + destruct (plk s j) eqn:Hp; [done|]. intros [= <-]. apply goto_ok with s; [done| |].
      * obl t.
        destruct (decide (u = j)) as [->|]; [|rewrite fn_lookup_insert_ne by done; fin]. rewrite (w_plk _ Hs j) in Hp by done. done.
      * apply key_keep with s; try done. 1: rewrite unaware_at; naive_solver. by rewrite Hpc.
  - destruct (Hte j eq_refl) as [Hp Hne]. intros [= <-]. set (b := bool_decide _ && _).
    assert (forall k, pst_of (if b then set_pst j RUNNABLE s else s) k = SLEEPING -> k <> j /\ pst_of s k = SLEEPING) as Hk.
    { intros k. destruct (decide (k = j)) as [->|Hkj].
      - destruct b eqn:Eb; cbn; [by rewrite fn_lookup_insert|]. intros E. destruct (w_st _ Hs j E) as [Ech _]. unfold b in Eb.
        by rewrite bool_decide_eq_true_2, Ech in Eb.
      - destruct b; cbn; [rewrite fn_lookup_insert_ne by done|]; done. }
    apply goto_ok with s; [done| |].
    + assert (plk (if b then set_pst j RUNNABLE s else s) = plk s) as Epl by (by destruct b).
      assert (pch_of (if b then set_pst j RUNNABLE s else s) = pch_of s) as Epc by (by destruct b).
      split; try (by destruct b); unfold set_plk; cbn [lk plk pst_of pch_of pcs cond]; rewrite ?Epl, ?Epc.
      * intros u Hu H. rewrite fn_lookup_insert_ne; [fin|]. intros E. pose proof (w_plk _ Hs u H). congruence.
      * intros u k Hu H. fin.
      * intros k Hkt E%Hk. naive_solver.
      * intros E%Hk. destruct E as [_ E]. fin.
      * intros k Hkt E. destruct b; cbn; fin.
      * intros H. fin.
    + apply key_keep with s; [done|by destruct b|by destruct b| | |].
      * intros k _ E%Hk. naive_solver.
      * rewrite unaware_at. naive_solver.
      * rewrite Hpc. cbn. intros k Hkt Hu Hle. destruct (decide (k = j)) as [->|]; [|lia]. exfalso.
        unfold unaware, goto, set_plk in Hu. cbn [pcs pst_of] in Hu. rewrite fn_lookup_insert_ne in Hu by done.
        assert (pcs (if b then set_pst j RUNNABLE s else s) = pcs s) as Epcs by (by destruct b). rewrite Epcs in Hu.
        destruct Hu as [E|[E|[_ E%Hk]]]; [| |naive_solver]; rewrite (w_plk _ Hs j) in Hp by (by rewrite E); congruence.
Qed.

Lemma swstep_ok t s s' : swstep t s s' -> sw_ok s -> sw_ok s'.
Proof.
  intros Hst Hs. pose proof (w_lk _ Hs t) as Hl. pose proof (w_st _ Hs t) as Hpst. pose proof (w_in _ Hs t) as Hin.
  destruct Hst as [Hlt Hpc Hlk|Hpc Hc|s' Hc E|b Hpc Hb|Hpc Hlk|Hpc|s' E|j Hpc Hj|j Hp Hst].
  - rewrite Hpc in *; cbn [has_lk] in *. apply goto_ok with s; [done|obl t|]. apply key_keep with s; try done. 2: by rewrite Hpc. rewrite unaware_at. naive_solver.
  - rewrite Hpc in *; cbn [has_lk] in *. apply goto_ok with s; [done|obl t|]. apply key_keep with s; try done. 2: by rewrite Hpc. rewrite unaware_at. naive_solver.
  - by apply (sleep_step_ok t s).
  - rewrite Hpc in *; cbn [has_lk] in *. assert (forall j, j <> t -> pcs s j <> Sleep1) as Hno.
    { intros j Hj E. apply Hj. apply (lk_one s); [done| |]; by rewrite ?E, ?Hpc. }
    apply goto_ok with s; [done|obl t|].
    + by destruct (Hno j).
    + apply key_keep with s; try done. 2: by rewrite Hpc. rewrite unaware_at. naive_solver.
  - rewrite Hpc in *; cbn [has_lk] in *. apply goto_ok with s; [done|obl t|]. apply key_keep with s; try done. 2: by rewrite Hpc. rewrite unaware_at. naive_solver.
  - rewrite Hpc in *; cbn [has_lk] in *. assert (forall j, j <> t -> pcs s j <> Sleep1) as Hno.
    { intros j Hj E. apply Hj. apply (lk_one s); [done| |]; by rewrite ?E, ?Hpc. }
    apply goto_ok with s; [done|obl t|].
    + by destruct (Hno j).
    + intros j _ Hu. exists t. cbn. rewrite fn_lookup_insert. split; [|cbn; lia]. intros ->.
      rewrite unaware_at in Hu. by destruct Hu as [Hu|[Hu|[Hu _]]].
  - by apply (wakeup_step_ok t s).
  - rewrite Hpc in *; cbn [has_lk] in *. apply goto_ok with s; [done|obl t|].
    apply key_keep with s; try done.
    + rewrite unaware_at. naive_solver.
    + rewrite Hpc. cbn. intros k Hk Hu Hle. exfalso. assert (k < nproc)%nat; [|lia].
      unfold unaware, goto in Hu. cbn in Hu. rewrite fn_lookup_insert_ne in Hu by done. apply (w_in _ Hs k); destruct Hu as [E|[E|[E _]]]; by rewrite E.
  - assert (forall k, pst_of (set_pst j RUNNABLE s) k = SLEEPING -> pst_of s k = SLEEPING) as Hk.
    { intros k. cbn. destruct (decide (k = j)) as [->|]; [by rewrite fn_lookup_insert|by rewrite fn_lookup_insert_ne]. }
    destruct Hs as [s1 s2 s3 s4 s5 s6 s7]. split; try done; cbn.
    + intros k E%Hk. by apply s4.
    + intros k Hc Hu. apply s7; [done|]. unfold unaware in *. naive_solver.
Qed.

Lemma swreach_ok s : swreach s -> sw_ok s.
Proof.
  induction 1 as [b|t s s' _ IH Hs]; [|by apply (swstep_ok t s)].
  split; cbn; unfold unaware; cbn; try done; naive_solver.
Qed.

(** C5: No lost wakeup: once the condition holds and no [wakeup] is under way
    any more, no process is asleep on the channel and none is on its way to
    sleep, however [sleep], [wakeup], [kkill] and the scheduler interleave. *)
Theorem no_lost_wakeup s : swreach s -> cond s = true -> (forall w j, pcs s w <> Scan j /\ pcs s w <> Test j) ->
  forall p, pst_of s p <> SLEEPING /\ pcs s p <> Sleep1 /\ pcs s p <> Sleep2 /\ pcs s p <> Sleep3.
Proof.
  intros Hs%swreach_ok Hc Hw p. assert (~ unaware s p) as Hu.
  { intros Hu. destruct (w_key _ Hs p Hc Hu) as (w & _ & Hsee). destruct (pcs s w) eqn:E; try done; by destruct (Hw w j). }
  split_and!; intros E.
  - apply Hu. destruct (w_st _ Hs p E) as [_ [?|?]]; unfold unaware; auto.
  - by rewrite (w_s1 _ Hs p E) in Hc.
  - apply Hu. by left.
  - apply Hu. right. by left.
Qed.

(** ** Witness: process 1 goes to sleep, process 2 sets the condition and wakes it. *)

Definition quiet_but (l : list nat) (s : sw) : Prop := swreach s /\ forall w, w ∉ l -> pcs s w = Out.

Definition try_step (f : nat -> sw -> option sw) (t : nat) (s : sw) : sw := default s (f t s).
Definition ex_asleep : sw :=
  Nat.iter 4 (try_step sleep_step 1) (goto 1 Check (set_lk (Some 1%nat) (sw0 false))).
Definition ex_scan : sw :=
  goto 2 (Scan 0) (set_cond true (goto 2 Set_ (set_lk (Some 2%nat) ex_asleep))).
Definition ex_scanned : sw := Nat.iter 127 (try_step wakeup_step 2) ex_scan.
Definition ex_final : sw := goto 2 Out (set_lk None ex_scanned).

Lemma goto_quiet l t p s s1 : quiet_but l s -> t ∈ l -> pcs s1 = pcs s -> swstep t s (goto t p s1) -> quiet_but l (goto t p s1).
Proof.
  intros [Hr Hq] Ht Hp Hs. split; [by eapply swreach_step|]. intros w Hw. cbn. rewrite fn_lookup_insert_ne by set_solver.
  rewrite Hp. by apply Hq.
Qed.

Lemma sleep_quiet l t s : quiet_but l s -> t ∈ l -> (pcs s t = Check -> cond s = false) -> quiet_but l (try_step sleep_step t s).
Proof.
  intros Hq Ht Hc. unfold try_step. destruct (sleep_step t s) as [s'|] eqn:E; [|done]. cbn.
  pose proof (sw_sleep t s s' Hc E) as Hs. revert E. unfold sleep_step.
  destruct (pcs s t); try done; repeat case_match; try done; intros [= <-]; by eapply goto_quiet.
Qed.

Lemma wakeup_quiet l t s : quiet_but l s -> t ∈ l -> quiet_but l (try_step wakeup_step t s).
Proof.
  intros Hq Ht. unfold try_step. destruct (wakeup_step t s) as [s'|] eqn:E; [|done]. cbn.
  pose proof (sw_wakeup t s s' E) as Hs. revert E. unfold wakeup_step.
  destruct (pcs s t); try done; repeat case_match; try done; intros [= <-]; eapply goto_quiet; try done.
Qed.

Lemma ex_asleep_quiet : quiet_but [1%nat; 2%nat] ex_asleep /\ pst_of ex_asleep 1 = SLEEPING /\ pcs ex_asleep 1 = Switched.
Proof.
  split; [|by vm_compute]. unfold ex_asleep. cbn [Nat.iter].
  assert (quiet_but [1%nat; 2%nat] (goto 1 Check (set_lk (Some 1%nat) (sw0 false)))) as H0.
  { eapply (goto_quiet _ 1 Check (sw0 false)); [split; [constructor|done]|set_solver|done|]. constructor; [vm_compute; lia|done|done]. }
  repeat (apply sleep_quiet; [|set_solver|by vm_compute]). done.
Qed.

Lemma pcs_set_cond b s : pcs (set_cond b s) = pcs s.
Proof. done. Qed.
Lemma pcs_set_lk o s : pcs (set_lk o s) = pcs s.
Proof. done. Qed.
Lemma two_in : 2%nat ∈ [1%nat; 2%nat].
Proof. set_solver. Qed.

Lemma ex_final_quiet : quiet_but [1%nat; 2%nat] ex_final.
Proof.
  destruct ex_asleep_quiet as [Ha _].
  assert (quiet_but [1%nat; 2%nat] ex_scan) as Hs.
  { apply (goto_quiet _ 2 (Scan 0) (goto 2 Set_ (set_lk (Some 2%nat) ex_asleep))); [|exact two_in|apply pcs_set_cond|].
    - apply (goto_quiet _ 2 Set_ ex_asleep); [exact Ha|exact two_in|apply pcs_set_lk|]. apply sw_signal; vm_compute; reflexivity.
    - apply sw_set. vm_compute. reflexivity. }
  assert (forall n, quiet_but [1%nat; 2%nat] (Nat.iter n (try_step wakeup_step 2) ex_scan)) as Hn.
  { induction n as [|n IH]; [exact Hs|]. apply wakeup_quiet; [exact IH|exact two_in]. }
  apply (goto_quiet _ 2 Out ex_scanned); [apply Hn|exact two_in|apply pcs_set_lk|].
  apply (sw_done 2 ex_scanned 64); vm_compute; reflexivity.
Qed.

Lemma no_lost_wakeup_witness : swreach ex_final /\ pst_of ex_asleep 1 = SLEEPING /\ pst_of ex_final 1 = RUNNABLE /\
  pst_of ex_final 1 <> SLEEPING.
Proof.
  split; [exact (proj1 ex_final_quiet)|]. split; [vm_compute; reflexivity|]. split; [vm_compute; reflexivity|].
  refine (proj1 (no_lost_wakeup ex_final (proj1 ex_final_quiet) _ _ 1%nat)); [vm_compute; reflexivity|].
  intros w j. destruct (decide (w = 1%nat)) as [->|H1]; [split; vm_compute; discriminate|].
  destruct (decide (w = 2%nat)) as [->|H2]; [split; vm_compute; discriminate|].
  rewrite (proj2 ex_final_quiet) by set_solver. split; discriminate.
Defined.
