(* ===== verification/Sched.v ===== *)
(** * kernel/proc.c: the scheduler and the processes on several CPUs

    Each CPU runs the loop of [scheduler] or is on the kernel stack of a
    process.  A step is what a CPU does from acquiring the lock of a process
    to releasing it or to [swtch] (another CPU may do something in between,
    but not to that process); the steps of the scheduler and of a process that
    gives up the CPU are the operations of [Proc].  The lock of a process is
    held over [swtch], in both directions: by the scheduler that resumes it
    until the process releases it, and by a process that leaves until the
    scheduler releases it. *)
From stdpp Require Import functions.
From S2P Require Import Prelude Kmonad Proc.

Inductive mode :=
  | Scheduling             (** in the loop of [scheduler], no lock *)
  | Resumed (p : nat)      (** just switched to [p], with [p->lock] *)
  | Running (p : nat)      (** in process [p], in the kernel or in user space *)
  | Left (p : nat).        (** switched back from [p], with [p->lock] *)

Record machine := Machine { kern : pst; hm : nat -> mode }.

(** CPU [h] executes on the stack of process [p]. *)
Definition on (m : machine) (h p : nat) : Prop := hm m h = Resumed p \/ hm m h = Running p \/ hm m h = Left p.
(** No CPU holds the lock of [p] over a [swtch]. *)
Definition unlocked (m : machine) (p : nat) : Prop := forall h, hm m h <> Resumed p /\ hm m h <> Left p.
Definition st_of (m : machine) (p : nat) : procstate := state (proc_at (kern m) p).

(** What code with [p->lock] does to the state of a process it does not run:
    nothing, [wakeup] and [kkill], [allocproc], [kfork] and [userinit],
    [freeproc] in [kfork] or [allocproc], and in [kwait]. *)
Inductive visit : procstate -> procstate -> Prop :=
  | v_same x : visit x x
  | v_wakeup : visit SLEEPING RUNNABLE
  | v_alloc : visit UNUSED USED
  | v_fork : visit USED RUNNABLE
  | v_undo : visit USED UNUSED
  | v_wait : visit ZOMBIE UNUSED.

Definition ncpu : nat := Z.to_nat NCPU.
Definition no_lock : ctx := Ctx [] [].

(** A step of CPU [h]. *)
Inductive sstep (h : nat) (m : machine) : machine -> Prop :=
  | s_look p c s : hm m h = Scheduling -> unlocked m p -> (p < nproc)%nat ->
      scheduler_try p h p no_lock (kern m) = Ok tt c s -> sstep h m (Machine s (hm m))
  | s_run p ch c s : hm m h = Scheduling -> unlocked m p -> (p < nproc)%nat ->
      scheduler_try p h p no_lock (kern m) = Asleep ch c s -> sstep h m (Machine s (<[h := Resumed p]> (hm m)))
  | s_release p : hm m h = Resumed p -> sstep h m (Machine (kern m) (<[h := Running p]> (hm m)))
  | s_yield p ch c s : hm m h = Running p -> unlocked m p ->
      yield p no_lock (kern m) = Asleep ch c s -> sstep h m (Machine s (<[h := Left p]> (hm m)))
  | s_sleep p ch lk ch' c s : hm m h = Running p -> unlocked m p ->
      sleep_on (A := unit) p ch lk (Ctx [lk] []) (kern m) = Asleep ch' c s -> sstep h m (Machine s (<[h := Left p]> (hm m)))
  | s_exit p status ch c s : hm m h = Running p -> unlocked m p ->
      become_zombie (A := unit) p status (Ctx [wait_lock] []) (kern m) = Asleep ch c s -> sstep h m (Machine s (<[h := Left p]> (hm m)))
  | s_back p c s : hm m h = Left p ->
      scheduler_back h p (Ctx [proc_lock p] []) (kern m) = Ok tt c s -> sstep h m (Machine s (<[h := Scheduling]> (hm m)))
  | s_visit q f : unlocked m q -> visit (st_of m q) (state (f (proc_at (kern m) q))) ->
      sstep h m (Machine (upd_proc q f (kern m)) (hm m)).

(** The CPUs enter [scheduler] with [c->proc] null and nothing running. *)
Record booted (s : pst) : Prop := {
  bt_procs : length (procs s) = nproc;
  bt_cpus : cproc s = replicate ncpu None;
  bt_idle p : state (proc_at s p) <> RUNNING;
}.

Inductive sreach : machine -> Prop :=
  | sreach_0 s : booted s -> sreach (Machine s (fun _ => Scheduling))
  | sreach_step h m m' : (h < ncpu)%nat -> sreach m -> sstep h m m' -> sreach m'.

(** ** The invariant *)

Record sched_ok (m : machine) : Prop := {
  k_procs : length (procs (kern m)) = nproc;
  k_cpus : length (cproc (kern m)) = ncpu;
  k_one h h' p : on m h p -> on m h' p -> h = h';
  k_cproc h p : on m h p -> (h < ncpu)%nat /\ (p < nproc)%nat /\ cproc (kern m) !!! h = Some p;
  k_none h : (h < ncpu)%nat -> hm m h = Scheduling -> cproc (kern m) !!! h = None;
  k_running h p : hm m h = Resumed p \/ hm m h = Running p -> st_of m p = RUNNING;
  k_left h p : hm m h = Left p -> st_of m p = RUNNABLE \/ st_of m p = SLEEPING \/ st_of m p = ZOMBIE;
  k_run p : st_of m p = RUNNING -> exists h, hm m h = Resumed p \/ hm m h = Running p;
}.

Lemma try_run h p s : scheduler_try p h p no_lock s =
  if decide (state (proc_at s p) = RUNNABLE)
  then Asleep ("swtch", Z.of_nat p) (Ctx [proc_lock p] []) (set_cproc h (Some p) (upd_proc p (set_state RUNNING) s))
  else Ok tt no_lock s.
Proof.
  unfold scheduler_try, bind, acquire, get_proc, gets, mod_proc, modify, no_lock. cbn [held].
  rewrite bool_decide_eq_false_2 by apply not_elem_of_nil. case_decide; [done|].
  unfold release. cbn [held woken]. rewrite bool_decide_eq_true_2 by set_solver. cbn [drop_lock]. by rewrite decide_True.
Qed.

(** [sched] from a state other than [RUNNING], with the process's lock only. *)
Lemma sched_run {A} p w s : state (proc_at s p) <> RUNNING ->
  sched (A := A) p (Ctx [proc_lock p] w) s = Asleep ("swtch", Z.of_nat p) (Ctx [proc_lock p] w) s.
Proof.
  intros Hs. unfold sched. cbn [held length]. rewrite bool_decide_eq_true_2 by set_solver. cbn. by rewrite decide_False.
Qed.

Lemma yield_run p s : (p < length (procs s))%nat ->
  yield p no_lock s = Asleep ("swtch", Z.of_nat p) (Ctx [proc_lock p] []) (upd_proc p (set_state RUNNABLE) s).
Proof.
  intros Hp. unfold yield, bind, acquire, mod_proc, modify, no_lock. cbn [held woken].
  rewrite bool_decide_eq_false_2 by apply not_elem_of_nil.
  rewrite sched_run; [done|]. rewrite proc_at_upd by done. by rewrite decide_True.
Qed.

Lemma drop_own (lk l : lockid) : l <> lk -> drop_lock lk [l; lk] = [l].
Proof. intros H. cbn. rewrite decide_False by done. by rewrite decide_True. Qed.

Lemma sleep_run {A} p ch lk w s : (p < length (procs s))%nat -> lk <> proc_lock p ->
  sleep_on (A := A) p ch lk (Ctx [lk] w) s = Asleep ("swtch", Z.of_nat p) (Ctx [proc_lock p] w)
    (upd_proc p (set_state SLEEPING) (upd_proc p (set_chan (Some ch)) s)).
Proof.
  intros Hp Hl. unfold sleep_on, bind, acquire, release, mod_proc, modify. cbn [held woken].
  rewrite bool_decide_eq_false_2 by set_solver. cbn [held woken]. rewrite bool_decide_eq_true_2 by set_solver. rewrite drop_own by done.
  rewrite sched_run; [done|]. rewrite proc_at_upd by (cbn; by rewrite length_insert). by rewrite decide_True.
Qed.

Lemma exit_run {A} p status w s : (p < length (procs s))%nat ->
  become_zombie (A := A) p status (Ctx [wait_lock] w) s = Asleep ("swtch", Z.of_nat p) (Ctx [proc_lock p] w)
    (upd_proc p (set_state ZOMBIE) (upd_proc p (set_xstate status) s)).
Proof.
  intros Hp. assert (proc_lock p <> wait_lock) as Hl by done. unfold become_zombie, bind, acquire, release, mod_proc, modify. cbn [held woken].
  rewrite bool_decide_eq_false_2 by set_solver. cbn [held woken]. rewrite bool_decide_eq_true_2 by set_solver. rewrite drop_own by done.
  rewrite sched_run; [done|]. rewrite proc_at_upd by (cbn; by rewrite length_insert). by rewrite decide_True.
Qed.

(** An unlocked process is on a CPU exactly if it is [RUNNING]. *)
Lemma unlocked_on m p h : sched_ok m -> unlocked m p -> on m h p -> hm m h = Running p /\ st_of m p = RUNNING.
Proof.
  intros Hm Hu Ho. destruct (Hu h) as [H1 H2]. assert (hm m h = Running p) as E by (destruct Ho as [?|[?|?]]; done).
  split; [done|]. apply (k_running _ Hm h). by right.
Qed.

(** The modes after CPU [h] has moved to [x]. *)
Lemma hm_at (f : nat -> mode) h x h' : (<[h := x]> f) h' = if decide (h' = h) then x else f h'.
Proof. case_decide; [subst; apply fn_lookup_insert|by apply fn_lookup_insert_ne]. Qed.

Lemma leave_ok h m p s x : sched_ok m -> hm m h = Running p -> unlocked m p ->
  state x = RUNNABLE \/ state x = SLEEPING \/ state x = ZOMBIE ->
  procs s = <[p := x]> (procs (kern m)) -> cproc s = cproc (kern m) -> sched_ok (Machine s (<[h := Left p]> (hm m))).
Proof.
  intros Hm Hh Hu Hx Ep Ec. assert (on m h p) as Hon by (right; by left). destruct (k_cproc _ Hm h p Hon) as (Hh1 & Hp & Hc).
  assert (forall q, st_of (Machine s (<[h := Left p]> (hm m))) q = if decide (q = p) then state x else st_of m q) as Est.
  { intros q. unfold st_of, proc_at. cbn. rewrite Ep. case_decide; [subst|by rewrite list_lookup_total_insert_ne].
    by rewrite list_lookup_total_insert_eq by (by rewrite (k_procs _ Hm)). }
  assert (forall h' q, on (Machine s (<[h := Left p]> (hm m))) h' q -> on m h' q) as Hon'.
  { intros h' q. unfold on. cbn. rewrite !hm_at. case_decide; [subst|done]. intros [?|[?|[= <-]]]; [done..|]. right. by left. }
  split; cbn [kern hm].
  - by rewrite Ep, length_insert, (k_procs _ Hm).
  - by rewrite Ec, (k_cpus _ Hm).
  - intros h1 h2 q H1%Hon' H2%Hon'. by apply (k_one _ Hm h1 h2 q).
  - intros h1 q H1%Hon'. rewrite Ec. by apply (k_cproc _ Hm).
  - intros h1 Hlt. rewrite hm_at. case_decide; [done|]. rewrite Ec. by apply (k_none _ Hm).
  - intros h1 q H1. rewrite Est. rewrite !hm_at in H1. case_decide as E1; [by destruct H1|].
    rewrite decide_False; [by apply (k_running _ Hm h1)|]. intros ->. apply E1. apply (k_one _ Hm h1 h p); [|done]. unfold on. tauto.
  - intros h1 q H1. rewrite Est. rewrite hm_at in H1. case_decide as E1; [injection H1 as <-; by rewrite decide_True|].
    rewrite decide_False; [by apply (k_left _ Hm h1)|]. intros ->. by destruct (Hu h1).
  - intros q. rewrite Est. case_decide as E; [subst q; intros E; rewrite E in Hx; naive_solver|].
    intros (h1 & H1)%(k_run _ Hm). exists h1. rewrite !hm_at. rewrite decide_False; [done|]. intros ->. rewrite Hh in H1. naive_solver.
Qed.

Lemma run_ok h m p : sched_ok m -> (h < ncpu)%nat -> (p < nproc)%nat -> hm m h = Scheduling -> unlocked m p -> st_of m p = RUNNABLE ->
  sched_ok (Machine (set_cproc h (Some p) (upd_proc p (set_state RUNNING) (kern m))) (<[h := Resumed p]> (hm m))).
Proof.
  intros Hm Hh Hp Hs Hu Hst. set (m' := Machine _ _).
  assert (forall h', ~ on m h' p) as Hno by (intros h' Ho; destruct (unlocked_on _ _ _ Hm Hu Ho); congruence).
  assert (forall q, st_of m' q = if decide (q = p) then RUNNING else st_of m q) as Est.
  { intros q. unfold m', st_of. cbn [kern]. change (proc_at (set_cproc _ _ ?s) q) with (proc_at s q). rewrite proc_at_upd by (by rewrite (k_procs _ Hm)).
    by case_decide. }
  assert (forall h' q, on m' h' q -> (h' = h /\ q = p) \/ (h' <> h /\ on m h' q /\ q <> p)) as Hon.
  { intros h' q. unfold m', on. cbn. rewrite !hm_at. case_decide; [naive_solver|]. intros Ho. right. split; [done|]. split; [done|].
    intros ->. by apply (Hno h'). }
  assert (length (cproc (kern m)) = ncpu) as Hc by apply Hm.
  split.
  - cbn. by rewrite length_insert, (k_procs _ Hm).
  - cbn. by rewrite length_insert, (k_cpus _ Hm).
  - intros h1 h2 q [[-> ->]|(H1 & Ho1 & Hq)]%Hon [[-> ?]|(H2 & Ho2 & ?)]%Hon; try done. by apply (k_one _ Hm h1 h2 q).
  - intros h1 q [[-> ->]|(H1 & Ho1 & Hq)]%Hon; cbn.
    + split_and!; [done..|]. by apply list_lookup_total_insert_eq; rewrite Hc.
    + destruct (k_cproc _ Hm h1 q Ho1) as (? & ? & ?). split_and!; [done..|]. by rewrite list_lookup_total_insert_ne.
  - intros h1 Hlt. cbn. rewrite hm_at. case_decide; [done|]. rewrite list_lookup_total_insert_ne by done. by apply (k_none _ Hm).
  - intros h1 q H1. rewrite Est. case_decide as E; [done|]. apply (k_running _ Hm h1). cbn in H1. rewrite !hm_at in H1. case_decide; [|done].
    by destruct H1 as [[= ?]|?].
  - intros h1 q H1. rewrite Est. cbn in H1. rewrite hm_at in H1. case_decide; [done|]. rewrite decide_False; [by apply (k_left _ Hm h1)|].
    intros ->. by destruct (Hu h1).
  - intros q. rewrite Est. case_decide as E.
    + intros _. exists h. left. cbn. rewrite hm_at. by rewrite decide_True by done; subst.
    + intros (h1 & H1)%(k_run _ Hm). exists h1. cbn. rewrite !hm_at. rewrite decide_False; [done|]. intros ->. rewrite Hs in H1. naive_solver.
Qed.

Lemma release_ok h m p : sched_ok m -> hm m h = Resumed p -> sched_ok (Machine (kern m) (<[h := Running p]> (hm m))).
Proof.
  intros Hm Hh. set (m' := Machine _ _). assert (on m h p) as Hon by (by left).
  assert (forall h' q, on m' h' q <-> on m h' q) as Ho.
  { intros h' q. unfold m', on. cbn. rewrite !hm_at. case_decide; [subst; rewrite Hh; naive_solver|done]. }
  assert (forall h' q, hm m' h' = Resumed q \/ hm m' h' = Running q -> hm m h' = Resumed q \/ hm m h' = Running q) as Hr.
  { intros h' q. unfold m'. cbn. rewrite !hm_at. case_decide; [subst; rewrite Hh; naive_solver|done]. }
  destruct Hm as [k1 k2 k3 k4 k5 k6 k7 k8]. split; try done.
  - intros h1 h2 q H1%Ho H2%Ho. by apply (k3 h1 h2 q).
  - intros h1 q H1%Ho. by apply k4.
  - intros h1 Hlt. cbn. rewrite hm_at. case_decide; [done|]. by apply k5.
  - intros h1 q H1%Hr. by apply (k6 h1).
  - intros h1 q. cbn. rewrite hm_at. case_decide; [done|]. by apply k7.
  - intros q (h1 & H1)%k8. exists h1. cbn. rewrite !hm_at. case_decide; [subst|done]. right. rewrite Hh in H1. naive_solver.
Qed.

Lemma back_ok h m p : sched_ok m -> hm m h = Left p -> sched_ok (Machine (set_cproc h None (kern m)) (<[h := Scheduling]> (hm m))).
Proof.
  intros Hm Hh. set (m' := Machine _ _). assert (on m h p) as Hon by (right; by right). destruct (k_cproc _ Hm h p Hon) as (Hlt & _ & _).
  assert (forall h' q, on m' h' q -> h' <> h /\ on m h' q) as Ho.
  { intros h' q. unfold m', on. cbn. rewrite !hm_at. case_decide; [naive_solver|done]. }
  assert (length (cproc (kern m)) = ncpu) as Hc by apply Hm.
  destruct Hm as [k1 k2 k3 k4 k5 k6 k7 k8]. split; try done.
  - cbn. by rewrite length_insert.
  - intros h1 h2 q [_ H1]%Ho [_ H2]%Ho. by apply (k3 h1 h2 q).
  - intros h1 q [Hne H1]%Ho. cbn. rewrite list_lookup_total_insert_ne by done. by apply k4.
  - intros h1 Hlt1. cbn. rewrite hm_at. case_decide; [subst; intros _; by apply list_lookup_total_insert_eq; rewrite Hc|].
    rewrite list_lookup_total_insert_ne by done. by apply k5.
  - intros h1 q. cbn. rewrite !hm_at. case_decide; [by intros []|]. by apply k6.
  - intros h1 q. cbn. rewrite hm_at. case_decide; [done|]. by apply k7.
  - intros q (h1 & H1)%k8. exists h1. cbn. rewrite !hm_at. case_decide; [subst|done]. rewrite Hh in H1. naive_solver.
Qed.

Lemma visit_ok m q f : sched_ok m -> unlocked m q -> visit (st_of m q) (state (f (proc_at (kern m) q))) ->
  sched_ok (Machine (upd_proc q f (kern m)) (hm m)).
Proof.
  intros Hm Hu Hv. destruct (decide (q < nproc)%nat) as [Hq|Hq].
  2: { unfold upd_proc. rewrite list_insert_ge by (rewrite (k_procs _ Hm); lia). by destruct m as [[] ?], Hm. }
  assert (forall p, st_of (Machine (upd_proc q f (kern m)) (hm m)) p = if decide (p = q) then state (f (proc_at (kern m) q)) else st_of m p) as Est.
  { intros p. unfold st_of. cbn [kern]. rewrite proc_at_upd by (by rewrite (k_procs _ Hm)). by case_decide. }
  assert (st_of m q = RUNNING <-> state (f (proc_at (kern m) q)) = RUNNING) as Hrun by (inversion Hv; naive_solver).
  destruct Hm as [k1 k2 k3 k4 k5 k6 k7 k8]. split; try done.
  - cbn. by rewrite length_insert.
  - intros h p Hh. rewrite Est. case_decide; [subst; apply Hrun|]; by apply (k6 h).
  - intros h p Hh. rewrite Est. case_decide; [subst; by destruct (Hu h)|]. by apply (k7 h).
  - intros p. rewrite Est. case_decide; [subst; intros E%Hrun|intros E]; by apply k8.
Qed.

Lemma sstep_ok h m m' : (h < ncpu)%nat -> sched_ok m -> sstep h m m' -> sched_ok m'.
Proof.
  intros Hlt Hm Hs.
  assert (forall p, hm m h = Running p -> (p < length (procs (kern m)))%nat) as Hp.
  { intros p E. rewrite (k_procs _ Hm). destruct (k_cproc _ Hm h p) as (_ & ? & _); [right; by left|done]. }
  destruct Hs as [p c s Hh Hu Hn E|p ch c s Hh Hu Hn E|p Hh|p ch c s Hh Hu E|p ch lk ch' c s Hh Hu E|p status ch c s Hh Hu E|p c s Hh E|q f Hu Hv].
  - rewrite try_run in E. case_decide; [done|]. injection E as <- <-. by destruct m.
  - rewrite try_run in E. case_decide; [|done]. injection E as <- <- <-. by apply run_ok.
  - by apply release_ok.
  - rewrite yield_run in E by auto. injection E as <- <- <-. eapply leave_ok; [done..| |done|done]. by left.
  - destruct (decide (lk = proc_lock p)) as [->|Hl].
    + unfold sleep_on, bind, acquire in E. cbn [held] in E. rewrite bool_decide_eq_true_2 in E by set_solver. done.
    + rewrite sleep_run in E by auto. injection E as <- <- <-. eapply (leave_ok _ _ _ _ (set_state SLEEPING (set_chan (Some ch) (proc_at (kern m) p)))); [done..| | |done].
      * right. by left.
      * cbn. rewrite list_insert_insert_eq. by rewrite proc_at_upd, decide_True by auto.
  - rewrite exit_run in E by auto. injection E as <- <- <-. eapply (leave_ok _ _ _ _ (set_state ZOMBIE (set_xstate status (proc_at (kern m) p)))); [done..| | |done].
    + right. by right.
    + cbn. rewrite list_insert_insert_eq. by rewrite proc_at_upd, decide_True by auto.
  - unfold scheduler_back, bind, modify, release in E. cbn [held] in E. rewrite bool_decide_eq_true_2 in E by set_solver.
    injection E as <- <-. by apply (back_ok h m p).
  - by apply visit_ok.
Qed.

Lemma sreach_ok m : sreach m -> sched_ok m.
Proof.
  induction 1 as [s [B1 B2 B3]|h m m' Hh _ IH Hs]; [|by apply (sstep_ok h m)].
  split; cbn; unfold on; cbn; try naive_solver.
  - by rewrite B2, length_replicate.
  - intros h Hh _. rewrite B2. by rewrite list_lookup_total_alt, lookup_replicate_2.
Qed.


(** ** Witness: CPU 1 has switched to process 0, which has released its lock *)

Definition ex_boot : pst := Pst (Kalloc.Mst ∅ 0) (set_state RUNNABLE proc0 :: replicate 63 proc0) 2 (Some 0%nat) (replicate ncpu None) 0.
Definition ex_started : machine := Machine (set_cproc 1 (Some 0%nat) (upd_proc 0 (set_state RUNNING) ex_boot))
  (<[1%nat := Running 0]> (<[1%nat := Resumed 0]> (fun _ => Scheduling))).

Lemma ex_started_reach : sreach ex_started.
Proof.
  apply (sreach_step 1 (Machine (set_cproc 1 (Some 0%nat) (upd_proc 0 (set_state RUNNING) ex_boot)) (<[1%nat := Resumed 0]> (fun _ => Scheduling)))).
  - vm_compute. lia.
  - apply (sreach_step 1 (Machine ex_boot (fun _ => Scheduling))); [vm_compute; lia| |].
    + constructor. split; [done|done|]. intros p. unfold proc_at, ex_boot. cbn [procs].
      destruct p as [|p]; [done|]. rewrite list_lookup_total_alt. cbn [lookup list_lookup].
      destruct (replicate 63 proc0 !! p) as [x|] eqn:E; [|done]. by apply lookup_replicate in E as [-> _].
    + apply (s_run 1 (Machine ex_boot (fun _ => Scheduling)) 0 ("swtch", 0) (Ctx [proc_lock 0] [])); [done|done|vm_compute; lia|].
      vm_compute. reflexivity.
  - constructor. vm_compute. reflexivity.
Qed.

