(* ===== verification/ProcSpec.v ===== *)
(** * kernel/proc.c: kill, exit and wait

    The life of a process as its relatives see it: [kexit_zombie] hands the
    children over to init and leaves a zombie with its status, [kwait] reaps
    zombies and sleeps only while there are none, and [kkill] marks the
    process it finds first. *)
From S2P Require Import Prelude Kmonad Riscv Mem KString Kalloc Vm Block Sleeplock Bio Log FsLayout Fs FsDir Pipe File Proc Sched.

Implicit Types (s : pst) (p : proc) (c : ctx).

(** The state of the processes but for memory. *)
Definition tables s := (nextpid s, initproc s, cproc s, ticks s, procs s).

Lemma keeps_pm {A} (m : K mstate A) : keeps tables (pm m).
Proof. by apply keeps_zoom. Qed.

Lemma keeps_get_proc {A} i (f : proc -> A) : keeps tables (get_proc i f).
Proof. apply keeps_gets. Qed.
#[export] Hint Resolve keeps_pm keeps_get_proc : keeps.

Lemma proc_freepagetable_keeps {L : Layout} pt size : keeps tables (proc_freepagetable pt size).
Proof. unfold proc_freepagetable. keeps. Qed.
#[export] Hint Resolve proc_freepagetable_keeps : keeps.

Lemma upd_tables i f s s' : tables s = tables s' -> tables (upd_proc i f s) = tables (upd_proc i f s').
Proof. unfold tables. intros [= E1 E2 E3 E4 E5]. unfold upd_proc, proc_at. cbn. by rewrite E1, E2, E3, E4, E5. Qed.

Lemma tables_at s s' i : tables s = tables s' -> proc_at s i = proc_at s' i.
Proof. unfold tables, proc_at. by intros [= _ _ _ _ ->]. Qed.

(** No lock of a process is held, so that all of them can be acquired. *)
Definition no_proc_lock c : Prop := forall i, proc_lock i ∉ held c.

(** ** kkill *)

(** What [kkill] does to the process it finds. *)
Definition kill_mark p : proc := if decide (state p = SLEEPING) then set_state RUNNABLE (set_killed 1 p) else set_killed 1 p.

Lemma proc_lookup s i : (i < length (procs s))%nat -> procs s !! i = Some (proc_at s i).
Proof. intros Hi. unfold proc_at. by apply list_lookup_lookup_total_lt. Qed.

Lemma kkill_spec pid' c s : length (procs s) = nproc -> no_proc_lock c ->
  wp (kkill pid') (fun r c' s' => c' = c /\
    match list_find (fun p => pid p = pid') (procs s) with
    | Some (i, _) => r = 0 /\ s' = upd_proc i kill_mark s
    | None => r = -1 /\ s' = s
    end) c s.
Proof.
  intros Hn Hc. unfold kkill.
  apply (wp_loop (fun k i c' s' => c' = c /\ s' = s /\ (nproc - i < k)%nat /\ (i <= nproc)%nat /\ forall j, (j < i)%nat -> pid (proc_at s j) <> pid')).
  2: { split_and!; try done; lia. }
  intros k i c' s' (-> & -> & Hk & Hi & Hj). destruct k as [|k]; [lia|]. exists k. split; [done|]. destruct (Nat.ltb_spec i nproc) as [Hlt|].
  - kstep. apply wp_acquire; [apply Hc|]. unfold get_proc, mod_proc. ksteps. unfold id. destruct (Z.eqb_spec (pid (proc_at s i)) pid') as [E|E].
    + rewrite (list_find_first (fun p => pid p = pid') (procs s) i) by (rewrite ?Hn; done). unfold when. kstep.
      assert (upd_proc i kill_mark s = if bool_decide (state (proc_at s i) = SLEEPING)
        then upd_proc i (set_state RUNNABLE) (upd_proc i (set_killed 1) s) else upd_proc i (set_killed 1) s) as ->.
      { rewrite upd_proc_twice. unfold upd_proc, kill_mark. by case_bool_decide; case_decide. }
      case_bool_decide; ksteps; by destruct c.
    + ksteps. split_and!; try lia; [by destruct c|done|]. by apply below_S.
  - apply wp_ret. rewrite list_find_none; [done|]. intros j Hj'. apply Hj. lia.
Qed.

(** ** wakeup *)

(** The table after [g] was applied to every process, everything else as before. *)
Record changed (g : nat -> proc -> proc) s s' : Prop := {
  cg_procs : length (procs s') = nproc;
  cg_at j : (j < nproc)%nat -> proc_at s' j = g j (proc_at s j);
  cg_rest : pmem s' = pmem s /\ nextpid s' = nextpid s /\ initproc s' = initproc s /\ cproc s' = cproc s /\ ticks s' = ticks s;
}.

Lemma changed_id s : length (procs s) = nproc -> changed (fun _ p => p) s s.
Proof. done. Qed.

Lemma changed_trans g g' s s1 s2 : changed g s s1 -> changed g' s1 s2 -> changed (fun j p => g' j (g j p)) s s2.
Proof.
  intros [A1 A2 (R1 & R2 & R3 & R4 & R5)] [B1 B2 (Q1 & Q2 & Q3 & Q4 & Q5)]. split; [done| |split_and!; congruence].
  intros j Hj. by rewrite B2, A2.
Qed.

Lemma changed_ext g g' s s' : changed g s s' -> (forall j, (j < nproc)%nat -> g j (proc_at s j) = g' j (proc_at s j)) -> changed g' s s'.
Proof. intros [A1 A2 A3] H. split; [done| |done]. intros j Hj. rewrite <- H by done. by apply A2. Qed.

Lemma changed_upd i f s : length (procs s) = nproc -> (i < nproc)%nat -> changed (fun j p => if decide (j = i) then f p else p) s (upd_proc i f s).
Proof.
  intros Hn Hi. split; [cbn; by rewrite length_insert| |done]. intros j Hj. rewrite proc_at_upd by lia. case_decide; by subst.
Qed.

(** What [wakeup(ch)] called by process [cur] does to process [j]. *)
Definition wake (cur : nat) (ch : option chan) (j : nat) p : proc :=
  if decide (j <> cur /\ state p = SLEEPING /\ pchan p = ch) then set_state RUNNABLE p else p.

Lemma wakeup_one_spec cur ch i c s : length (procs s) = nproc -> (i < nproc)%nat -> no_proc_lock c ->
  wp (wakeup_one cur ch i) (fun _ c' s' => c' = c /\ changed (fun j p => if decide (j = i) then wake cur ch j p else p) s s') c s.
Proof.
  intros Hn Hi Hc. unfold wakeup_one. destruct (Nat.eqb_spec i cur) as [->|Hne].
  - apply wp_ret. split; [done|]. apply (changed_ext _ _ _ _ (changed_id s Hn)). intros j _. unfold wake.
    case_decide; [subst|done]. rewrite decide_False; [done|]. naive_solver.
  - kstep. apply wp_acquire; [apply Hc|]. unfold get_proc, mod_proc, when, id. ksteps. case_bool_decide as E; ksteps; (split; [by destruct c|]).
    + apply (changed_ext _ _ _ _ (changed_upd i _ s Hn Hi)). intros j _. unfold wake. case_decide; [subst|done]. by rewrite decide_True.
    + apply (changed_ext _ _ _ _ (changed_id s Hn)). intros j _. unfold wake. case_decide; [subst|done]. rewrite decide_False; [done|]. naive_solver.
Qed.

Lemma wakeup_procs_spec cur ch c s : length (procs s) = nproc -> no_proc_lock c ->
  wp (wakeup_procs cur ch) (fun _ c' s' => c' = c /\ changed (wake cur ch) s s') c s.
Proof.
  intros Hn Hc. unfold wakeup_procs.
  apply (wp_loop (fun k i c' s' => c' = c /\ (nproc - i < k)%nat /\ (i <= nproc)%nat /\
    changed (fun j p => if decide (j < i)%nat then wake cur ch j p else p) s s')).
  2: { split_and!; [done|lia|lia|]. apply (changed_ext _ _ _ _ (changed_id s Hn)). intros j _. by rewrite decide_False by lia. }
  intros k i c' s' (-> & Hk & Hi & Hch). destruct k as [|k]; [lia|]. exists k. split; [done|]. destruct (Nat.ltb_spec i nproc) as [Hlt|].
  - kstep. eapply wp_mono; [apply wakeup_one_spec; [apply Hch|done|done]|]. intros [] c1 s1 [-> H1]. kstep. split_and!; [done|lia|lia|].
    apply (changed_ext _ _ _ _ (changed_trans _ _ _ _ _ Hch H1)). intros j Hj. cbn.
    destruct (decide (j = i)) as [->|].
    + by rewrite (decide_False (P := (i < i)%nat)), decide_True by lia.
    + destruct (decide (j < i)%nat); [rewrite decide_True by lia|rewrite decide_False by lia]; done.
  - apply wp_ret. split; [done|]. apply (changed_ext _ _ _ _ Hch). intros j Hj. by rewrite decide_True by lia.
Qed.

(** ** exit *)

(** What [reparent] does to a child. *)
Definition adopt (cur : nat) (init : option nat) p : proc := if decide (parent p = Some cur) then set_parent init p else p.

(** Some process below [i] is a child of [cur]. *)
Definition has_child (cur i : nat) s : bool := bool_decide (Exists (fun p => parent p = Some cur) (take i (procs s))).

Lemma has_child_S cur i s : (i < length (procs s))%nat ->
  has_child cur (i + 1) s = has_child cur i s || bool_decide (parent (proc_at s i) = Some cur).
Proof.
  intros Hi. unfold has_child. rewrite Nat.add_1_r, (take_S_r _ _ (proc_at s i)) by (by apply proc_lookup).
  apply eq_true_iff_eq. rewrite orb_true_iff, !bool_decide_eq_true, Exists_app, Exists_cons, Exists_nil. naive_solver.
Qed.

Definition reparented (cur i : nat) s (j : nat) p : proc :=
  (if has_child cur i s then wake cur (proc_chan (initproc s)) j else id)
    (if decide (j < i)%nat then adopt cur (initproc s) p else p).

Lemma wake_wake cur ch j p : wake cur ch j (wake cur ch j p) = wake cur ch j p.
Proof. unfold wake. repeat case_decide; naive_solver. Qed.
Lemma wake_parent cur ch j i p : set_parent i (wake cur ch j p) = wake cur ch j (set_parent i p).
Proof. unfold wake. cbn. by case_decide. Qed.
Lemma parent_wake cur ch j p : parent (wake cur ch j p) = parent p.
Proof. unfold wake. by case_decide. Qed.

Lemma step_child cur init i j (b : bool) p : (j = i -> parent p = Some cur) ->
  let q := (if b then wake cur (proc_chan init) j else id) (if decide (j < i)%nat then adopt cur init p else p) in
  wake cur (proc_chan init) j (if decide (j = i) then set_parent init q else q) =
  wake cur (proc_chan init) j (if decide (j < i + 1)%nat then adopt cur init p else p).
Proof.
  intros Hj q. unfold q. clear q. destruct (decide (j = i)) as [->|].
  - rewrite decide_False, decide_True by lia. unfold adopt. rewrite decide_True by auto. destruct b; [|done].
    by rewrite wake_parent, wake_wake.
  - destruct (decide (j < i)%nat); [rewrite decide_True by lia|rewrite decide_False by lia]; destruct b; rewrite ?wake_wake; done.
Qed.

Lemma reparent_spec cur c s : length (procs s) = nproc -> no_proc_lock c ->
  wp (reparent cur cur) (fun _ c' s' => c' = c /\ changed (reparented cur nproc s) s s') c s.
Proof.
  intros Hn Hc. unfold reparent.
  apply (wp_loop (fun k i c' s' => c' = c /\ (nproc - i < k)%nat /\ (i <= nproc)%nat /\ changed (reparented cur i s) s s')).
  2: { split_and!; [done|lia|lia|]. apply (changed_ext _ _ _ _ (changed_id s Hn)). intros j _. unfold reparented, has_child. cbn.
       rewrite decide_False by lia. rewrite bool_decide_eq_false_2; [done|]. rewrite take_0, Exists_nil. by intros []. }
  intros k i c' s' (-> & Hk & Hi & Hch). destruct k as [|k]; [lia|]. exists k. split; [done|]. destruct (Nat.ltb_spec i nproc) as [Hlt|].
  2: { apply wp_ret. split; [done|]. by assert (i = nproc) as -> by lia. }
  unfold get_proc, mod_proc. destruct (cg_rest _ _ _ Hch) as (_ & _ & Hin & _).
  assert (parent (proc_at s' i) = parent (proc_at s i)) as Epar.
  { rewrite (cg_at _ _ _ Hch) by done. unfold reparented. rewrite decide_False by lia. destruct (has_child _ _ _); [apply parent_wake|done]. }
  ksteps. rewrite Epar. unfold when. case_bool_decide as Ep; ksteps.
  - rewrite Hin. eapply wp_mono; [apply wakeup_procs_spec; [cbn; rewrite length_insert; apply Hch|done]|]. intros [] c1 s1 [-> H1]. kstep.
    split_and!; [done|lia|lia|].
    apply (changed_ext _ _ _ _ (changed_trans _ _ _ _ _ (changed_trans _ _ _ _ _ Hch (changed_upd i (set_parent (initproc s)) s' (cg_procs _ _ _ Hch) Hlt)) H1)).
    intros j Hj. unfold reparented. rewrite has_child_S, Ep, bool_decide_eq_true_2, orb_true_r by (done || lia).
    apply step_child. intros ->. exact Ep.
  - split_and!; [done|lia|lia|]. apply (changed_ext _ _ _ _ Hch). intros j Hj. unfold reparented.
    rewrite has_child_S, (bool_decide_eq_false_2 (parent _ = _)), orb_false_r by (done || lia).
    destruct (decide (j = i)) as [->|].
    + rewrite decide_False, decide_True by lia. unfold adopt. by rewrite decide_False.
    + destruct (decide (j < i)%nat); [rewrite decide_True by lia|rewrite decide_False by lia]; done.
Qed.

(** What [kexit] leaves of the table: the exiting process is a zombie with
    its status; its children are init's; its parent, and init if it got a
    child, are awake if they were waiting. *)
Definition exited (cur : nat) (status : Z) s (j : nat) p : proc :=
  let p := reparented cur nproc s j p in
  if decide (j = cur) then set_state ZOMBIE (set_xstate status p)
  else wake cur (proc_chan (parent (reparented cur nproc s cur (proc_at s cur)))) j p.

Lemma kexit_zombie_spec cur status c s : length (procs s) = nproc -> (cur < nproc)%nat -> held c = [] ->
  wpx (kexit_zombie (A := unit) cur status) (fun _ _ _ => False)
    (fun ch c' s' => ch = ("swtch", Z.of_nat cur) /\ held c' = [proc_lock cur] /\ changed (exited cur status s) s s') c s.
Proof.
  intros Hn Hcur Hc. unfold kexit_zombie. apply wpx_bind_wp. apply wp_acquire; [rewrite Hc; apply not_elem_of_nil|].
  set (c1 := Ctx (wait_lock :: held c) (woken c)).
  assert (no_proc_lock c1) as Hnl by (intros i; cbn; rewrite Hc; set_solver).
  apply wpx_bind_wp. eapply wp_mono; [by apply reparent_spec|]. intros [] c2 s2 [-> H2].
  apply wpx_bind_wp. unfold get_proc. kstep. apply wpx_bind_wp. eapply wp_mono; [by apply wakeup_procs_spec; [apply H2|]|]. intros [] c3 s3 [-> H3].
  pose proof (changed_trans _ _ _ _ _ H2 H3) as H4. assert (length (procs s3) = nproc) as Hn3 by apply H4.
  unfold wpx, c1. rewrite Hc, exit_run by lia. split; [done|]. split; [done|]. rewrite upd_proc_twice.
  apply (changed_ext _ _ _ _ (changed_trans _ _ _ _ _ H4 (changed_upd cur _ s3 Hn3 Hcur))). intros j Hj. unfold exited.
  rewrite (cg_at _ _ _ H2) by done. destruct (decide (j = cur)) as [->|]; [|done]. unfold wake at 1. by rewrite decide_False by naive_solver.
Qed.

(** ** wait *)

Section wait.
Context {L : Layout} (cur : nat) (kbuf : Z).

Lemma ld64_awake a : awake (ld64 a).
Proof. apply awake_gets. Qed.
Lemma st64_awake a v : awake (st64 a v).
Proof. apply awake_modify. Qed.
Lemma kmemset_awake dst v n : awake (kmemset dst v n).
Proof. apply awake_modify. Qed.
Lemma kmemmove_awake dst src n : awake (kmemmove dst src n).
Proof. apply awake_modify. Qed.
Hint Resolve ld64_awake st64_awake kmemset_awake kmemmove_awake : awake.
Lemma kfree_awake pa : awake (kfree pa).
Proof. unfold kfree. awake. Qed.
Lemma kalloc_awake : awake kalloc.
Proof. unfold kalloc. awake. Qed.
Hint Resolve kfree_awake kalloc_awake : awake.

Lemma walk_loop_awake n pt va b : awake (walk_loop n pt va b).
Proof. revert pt. induction n as [|n IH]; intros pt; simpl; awake. Qed.
Hint Resolve walk_loop_awake : awake.
Lemma walk_awake pt va b : awake (walk pt va b).
Proof. unfold walk. awake. Qed.
Hint Resolve walk_awake : awake.
Lemma uvmunmap_awake pt va n b : awake (uvmunmap pt va n b).
Proof. unfold uvmunmap. awake. Qed.
Lemma freewalk_awake n pt : awake (freewalk n pt).
Proof. revert pt. induction n as [|n IH]; intros pt; cbn [freewalk]; awake. Qed.
Lemma walkaddr_awake pt va : awake (walkaddr pt va).
Proof. unfold walkaddr. awake. Qed.
Lemma mappages_awake pt va n pa perm : awake (mappages pt va n pa perm).
Proof. unfold mappages. awake. Qed.
Hint Resolve uvmunmap_awake freewalk_awake walkaddr_awake mappages_awake : awake.
Lemma vmfault_awake psz ppt pt va : awake (vmfault psz ppt pt va).
Proof. unfold vmfault, ismapped. awake. Qed.
Hint Resolve vmfault_awake : awake.
Lemma copyout_awake psz ppt pt dst src n : awake (copyout psz ppt pt dst src n).
Proof. unfold copyout, user_page. awake. Qed.
Lemma freepagetable_awake pt n : awake (proc_freepagetable pt n).
Proof. unfold proc_freepagetable, uvmfree. awake. Qed.
Hint Resolve copyout_awake freepagetable_awake : awake.
Lemma user_copyout_awake dst bs : awake (user_copyout cur kbuf dst bs).
Proof. unfold user_copyout, get_proc. awake. Qed.

(** What [freeproc] leaves of an entry. *)
Definition freed p : proc :=
  set_state UNUSED (set_xstate 0 (set_killed 0 (set_chan None (set_name (<[O := 0]> (pname p)) (set_parent None
    (set_pid 0 (set_sz 0 (set_pagetable 0 (set_trapframe 0 p))))))))).

Lemma wlp_mod {B} i f g (m : unit -> K pst B) Q R c s0 s : tables s = tables (upd_proc i g s0) ->
  (forall c' s', tables s' = tables (upd_proc i (fun p => f (g p)) s0) -> wlp (m tt) Q R c' s') -> wlp (bind (mod_proc i f) m) Q R c s.
Proof. intros E H. apply wlp_bind. cbn. intros c'. apply H. rewrite <- (upd_proc_twice i f g). by apply upd_tables. Qed.

Lemma wlp_same {B} (m : K pst B) Q (R : pst -> Prop) c s : awake m -> keeps tables m -> (forall a s', tables s' = tables s -> Q a s') -> wlp m Q R c s.
Proof. intros Ha Hk HQ. apply (wlp_awake _ _ (fun _ => True)); [done|]. by apply (wlp_keeps tables). Qed.

Lemma freeproc_spec i c s0 s : tables s = tables s0 ->
  wlp (freeproc i) (fun _ s' => tables s' = tables (upd_proc i freed s0)) (fun _ => False) c s.
Proof.
  intros E0. assert (tables s = tables (upd_proc i (fun p => p) s0)) as E.
  { rewrite E0. unfold tables, upd_proc. cbn. unfold proc_at. destruct (decide (i < length (procs s0))%nat).
    - rewrite list_insert_id; [done|]. by apply list_lookup_lookup_total_lt.
    - by rewrite list_insert_ge by lia. }
  clear E0. unfold freeproc.
  apply wlp_bind. cbn. intros c1. apply wlp_bind. apply wlp_same; [unfold when; awake|keeps|]. intros [] s1 E1 c2. rewrite E in E1.
  eapply wlp_mod; [exact E1|]. intros c3 s2 E2. apply wlp_bind. cbn. intros c4. apply wlp_bind. cbn. intros c5.
  apply wlp_bind. apply wlp_same; [awake|keeps|]. intros [] s3 E3 c6. rewrite E2 in E3.
  do 8 (eapply wlp_mod; [eassumption|]; intros ? ? ?). unfold wlp, mod_proc, modify.
  etransitivity; [apply upd_tables; eassumption|]. rewrite upd_proc_twice. unfold freed. reflexivity.
Qed.

Lemma user_copyout_keeps dst bs : keeps tables (user_copyout cur kbuf dst bs).
Proof. unfold user_copyout. keeps. Qed.

(** The child [kwait] reaps: the first zombie of the table. *)
Definition zombie_child p : Prop := parent p = Some cur /\ state p = ZOMBIE.
Definition first_zombie s : option (nat * proc) := list_find zombie_child (procs s).

(** The result of the scan of the table. *)
Definition scanned addr s0 (r : Z + bool) s' : Prop :=
  match r, first_zombie s0 with
  | inl v, Some (i, p) => (v = pid p /\ tables s' = tables (upd_proc i freed s0)) \/ (v = -1 /\ addr <> 0 /\ tables s' = tables s0)
  | inr havekids, None => tables s' = tables s0 /\ havekids = has_child cur nproc s0
  | _, _ => False
  end.

(** The turn of the loop that finds a zombie. *)
Lemma reap_spec addr i x c s0 s : tables s = tables s0 -> first_zombie s0 = Some (i, x) -> x = proc_at s0 i ->
  wlp (r <- (if negb (addr =? 0) then user_copyout cur kbuf addr (le_enc 4 (xstate x)) else ret 0) ;;
       if r <? 0 then release (proc_lock i) ;; release wait_lock ;; ret (inr (inl (-1)))
       else freeproc i ;; release (proc_lock i) ;; release wait_lock ;; ret (inr (inl (pid x))))
    (fun (r : nat * bool + (Z + bool)) s' => match r with inl _ => False | inr v => scanned addr s0 v s' end) (fun _ => False) c s.
Proof.
  intros Es Hz Hx. apply wlp_bind.
  apply (wlp_mono _ (fun r s' => tables s' = tables s0 /\ (r < 0 -> addr <> 0)) _ (fun _ => False)); [| |done].
  { destruct (Z.eqb_spec addr 0); cbn [negb]; [by cbn|]. apply wlp_same; [apply user_copyout_awake|apply user_copyout_keeps|].
    intros r s' E. split; [congruence|done]. }
  intros r s1 [E1 Hr] c1. destruct (Z.ltb_spec r 0).
  - do 2 (apply wlp_bind; apply wlp_same; [awake|keeps|]; intros [] ? ? ?). cbn. rewrite Hz. right. split_and!; [done|auto|congruence].
  - apply wlp_bind. eapply wlp_mono; [by apply freeproc_spec| |done]. intros [] s2 E2 c2.
    do 2 (apply wlp_bind; apply wlp_same; [awake|keeps|]; intros [] ? ? ?). cbn. rewrite Hz. left. split; [done|congruence].
Qed.

Lemma wlp_get_proc {A B} i (g : proc -> A) (m : A -> K pst B) Q R c s : wlp (m (g (proc_at s i))) Q R c s -> wlp (bind (get_proc i g) m) Q R c s.
Proof. done. Qed.

Lemma kwait_scan_spec addr c s0 s : length (procs s0) = nproc -> tables s = tables s0 ->
  wlp (kwait_scan cur kbuf addr) (scanned addr s0) (fun _ => False) c s.
Proof.
  intros Hn Es. unfold kwait_scan.
  apply (wlp_loop (fun '(i, havekids) s' => tables s' = tables s0 /\ (i <= nproc)%nat /\ havekids = has_child cur i s0 /\
    forall j, (j < i)%nat -> ~ zombie_child (proc_at s0 j))).
  2: { split_and!; [done|lia| |lia]. unfold has_child. by rewrite take_0, bool_decide_eq_false_2 by (rewrite Exists_nil; tauto). }
  intros [i havekids] c1 s1 (E1 & Hi & -> & Hj). destruct (Nat.ltb_spec i nproc) as [Hlt|].
  2: { cbn. unfold first_zombie. rewrite list_find_none by (intros j Hj'; apply Hj; lia). assert (i = nproc) as -> by lia. done. }
  apply wlp_get_proc. rewrite (tables_at _ _ i E1). case_bool_decide as Hp.
  - apply wlp_bind. apply wlp_same; [awake|keeps|]. intros [] s2 E2 c3. apply wlp_get_proc. unfold id.
    assert (tables s2 = tables s0) as E3 by congruence. rewrite (tables_at s2 s0 i E3). destruct (decide (state (proc_at s0 i) = ZOMBIE)) as [Hz|Hz].
    + eapply wlp_mono; [apply (reap_spec addr i (proc_at s0 i) c3 s0 s2 E3); [|done]| |done]; [|by intros []].
      apply list_find_first; [lia|by split|done].
    + apply wlp_bind. apply wlp_same; [awake|keeps|]. intros [] s3 E4 c5. cbn. split_and!; [congruence|lia| |].
      * rewrite has_child_S by lia. by rewrite (bool_decide_eq_true_2 _ Hp), orb_true_r.
      * apply below_S; [done|]. by intros [].
  - cbn. split_and!; [done|lia| |].
    + rewrite has_child_S by lia. by rewrite (bool_decide_eq_false_2 _ Hp), orb_false_r.
    + apply below_S; [done|]. by intros [].
Qed.

(** [sleep] in terms of the tables. *)
Lemma sleep_on_spec ch lk c s0 s : tables s = tables s0 ->
  wlp (sleep_on (A := Z) cur ch lk) (fun _ _ => False) (fun s' => tables s' = tables (upd_proc cur (fun p => set_state SLEEPING (set_chan (Some ch) p)) s0)) c s.
Proof.
  intros Es. unfold sleep_on. do 2 (apply wlp_bind; apply wlp_same; [awake|keeps|]; intros [] ? ? ?).
  apply wlp_bind. intros c1. apply wlp_bind. intros c2. unfold wlp, sched, swtch.
  repeat match goal with |- context [if ?b then _ else _] => destruct b end; try done.
  cbv beta. rewrite upd_proc_twice. apply upd_tables. congruence.
Qed.

Definition waiting s : Prop := has_child cur nproc s = true /\ pkilled (proc_at s cur) = 0.

End wait.

(** [q] is [p] but for its parent and for having been woken up. *)
Definition woken_from p q : Prop :=
  q = set_state (state q) (set_parent (parent q) p) /\ (state q = state p \/ state p = SLEEPING /\ state q = RUNNABLE).

Lemma woken_refl p : woken_from p p.
Proof. split; [by destruct p|by left]. Qed.

Lemma woken_adopt cur init p : woken_from p (adopt cur init p).
Proof. unfold adopt. case_decide; [|apply woken_refl]. split; [done|by left]. Qed.

Lemma woken_wake cur ch j p q : woken_from p q -> woken_from p (wake cur ch j q).
Proof.
  intros [E Hs]. unfold wake. case_decide as Hw; [|done]. split; [cbn; by rewrite E|]. right. cbn. split; [|done].
  destruct Hs as [Hs|[? _]]; [|done]. rewrite <- Hs. tauto.
Qed.

Lemma woken_reparented cur s j p : woken_from p (reparented cur nproc s j p).
Proof.
  unfold reparented. assert (woken_from p (if decide (j < nproc)%nat then adopt cur (initproc s) p else p)) as H.
  { case_decide; [apply woken_adopt|apply woken_refl]. }
  destruct (has_child _ _ _); [by apply woken_wake|done].
Qed.

Lemma parent_reparented cur s j p : (j < nproc)%nat ->
  parent (reparented cur nproc s j p) = if decide (parent p = Some cur) then initproc s else parent p.
Proof.
  intros Hj. unfold reparented. rewrite decide_True by done. destruct (has_child _ _ _); [rewrite parent_wake|]; unfold adopt, id; by case_decide.
Qed.


(** ** kill(0) *)

Section kill_zero.
Context {L : Layout} (forkret : Z).

Definition first_unused s : option (nat * proc) := list_find (fun p => state p = UNUSED) (procs s).

Lemma keeps_mod {B} (f : proc -> B) i j g : (forall p, f (g p) = f p) -> keeps (fun s => f (proc_at s i)) (mod_proc j g).
Proof.
  intros H. apply keeps_modify. intros s. destruct (decide (j < length (procs s))%nat) as [Hj|Hj].
  - rewrite proc_at_upd by done. case_decide; [subst; apply H|done].
  - unfold proc_at, upd_proc. cbn. by rewrite list_insert_ge by lia.
Qed.

Lemma keeps_killed_pm {A} i (m : K mstate A) : keeps (fun s => pkilled (proc_at s i)) (pm m).
Proof. by apply keeps_zoom. Qed.
Lemma keeps_killed_get {A} i j (g : proc -> A) : keeps (fun s => pkilled (proc_at s i)) (get_proc j g).
Proof. apply keeps_gets. Qed.
Hint Resolve keeps_killed_pm keeps_killed_get : keeps.

(** A process [allocproc] returns has the [killed] flag its entry had. *)
Lemma allocproc_found_killed i c s :
  wlp (allocproc_found forkret i) (fun r s' => forall k, r = Some k -> k = i /\ pkilled (proc_at s' i) = pkilled (proc_at s i)) (fun _ => True) c s.
Proof.
  assert (forall {A B} (m : K pst A) (f : A -> K pst B) Q (R : pst -> Prop) c s, keeps (fun s => pkilled (proc_at s i)) m ->
    (forall a c' s', pkilled (proc_at s' i) = pkilled (proc_at s i) -> wlp (f a) Q R c' s') -> (forall s', R s') -> wlp (bind m f) Q R c s) as Hstep.
  { intros A B m f Q R c0 s0 Hm Hf HR. apply wlp_bind. apply (wlp_keeps (fun s => pkilled (proc_at s i))); auto. }
  unfold allocproc_found. apply Hstep; [unfold allocpid; keeps; by apply keeps_modify| |done]. intros n c1 s1 E1.
  do 2 (apply Hstep; [by apply keeps_mod| |done]; intros [] ? ? ?). apply Hstep; [keeps| |done]. intros tf c4 s4 E4.
  apply Hstep; [by apply keeps_mod| |done]. intros [] c5 s5 E5. destruct (tf =? 0).
  { do 2 (apply wlp_bind; apply (wlp_keeps (fun _ => tt)); [by intros ??; case_match| |done]; intros [] ? _ ?). by cbn. }
  apply Hstep; [unfold proc_pagetable; keeps| |done]. intros pt c6 s6 E6. apply Hstep; [by apply keeps_mod| |done]. intros [] c7 s7 E7.
  destruct (pt =? 0).
  { do 2 (apply wlp_bind; apply (wlp_keeps (fun _ => tt)); [by intros ??; case_match| |done]; intros [] ? _ ?). by cbn. }
  apply Hstep; [keeps| |done]. intros ks c8 s8 E8. apply Hstep; [by apply keeps_mod| |done]. intros [] c9 s9 E9.
  cbn. intros p [= <-]. split; [done|]. congruence.
Qed.

Lemma allocproc_killed c s i x : length (procs s) = nproc -> first_unused s = Some (i, x) ->
  wlp (allocproc forkret) (fun r s' => forall k, r = Some k -> k = i /\ pkilled (proc_at s' i) = pkilled (proc_at s i)) (fun _ => True) c s.
Proof.
  intros Hn Hf. unfold allocproc. apply wlp_bind.
  apply (wlp_mono _ (fun r s' => r = Some i /\ tables s' = tables s) _ (fun _ => True)); [| |done].
  - apply (wlp_loop (fun j s' => tables s' = tables s /\ (j <= nproc)%nat /\ forall k, (k < j)%nat -> state (proc_at s k) <> UNUSED)).
    2: { split_and!; [done|lia|lia]. }
    intros j c1 s1 (E1 & Hj & Hk). destruct (Nat.ltb_spec j nproc) as [Hlt|].
    + apply wlp_bind. apply wlp_same; [awake|keeps|]. intros [] s2 E2 c2. apply wlp_get_proc.
      rewrite (tables_at s2 s j) by congruence. case_decide as Hu.
      * cbn. split; [|congruence]. unfold first_unused in Hf. rewrite (list_find_first _ (procs s) j) in Hf by (done || lia). by injection Hf as <- _.
      * apply wlp_bind. apply wlp_same; [awake|keeps|]. intros [] s3 E3 c3. cbn. split_and!; [congruence|lia|]. by apply below_S.
    + cbn. unfold first_unused in Hf. rewrite list_find_none in Hf; [done|]. intros k Hk'. apply Hk. lia.
  - intros r s1 [-> E1] c1. eapply wlp_mono; [apply allocproc_found_killed| |done]. intros r s2 H k Hr. destruct (H k Hr) as [-> ->].
    by rewrite (tables_at _ _ _ E1).
Qed.

(** C40: [kill(0)] succeeds whenever a process entry is free, because free
    entries have pid 0: it marks the first free entry as killed, which is the
    one the next [fork] allocates, and [allocproc] does not clear the mark, so
    that the next child is born killed. *)
Theorem kill_zero_kills_next_child c s i x : length (procs s) = nproc -> no_proc_lock c ->
  (forall j, (j < nproc)%nat -> pid (proc_at s j) = 0 <-> state (proc_at s j) = UNUSED) -> first_unused s = Some (i, x) ->
  exists s1, kkill 0 c s = Ok 0 c s1 /\ forall c',
    wlp (allocproc forkret) (fun r s' => forall k, r = Some k -> k = i /\ pkilled (proc_at s' k) = 1) (fun _ => True) c' s1.
Proof.
  intros Hn Hc Hp Hf. pose proof (kkill_spec 0 c s Hn Hc) as H. apply wp_inv in H as (r & c' & s1 & Hrun & -> & H).
  pose proof Hf as (Hi & Hu & Hlt)%list_find_Some. assert (i < nproc)%nat as Hin by (rewrite <- Hn; by eapply lookup_lt_Some).
  rewrite proc_lookup in Hi by lia. injection Hi as <-.
  rewrite (list_find_first (fun p => pid p = 0) (procs s) i) in H; [|lia|by apply Hp|].
  2: { intros j Hj E. apply (Hlt j (proc_at s j)); [apply proc_lookup; lia|done|]. apply Hp; [lia|done]. }
  destruct H as [-> ->]. exists (upd_proc i kill_mark s). split; [done|]. intros c'.
  assert (forall j, proc_at (upd_proc i kill_mark s) j = if decide (j = i) then set_killed 1 (proc_at s i) else proc_at s j) as Hat.
  { intros j. rewrite proc_at_upd by lia. unfold kill_mark. case_decide; [|done]. rewrite decide_False; [done|]. congruence. }
  eapply wlp_mono; [apply (allocproc_killed c' _ i (set_killed 1 (proc_at s i)))| |done].
  - cbn. by rewrite length_insert.
  - assert (set_killed 1 (proc_at s i) = procs (upd_proc i kill_mark s) !!! i) as -> by (fold (proc_at (upd_proc i kill_mark s) i); by rewrite Hat, decide_True).
    apply list_find_first; [cbn; rewrite length_insert; lia|fold (proc_at (upd_proc i kill_mark s) i); by rewrite Hat, decide_True|].
    intros j Hj. fold (proc_at (upd_proc i kill_mark s) j). rewrite Hat, decide_False by lia. intros E. exact (Hlt j (proc_at s j) (proc_lookup s j ltac:(lia)) Hj E).
  - intros r s2 H k Hr. destruct (H k Hr) as [-> ->]. by rewrite Hat, decide_True.
Qed.
End kill_zero.

(** ** Witnesses: init runs, its child 1 runs, and 1 has a child 2 that waits for nothing *)

#[program] Definition ex_layout : Layout := {| etext := 0x80007000; trampoline := 0x80006000; kend := 0x87ff8000 |}.
Solve All Obligations with (vm_compute; intuition congruence).
Definition ex_ram : mstate := match @kinit ex_layout ctx0 (Mst ∅ 0) with Ok _ _ s => s | _ => Mst ∅ 0 end.

Definition ex_proc (i : Z) (st : procstate) (pp : option nat) (ch : option chan) : proc := set_chan ch (set_parent pp (set_state st (set_pid i proc0))).
Definition ex_family : list proc :=
  [ex_proc 1 SLEEPING None (proc_chan (Some 0%nat)); ex_proc 2 RUNNING (Some 0%nat) None; ex_proc 3 SLEEPING (Some 1%nat) (Some ("ticks", 0))].
Definition ex_procs : pst := Pst ex_ram (ex_family ++ replicate 61 proc0) 4 (Some 0%nat) (replicate 8 None) 0.

Lemma ex_procs_len : length (procs ex_procs) = nproc.
Proof. vm_compute. reflexivity. Qed.
Lemma ex_procs_at j : (3 <= j)%nat -> proc_at ex_procs j = proc0.
Proof.
  intros Hj. unfold proc_at, ex_procs. cbn [procs]. rewrite list_lookup_total_alt, lookup_app_r by (cbn; lia). cbn [length ex_family].
  destruct (replicate 61 proc0 !! _) as [q|] eqn:E; [|done]. by apply lookup_replicate in E as [-> _].
Qed.
Lemma no_lock_ctx0 : no_proc_lock ctx0.
Proof. intros i. apply not_elem_of_nil. Qed.

Lemma kill_zero_kills_next_child_witness :
  exists s1 c' s2, kkill 0 ctx0 ex_procs = Ok 0 ctx0 s1 /\ @allocproc ex_layout 0 ctx0 s1 = Ok (Some 3%nat) c' s2 /\ pkilled (proc_at s2 3) = 1.
Proof.
  destruct (kill_zero_kills_next_child (L := ex_layout) 0 ctx0 ex_procs 3 proc0 ex_procs_len no_lock_ctx0) as (s1 & Hk & H).
  - intros j Hj. destruct j as [|[|[|j]]]; [by vm_compute..|]. by rewrite ex_procs_at by lia.
  - vm_compute. reflexivity.
  - exists s1. specialize (H ctx0). unfold wlp in H.
    assert (match kkill 0 ctx0 ex_procs with Ok _ _ s => match @allocproc ex_layout 0 ctx0 s with Ok r _ _ => r | _ => None end | _ => None end = Some 3%nat) as E
      by (vm_compute; reflexivity).
    rewrite Hk in E. destruct (@allocproc ex_layout 0 ctx0 s1) as [r c' s2|?|???|]; try done. subst r.
    exists c', s2. split; [exact Hk|]. split; [reflexivity|]. exact (proj2 (H 3%nat eq_refl)).
Defined.


