(* ===== verification/Syscall.v ===== *)
(** * kernel/syscall.c (arguments) and kernel/sysproc.c

    The arguments of a system call are in the trapframe of the running
    process [cur]; strings and words are fetched from its memory through a
    kernel buffer at [kbuf].  [copyin] and [copyinstr] get any user address. *)
From S2P Require Import Prelude Kmonad Riscv Mem KString Kalloc Vm Block Sleeplock Bio Log FsLayout Fs FsDir Pipe File Proc.

Definition tickslock : lockid := ("time", 0).
Definition ticks_chan : chan := ("ticks", 0).
Definition set_ticks (t : Z) (s : pst) : pst :=
  Pst (pmem s) (procs s) (nextpid s) (initproc s) (cproc s) t.

Definition SBRK_EAGER : Z := 1.
Definition SBRK_LAZY : Z := 2.

Section syscall.
Context {L : Layout} {D : BlockDev} (forkret : Z) (cur : nat) (kbuf : Z).

(** A field of [p->trapframe]. *)
Definition get_tf (off : Z) : K pst Z :=
  tf <- get_proc cur trapframe ;;
  pm (ld64 (tf + off)).
Definition set_tf (off v : Z) : K pst unit :=
  tf <- get_proc cur trapframe ;;
  pm (st64 (tf + off) v).

(** ** kernel/syscall.c *)

(** The word, or [None] for -1. *)
Definition fetchaddr (addr : Z) : K pst (option Z) :=
  p <- get_proc cur id ;;
  if (sz p <=? addr) || (sz p <? u64 (addr + 8)) then ret None
  else
    r <- pm (copyin (sz p) (pagetable p) (pagetable p) kbuf addr 8) ;;
    if negb (r =? 0) then ret None
    else v <- pm (ld64 kbuf) ;; ret (Some v).

(** The string before its NUL (its length is the value returned), or [None]
    for -1.  [copyinstr] has put a NUL among the [max] bytes. *)
Definition fetchstr (addr max : Z) : K pst (option (list Z)) :=
  p <- get_proc cur id ;;
  r <- pm (copyinstr (pagetable p) kbuf addr max) ;;
  if r <? 0 then ret None
  else
    m <- pm (gets mmem) ;;
    match strlen (Z.to_nat max + 1) m kbuf with
    | None => nofuel
    | Some n => ret (Some (rdbytes (Z.to_nat n) m kbuf))
    end.

Definition argraw (n : Z) : K pst Z :=
  match n with
  | 0 => get_tf (tf_a 0)
  | 1 => get_tf (tf_a 1)
  | 2 => get_tf (tf_a 2)
  | 3 => get_tf (tf_a 3)
  | 4 => get_tf (tf_a 4)
  | 5 => get_tf (tf_a 5)
  | _ => panic "argraw"
  end.

Definition argint (n : Z) : K pst Z := v <- argraw n ;; ret (i32 v).
Definition argaddr (n : Z) : K pst Z := argraw n.
Definition argstr (n max : Z) : K pst (option (list Z)) :=
  addr <- argaddr n ;;
  fetchstr addr max.

(** ** kernel/sysproc.c; results are [uint64] *)

Definition sys_exit : K kst Z :=
  n <- pr (argint 0) ;;
  kexit cur n.

Definition sys_getpid : K pst Z := i <- get_proc cur pid ;; ret (u64 i).

Definition sys_fork : K kst Z := r <- kfork forkret cur ;; ret (u64 r).

Definition sys_wait : K pst Z :=
  p <- argaddr 0 ;;
  r <- kwait cur kbuf p ;;
  ret (u64 r).

Definition sys_sbrk : K pst Z :=
  n <- argint 0 ;;
  t <- argint 1 ;;
  addr <- get_proc cur sz ;;
  if (t =? SBRK_EAGER) || (n <? 0) then
    r <- growproc cur n ;;
    if r <? 0 then ret (u64 (-1)) else ret addr
  else if u64 (addr + n) <? addr then ret (u64 (-1))
  else
    mod_proc cur (fun p => set_sz (u64 (sz p + n)) p) ;;
    ret addr.

(** From the loop head, with [tickslock] held. *)
Definition sys_pause_from (n ticks0 : Z) : K pst Z :=
  t <- gets ticks ;;
  if u32 (t - ticks0) <? n then
    k <- killed cur ;;
    if negb (k =? 0) then release tickslock ;; ret (u64 (-1))
    else sleep_on cur ticks_chan tickslock
  else release tickslock ;; ret 0.
Definition sys_pause : K pst Z :=
  n <- argint 0 ;;
  let n := if n <? 0 then 0 else n in
  acquire tickslock ;;
  ticks0 <- gets ticks ;;
  sys_pause_from n ticks0.

Definition sys_kill : K pst Z :=
  i <- argint 0 ;;
  r <- kkill i ;;
  ret (u64 r).

Definition sys_uptime : K pst Z :=
  acquire tickslock ;;
  t <- gets ticks ;;
  release tickslock ;;
  ret t.
End syscall.
