(* ===== verification/Exec.v ===== *)
(** * kernel/exec.c

    [kexec] replaces the memory image of the running process by that of an
    ELF file.  [argv] is the list of the kernel addresses of the argument
    strings; a local struct that [readi] fills is a kernel object of its own. *)
From S2P Require Import Prelude Kmonad Riscv Mem KString Kalloc Vm Block Sleeplock Bio Log FsLayout Fs FsDir Pipe File Proc Syscall.

(** ** kernel/elf.h *)

Definition ELF_MAGIC : Z := 0x464C457F.
Definition ELF_PROG_LOAD : Z := 1.

Record elfhdr := Elfhdr { e_magic : Z; e_entry : Z; e_phoff : Z; e_phnum : Z }.
Definition sizeof_elfhdr : Z := 64.
Definition get_elfhdr (b : list Z) : elfhdr :=
  Elfhdr (le_dec (getb 4 0 b)) (le_dec (getb 8 24 b)) (le_dec (getb 8 32 b)) (le_dec (getb 2 56 b)).

Record proghdr := Proghdr {
  ph_type : Z; ph_flags : Z; ph_off : Z; ph_vaddr : Z; ph_filesz : Z; ph_memsz : Z }.
Definition sizeof_proghdr : Z := 56.
Definition get_proghdr (b : list Z) : proghdr :=
  Proghdr (le_dec (getb 4 0 b)) (le_dec (getb 4 4 b)) (le_dec (getb 8 8 b)) (le_dec (getb 8 16 b))
    (le_dec (getb 8 32 b)) (le_dec (getb 8 40 b)).

(** map ELF permissions to PTE permission bits. *)
Definition flags2perm (flags : Z) : Z :=
  let perm := if negb (Z.land flags 1 =? 0) then PTE_X else 0 in
  if negb (Z.land flags 2 =? 0) then Z.lor perm PTE_W else perm.

(** [for(last=s=path; *s; s++) if( *s == '/') last = s+1] *)
Fixpoint last_elem (last path : list Z) : list Z :=
  match path with
  | [] => last
  | c :: s => last_elem (if c =? SLASH then s else last) s
  end.

Section exec.
Context {L : Layout} {D : BlockDev} (cur : nat) (kbuf : Z).

(** [readi(ip, 0, dst, ...)] to a kernel address, and to a local object. *)
Definition phys_mover : Mover pst := {|
  either_copyout dst bs := pm (modify (fun s => set_mem (wrbytes (mmem s) dst bs) s)) ;; ret 0;
  either_copyin old src := bs <- gets (fun s => rdbytes (length old) (mmem (pmem s)) src) ;; ret (bs, 0);
|}.
Definition readi_phys (me : Z) (ip : nat) (dst off n : Z) : K (kst (M := pst)) Z :=
  fsmem (@readi D pst phys_mover me ip dst off n).
Definition readi_local (me : Z) (ip : nat) (off n : Z) : K (kst (M := pst)) (Z * list Z) :=
  fsys (with_local (replicate (Z.to_nat n) 0) (readi me ip 0 off n)).

Definition loadseg (me pagetable va : Z) (ip : nat) (offset size : Z) : K (kst (M := pst)) Z :=
  loop (Z.to_nat size + 1) (fun i =>
    if i <? size then
      pa <- pr (pm (walkaddr pagetable (u64 (va + i)))) ;;
      if pa =? 0 then panic "loadseg: address should exist"
      else
        let n := if size - i <? PGSIZE then size - i else PGSIZE in
        r <- readi_phys me ip pa (u32 (offset + i)) n ;;
        if negb (u32 r =? n) then ret (inr (-1))
        else ret (inl (u32 (i + PGSIZE)))
    else ret (inr 0)) 0.

(** The loop over the program headers: whether all were loaded, and [sz]. *)
Definition load_program (me pagetable : Z) (ip : nat) (elf : elfhdr) : K (kst (M := pst)) (bool * Z) :=
  loop (Z.to_nat (e_phnum elf) + 1) (fun '(i, off, sz) =>
    if i <? e_phnum elf then
      r <- readi_local me ip (u32 off) sizeof_proghdr ;;
      let ph := get_proghdr (snd r) in
      if negb (fst r =? sizeof_proghdr) then ret (inr (false, sz))
      else if negb (ph_type ph =? ELF_PROG_LOAD) then ret (inl (i + 1, i32 (off + sizeof_proghdr), sz))
      else if ph_memsz ph <? ph_filesz ph then ret (inr (false, sz))
      else if u64 (ph_vaddr ph + ph_memsz ph) <? ph_vaddr ph then ret (inr (false, sz))
      else if negb (ph_vaddr ph mod PGSIZE =? 0) then ret (inr (false, sz))
      else
        sz1 <- pr (pm (uvmalloc pagetable sz (u64 (ph_vaddr ph + ph_memsz ph)) (flags2perm (ph_flags ph)))) ;;
        if sz1 =? 0 then ret (inr (false, sz))
        else
          r <- loadseg me pagetable (ph_vaddr ph) ip (u32 (ph_off ph)) (u32 (ph_filesz ph)) ;;
          if r <? 0 then ret (inr (false, sz1))
          else ret (inl (i + 1, i32 (off + sizeof_proghdr), sz1))
    else ret (inr (true, sz))) (0, i32 (e_phoff elf), 0).

(** [copyout(pagetable, dst, src, len)] for the page table under construction. *)
Definition copyout_new (pt dst src len : Z) : K pst Z :=
  p <- get_proc cur id ;;
  pm (copyout (sz p) (pagetable p) pt dst src len).

(** Pushes the argument strings: [sp] and [ustack], or [None] for [bad]. *)
Definition push_strings (pt stackbase sp : Z) (argv : list Z) : K pst (option (Z * list Z)) :=
  loop (length argv + 1) (fun '(rest, sp, ustack) =>
    match rest with
    | [] => ret (inr (Some (sp, ustack)))
    | arg :: rest =>
        if MAXARG <=? Z.of_nat (length ustack) then ret (inr None)
        else
          m <- pm (gets mmem) ;;
          match strlen (Z.to_nat PGSIZE) m arg with
          | None => nofuel
          | Some len =>
              let sp := u64 (sp - (len + 1)) in
              let sp := sp - sp mod 16 in
              if sp <? stackbase then ret (inr None)
              else
                r <- copyout_new pt sp arg (len + 1) ;;
                if r <? 0 then ret (inr None)
                else ret (inl (rest, sp, ustack ++ [sp]))
          end
    end) (argv, sp, []).

(** Pushes the arguments and the array of pointers to them: [sp] and [argc],
    or [None] for [bad]. *)
Definition push_args (pt stackbase sp : Z) (argv : list Z) : K pst (option (Z * Z)) :=
  r <- push_strings pt stackbase sp argv ;;
  match r with
  | None => ret None
  | Some (sp, ustack) =>
      let argc := Z.of_nat (length ustack) in
      let sp := u64 (sp - (argc + 1) * 8) in
      let sp := sp - sp mod 16 in
      if sp <? stackbase then ret None
      else
        let bytes := concat (le_enc 8 <$> (ustack ++ [0])) in
        pm (modify (fun s => set_mem (wrbytes (mmem s) kbuf bytes) s)) ;;
        r <- copyout_new pt sp kbuf ((argc + 1) * 8) ;;
        if r <? 0 then ret None else ret (Some (sp, argc))
  end.

(** The label [bad]. *)
Definition kexec_bad (me pt sz : Z) (ip : option nat) : K (kst (M := pst)) Z :=
  when (negb (pt =? 0)) (pr (proc_freepagetable pt sz)) ;;
  match ip with
  | None => skip
  | Some ip =>
      fsys (iunlockput me ip) ;;
      fsys (lg (end_op me))
  end ;;
  ret (-1).

(** From the end of the transaction on: the stack, and the switch to the new image. *)
Definition kexec_stack (me pt sz0 entry : Z) (path : list Z) (argv : list Z) : K (kst (M := pst)) Z :=
  oldsz <- pr (get_proc cur sz) ;;
  let size := PGROUNDUP sz0 in
  sz1 <- pr (pm (uvmalloc pt size (u64 (size + (USERSTACK + 1) * PGSIZE)) PTE_W)) ;;
  if sz1 =? 0 then kexec_bad me pt size None
  else
    pr (pm (uvmclear pt (u64 (sz1 - (USERSTACK + 1) * PGSIZE)))) ;;
    r <- pr (push_args pt (sz1 - USERSTACK * PGSIZE) sz1 argv) ;;
    match r with
    | None => kexec_bad me pt sz1 None
    | Some (sp, argc) =>
        pr (set_tf cur (tf_a 1) sp) ;;
        pr (mod_proc cur (fun p => set_name (safestrcpy_l 16 (pname p) (last_elem path path)) p)) ;;
        old <- pr (get_proc cur pagetable) ;;
        pr (mod_proc cur (set_pagetable pt)) ;;
        pr (mod_proc cur (set_sz sz1)) ;;
        pr (set_tf cur tf_epc entry) ;;
        pr (set_tf cur tf_sp sp) ;;
        pr (proc_freepagetable old oldsz) ;;
        ret argc
    end.

Definition kexec (path : list Z) (argv : list Z) : K (kst (M := pst)) Z :=
  me <- pr (get_proc cur pid) ;;
  dir <- pr (get_proc cur cwd) ;;
  fsys (lg begin_op) ;;
  r <- fsys (namei me (default O dir) path) ;;
  match r with
  | None => fsys (lg (end_op me)) ;; ret (-1)
  | Some ip =>
      fsys (ilock me (Some ip)) ;;
      r <- readi_local me ip 0 sizeof_elfhdr ;;
      let elf := get_elfhdr (snd r) in
      if negb (fst r =? sizeof_elfhdr) then kexec_bad me 0 0 (Some ip)
      else if negb (e_magic elf =? ELF_MAGIC) then kexec_bad me 0 0 (Some ip)
      else
        pt <- pr (proc_pagetable cur) ;;
        if pt =? 0 then kexec_bad me 0 0 (Some ip)
        else
          x <- load_program me pt ip elf ;;
          if negb (fst x) then kexec_bad me pt (snd x) (Some ip)
          else
            fsys (iunlockput me ip) ;;
            fsys (lg (end_op me)) ;;
            kexec_stack me pt (snd x) (e_entry elf) path argv
  end.
End exec.
