(* ===== verification/ExecSpec.v ===== *)
(** * kernel/exec.c: a program image is replaced completely or not at all *)
From S2P Require Import Prelude Kmonad Riscv Mem KString Kalloc Vm Block Sleeplock Bio Log FsLayout Fs FsDir Pipe File Proc ProcSpec Syscall Exec.

Section exec_spec.
Context {L : Layout} {D : BlockDev} (cur : nat) (kbuf : Z).
Implicit Types (x : @kst D pst) (s : pst).

(** The state of the kernel but for memory and the file system ([tables]: ProcSpec). *)
Definition rest x := (kft x, kpipes x, tables (kmem x)).

(** ** The parts that leave the tables alone *)

Lemma keeps_fsys {A} (m : K fstate A) : keeps rest (fsys (D := D) (M := pst) m).
Proof. by apply keeps_zoom. Qed.

Lemma keeps_pr {A} (m : K pst A) : keeps tables m -> keeps rest (pr (D := D) m).
Proof. intros H. apply (keeps_zoom_in rest tables); [done|]. intros s x E. unfold rest. cbn. by rewrite E. Qed.

Hint Resolve keeps_fsys keeps_pr : keeps.

Lemma keeps_fs {A} (m : K fstate A) : keeps (fun t : fstate * pst => tables (snd t)) (fs m).
Proof. by apply keeps_zoom. Qed.

Lemma keeps_mv {A} (m : K pst A) : keeps tables m -> keeps (fun t : fstate * pst => tables (snd t)) (mv m).
Proof. intros H. by apply (keeps_zoom_in _ tables). Qed.

Lemma keeps_phys dst bs : keeps tables (either_copyout (Mover := phys_mover) dst bs).
Proof. cbn. keeps. Qed.
Hint Resolve keeps_fs keeps_mv keeps_phys : keeps.

Lemma readi_phys_keeps me ip dst off n : keeps rest (readi_phys (D := D) me ip dst off n).
Proof.
  apply (keeps_zoom_in rest (fun t => tables (snd t))); [|intros t x E; unfold rest; cbn; by rewrite E].
  unfold readi. keeps.
Qed.
Hint Resolve readi_phys_keeps : keeps.

Lemma loadseg_keeps me pt va ip off size : keeps rest (loadseg (D := D) me pt va ip off size).
Proof. unfold loadseg. keeps. Qed.
Hint Resolve loadseg_keeps : keeps.

Lemma load_program_keeps me pt ip elf : keeps rest (load_program (D := D) me pt ip elf).
Proof. unfold load_program, readi_local. keeps. Qed.

Lemma proc_pagetable_keeps p : keeps tables (proc_pagetable p).
Proof. unfold proc_pagetable. keeps. Qed.

Lemma set_tf_keeps off v : keeps tables (set_tf cur off v).
Proof. unfold set_tf. keeps. Qed.

Lemma copyout_new_keeps pt dst src len : keeps tables (copyout_new cur pt dst src len).
Proof. unfold copyout_new. keeps. Qed.
Hint Resolve load_program_keeps proc_pagetable_keeps set_tf_keeps copyout_new_keeps : keeps.

Lemma push_args_keeps pt base sp argv : keeps tables (push_args cur kbuf pt base sp argv).
Proof. unfold push_args, push_strings. keeps. Qed.

Lemma kexec_bad_keeps me pt size ip : keeps rest (kexec_bad (D := D) me pt size ip).
Proof. unfold kexec_bad. keeps. Qed.
Hint Resolve push_args_keeps kexec_bad_keeps : keeps.

(** ** The number of arguments *)

Definition counted (argv : list Z) (n : nat) : Prop := n = length argv /\ Z.of_nat n <= MAXARG.

Lemma push_strings_count pt base sp argv c s :
  wlp (push_strings cur pt base sp argv)
    (fun r s' => tables s' = tables s /\ match r with Some (_, ustack) => counted argv (length ustack) | None => True end)
    (fun s' => tables s' = tables s) c s.
Proof.
  apply (wlp_loop (fun '(todo, _, ustack) s' => tables s' = tables s /\ (length todo + length ustack = length argv)%nat /\ Z.of_nat (length ustack) <= MAXARG)).
  2: { split_and!; [done|simpl; lia|by vm_compute]. }
  intros [[todo sp'] ustack] c1 s1 (Hs & HI & Hm). destruct todo as [|arg todo]; [by cbn|].
  destruct (Z.leb_spec MAXARG (Z.of_nat (length ustack))); [done|]. apply wlp_bind. apply (wlp_keeps tables); [apply keeps_pm| |congruence].
  intros m s2 E2 c2. destruct (strlen _ _ _) as [len|]; [|done]. cbn zeta. destruct (_ <? base); [cbn; split; [congruence|done]|].
  apply wlp_bind. apply (wlp_keeps tables); [apply copyout_new_keeps| |congruence]. intros r s3 E3 c3.
  destruct (r <? 0); cbn; [split; [congruence|done]|]. rewrite length_app. simpl in *. split_and!; [congruence|lia|lia].
Qed.

Lemma push_args_count pt base sp argv c s :
  wlp (push_args cur kbuf pt base sp argv)
    (fun r s' => tables s' = tables s /\ match r with Some (_, argc) => argc = Z.of_nat (length argv) /\ argc <= MAXARG | None => True end)
    (fun s' => tables s' = tables s) c s.
Proof.
  apply wlp_bind. eapply wlp_mono; [apply push_strings_count| |done]. intros [[sp' ustack]|] s1 [E1 Hn] c1; [|done].
  cbn zeta. destruct (_ <? base); [done|]. apply wlp_bind. apply (wlp_keeps tables); [apply keeps_pm| |congruence]. intros [] s2 E2 c2.
  apply wlp_bind. apply (wlp_keeps tables); [apply copyout_new_keeps| |congruence]. intros r s3 E3 c3.
  destruct (r <? 0); cbn; (split; [congruence|]); [done|]. destruct Hn as [-> ?]. done.
Qed.

(** ** The commitment *)

(** The entry of the process has the new image, and nothing else changed. *)
Definition replaced (pt size : Z) (path : list Z) x x' : Prop :=
  pt <> 0 /\ kft x' = kft x /\ kpipes x' = kpipes x /\
  tables (kmem x') = tables (upd_proc cur (fun p => set_sz size (set_pagetable pt (set_name (safestrcpy_l 16 (pname p) (last_elem path path)) p))) (kmem x)).

Lemma kexec_bad_ok me pt size ip c x0 x : rest x = rest x0 ->
  wlp (kexec_bad (D := D) me pt size ip) (fun r x' => r = -1 /\ rest x' = rest x0) (fun x' => rest x' = rest x0) c x.
Proof.
  intros Hx. unfold kexec_bad. apply wlp_bind. apply (wlp_keeps rest); [keeps| |congruence].
  intros [] x1 E1 c1. apply wlp_bind. apply (wlp_keeps rest); [keeps| |congruence].
  intros [] x2 E2 c2. cbn. split; congruence.
Qed.

(** What [kexec] may return, and the state it leaves. *)
Definition exec_result (path argv : list Z) x0 (r : Z) x' : Prop :=
  (r = -1 /\ rest x' = rest x0) \/
  (r = Z.of_nat (length argv) /\ r <= MAXARG /\ exists pt size, replaced pt size path x0 x').

Lemma wlp_rest {A B} (m : K (@kst D pst) A) (g : A -> K kst B) Q c x0 x : keeps rest m -> rest x = rest x0 ->
  (forall a c' x', rest x' = rest x0 -> wlp (g a) Q (fun x' => rest x' = rest x0) c' x') ->
  wlp (bind m g) Q (fun x' => rest x' = rest x0) c x.
Proof.
  intros Hm Hx Hg. apply wlp_bind. apply (wlp_keeps rest); [done| |congruence]. intros a x' E c'. apply Hg. congruence.
Qed.

Lemma kexec_bad_result me pt size ip path argv c x0 x : rest x = rest x0 ->
  wlp (kexec_bad (D := D) me pt size ip) (exec_result path argv x0) (fun x' => rest x' = rest x0) c x.
Proof. intros Hx. eapply wlp_mono; [by apply (kexec_bad_ok me pt size ip)| |done]. intros r x' H. by left. Qed.

Lemma rest_inv x x' : rest x = rest x' -> kft x = kft x' /\ kpipes x = kpipes x' /\ tables (kmem x) = tables (kmem x').
Proof.
  intros E. split; [exact (f_equal (fun t => fst (fst t)) E)|]. split; [exact (f_equal (fun t => snd (fst t)) E)|exact (f_equal snd E)].
Qed.

Lemma wlp_same_rest {A} (m : K (@kst D pst) A) Q (R : kst -> Prop) c x : awake m -> keeps rest m -> (forall a x', rest x' = rest x -> Q a x') -> wlp m Q R c x.
Proof. intros Ha Hk HQ. apply (wlp_awake _ _ (fun _ => True)); [done|]. by apply (wlp_keeps rest). Qed.

(** The assignments that make the new image the process's own. *)
Lemma replace_run {A} f pt size (g : Z -> K (@kst D pst) A) Q R c x :
  (forall old c', wlp (g old) Q R c' (Kst (kfs x) (kft x) (kpipes x) (upd_proc cur (fun p => set_sz size (set_pagetable pt (f p))) (kmem x)))) ->
  wlp (pr (mod_proc cur f) ;; old <- pr (get_proc cur pagetable) ;; pr (mod_proc cur (set_pagetable pt)) ;; pr (mod_proc cur (set_sz size)) ;; g old) Q R c x.
Proof.
  intros H. rewrite <- (upd_proc_twice cur (set_sz size)) in H. rewrite <- (upd_proc_twice cur (set_pagetable pt) f) in H. apply H.
Qed.

Lemma kexec_stack_ok me pt sz0 entry path argv c x0 x : pt <> 0 -> rest x = rest x0 ->
  wlp (kexec_stack cur kbuf me pt sz0 entry path argv) (exec_result path argv x0) (fun x' => rest x' = rest x0) c x.
Proof.
  intros Hpt Hx. unfold kexec_stack. apply wlp_rest; [auto with keeps|done|]. intros oldsz c1 x1 E1. cbn zeta.
  apply wlp_rest; [auto with keeps|done|]. intros sz1 c2 x2 E2. destruct (sz1 =? 0); [by apply kexec_bad_result|].
  apply wlp_rest; [auto with keeps|done|]. intros [] c3 x3 E3. apply wlp_bind.
  assert (forall c3, wlp (pr (D := D) (push_args cur kbuf pt (sz1 - USERSTACK * PGSIZE) sz1 argv)) (fun r x' => rest x' = rest x0 /\
    match r with Some (_, argc) => argc = Z.of_nat (length argv) /\ argc <= MAXARG | None => True end) (fun x' => rest x' = rest x0) c3 x3) as Hpush.
  { intros c'. pose proof (push_args_count pt (sz1 - USERSTACK * PGSIZE) sz1 argv c' (kmem x3)) as H. unfold wlp, pr, umem, zoom in *.
    destruct (push_args _ _ _ _ _ _ _ _) as [r ? s|?|? ? s|]; try done.
    - destruct H as [E H]. split; [|done]. rewrite <- E3. unfold rest. cbn. by rewrite E.
    - rewrite <- E3. unfold rest. cbn. by rewrite H. }
  eapply wlp_mono; [apply Hpush| |done]. intros [[sp argc]|] x4 [E4 H4] c4; [|by apply kexec_bad_result].
  apply wlp_rest; [auto with keeps|done|]. intros [] c5 x5 E5. apply replace_run. intros old c6. set (x6 := Kst _ _ _ _).
  assert (forall x', rest x' = rest x6 -> exists pt size, replaced pt size path x0 x') as H6.
  { intros x' E6. exists pt, sz1. apply rest_inv in E6 as (Hft & Hpi & Ht). apply rest_inv in E5 as (Hft5 & Hpi5 & Ht5).
    split_and!; [done|by rewrite Hft|by rewrite Hpi|]. rewrite Ht. by apply upd_tables. }
  do 2 (apply wlp_bind; apply wlp_same_rest; [unfold set_tf, get_proc, st64; awake|auto with keeps|]; intros ? ? ? ?).
  apply wlp_bind; apply wlp_same_rest; [apply awake_zoom, freepagetable_awake|auto with keeps|]; intros ? ? ? ?.
  cbn. right. destruct H4 as [-> ?]. split_and!; [done..|]. apply H6. congruence.
Qed.

End exec_spec.
