(* ===== verification/Sysfile.v ===== *)
(** * kernel/sysfile.c, and the table of kernel/syscall.c

    The system calls on files, for the running process [cur], and the
    dispatch of a system call by its number. *)
From S2P Require Import Prelude Kmonad Riscv Mem KString Kalloc Vm Block Sleeplock Bio Log FsLayout Fs FsDir Pipe File Proc Syscall Exec.

(** [omode & flag] *)
Definition flag (omode f : Z) : bool := negb (Z.land omode f =? 0).
Definition char_of (b : bool) : Z := if b then 1 else 0.

Definition DOT : list Z := [46].
Definition DOTDOT : list Z := [46; 46].

Section sysfile.
Context {L : Layout} {D : BlockDev} (forkret : Z) (cur : nat) (kbuf : Z).
(** The device switch, and the padding of [struct stat] on the kernel stack. *)
Context (devsw : Z -> devfn (M := pst) * devfn (M := pst)) (junk : list Z).
#[local] Existing Instance user_pages.
#[local] Instance um : Mover pst := user_mover cur kbuf.

(** [myproc()->pid], and [myproc()->cwd] for [namex]. *)
Definition mypid : K (kst (M := pst)) Z := pr (get_proc cur pid).
Definition mycwd : K (kst (M := pst)) nat := pr (get_proc cur (fun p => default O (cwd p))).

(** The descriptor and its file, or [None] for -1. *)
Definition argfd (n : Z) : K pst (option (Z * nat)) :=
  fd <- argint cur n ;;
  if (fd <? 0) || (NOFILE <=? fd) then ret None
  else
    f <- get_proc cur (fun p => ofile p !!! Z.to_nat fd) ;;
    match f with
    | None => ret None
    | Some f => ret (Some (fd, f))
    end.

Definition fdalloc (f : nat) : K pst Z :=
  loop (Z.to_nat NOFILE + 1) (fun fd =>
    if (fd <? Z.to_nat NOFILE)%nat then
      x <- get_proc cur (fun p => ofile p !!! fd) ;;
      match x with
      | None =>
          mod_proc cur (fun p => set_ofile (<[fd := Some f]> (ofile p)) p) ;;
          ret (inr (Z.of_nat fd))
      | Some _ => ret (inl (fd + 1)%nat)
      end
    else ret (inr (-1))) O.

(** [p->ofile[fd] = 0] *)
Definition clear_fd (fd : Z) : K pst unit :=
  mod_proc cur (fun p => set_ofile (<[Z.to_nat fd := None]> (ofile p)) p).

Definition sys_dup : K (kst (M := pst)) Z :=
  r <- pr (argfd 0) ;;
  match r with
  | None => ret (u64 (-1))
  | Some (_, f) =>
      fd <- pr (fdalloc f) ;;
      if fd <? 0 then ret (u64 (-1))
      else filedup f ;; ret fd
  end.

Definition sys_read : K (kst (M := pst)) Z :=
  p <- pr (argaddr cur 1) ;;
  n <- pr (argint cur 2) ;;
  r <- pr (argfd 0) ;;
  match r with
  | None => ret (u64 (-1))
  | Some (_, f) =>
      me <- mypid ;;
      r <- fileread me (killed cur) devsw f p n ;;
      ret (u64 r)
  end.

Definition sys_write : K (kst (M := pst)) Z :=
  p <- pr (argaddr cur 1) ;;
  n <- pr (argint cur 2) ;;
  r <- pr (argfd 0) ;;
  match r with
  | None => ret (u64 (-1))
  | Some (_, f) =>
      me <- mypid ;;
      r <- filewrite me (killed cur) devsw f p n ;;
      ret (u64 r)
  end.

Definition sys_close : K (kst (M := pst)) Z :=
  r <- pr (argfd 0) ;;
  match r with
  | None => ret (u64 (-1))
  | Some (fd, f) =>
      me <- mypid ;;
      pr (clear_fd fd) ;;
      fileclose me f ;;
      ret 0
  end.

Definition sys_fstat : K (kst (M := pst)) Z :=
  st <- pr (argaddr cur 1) ;;
  r <- pr (argfd 0) ;;
  match r with
  | None => ret (u64 (-1))
  | Some (_, f) =>
      me <- mypid ;;
      r <- filestat me junk f st ;;
      ret (u64 r)
  end.

(** ** Links and directories *)

Definition end_fail (me : Z) : K (kst (M := pst)) Z := fsys (lg (end_op me)) ;; ret (u64 (-1)).

(** [ip->nlink += d; iupdate(ip)] *)
Definition add_nlink (me : Z) (ip : nat) (d : Z) : K fstate unit :=
  mod_inode ip (fun x => set_inlink (i16 (inlink x + d)) x) ;;
  iupdate me ip.

(** The label [bad] of [sys_link]. *)
Definition link_bad (me : Z) (ip : nat) : K (kst (M := pst)) Z :=
  fsys (ilock me (Some ip)) ;;
  fsys (add_nlink me ip (-1)) ;;
  fsys (iunlockput me ip) ;;
  end_fail me.

Definition sys_link : K (kst (M := pst)) Z :=
  old <- pr (argstr cur kbuf 0 MAXPATH) ;;
  new <- match old with Some _ => pr (argstr cur kbuf 1 MAXPATH) | None => ret None end ;;
  match old, new with
  | Some old, Some new =>
      me <- mypid ;;
      dir <- mycwd ;;
      fsys (lg begin_op) ;;
      r <- fsys (namei me dir old) ;;
      match r with
      | None => end_fail me
      | Some ip =>
          fsys (ilock me (Some ip)) ;;
          t <- fsys (get_inode ip itype) ;;
          if t =? T_DIR then
            fsys (iunlockput me ip) ;;
            end_fail me
          else
            fsys (add_nlink me ip 1) ;;
            fsys (iunlock me (Some ip)) ;;
            r <- fsys (nameiparent me dir new name0) ;;
            match r with
            | (None, _) => link_bad me ip
            | (Some dp, name) =>
                fsys (ilock me (Some dp)) ;;
                ddev <- fsys (get_inode dp idev) ;;
                dev <- fsys (get_inode ip idev) ;;
                r <- (if negb (ddev =? dev) then ret (-1)
                      else n <- fsys (get_inode ip inum) ;; fsys (dirlink me dp name n)) ;;
                if r <? 0 then
                  fsys (iunlockput me dp) ;;
                  link_bad me ip
                else
                  fsys (iunlockput me dp) ;;
                  fsys (iput me ip) ;;
                  fsys (lg (end_op me)) ;;
                  ret 0
            end
      end
  | _, _ => ret (u64 (-1))
  end.

Definition isdirempty (me : Z) (dp : nat) : K fstate bool :=
  size <- get_inode dp isize ;;
  loop (Z.to_nat (size / sizeof_dirent) + 2) (fun '(off, de) =>
    if u32 off <? size then
      r <- read_dirent me dp (u32 off) de ;;
      let de := snd r in
      if negb (fst r =? sizeof_dirent) then panic "isdirempty: readi"
      else if negb (de_inum (get_dirent de) =? 0) then ret (inr false)
      else ret (inl (off + sizeof_dirent, de))
    else ret (inr true)) (2 * sizeof_dirent, de0).

(** The label [bad] of [sys_unlink]. *)
Definition unlink_bad (me : Z) (dp : nat) : K (kst (M := pst)) Z :=
  fsys (iunlockput me dp) ;;
  end_fail me.

(** [sys_unlink] once the entry at [off] is known to go. *)
Definition unlink_entry (me : Z) (dp ip : nat) (off : Z) : K fstate unit :=
  r <- with_local (replicate (Z.to_nat sizeof_dirent) 0) (writei me dp 0 off sizeof_dirent) ;;
  if negb (fst r =? sizeof_dirent) then panic "unlink: writei"
  else
    t <- get_inode ip itype ;;
    when (t =? T_DIR) (add_nlink me dp (-1)) ;;
    iunlockput me dp ;;
    add_nlink me ip (-1) ;;
    iunlockput me ip.

Definition sys_unlink : K (kst (M := pst)) Z :=
  path <- pr (argstr cur kbuf 0 MAXPATH) ;;
  match path with
  | None => ret (u64 (-1))
  | Some path =>
      me <- mypid ;;
      dir <- mycwd ;;
      fsys (lg begin_op) ;;
      r <- fsys (nameiparent me dir path name0) ;;
      match r with
      | (None, _) => end_fail me
      | (Some dp, name) =>
          fsys (ilock me (Some dp)) ;;
          (* Cannot unlink "." or "..". *)
          if (namecmp name DOT =? 0) || (namecmp name DOTDOT =? 0) then unlink_bad me dp
          else
            r <- fsys (dirlookup me dp name) ;;
            match r with
            | None => unlink_bad me dp
            | Some (ip, off) =>
                fsys (ilock me (Some ip)) ;;
                n <- fsys (get_inode ip inlink) ;;
                if n <? 1 then panic "unlink: nlink < 1"
                else
                  t <- fsys (get_inode ip itype) ;;
                  full <- (if t =? T_DIR then b <- fsys (isdirempty me ip) ;; ret (negb b) else ret false) ;;
                  if full : bool then
                    fsys (iunlockput me ip) ;;
                    unlink_bad me dp
                  else
                    fsys (unlink_entry me dp ip off) ;;
                    fsys (lg (end_op me)) ;;
                    ret 0
            end
      end
  end.

(** The label [fail] of [create]. *)
Definition create_fail (me : Z) (dp ip : nat) : K fstate (option nat) :=
  mod_inode ip (set_inlink 0) ;;
  iupdate me ip ;;
  iunlockput me ip ;;
  iunlockput me dp ;;
  ret None.

(** [create] for a name that [dp] does not have: the new inode, locked. *)
Definition create_new (me : Z) (dp : nat) (name : list Z) (type major minor : Z) : K fstate (option nat) :=
  dev <- get_inode dp idev ;;
  r <- ialloc me dev type ;;
  match r with
  | None => iunlockput me dp ;; ret None
  | Some ip =>
      ilock me (Some ip) ;;
      mod_inode ip (set_idevno major minor) ;;
      mod_inode ip (set_inlink 1) ;;
      iupdate me ip ;;
      num <- get_inode ip inum ;;
      r <- (if type =? T_DIR then   (* Create . and .. entries. *)
              r <- dirlink me ip DOT num ;;
              if r <? 0 then ret r
              else dnum <- get_inode dp inum ;; dirlink me ip DOTDOT dnum
            else ret 0) ;;
      if r <? 0 then create_fail me dp ip
      else
        r <- dirlink me dp name num ;;
        if r <? 0 then create_fail me dp ip
        else
          when (type =? T_DIR) (add_nlink me dp 1) ;;
          iunlockput me dp ;;
          ret (Some ip)
  end.

Definition create (me : Z) (dir : nat) (path : list Z) (type major minor : Z) : K fstate (option nat) :=
  r <- nameiparent me dir path name0 ;;
  match r with
  | (None, _) => ret None
  | (Some dp, name) =>
      ilock me (Some dp) ;;
      r <- dirlookup me dp name ;;
      match r with
      | Some (ip, _) =>
          iunlockput me dp ;;
          ilock me (Some ip) ;;
          t <- get_inode ip itype ;;
          if (type =? T_FILE) && ((t =? T_FILE) || (t =? T_DEVICE)) then ret (Some ip)
          else iunlockput me ip ;; ret None
      | None => create_new me dp name type major minor
      end
  end.

(** ** open and its relatives *)

(** The inode [sys_open] works on, locked. *)
Definition open_inode (me : Z) (dir : nat) (path : list Z) (omode : Z) : K fstate (option nat) :=
  if flag omode O_CREATE then create me dir path T_FILE 0 0
  else
    r <- namei me dir path ;;
    match r with
    | None => ret None
    | Some ip =>
        ilock me (Some ip) ;;
        t <- get_inode ip itype ;;
        if (t =? T_DIR) && negb (omode =? O_RDONLY) then iunlockput me ip ;; ret None
        else ret (Some ip)
    end.

(** Sets up file [f] for inode [ip]. *)
Definition open_file (f ip : nat) (omode : Z) : K (kst (M := pst)) unit :=
  t <- fsys (get_inode ip itype) ;;
  (if t =? T_DEVICE then
     mod_file f (set_type FD_DEVICE) ;;
     m <- fsys (get_inode ip imajor) ;;
     mod_file f (set_major m)
   else
     mod_file f (set_type FD_INODE) ;;
     mod_file f (set_off 0)) ;;
  mod_file f (set_ip (Some ip)) ;;
  mod_file f (set_rw (char_of (negb (flag omode O_WRONLY)))
                (char_of (flag omode O_WRONLY || flag omode O_RDWR))).

Definition sys_open : K (kst (M := pst)) Z :=
  omode <- pr (argint cur 1) ;;
  path <- pr (argstr cur kbuf 0 MAXPATH) ;;
  match path with
  | None => ret (u64 (-1))
  | Some path =>
      me <- mypid ;;
      dir <- mycwd ;;
      fsys (lg begin_op) ;;
      r <- fsys (open_inode me dir path omode) ;;
      match r with
      | None => end_fail me
      | Some ip =>
          x <- fsys (get_inode ip id) ;;
          if (itype x =? T_DEVICE) && ((imajor x <? 0) || (NDEV <=? imajor x)) then
            fsys (iunlockput me ip) ;;
            end_fail me
          else
            f <- filealloc ;;
            fd <- match f with Some f => pr (fdalloc f) | None => ret (-1) end ;;
            match f with
            | Some f =>
                if fd <? 0 then
                  fileclose me f ;;
                  fsys (iunlockput me ip) ;;
                  end_fail me
                else
                  open_file f ip omode ;;
                  when (flag omode O_TRUNC && (itype x =? T_FILE)) (fsys (itrunc me ip)) ;;
                  fsys (iunlock me (Some ip)) ;;
                  fsys (lg (end_op me)) ;;
                  ret fd
            | None =>
                fsys (iunlockput me ip) ;;
                end_fail me
            end
      end
  end.

(** [sys_mkdir] and [sys_mknod] after the arguments. *)
Definition make_node (me : Z) (path : option (list Z)) (type major minor : Z) : K (kst (M := pst)) Z :=
  dir <- mycwd ;;
  r <- match path with Some path => fsys (create me dir path type major minor) | None => ret None end ;;
  match r with
  | None => end_fail me
  | Some ip =>
      fsys (iunlockput me ip) ;;
      fsys (lg (end_op me)) ;;
      ret 0
  end.

Definition sys_mkdir : K (kst (M := pst)) Z :=
  me <- mypid ;;
  fsys (lg begin_op) ;;
  path <- pr (argstr cur kbuf 0 MAXPATH) ;;
  make_node me path T_DIR 0 0.

Definition sys_mknod : K (kst (M := pst)) Z :=
  me <- mypid ;;
  fsys (lg begin_op) ;;
  major <- pr (argint cur 1) ;;
  minor <- pr (argint cur 2) ;;
  path <- pr (argstr cur kbuf 0 MAXPATH) ;;
  make_node me path T_DEVICE (i16 major) (i16 minor).

Definition sys_chdir : K (kst (M := pst)) Z :=
  me <- mypid ;;
  dir <- mycwd ;;
  fsys (lg begin_op) ;;
  path <- pr (argstr cur kbuf 0 MAXPATH) ;;
  r <- match path with Some path => fsys (namei me dir path) | None => ret None end ;;
  match r with
  | None => end_fail me
  | Some ip =>
      fsys (ilock me (Some ip)) ;;
      t <- fsys (get_inode ip itype) ;;
      if negb (t =? T_DIR) then
        fsys (iunlockput me ip) ;;
        end_fail me
      else
        fsys (iunlock me (Some ip)) ;;
        fsys (iput me dir) ;;
        fsys (lg (end_op me)) ;;
        pr (mod_proc cur (set_cwd (Some ip))) ;;
        ret 0
  end.

(** The loop of [sys_exec] that fetches the arguments: the pages that hold
    them, and whether it ended well. *)
Definition fetch_args (uargv : Z) : K pst (bool * list Z) :=
  loop (Z.to_nat MAXARG + 1) (fun argv =>
    if MAXARG <=? Z.of_nat (length argv) then ret (inr (false, argv))
    else
      u <- fetchaddr cur kbuf (u64 (uargv + 8 * Z.of_nat (length argv))) ;;
      match u with
      | None => ret (inr (false, argv))
      | Some uarg =>
          if uarg =? 0 then ret (inr (true, argv))
          else
            pa <- pm kalloc ;;
            if pa =? 0 then ret (inr (false, argv))
            else
              r <- fetchstr cur pa uarg PGSIZE ;;
              match r with
              | None => ret (inr (false, argv ++ [pa]))
              | Some _ => ret (inl (argv ++ [pa]))
              end
      end) [].

(** [for(i = 0; i < NELEM(argv) && argv[i] != 0; i++) kfree(argv[i])] *)
Fixpoint free_args (argv : list Z) : K pst unit :=
  match argv with
  | [] => skip
  | pa :: argv => pm (kfree pa) ;; free_args argv
  end.

Definition sys_exec : K (kst (M := pst)) Z :=
  uargv <- pr (argaddr cur 1) ;;
  path <- pr (argstr cur kbuf 0 MAXPATH) ;;
  match path with
  | None => ret (u64 (-1))
  | Some path =>
      r <- pr (fetch_args uargv) ;;
      if fst r then
        v <- kexec cur kbuf path (snd r) ;;
        pr (free_args (snd r)) ;;
        ret (u64 v)
      else
        pr (free_args (snd r)) ;;
        ret (u64 (-1))
  end.

(** Gives both ends of a new pipe up again. *)
Definition pipe_undo (me : Z) (rf wf : nat) : K (kst (M := pst)) Z :=
  fileclose me rf ;;
  fileclose me wf ;;
  ret (u64 (-1)).

Definition sys_pipe : K (kst (M := pst)) Z :=
  fdarray <- pr (argaddr cur 0) ;;
  me <- mypid ;;
  r <- pipealloc me ;;
  match r with
  | None => ret (u64 (-1))
  | Some (rf, wf) =>
      fd0 <- pr (fdalloc rf) ;;
      fd1 <- (if fd0 <? 0 then ret (-1) else pr (fdalloc wf)) ;;
      if (fd0 <? 0) || (fd1 <? 0) then
        pr (when (0 <=? fd0) (clear_fd fd0)) ;;
        pipe_undo me rf wf
      else
        r0 <- pr (user_copyout cur kbuf fdarray (le_enc 4 fd0)) ;;
        r1 <- (if r0 <? 0 then ret (-1)
               else pr (user_copyout cur kbuf (u64 (fdarray + 4)) (le_enc 4 fd1))) ;;
        if (r0 <? 0) || (r1 <? 0) then
          pr (clear_fd fd0) ;;
          pr (clear_fd fd1) ;;
          pipe_undo me rf wf
        else ret 0
  end.

(** ** The table of system calls (kernel/syscall.c) *)

Definition syscalls (num : Z) : option (K (kst (M := pst)) Z) :=
  match num with
  | 1 => Some (sys_fork forkret cur)
  | 2 => Some (sys_exit cur)
  | 3 => Some (pr (sys_wait cur kbuf))
  | 4 => Some sys_pipe
  | 5 => Some sys_read
  | 6 => Some (pr (sys_kill cur))
  | 7 => Some sys_exec
  | 8 => Some sys_fstat
  | 9 => Some sys_chdir
  | 10 => Some sys_dup
  | 11 => Some (pr (sys_getpid cur))
  | 12 => Some (pr (sys_sbrk cur))
  | 13 => Some (pr (sys_pause cur))
  | 14 => Some (pr sys_uptime)
  | 15 => Some sys_open
  | 16 => Some sys_write
  | 17 => Some sys_mknod
  | 18 => Some sys_unlink
  | 19 => Some sys_link
  | 20 => Some sys_mkdir
  | 21 => Some sys_close
  | _ => None
  end.

(** The message for an unknown number goes to the console. *)
Definition syscall : K (kst (M := pst)) unit :=
  a7 <- pr (get_tf cur (tf_a 7)) ;;
  let num := i32 a7 in
  match syscalls num with
  | Some f => r <- f ;; pr (set_tf cur (tf_a 0) r)
  | None => pr (set_tf cur (tf_a 0) (u64 (-1)))
  end.
End sysfile.
