(* ===== verification/Printf.v ===== *)
(** * kernel/printf.c and user/printf.c

    Both programs print to a stream of bytes: the kernel through [consputc]
    (kernel/console.c), the user library with [write] of one byte.  A result
    [None] stands for undefined behaviour: an access outside [buf], a
    negation that overflows, or a [va_arg] that does not fit the arguments.  A format is the list of its
    bytes before the NUL. *)
From S2P Require Import Prelude.

(** ** Arguments *)

(** A slot of the [va_list]: a 64-bit word, or a pointer to a string ([None]: null). *)
Inductive arg := Word (z : Z) | Str (s : option (list Z)).

Definition va_word (ap : list arg) : option (Z * list arg) :=
  match ap with Word z :: ap => Some (z, ap) | _ => None end.
Definition va_str (ap : list arg) : option (option (list Z) * list arg) :=
  match ap with Str s :: ap => Some (s, ap) | _ => None end.

Definition null_str : list Z := [40; 110; 117; 108; 108; 41].     (* (null) *)
Definition kdigits : list Z := [48; 49; 50; 51; 52; 53; 54; 55; 56; 57; 97; 98; 99; 100; 101; 102].
Definition udigits : list Z := [48; 49; 50; 51; 52; 53; 54; 55; 56; 57; 65; 66; 67; 68; 69; 70].

(** Characters of formats. *)
Definition ch_percent : Z := 37.
Definition ch_minus : Z := 45.
Definition ch_0 : Z := 48.
Definition ch_c : Z := 99.
Definition ch_d : Z := 100.
Definition ch_l : Z := 108.
Definition ch_p : Z := 112.
Definition ch_s : Z := 115.
Definition ch_u : Z := 117.
Definition ch_x : Z := 120.

(** ** Numbers *)

Definition buf_size : nat := 20.

(** [buf[i++] = c] *)
Definition buf_push (c : Z) (buf : list Z) : option (list Z) :=
  if (length buf <? buf_size)%nat then Some (buf ++ [c]) else None.

(** [do { buf[i++] = digits[x % base]; } while((x /= base) != 0)] *)
Fixpoint put_digits (fuel : nat) (digits : list Z) (base x : Z) (buf : list Z) : option (list Z) :=
  match fuel with
  | O => None
  | S n =>
      match buf_push (digits !!! Z.to_nat (x mod base)) buf with
      | None => None
      | Some buf => if x / base =? 0 then Some buf else put_digits n digits base (x / base) buf
      end
  end.

(** [-xx] of a [long long]. *)
Definition neg64 (xx : Z) : option Z := if xx =? - 2 ^ 63 then None else Some (- xx).

(** [while(--i >= 0) consputc(buf[i])]: the bytes last to first. *)
Definition kprintint (digits : list Z) (xx base : Z) (sign : bool) : option (list Z) :=
  let sign := sign && (xx <? 0) in
  x ← (if sign then u64 <$> neg64 xx else Some (u64 xx));
  buf ← put_digits 65 digits base x [];
  buf ← (if sign then buf_push ch_minus buf else Some buf);
  Some (rev buf).

Definition uprintint (digits : list Z) (xx base : Z) (sgn : bool) : option (list Z) :=
  let neg := sgn && (xx <? 0) in
  x ← (if neg then neg64 xx else Some xx);
  buf ← put_digits 65 digits base (u64 x) [];
  buf ← (if neg then buf_push ch_minus buf else Some buf);
  Some (rev buf).

(** The loop of [printptr], for the 16 digits. *)
Fixpoint ptr_digits (n : nat) (digits : list Z) (x : Z) : list Z :=
  match n with
  | O => []
  | S n => (digits !!! Z.to_nat (Z.shiftr x 60)) :: ptr_digits n digits (u64 (Z.shiftl x 4))
  end.
Definition printptr (digits : list Z) (x : Z) : list Z := ch_0 :: ch_x :: ptr_digits 16 digits x.

(** ** kernel/printf.c *)

Definition BACKSPACE : Z := 0x100.

(** The bytes [consputc] sends (kernel/console.c). *)
Definition consputc_bytes (c : Z) : list Z :=
  if c =? BACKSPACE then [8; 32; 8] else [u8 c].

(** What a [%] sequence prints, the arguments left, and the format characters
    passed beyond [c0]. *)
Definition conv := option (list Z * list arg * nat).

Definition conv_word (ap : list arg) (extra : nat) (print : Z -> option (list Z)) : conv :=
  match va_word ap with
  | None => None
  | Some (v, ap) => match print v with None => None | Some out => Some (out, ap, extra) end
  end.
Definition conv_str (ap : list arg) : conv :=
  match va_str ap with
  | None => None
  | Some (s, ap) => Some (default null_str s, ap, O)
  end.

(** How a call ends: with the bytes printed, in undefined behaviour, or out of
    the model's fuel. *)
Inductive printed := Prints (out : list Z) | Undefined | OutOfFuel.

Definition emit (out : list Z) (p : printed) : printed :=
  match p with Prints rest => Prints (out ++ rest) | _ => p end.

Section formats.
Context (digits : list Z).

Definition kprintf_conv (c0 c1 c2 : Z) (ap : list arg) : conv :=
  if c0 =? ch_d then conv_word ap 0 (fun v => kprintint digits (i32 v) 10 true)
  else if (c0 =? ch_l) && (c1 =? ch_d) then conv_word ap 1 (fun v => kprintint digits (i64 v) 10 true)
  else if (c0 =? ch_l) && (c1 =? ch_l) && (c2 =? ch_d) then conv_word ap 2 (fun v => kprintint digits (i64 v) 10 true)
  else if c0 =? ch_u then conv_word ap 0 (fun v => kprintint digits (u32 v) 10 false)
  else if (c0 =? ch_l) && (c1 =? ch_u) then conv_word ap 1 (fun v => kprintint digits (i64 v) 10 false)
  else if (c0 =? ch_l) && (c1 =? ch_l) && (c2 =? ch_u) then conv_word ap 2 (fun v => kprintint digits (i64 v) 10 false)
  else if c0 =? ch_x then conv_word ap 0 (fun v => kprintint digits (u32 v) 16 false)
  else if (c0 =? ch_l) && (c1 =? ch_x) then conv_word ap 1 (fun v => kprintint digits (i64 v) 16 false)
  else if (c0 =? ch_l) && (c1 =? ch_l) && (c2 =? ch_x) then conv_word ap 2 (fun v => kprintint digits (i64 v) 16 false)
  else if c0 =? ch_p then conv_word ap 0 (fun v => Some (printptr digits (u64 v)))
  else if c0 =? ch_c then conv_word ap 0 (fun v => Some (consputc_bytes (u32 v)))
  else if c0 =? ch_s then conv_str ap
  else if c0 =? ch_percent then Some ([ch_percent], ap, O)
  else Some ([ch_percent; c0], ap, O).

(** The loop over the format from the position of [cx] on. *)
Fixpoint kprintf_loop (fuel : nat) (fmt : list Z) (ap : list arg) : printed :=
  match fuel with
  | O => OutOfFuel
  | S n =>
      match fmt with
      | [] => Prints []
      | cx :: fmt =>
          if negb (cx =? ch_percent) then emit (consputc_bytes cx) (kprintf_loop n fmt ap)
          else
            match fmt with
            | [] => Prints []    (* c0 == 0: break *)
            | c0 :: fmt =>
                let c1 := hd 0 fmt in
                let c2 := if negb (c1 =? 0) then hd 0 (tl fmt) else 0 in
                match kprintf_conv c0 c1 c2 ap with
                | None => Undefined
                | Some (out, ap, extra) => emit out (kprintf_loop n (drop extra fmt) ap)
                end
            end
      end
  end.

(** ** user/printf.c *)

Definition vprintf_conv (c0 c1 c2 : Z) (ap : list arg) : conv :=
  if c0 =? ch_d then conv_word ap 0 (fun v => uprintint digits (i32 v) 10 true)
  else if (c0 =? ch_l) && (c1 =? ch_d) then conv_word ap 1 (fun v => uprintint digits (i64 v) 10 true)
  else if (c0 =? ch_l) && (c1 =? ch_l) && (c2 =? ch_d) then conv_word ap 2 (fun v => uprintint digits (i64 v) 10 true)
  else if c0 =? ch_u then conv_word ap 0 (fun v => uprintint digits (u32 v) 10 false)
  else if (c0 =? ch_l) && (c1 =? ch_u) then conv_word ap 1 (fun v => uprintint digits (i64 v) 10 false)
  else if (c0 =? ch_l) && (c1 =? ch_l) && (c2 =? ch_u) then conv_word ap 2 (fun v => uprintint digits (i64 v) 10 false)
  else if c0 =? ch_x then conv_word ap 0 (fun v => uprintint digits (u32 v) 16 false)
  else if (c0 =? ch_l) && (c1 =? ch_x) then conv_word ap 1 (fun v => uprintint digits (i64 v) 16 false)
  else if (c0 =? ch_l) && (c1 =? ch_l) && (c2 =? ch_x) then conv_word ap 2 (fun v => uprintint digits (i64 v) 16 false)
  else if c0 =? ch_p then conv_word ap 0 (fun v => Some (printptr digits (u64 v)))
  else if c0 =? ch_c then conv_word ap 0 (fun v => Some [u8 v])
  else if c0 =? ch_s then conv_str ap
  else if c0 =? ch_percent then Some ([ch_percent], ap, O)
  else Some ([ch_percent; c0], ap, O).

(** The loop over the format; [state] is 0 or [%]. *)
Fixpoint vprintf_loop (fuel : nat) (fmt : list Z) (state : Z) (ap : list arg) : printed :=
  match fuel with
  | O => OutOfFuel
  | S n =>
      match fmt with
      | [] => Prints []
      | c0 :: fmt =>
          if state =? 0 then
            if c0 =? ch_percent then vprintf_loop n fmt ch_percent ap
            else emit [u8 c0] (vprintf_loop n fmt 0 ap)
          else if state =? ch_percent then
            let c1 := if negb (c0 =? 0) then hd 0 fmt else 0 in
            let c2 := if negb (c1 =? 0) then hd 0 (tl fmt) else 0 in
            match vprintf_conv c0 c1 c2 ap with
            | None => Undefined
            | Some (out, ap, extra) => emit out (vprintf_loop n (drop extra fmt) 0 ap)
            end
          else vprintf_loop n fmt state ap
      end
  end.
End formats.

Definition kprintf (fmt : list Z) (ap : list arg) : printed := kprintf_loop kdigits (length fmt + 1) fmt ap.
Definition vprintf (fmt : list Z) (ap : list arg) : printed := vprintf_loop udigits (length fmt + 1) fmt 0 ap.

(** ** Numbers are printed exactly *)

(** The value of a list of digits, least significant first. *)
Definition lsd_value (base : Z) (ds : list Z) : Z := foldr (fun d v => d + base * v) 0 ds.

Definition is_digit (base d : Z) : Prop := 0 <= d < base.

Lemma buf_push_ok c buf : (length buf < buf_size)%nat -> buf_push c buf = Some (buf ++ [c]).
Proof. intros H. unfold buf_push. by rewrite (proj2 (Nat.ltb_lt _ _) H). Qed.

(** A number below [base ^ k] has [k] digits at most, the last of them not 0. *)
Lemma put_digits_spec digits base k fuel x buf : 2 <= base -> 0 <= x < base ^ Z.of_nat k -> (1 <= k <= fuel)%nat -> (length buf + k <= buf_size)%nat ->
  exists ds, put_digits fuel digits base x buf = Some (buf ++ ((fun d => digits !!! Z.to_nat d) <$> ds)) /\
    (1 <= length ds <= k)%nat /\ lsd_value base ds = x /\ Forall (is_digit base) ds /\ (x <> 0 -> last ds <> Some 0).
Proof.
  intros Hb. revert fuel x buf. induction k as [|k IH]; intros fuel x buf Hx Hk Hl; [lia|].
  destruct fuel as [|fuel]; [lia|]. cbn [put_digits]. rewrite buf_push_ok by (unfold buf_size in *; lia).
  assert (0 <= x / base < base ^ Z.of_nat k) as Hd.
  { rewrite Nat2Z.inj_succ, Z.pow_succ_r in Hx by lia. split; [apply Z.div_pos; lia|]. apply Z.div_lt_upper_bound; lia. }
  pose proof (Z.mod_pos_bound x base) as Hm. pose proof (Z_div_mod_eq_full x base) as Ex.
  destruct (Z.eqb_spec (x / base) 0) as [E|E].
  - exists [x mod base]. cbn. split_and!; [done|lia|lia|lia| |].
    + constructor; [unfold is_digit; lia|constructor].
    + intros Hx0 [= E']. lia.
  - destruct k as [|k]; [cbn in Hd; lia|].
    destruct (IH fuel (x / base) (buf ++ [digits !!! Z.to_nat (x mod base)])) as (ds & -> & Hlen & Hv & Hds & Hlast); [done|lia|rewrite length_app; cbn; lia|].
    exists (x mod base :: ds). rewrite <- app_assoc. split_and!; [done|cbn; lia|cbn; lia| | |].
    + cbn. fold (lsd_value base ds). rewrite Hv. lia.
    + constructor; [unfold is_digit; lia|done].
    + intros _. destruct ds as [|d ds]; [cbn in Hlen; lia|]. cbn. by apply Hlast.
Qed.

(** Reading a printed number back. *)
Definition digit_value (digits : list Z) (c : Z) : Z :=
  match list_find (fun d => d = c) digits with Some (i, _) => Z.of_nat i | None => -1 end.
Definition read_digits (digits : list Z) (base : Z) (s : list Z) : Z :=
  foldl (fun v c => v * base + digit_value digits c) 0 s.
Definition read_int (digits : list Z) (base : Z) (s : list Z) : Z :=
  match s with c :: r => if c =? ch_minus then - read_digits digits base r else read_digits digits base s | [] => 0 end.

(** A table of 16 different digits, none of them a minus sign. *)
Definition digits_ok (digits : list Z) : Prop :=
  length digits = 16%nat /\ NoDup digits /\ ch_minus ∉ digits.

Lemma kdigits_ok : digits_ok kdigits.
Proof. split; [done|]. split; [by apply (bool_decide_unpack _)|]. by apply (bool_decide_unpack _). Qed.
Lemma udigits_ok : digits_ok udigits.
Proof. split; [done|]. split; [by apply (bool_decide_unpack _)|]. by apply (bool_decide_unpack _). Qed.

Lemma digit_value_at digits d : digits_ok digits -> 0 <= d < 16 -> digit_value digits (digits !!! Z.to_nat d) = d.
Proof.
  intros (Hl & Hn & _) Hd. unfold digit_value. rewrite (list_find_first _ _ (Z.to_nat d)); [lia|lia|done|].
  intros j Hj E. assert (j = Z.to_nat d); [|lia].
  apply (NoDup_lookup digits _ _ (digits !!! j)); [done|apply list_lookup_lookup_total_lt; lia|]. rewrite E. apply list_lookup_lookup_total_lt. lia.
Qed.

Lemma read_rev digits base ds : digits_ok digits -> base <= 16 -> Forall (is_digit base) ds ->
  read_digits digits base (rev ((fun d => digits !!! Z.to_nat d) <$> ds)) = lsd_value base ds.
Proof.
  intros Hok Hb Hds. unfold read_digits. induction Hds as [|d ds Hd _ IH]; [done|]. cbn. rewrite foldl_app, IH. cbn. fold (lsd_value base ds).
  unfold is_digit in Hd. rewrite digit_value_at by (done || lia). lia.
Qed.

Lemma no_minus digits base ds : digits_ok digits -> base <= 16 -> Forall (is_digit base) ds -> ds <> [] ->
  read_int digits base (rev ((fun d => digits !!! Z.to_nat d) <$> ds)) = lsd_value base ds.
Proof.
  intros Hok Hb Hds Hne. rewrite <- (read_rev digits base ds) by done. unfold read_int.
  destruct (rev _) as [|c r] eqn:E; [done|]. destruct (Z.eqb_spec c ch_minus) as [->|]; [|done]. exfalso.
  destruct Hok as (Hl & _ & Hno). apply Hno. assert (ch_minus ∈ rev ((fun d => digits !!! Z.to_nat d) <$> ds)) as Hin by (rewrite E; by left).
  rewrite list_elem_of_In, <- in_rev, <- list_elem_of_In in Hin. apply list_elem_of_fmap in Hin as (d & -> & Hd).
  apply list_elem_of_lookup_total_2. rewrite Forall_forall in Hds. apply Hds in Hd. unfold is_digit in Hd. lia.
Qed.

Lemma hd_rev (l : list Z) : hd 0 (rev l) = default 0 (last l).
Proof. destruct l as [|x l] using rev_ind; [done|]. by rewrite rev_app_distr, last_snoc. Qed.

(** The first digit is the last one computed. *)
Lemma first_digit digits base ds : digits_ok digits -> base <= 16 -> Forall (is_digit base) ds -> ds <> [] -> last ds <> Some 0 ->
  hd 0 (rev ((fun d => digits !!! Z.to_nat d) <$> ds)) <> digits !!! 0%nat.
Proof.
  intros Hok Hb Hds Hne Hlast. rewrite hd_rev, fmap_last. destruct (last ds) as [d|] eqn:E; [|by apply last_None in E].
  assert (is_digit base d) as Hd by (apply last_Some in E as [l' ->]; by apply Forall_app in Hds as [_ ?%Forall_inv]). unfold is_digit in Hd.
  cbn. intros Eq. apply Hlast. f_equal. rewrite <- (digit_value_at digits d) by (done || lia). rewrite Eq.
  by apply (digit_value_at digits 0).
Qed.

Lemma printint_same digits xx base sgn : uprintint digits xx base sgn = kprintint digits xx base sgn.
Proof. unfold uprintint, kprintint. destruct (sgn && (xx <? 0)); [|done]. by destruct (neg64 xx). Qed.

Lemma printint_spec digits xx base sign : digits_ok digits -> base = 10 \/ base = 16 -> - 2 ^ 63 < xx < 2 ^ 63 ->
  exists out, kprintint digits xx base sign = Some out /\ uprintint digits xx base sign = Some out /\ (length out <= 20)%nat /\
    read_int digits base out = (if sign then xx else u64 xx) /\ (xx <> 0 -> 0 <= xx -> hd 0 out <> digits !!! 0%nat).
Proof.
  intros Hok Hbase Hxx. rewrite printint_same. unfold kprintint, neg64. rewrite (proj2 (Z.eqb_neq xx _)) by lia. set (neg := sign && (xx <? 0)). set (x := u64 (if neg then - xx else xx)).
  replace (if neg then _ else _) with (Some x) by (by unfold x; destruct neg). cbn [mbind option_bind].
  assert (2 <= base <= 16) as Hb by (destruct Hbase; lia).
  assert (0 <= x < base ^ Z.of_nat (if neg then 19 else 20)%nat /\ (xx <> 0 -> x <> 0) /\ x = if neg then - xx else u64 xx) as (Hx & Hx0 & Ex).
  { assert (base ^ Z.of_nat (if neg then 19 else 20)%nat >= if neg then 2 ^ 63 + 1 else 2 ^ 64) as Hp by (destruct neg; destruct Hbase as [->| ->]; by vm_compute).
    unfold x, neg in *. destruct sign, (Z.ltb_spec xx 0); cbn [andb] in *; unfold u64 in *; zlia. }
  destruct (put_digits_spec digits base (if neg then 19 else 20)%nat 65 x []) as (ds & -> & Hlen & Hv & Hds & Hlast); [lia|done|destruct neg; lia|destruct neg; cbn; unfold buf_size; lia|].
  cbn [app mbind option_bind]. assert (ds <> []) as Hne by (intros ->; cbn in Hlen; lia). destruct neg eqn:Eneg.
  - rewrite buf_push_ok by (rewrite length_fmap; unfold buf_size; lia). eexists. split; [done|]. split; [done|].
    rewrite rev_app_distr. cbn [rev app length]. rewrite length_rev, length_fmap. split; [lia|].
    apply andb_prop in Eneg as [-> Hneg%Z.ltb_lt]. split; [|lia]. unfold read_int. rewrite Z.eqb_refl, read_rev by (done || lia). lia.
  - eexists. split; [done|]. split; [done|]. rewrite length_rev, length_fmap. split; [lia|]. split.
    + rewrite no_minus by (done || lia). rewrite Hv, Ex. unfold neg in Eneg. destruct sign; [|done]. cbn in Eneg. apply Z.ltb_ge in Eneg. rewrite u64_id; lia.
    + intros Hn0 Hpos. apply (first_digit digits base); [done|lia|done|done|]. by apply Hlast, Hx0.
Qed.

(** [printint] of the kernel and of the user library: for every 64-bit
    number but the least (whose negation overflows), in base 10 or 16 and
    signed or not, the 20 bytes of [buf] are enough, the loop ends, and what is printed reads back as the number (as
    its unsigned value when unsigned), with no leading zero. *)
Theorem printint_exact digits xx base sign : digits_ok digits -> base = 10 \/ base = 16 -> - 2 ^ 63 < xx < 2 ^ 63 ->
  exists out, kprintint digits xx base sign = Some out /\ uprintint digits xx base sign = Some out /\ (length out <= 20)%nat /\
    read_int digits base out = (if sign then xx else u64 xx) /\ (xx <> 0 -> 0 <= xx -> hd 0 out <> digits !!! 0%nat).
Proof. apply printint_spec. Qed.

Lemma printint_exact_witness : kprintint kdigits (1 - 2 ^ 63) 10 true = Some (map Z.of_nat [45; 57; 50; 50; 51; 51; 55; 50; 48; 51; 54; 56; 53; 52; 55; 55; 53; 56; 48; 55]%nat) /\
  exists out, kprintint kdigits (1 - 2 ^ 63) 10 true = Some out /\ (length out <= 20)%nat /\ read_int kdigits 10 out = 1 - 2 ^ 63.
Proof.
  split; [vm_compute; reflexivity|]. destruct (printint_exact kdigits (1 - 2 ^ 63) 10 true kdigits_ok (or_introl eq_refl)) as (out & H1 & _ & H2 & H3 & _); [lia|].
  exists out. split; [exact H1|]. split; [exact H2|exact H3].
Defined.

(** ** The two implementations agree *)

Section agree.
Context (digits : list Z).

(** No word that [%c] of the kernel would take for [BACKSPACE]. *)
Definition plain (a : arg) : Prop := match a with Word z => u32 z <> BACKSPACE | Str _ => True end.

Lemma consputc_byte c : u32 c <> BACKSPACE -> consputc_bytes (u32 c) = [u8 c].
Proof.
  intros H. unfold consputc_bytes. rewrite (proj2 (Z.eqb_neq _ _)) by done. f_equal. unfold u8, u32. zlia.
Qed.

Lemma conv_word_ext ap n f g : (forall z, f z = g z) -> conv_word ap n f = conv_word ap n g.
Proof. intros H. unfold conv_word. destruct (va_word ap) as [[v ?]|]; [|done]. by rewrite H. Qed.

Lemma conv_agree c0 c1 c2 ap : Forall plain ap -> kprintf_conv digits c0 c1 c2 ap = vprintf_conv digits c0 c1 c2 ap.
Proof.
  intros Hap. unfold kprintf_conv, vprintf_conv.
  repeat match goal with |- (if ?b then _ else _) = _ => destruct b end; try done;
    try (apply conv_word_ext; intros; by rewrite printint_same).
  unfold conv_word. destruct Hap as [|[z|s] ap Hz _]; [done| |done]. cbn in *. by rewrite consputc_byte.
Qed.

(** A conversion leaves a suffix of the arguments. *)
Lemma conv_plain c0 c1 c2 ap out ap' n : Forall plain ap -> kprintf_conv digits c0 c1 c2 ap = Some (out, ap', n) -> Forall plain ap'.
Proof.
  intros Hap. assert (forall m f, conv_word ap m f = Some (out, ap', n) -> Forall plain ap') as Hw.
  { intros m f. unfold conv_word. destruct Hap as [|[z|s] ap Hz Hap]; cbn; try done. destruct (f z); [|done]. by intros [= _ <- _]. }
  unfold kprintf_conv. repeat match goal with |- (if ?b then _ else _) = _ -> _ => destruct b end; try apply Hw; try by intros [= _ <- _].
  unfold conv_str. destruct Hap as [|[z|s] ap Hz Hap]; cbn; try done. by intros [= _ <- _].
Qed.

Lemma kprintf_vprintf n n' fmt ap : Forall (fun c => 0 < c < 256) fmt -> Forall plain ap -> (length fmt < n)%nat -> (length fmt < n')%nat ->
  kprintf_loop digits n fmt ap = vprintf_loop digits n' fmt 0 ap.
Proof.
  revert n' fmt ap. induction n as [|n IH]; intros n' fmt ap Hf Hap Hn Hn'; [lia|]. destruct n' as [|n']; [lia|].
  destruct fmt as [|cx fmt]; [done|]. apply Forall_cons in Hf as [Hcx Hf]. cbn [length] in *. cbn [kprintf_loop vprintf_loop]. change (0 =? 0) with true. cbv iota.
  destruct (Z.eqb_spec cx ch_percent) as [->|Hne]; cbn [negb].
  2: { rewrite (IH n') by (done || lia). rewrite <- (u32_id cx) at 1 by lia. rewrite consputc_byte; [done|]. rewrite u32_id; unfold BACKSPACE; lia. }
  destruct fmt as [|c0 fmt]; [destruct n'; [cbn in Hn'; lia|done]|]. apply Forall_cons in Hf as [Hc0 Hf]. cbn [length] in *. destruct n' as [|n']; [lia|].
  cbn [vprintf_loop]. change (ch_percent =? 0) with false. cbv iota. rewrite Z.eqb_refl. rewrite (proj2 (Z.eqb_neq c0 0)) by lia. cbn [negb].
  rewrite conv_agree by done. destruct (vprintf_conv _ _ _ _ _) as [[[out ap'] extra]|] eqn:E; [|done].
  rewrite <- conv_agree in E by done. rewrite (IH n'); [done|by apply Forall_drop|by eapply conv_plain|rewrite length_drop; lia..].
Qed.

Lemma emit_ends out p : p <> OutOfFuel -> emit out p <> OutOfFuel.
Proof. by destruct p. Qed.

Lemma kprintf_ends n fmt ap : (length fmt < n)%nat -> kprintf_loop digits n fmt ap <> OutOfFuel.
Proof.
  revert fmt ap. induction n as [|n IH]; intros fmt ap Hn; [lia|]. destruct fmt as [|cx fmt]; [done|]. cbn [length kprintf_loop] in *.
  destruct (negb _); [apply emit_ends, IH; lia|]. destruct fmt as [|c0 fmt]; [done|]. cbn [length] in Hn.
  destruct (kprintf_conv _ _ _ _ _) as [[[out ap'] extra]|]; [|done]. apply emit_ends, IH. rewrite length_drop. lia.
Qed.
End agree.


