(* ===== verification/Csr.v ===== *)
(** * Control registers (kernel/riscv.h) and the boot of a hart (kernel/start.c)

    The registers of one hart that C code reads and writes through the inline
    functions of kernel/riscv.h, as 64-bit values.  A write stores the value
    it is given; the code only sets bits and fields the hart implements.
    [sstatus] and [mstatus] are kept apart: start.c changes a field of mstatus
    (MPP) that sstatus does not show, and nothing else writes mstatus.  The
    value of [time] is the counter's at the activation. *)
From stdpp Require Import functions.
From S2P Require Import Prelude Kmonad Riscv.

Inductive csr :=
  | mhartid | mstatus | mepc | sstatus | sip | sie | mie | sepc | medeleg | mideleg | stvec | stimecmp | menvcfg
  | pmpcfg0 | pmpaddr0 | satp | scause | stval | mcounteren | time | sscratch.
#[global] Instance csr_eq_dec : EqDecision csr.
Proof. solve_decision. Defined.

(** The control registers, and tp, which holds the hart's number. *)
Record cpuregs := CpuRegs { csrv : csr -> Z; gtp : Z }.

Definition csr_read (r : csr) : K cpuregs Z := gets (fun h => csrv h r).
Definition csr_write (r : csr) (x : Z) : K cpuregs unit := modify (fun h => CpuRegs (<[r := x]> (csrv h)) (gtp h)).

(** ** kernel/riscv.h *)

Definition MSTATUS_MPP_MASK : Z := Z.shiftl 3 11.
Definition MSTATUS_MPP_M : Z := Z.shiftl 3 11.
Definition MSTATUS_MPP_S : Z := Z.shiftl 1 11.
Definition MSTATUS_MPP_U : Z := Z.shiftl 0 11.
Definition SSTATUS_SPP : Z := Z.shiftl 1 8.
Definition SSTATUS_SPIE : Z := Z.shiftl 1 5.
Definition SSTATUS_UPIE : Z := Z.shiftl 1 4.
Definition SSTATUS_SIE : Z := Z.shiftl 1 1.
Definition SSTATUS_UIE : Z := Z.shiftl 1 0.
Definition SIE_SEIE : Z := Z.shiftl 1 9.
Definition SIE_STIE : Z := Z.shiftl 1 5.
Definition MIE_STIE : Z := Z.shiftl 1 5.

Definition r_mhartid : K cpuregs Z := csr_read mhartid.
Definition r_mstatus : K cpuregs Z := csr_read mstatus.
Definition w_mstatus (x : Z) : K cpuregs unit := csr_write mstatus x.
Definition w_mepc (x : Z) : K cpuregs unit := csr_write mepc x.
Definition r_sstatus : K cpuregs Z := csr_read sstatus.
Definition w_sstatus (x : Z) : K cpuregs unit := csr_write sstatus x.
Definition r_sip : K cpuregs Z := csr_read sip.
Definition w_sip (x : Z) : K cpuregs unit := csr_write sip x.
Definition r_sie : K cpuregs Z := csr_read sie.
Definition w_sie (x : Z) : K cpuregs unit := csr_write sie x.
Definition r_mie : K cpuregs Z := csr_read mie.
Definition w_mie (x : Z) : K cpuregs unit := csr_write mie x.
Definition w_sepc (x : Z) : K cpuregs unit := csr_write sepc x.
Definition r_sepc : K cpuregs Z := csr_read sepc.
Definition r_medeleg : K cpuregs Z := csr_read medeleg.
Definition w_medeleg (x : Z) : K cpuregs unit := csr_write medeleg x.
Definition r_mideleg : K cpuregs Z := csr_read mideleg.
Definition w_mideleg (x : Z) : K cpuregs unit := csr_write mideleg x.
Definition w_stvec (x : Z) : K cpuregs unit := csr_write stvec x.
Definition r_stvec : K cpuregs Z := csr_read stvec.
Definition r_stimecmp : K cpuregs Z := csr_read stimecmp.
Definition w_stimecmp (x : Z) : K cpuregs unit := csr_write stimecmp x.
Definition r_menvcfg : K cpuregs Z := csr_read menvcfg.
Definition w_menvcfg (x : Z) : K cpuregs unit := csr_write menvcfg x.
Definition w_pmpcfg0 (x : Z) : K cpuregs unit := csr_write pmpcfg0 x.
Definition w_pmpaddr0 (x : Z) : K cpuregs unit := csr_write pmpaddr0 x.
Definition w_satp (x : Z) : K cpuregs unit := csr_write satp x.
Definition r_satp : K cpuregs Z := csr_read satp.
Definition r_scause : K cpuregs Z := csr_read scause.
Definition r_stval : K cpuregs Z := csr_read stval.
Definition w_mcounteren (x : Z) : K cpuregs unit := csr_write mcounteren x.
Definition r_mcounteren : K cpuregs Z := csr_read mcounteren.
Definition r_time : K cpuregs Z := csr_read time.

Definition r_tp : K cpuregs Z := gets gtp.
Definition w_tp (x : Z) : K cpuregs unit := modify (fun h => CpuRegs (csrv h) x).

Definition intr_on : K cpuregs unit := x <- r_sstatus ;; w_sstatus (Z.lor x SSTATUS_SIE).
Definition intr_off : K cpuregs unit := x <- r_sstatus ;; w_sstatus (Z.land x (u64 (Z.lnot SSTATUS_SIE))).
Definition intr_get : K cpuregs bool := x <- r_sstatus ;; ret (negb (Z.land x SSTATUS_SIE =? 0)).

(** ** kernel/start.c *)

Definition timerinit : K cpuregs unit :=
  x <- r_mie ;; w_mie (Z.lor x MIE_STIE) ;;
  x <- r_menvcfg ;; w_menvcfg (Z.lor x (Z.shiftl 1 63)) ;;
  x <- r_mcounteren ;; w_mcounteren (Z.lor x 2) ;;
  t <- r_time ;; w_stimecmp (u64 (t + 1000000)).

(** The instruction [mret]: where control goes, and the mode it goes to. *)
Definition mret : K cpuregs (Z * Z) :=
  pc <- csr_read mepc ;;
  x <- csr_read mstatus ;;
  ret (pc, Z.land x MSTATUS_MPP_MASK).

(** [main] is the address of the function. *)
Definition start (main : Z) : K cpuregs (Z * Z) :=
  x <- r_mstatus ;;
  let x := Z.land x (u64 (Z.lnot MSTATUS_MPP_MASK)) in
  let x := Z.lor x MSTATUS_MPP_S in
  w_mstatus x ;;
  w_mepc main ;;
  w_satp 0 ;;
  w_medeleg 0xffff ;;
  w_mideleg 0xffff ;;
  x <- r_sie ;; w_sie (Z.lor (Z.lor x SIE_SEIE) SIE_STIE) ;;
  w_pmpaddr0 0x3fffffffffffff ;;
  w_pmpcfg0 0xf ;;
  timerinit ;;
  id <- r_mhartid ;;
  w_tp (u64 (i32 id)) ;;
  mret.

(** ** Single bits *)

Definition bit (n x : Z) : bool := Z.testbit x n.

(** A mask test is a test of the bit. *)
Lemma land_bit x n : 0 <= n -> (Z.land x (Z.shiftl 1 n) =? 0) = negb (bit n x).
Proof.
  intros Hn. unfold bit. rewrite Z.shiftl_1_l. destruct (Z.testbit x n) eqn:E; simpl.
  - apply Z.eqb_neq. intros H0. assert (Z.testbit (Z.land x (2 ^ n)) n = true) as H1 by (rewrite Z.land_spec, Z.pow2_bits_true, E; done).
    by rewrite H0, Z.bits_0 in H1.
  - apply Z.eqb_eq. apply Z.bits_inj'. intros k Hk. rewrite Z.land_spec, Z.bits_0.
    destruct (decide (k = n)) as [->|Hne]; [by rewrite E|]. rewrite Z.pow2_bits_false by lia. apply andb_false_r.
Qed.

Lemma bit_set x n k : 0 <= n -> 0 <= k -> bit k (Z.lor x (Z.shiftl 1 n)) = bit k x || (k =? n).
Proof.
  intros Hn Hk. unfold bit. rewrite Z.shiftl_1_l, Z.lor_spec. f_equal.
  destruct (Z.eqb_spec k n) as [->|Hne]; [by apply Z.pow2_bits_true|apply Z.pow2_bits_false; lia].
Qed.

Lemma bit_clear x n k : 0 <= n < 64 -> 0 <= k < 64 -> bit k (Z.land x (u64 (Z.lnot (Z.shiftl 1 n)))) = bit k x && negb (k =? n).
Proof.
  intros Hn Hk. unfold bit, u64. change 0x10000000000000000 with (2 ^ 64).
  rewrite Z.shiftl_1_l, Z.land_spec, Z.mod_pow2_bits_low, Z.lnot_spec by lia. f_equal. f_equal.
  destruct (Z.eqb_spec k n) as [->|Hne]; [by apply Z.pow2_bits_true; lia|apply Z.pow2_bits_false; lia].
Qed.
