(* ===== verification/Asm.v ===== *)
(** * The kernel's assembly: trap entry and return, context switch, boot entry

    The instruction sequences of kernel/trampoline.S, kernel/kernelvec.S,
    kernel/swtch.S and kernel/entry.S, one instruction per line of the source,
    and an interpreter for the instructions they use.  A sequence runs until
    its first transfer of control ([jalr], [call], [ret], [sret]), so the
    code before a call and the code the call returns to are two sequences.

    [sym] gives the addresses of the labels (kernel/kernel.ld places them) and
    [tr] is the processor's address translation, from the value of satp and a
    virtual address to a physical one; what the trap path relies on, that the
    trapframe page is mapped at TRAPFRAME in the user page table, is a
    hypothesis of its theorem.

    The theorems are that a trap from user space and the return to it preserve
    all thirty-one registers of the user program, that a trap taken in the
    kernel is invisible to the code it interrupts, and that swtch resumes a
    context with the registers it was left with. *)
From stdpp Require Import functions.
From S2P Require Import Prelude Mem Riscv Csr.

(** Decides a closed proposition. *)
Ltac decided := apply (bool_decide_unpack _); vm_compute; exact I.

(** ** Machine *)

Inductive reg :=
  | RA | SP | GP | TP | T0 | T1 | T2 | S0 | S1 | A0 | A1 | A2 | A3 | A4 | A5 | A6 | A7
  | S2 | S3 | S4 | S5 | S6 | S7 | S8 | S9 | S10 | S11 | T3 | T4 | T5 | T6.
#[global] Instance reg_eq_dec : EqDecision reg.
Proof. solve_decision. Defined.

(** [jalr] and [call] name the label of the instruction after them, whose
    address they leave in ra. *)
Inductive instr :=
  | sd (rs : reg) (off : Z) (base : reg)
  | ld (rd : reg) (off : Z) (base : reg)
  | li (rd : reg) (imm : Z)
  | la (rd : reg) (label : string)
  | addi (rd rs : reg) (imm : Z)
  | add (rd rs1 rs2 : reg)
  | mul (rd rs1 rs2 : reg)
  | csrr (rd : reg) (c : csr)
  | csrw (c : csr) (rs : reg)
  | sfence_vma
  | jalr (rs : reg) (next : string)
  | call (label next : string)
  | ret
  | sret.

Record mach := Mach { regs : reg -> Z; csrs : csr -> Z; ram : memory }.

Definition set_reg (r : reg) (v : Z) (m : mach) : mach := Mach (<[r := v]> (regs m)) (csrs m) (ram m).
Definition set_csr (c : csr) (v : Z) (m : mach) : mach := Mach (regs m) (<[c := v]> (csrs m)) (ram m).
Definition set_ram (M : memory) (m : mach) : mach := Mach (regs m) (csrs m) M.

(** The registers hold 64-bit values. *)
Definition words (m : mach) : Prop := forall r, 0 <= regs m r < 2 ^ 64.

(** ** The structures the sequences fill: kernel/proc.h *)

(** Offsets in [struct trapframe]. *)
Definition trapframe_offset (r : reg) : Z :=
  match r with
  | RA => 40 | SP => 48 | GP => 56 | TP => 64 | T0 => 72 | T1 => 80 | T2 => 88 | S0 => 96 | S1 => 104
  | A0 => 112 | A1 => 120 | A2 => 128 | A3 => 136 | A4 => 144 | A5 => 152 | A6 => 160 | A7 => 168
  | S2 => 176 | S3 => 184 | S4 => 192 | S5 => 200 | S6 => 208 | S7 => 216 | S8 => 224 | S9 => 232
  | S10 => 240 | S11 => 248 | T3 => 256 | T4 => 264 | T5 => 272 | T6 => 280
  end.

(** [struct context], in order. *)
Definition context_regs : list reg := [RA; SP; S0; S1; S2; S3; S4; S5; S6; S7; S8; S9; S10; S11].

(** ** Sequences *)

(** kernel/trampoline.S *)
Definition uservec : list instr :=
  [ csrw sscratch A0;
    li A0 TRAPFRAME;
    sd RA 40 A0;
    sd SP 48 A0;
    sd GP 56 A0;
    sd TP 64 A0;
    sd T0 72 A0;
    sd T1 80 A0;
    sd T2 88 A0;
    sd S0 96 A0;
    sd S1 104 A0;
    sd A1 120 A0;
    sd A2 128 A0;
    sd A3 136 A0;
    sd A4 144 A0;
    sd A5 152 A0;
    sd A6 160 A0;
    sd A7 168 A0;
    sd S2 176 A0;
    sd S3 184 A0;
    sd S4 192 A0;
    sd S5 200 A0;
    sd S6 208 A0;
    sd S7 216 A0;
    sd S8 224 A0;
    sd S9 232 A0;
    sd S10 240 A0;
    sd S11 248 A0;
    sd T3 256 A0;
    sd T4 264 A0;
    sd T5 272 A0;
    sd T6 280 A0;
    csrr T0 sscratch;
    sd T0 112 A0;
    ld SP 8 A0;
    ld TP 32 A0;
    ld T0 16 A0;
    ld T1 0 A0;
    sfence_vma;
    csrw satp T1;
    sfence_vma;
    jalr T0 "userret" ].

Definition userret : list instr :=
  [ sfence_vma;
    csrw satp A0;
    sfence_vma;
    li A0 TRAPFRAME;
    ld RA 40 A0;
    ld SP 48 A0;
    ld GP 56 A0;
    ld TP 64 A0;
    ld T0 72 A0;
    ld T1 80 A0;
    ld T2 88 A0;
    ld S0 96 A0;
    ld S1 104 A0;
    ld A1 120 A0;
    ld A2 128 A0;
    ld A3 136 A0;
    ld A4 144 A0;
    ld A5 152 A0;
    ld A6 160 A0;
    ld A7 168 A0;
    ld S2 176 A0;
    ld S3 184 A0;
    ld S4 192 A0;
    ld S5 200 A0;
    ld S6 208 A0;
    ld S7 216 A0;
    ld S8 224 A0;
    ld S9 232 A0;
    ld S10 240 A0;
    ld S11 248 A0;
    ld T3 256 A0;
    ld T4 264 A0;
    ld T5 272 A0;
    ld T6 280 A0;
    ld A0 112 A0;
    sret ].

(** kernel/kernelvec.S, up to the call and from its return. *)
Definition kernelvec : list instr :=
  [ addi SP SP (-256);
    sd RA 0 SP;
    sd GP 16 SP;
    sd TP 24 SP;
    sd T0 32 SP;
    sd T1 40 SP;
    sd T2 48 SP;
    sd A0 72 SP;
    sd A1 80 SP;
    sd A2 88 SP;
    sd A3 96 SP;
    sd A4 104 SP;
    sd A5 112 SP;
    sd A6 120 SP;
    sd A7 128 SP;
    sd T3 216 SP;
    sd T4 224 SP;
    sd T5 232 SP;
    sd T6 240 SP;
    call "kerneltrap" "kernelvec_ret" ].

Definition kernelvec_ret : list instr :=
  [ ld RA 0 SP;
    ld GP 16 SP;
    ld T0 32 SP;
    ld T1 40 SP;
    ld T2 48 SP;
    ld A0 72 SP;
    ld A1 80 SP;
    ld A2 88 SP;
    ld A3 96 SP;
    ld A4 104 SP;
    ld A5 112 SP;
    ld A6 120 SP;
    ld A7 128 SP;
    ld T3 216 SP;
    ld T4 224 SP;
    ld T5 232 SP;
    ld T6 240 SP;
    addi SP SP 256;
    sret ].

(** kernel/swtch.S *)
Definition asm_swtch : list instr :=
  [ sd RA 0 A0;
    sd SP 8 A0;
    sd S0 16 A0;
    sd S1 24 A0;
    sd S2 32 A0;
    sd S3 40 A0;
    sd S4 48 A0;
    sd S5 56 A0;
    sd S6 64 A0;
    sd S7 72 A0;
    sd S8 80 A0;
    sd S9 88 A0;
    sd S10 96 A0;
    sd S11 104 A0;
    ld RA 0 A1;
    ld SP 8 A1;
    ld S0 16 A1;
    ld S1 24 A1;
    ld S2 32 A1;
    ld S3 40 A1;
    ld S4 48 A1;
    ld S5 56 A1;
    ld S6 64 A1;
    ld S7 72 A1;
    ld S8 80 A1;
    ld S9 88 A1;
    ld S10 96 A1;
    ld S11 104 A1;
    ret ].

(** kernel/entry.S *)
Definition _entry : list instr :=
  [ la SP "stack0";
    li A0 (1024 * 4);
    csrr A1 mhartid;
    addi A1 A1 1;
    mul A0 A0 A1;
    add SP SP A0;
    call "start" "spin" ].

(** ** Interpreter *)

Section Run.
Context (sym : string -> Z) (tr : Z -> Z -> Z).

(** The physical address of a load or store. *)
Definition ea (m : mach) (base : reg) (off : Z) : Z := tr (csrs m satp) (u64 (regs m base + off)).

(** One instruction: the next machine, and where control goes if it does not
    go to the next instruction. *)
Definition step (i : instr) (m : mach) : mach * option Z :=
  match i with
  | sd rs off b => (set_ram (store64 (ram m) (ea m b off) (regs m rs)) m, None)
  | ld rd off b => (set_reg rd (load64 (ram m) (ea m b off)) m, None)
  | li rd imm => (set_reg rd (u64 imm) m, None)
  | la rd l => (set_reg rd (u64 (sym l)) m, None)
  | addi rd rs imm => (set_reg rd (u64 (regs m rs + imm)) m, None)
  | add rd r1 r2 => (set_reg rd (u64 (regs m r1 + regs m r2)) m, None)
  | mul rd r1 r2 => (set_reg rd (u64 (regs m r1 * regs m r2)) m, None)
  | csrr rd c => (set_reg rd (csrs m c) m, None)
  | csrw c rs => (set_csr c (regs m rs) m, None)
  | sfence_vma => (m, None)
  | jalr rs next => (set_reg RA (sym next) m, Some (regs m rs))
  | call l next => (set_reg RA (sym next) m, Some (sym l))
  | ret => (m, Some (regs m RA))
  | sret => (m, Some (csrs m sepc))
  end.

Fixpoint run (l : list instr) (m : mach) : mach * option Z :=
  match l with
  | [] => (m, None)
  | i :: l => match step i m with (m', None) => run l m' | r => r end
  end.

(** ** Blocks of stores and of loads *)

Definition saves (b : reg) (l : list (reg * Z)) : list instr := (fun '(r, o) => sd r o b) <$> l.
Definition loads (b : reg) (l : list (reg * Z)) : list instr := (fun '(r, o) => ld r o b) <$> l.

Definition store_all (p : Z) (f : reg -> Z) (l : list (reg * Z)) (M : memory) : memory :=
  foldl (fun M '(r, o) => store64 M (p + o) (f r)) M l.
Definition load_all (p : Z) (M : memory) (l : list (reg * Z)) (f : reg -> Z) : reg -> Z :=
  foldl (fun f '(r, o) => <[r := load64 M (p + o)]> f) f l.

(** The slots are distinct words, in increasing order from [lo] to [hi]. *)
Fixpoint spaced (lo hi : Z) (l : list (reg * Z)) : bool :=
  match l with
  | [] => lo <=? hi
  | (_, o) :: l => (lo <=? o) && spaced (o + 8) hi l
  end.

Lemma spaced_le lo hi l : spaced lo hi l = true -> lo <= hi.
Proof.
  revert lo. induction l as [|[r o] l IH]; intros lo; simpl; [apply Z.leb_le|].
  intros [?%Z.leb_le ?%IH]%andb_prop. lia.
Qed.

Lemma spaced_in lo hi l r o : spaced lo hi l = true -> (r, o) ∈ l -> lo <= o /\ o + 8 <= hi.
Proof.
  revert lo. induction l as [|[r' o'] l IH]; intros lo; simpl; [by intros _ ?%elem_of_nil|].
  intros [Hlo%Z.leb_le Hs]%andb_prop [[= -> ->]|Hin]%elem_of_cons.
  - apply spaced_le in Hs. lia.
  - destruct (IH _ Hs Hin). lia.
Qed.

Lemma run_next i l m m' : step i m = (m', None) -> run (i :: l) m = run l m'.
Proof. simpl. by intros ->. Qed.

Lemma run_exit i l m m' pc : step i m = (m', Some pc) -> run (i :: l) m = (m', Some pc).
Proof. simpl. by intros ->. Qed.

Lemma run_saves b l rest m p :
  (forall r o, (r, o) ∈ l -> ea m b o = p + o) ->
  run (saves b l ++ rest) m = run rest (set_ram (store_all p (regs m) l (ram m)) m).
Proof.
  revert m. induction l as [|[r o] l IH]; intros m Hp; simpl; [by destruct m|].
  rewrite IH by (intros; apply (Hp r0); by right). rewrite (Hp r o) by left. done.
Qed.

Lemma run_loads b l rest m p :
  b ∉ l.*1 -> (forall r o, (r, o) ∈ l -> ea m b o = p + o) ->
  run (loads b l ++ rest) m = run rest (Mach (load_all p (ram m) l (regs m)) (csrs m) (ram m)).
Proof.
  revert m. induction l as [|[r o] l IH]; intros m Hb Hp; simpl; [by destruct m|].
  apply not_elem_of_cons in Hb as [Hbr Hb]. rewrite (Hp r o) by left.
  rewrite IH; [done|done|]. intros r' o' Hin.
  unfold ea. cbn [set_reg regs csrs]. rewrite fn_lookup_insert_ne by done. apply (Hp r'). by right.
Qed.
End Run.

Lemma store_all_outside p f l lo hi M :
  spaced lo hi l = true -> same_outside (p + lo) (hi - lo) M (store_all p f l M).
Proof.
  intros Hs. assert (Hin : forall r o, (r, o) ∈ l -> lo <= o /\ o + 8 <= hi) by (intros; by eapply spaced_in). clear Hs.
  revert M. induction l as [|[r o] l IH]; intros M; simpl; [done|].
  etrans; [|apply IH; intros; apply (Hin r0); by right].
  destruct (Hin r o) as [??]; [left|]. apply same_outside_store; lia.
Qed.

Lemma store_all_load p f l lo hi M r o :
  (forall r, 0 <= f r < 2 ^ 64) -> spaced lo hi l = true -> (r, o) ∈ l ->
  load64 (store_all p f l M) (p + o) = f r.
Proof.
  intros Hf. revert lo M. induction l as [|[r' o'] l IH]; intros lo M; simpl; [by intros _ ?%elem_of_nil|].
  intros [Hlo Hs]%andb_prop [[= <- <-]|Hin]%elem_of_cons; [|by eapply IH].
  unfold load64. rewrite (same_outside_load 8 _ _ _ _ _ (store_all_outside p f l _ _ _ Hs)) by lia.
  apply load64_store64_eq, Hf.
Qed.

Lemma load_all_out p M l f r : r ∉ l.*1 -> load_all p M l f r = f r.
Proof.
  revert f. induction l as [|[r' o'] l IH]; intros f; simpl; [done|].
  intros [??]%not_elem_of_cons. rewrite IH by done. by apply fn_lookup_insert_ne.
Qed.

Lemma load_all_in p M l f r o : NoDup l.*1 -> (r, o) ∈ l -> load_all p M l f r = load64 M (p + o).
Proof.
  revert f. induction l as [|[r' o'] l IH]; intros f; simpl; [by intros _ ?%elem_of_nil|].
  intros [Hr Hl]%NoDup_cons [[= <- <-]|Hin]%elem_of_cons; [|by apply IH].
  rewrite load_all_out by done. apply fn_lookup_insert.
Qed.

(** ** Traps from user space *)

Definition user_slots : list (reg * Z) :=
  (fun r => (r, trapframe_offset r)) <$>
  [RA; SP; GP; TP; T0; T1; T2; S0; S1; A1; A2; A3; A4; A5; A6; A7; S2; S3; S4; S5; S6; S7; S8; S9; S10; S11; T3; T4; T5; T6].

Lemma uservec_split :
  uservec = [csrw sscratch A0; li A0 TRAPFRAME] ++ saves A0 user_slots ++ [csrr T0 sscratch] ++ saves A0 [(T0, 112)] ++
    loads A0 [(SP, 8); (TP, 32); (T0, 16); (T1, 0)] ++ [sfence_vma; csrw satp T1; sfence_vma; jalr T0 "userret"].
Proof. done. Qed.

Lemma userret_split :
  userret = [sfence_vma; csrw satp A0; sfence_vma; li A0 TRAPFRAME] ++ loads A0 user_slots ++ [ld A0 112 A0; sret].
Proof. done. Qed.

Lemma user_slots_in r : r <> A0 -> (r, trapframe_offset r) ∈ user_slots.
Proof. destruct r; try done; intros _; decided. Qed.

Lemma trapframe_offset_range r : 40 <= trapframe_offset r <= 280.
Proof. destruct r; simpl; lia. Qed.

(** The part of a trapframe that holds the user registers. *)
Definition saved_area (tf : Z) (M M' : memory) : Prop :=
  forall o, 40 <= o < 288 -> rd8 M' (tf + o) = rd8 M (tf + o).

Definition within (n : Z) (l : list (reg * Z)) : bool := forallb (fun '(_, o) => (0 <=? o) && (o + 8 <=? n)) l.

Lemma within_in n l r o : within n l = true -> (r, o) ∈ l -> 0 <= o /\ o + 8 <= n.
Proof.
  intros Hl Hr%list_elem_of_In. unfold within in Hl. rewrite forallb_forall in Hl. specialize (Hl _ Hr). simpl in Hl. lia.
Qed.

Lemma u64_trapframe o : 0 <= o < PGSIZE -> u64 (TRAPFRAME + o) = TRAPFRAME + o.
Proof.
  assert (TRAPFRAME = 274877898752) as -> by reflexivity. unfold PGSIZE. intros. apply u64_id. lia.
Qed.

Section User.
Context (sym : string -> Z) (tr : Z -> Z -> Z) (usatp tf : Z).
Hypothesis trapframe_mapped : forall o, 0 <= o < PGSIZE -> tr usatp (TRAPFRAME + o) = tf + o.

Lemma ea_trapframe m l r o :
  csrs m satp = usatp -> regs m A0 = u64 TRAPFRAME -> within 288 l = true -> (r, o) ∈ l -> ea tr m A0 o = tf + o.
Proof.
  intros Hs Ha Hl Hr. destruct (within_in _ _ _ _ Hl Hr). unfold ea.
  assert (HT : u64 TRAPFRAME = TRAPFRAME) by reflexivity.
  rewrite Hs, Ha, HT, u64_trapframe, trapframe_mapped by (unfold PGSIZE; lia). done.
Qed.

Lemma run_saves_tf l rest m :
  csrs m satp = usatp -> regs m A0 = u64 TRAPFRAME -> within 288 l = true ->
  run sym tr (saves A0 l ++ rest) m = run sym tr rest (set_ram (store_all tf (regs m) l (ram m)) m).
Proof. intros. apply run_saves. intros r o Hr. by eapply ea_trapframe. Qed.

Lemma run_loads_tf l rest m :
  csrs m satp = usatp -> regs m A0 = u64 TRAPFRAME -> within 288 l = true -> A0 ∉ l.*1 ->
  run sym tr (loads A0 l ++ rest) m = run sym tr rest (Mach (load_all tf (ram m) l (regs m)) (csrs m) (ram m)).
Proof. intros. apply run_loads; [done|]. intros r o Hr. by eapply ea_trapframe. Qed.

Lemma uservec_ram m : words m ->
  let M := store64 (store_all tf (<[A0 := u64 TRAPFRAME]> (regs m)) user_slots (ram m)) (tf + 112) (regs m A0) in
  (forall r, load64 M (tf + trapframe_offset r) = regs m r) /\
  (forall o, 0 <= o -> o + 8 <= 40 -> load64 M (tf + o) = load64 (ram m) (tf + o)) /\ same_outside (tf + 40) 248 (ram m) M.
Proof.
  intros Hw M. assert (Ho : same_outside (tf + 40) 248 (ram m) M).
  { etrans; [apply (store_all_outside tf (<[A0 := u64 TRAPFRAME]> (regs m)) user_slots 40 288); done|].
    subst M. unfold store64. apply same_outside_store; lia. }
  split_and!; [|intros o ? ?; by apply (same_outside_load 8 (tf + 40) 248); [|lia]|done].
  intros r. subst M. destruct (decide (r = A0)) as [->|Hr]; [apply load64_store64_eq, Hw|].
  rewrite load64_store64_ne by (destruct r; simpl; done || lia).
  rewrite (store_all_load _ _ _ 40 288 _ r); [by apply fn_lookup_insert_ne| |done|by apply user_slots_in].
  intros r'. destruct (decide (r' = A0)) as [->|]; [rewrite fn_lookup_insert; apply u64_range|].
  rewrite fn_lookup_insert_ne by done. apply Hw.
Qed.

(** Runs the instructions up to the next block or transfer of control. *)
Ltac nexts := repeat (erewrite run_next by reflexivity).

#[local] Strategy opaque [load64 store64 TRAPFRAME u64].

Lemma uservec_run m :
  words m -> csrs m satp = usatp ->
  exists m1,
    run sym tr uservec m = (m1, Some (load64 (ram m) (tf + 16))) /\
    regs m1 SP = load64 (ram m) (tf + 8) /\ regs m1 TP = load64 (ram m) (tf + 32) /\ regs m1 RA = sym "userret" /\
    csrs m1 satp = load64 (ram m) (tf + 0) /\ (forall c, c <> sscratch -> c <> satp -> csrs m1 c = csrs m c) /\
    (forall r, load64 (ram m1) (tf + trapframe_offset r) = regs m r) /\
    same_outside (tf + 40) 248 (ram m) (ram m1).
Proof.
  intros Hw Hs. rewrite uservec_split. cbn [app]. nexts. rewrite run_saves_tf by done.
  destruct (uservec_ram m Hw) as (HM & Hlow & Ho). cbn [set_reg set_csr regs ram csrs].
  revert HM Hlow Ho. generalize (store_all tf (<[A0 := u64 TRAPFRAME]> (regs m)) user_slots (ram m)). intros M.
  nexts. rewrite run_saves_tf by done. rewrite run_loads_tf by first [done|decided].
  change (ram (set_ram _ _)) with (store64 M (tf + 112) (regs m A0)). generalize (store64 M (tf + 112) (regs m A0)). intros M2 HM Hlow Ho.
  nexts. erewrite run_exit by reflexivity. eexists. split; [f_equal; f_equal; by apply (Hlow 16)|].
  split_and!; [by apply (Hlow 8)|by apply (Hlow 32)|done|by apply (Hlow 0)| |done|done].
  intros r Hr1 Hr2. cbn [set_reg set_csr set_ram csrs]. by rewrite !fn_lookup_insert_ne.
Qed.

Lemma userret_run k :
  regs k A0 = usatp ->
  exists m2,
    run sym tr userret k = (m2, Some (csrs k sepc)) /\
    (forall r, regs m2 r = load64 (ram k) (tf + trapframe_offset r)) /\ csrs m2 satp = usatp /\ ram m2 = ram k.
Proof.
  intros Ha. rewrite userret_split. cbn [app]. nexts. rewrite run_loads_tf by first [done|decided].
  cbn [set_reg set_csr regs csrs ram]. set (f := load_all _ _ _ _).
  assert (Hf : f A0 = u64 TRAPFRAME) by (by apply load_all_out; decided).
  assert (Hl : forall r, r <> A0 -> f r = load64 (ram k) (tf + trapframe_offset r)) by (intros; by apply load_all_in; [decided|apply user_slots_in]).
  generalize dependent f. intros f Hf Hl. nexts. erewrite run_exit by reflexivity. eexists. split; [done|]. split_and!; [|done..].
  intros r. cbn [set_reg regs]. destruct (decide (r = A0)) as [->|Hr].
  - rewrite fn_lookup_insert. cbn [ram]. f_equal. by apply (ea_trapframe _ [(A0, 112)] A0); [| | |left].
  - rewrite fn_lookup_insert_ne by done. by apply Hl.
Qed.
End User.

(** ** Traps from the kernel *)

Definition kernel_slots : list (reg * Z) :=
  [(RA, 0); (GP, 16); (TP, 24); (T0, 32); (T1, 40); (T2, 48); (A0, 72); (A1, 80); (A2, 88); (A3, 96); (A4, 104); (A5, 112);
   (A6, 120); (A7, 128); (T3, 216); (T4, 224); (T5, 232); (T6, 240)].
Definition kernel_back : list (reg * Z) :=
  [(RA, 0); (GP, 16); (T0, 32); (T1, 40); (T2, 48); (A0, 72); (A1, 80); (A2, 88); (A3, 96); (A4, 104); (A5, 112);
   (A6, 120); (A7, 128); (T3, 216); (T4, 224); (T5, 232); (T6, 240)].

(** The registers a C function preserves, besides sp. *)
Definition callee_saved : list reg := [S0; S1; S2; S3; S4; S5; S6; S7; S8; S9; S10; S11].

Lemma kernel_regs_cover r : r <> TP -> r = SP \/ r ∈ callee_saved \/ exists o, (r, o) ∈ kernel_back /\ (r, o) ∈ kernel_slots.
Proof.
  intros Hr. destruct (decide (r ∈ kernel_back.*1)) as [Hin|Hin].
  - right. right. apply list_elem_of_fmap in Hin as ([r' o] & -> & Hin). exists o. split; [done|].
    assert (Hsub : Forall (fun x => x ∈ kernel_slots) kernel_back) by decided. by eapply Forall_forall in Hsub.
  - destruct r; try done; try (by left); try (right; left; decided); exfalso; revert Hin; decided.
Qed.

Lemma kernelvec_split : kernelvec = addi SP SP (-256) :: saves SP kernel_slots ++ [call "kerneltrap" "kernelvec_ret"].
Proof. done. Qed.

Lemma kernelvec_ret_split : kernelvec_ret = loads SP kernel_back ++ [addi SP SP 256; sret].
Proof. done. Qed.

(** [n] bytes at the address in [b] are mapped, to physical address [p]. *)
Definition mapped_at (tr : Z -> Z -> Z) (m : mach) (b : reg) (n p : Z) : Prop :=
  0 <= regs m b /\ regs m b + n <= 2 ^ 64 /\ forall o, 0 <= o < n -> tr (csrs m satp) (regs m b + o) = p + o.

Lemma ea_mapped tr m b n p l r o : mapped_at tr m b n p -> within n l = true -> (r, o) ∈ l -> ea tr m b o = p + o.
Proof.
  intros (Hb & Hn & Hp) Hl Hr. destruct (within_in _ _ _ _ Hl Hr). unfold ea. rewrite u64_id by lia. apply Hp. lia.
Qed.

Lemma run_saves_at sym tr b l rest m n p :
  mapped_at tr m b n p -> within n l = true ->
  run sym tr (saves b l ++ rest) m = run sym tr rest (set_ram (store_all p (regs m) l (ram m)) m).
Proof. intros. apply run_saves. intros r o Hr. by eapply ea_mapped. Qed.

Lemma run_loads_at sym tr b l rest m n p :
  mapped_at tr m b n p -> within n l = true -> b ∉ l.*1 ->
  run sym tr (loads b l ++ rest) m = run sym tr rest (Mach (load_all p (ram m) l (regs m)) (csrs m) (ram m)).
Proof. intros. apply run_loads; [done|]. intros r o Hr. by eapply ea_mapped. Qed.

Section Kernel.
Context (sym : string -> Z) (tr : Z -> Z -> Z) (p : Z).

Lemma kernelvec_run m :
  words m -> 256 <= regs m SP -> mapped_at tr (set_reg SP (regs m SP - 256) m) SP 256 p ->
  exists m1,
    run sym tr kernelvec m = (m1, Some (sym "kerneltrap")) /\
    regs m1 RA = sym "kernelvec_ret" /\ regs m1 SP = regs m SP - 256 /\ (forall r, r ∈ callee_saved -> regs m1 r = regs m r) /\
    csrs m1 = csrs m /\
    (forall r o, (r, o) ∈ kernel_slots -> load64 (ram m1) (p + o) = regs m r) /\
    same_outside p 256 (ram m) (ram m1).
Proof.
  intros Hw Hsp Hp. rewrite kernelvec_split. erewrite run_next by reflexivity.
  replace (u64 (regs m SP + -256)) with (regs m SP - 256) by (rewrite u64_id; [lia|]; specialize (Hw SP); lia).
  set (m0 := set_reg SP _ _). rewrite (run_saves_at _ _ _ _ _ _ 256 p) by done.
  erewrite run_exit by reflexivity. eexists. split; [done|].
  assert (H0 : forall r, r <> SP -> regs m0 r = regs m r) by (intros; by apply fn_lookup_insert_ne).
  split_and!; [done|done| |done| |].
  - intros r Hr. cbn [set_reg set_ram regs]. rewrite fn_lookup_insert_ne by (intros <-; revert Hr; decided).
    apply H0. intros ->. revert Hr. decided.
  - intros r o Hr. cbn [set_reg set_ram ram]. rewrite (store_all_load _ _ _ 0 256 _ r); [|..|done]; [|intros r'|done].
    + apply H0. intros ->. apply (list_elem_of_fmap_2 fst) in Hr. revert Hr. decided.
    + destruct (decide (r' = SP)) as [->|]; [|rewrite H0 by done; apply Hw].
      unfold m0. cbn [set_reg regs]. rewrite fn_lookup_insert. specialize (Hw SP). lia.
  - pose proof (store_all_outside p (regs m0) kernel_slots 0 256 (ram m0) eq_refl) as Ho.
    by rewrite Z.add_0_r, Z.sub_0_r in Ho.
Qed.

Lemma kernelvec_ret_run k :
  regs k SP + 256 < 2 ^ 64 -> mapped_at tr k SP 256 p ->
  exists m2,
    run sym tr kernelvec_ret k = (m2, Some (csrs k sepc)) /\
    regs m2 SP = regs k SP + 256 /\ csrs m2 = csrs k /\ ram m2 = ram k /\
    (forall r o, (r, o) ∈ kernel_back -> regs m2 r = load64 (ram k) (p + o)) /\
    (forall r, r ∈ TP :: callee_saved -> regs m2 r = regs k r).
Proof.
  intros Hsp Hp. rewrite kernelvec_ret_split. rewrite (run_loads_at _ _ _ _ _ _ 256 p) by first [done|decided].
  set (f := load_all _ _ _ _).
  assert (Hf : f SP = regs k SP) by (apply load_all_out; decided).
  erewrite run_next by reflexivity. cbn [regs]. rewrite Hf, u64_id by (destruct Hp; lia).
  erewrite run_exit by reflexivity. eexists. split; [done|]. cbn [set_reg regs].
  split_and!; [by rewrite fn_lookup_insert|done|done| |].
  - intros r o Hr. rewrite fn_lookup_insert_ne by (intros <-; apply (list_elem_of_fmap_2 fst) in Hr; revert Hr; decided).
    apply load_all_in; [decided|done].
  - intros r Hr. rewrite fn_lookup_insert_ne by (intros <-; revert Hr; decided).
    apply load_all_out. revert Hr. destruct r; try (intros _; decided); intros Hr; exfalso; revert Hr; decided.
Qed.
End Kernel.

(** ** Context switch *)

Definition context_slots : list (reg * Z) := zip context_regs ((fun i => 8 * Z.of_nat i) <$> seq 0 14).

Lemma swtch_split : asm_swtch = saves A0 context_slots ++ loads A1 context_slots ++ [ret].
Proof. done. Qed.

(** Two areas of [n] bytes do not overlap. *)
Definition apart (n p q : Z) : Prop := p + n <= q \/ q + n <= p.

Lemma swtch_run sym tr m old new :
  words m -> mapped_at tr m A0 112 old -> mapped_at tr m A1 112 new -> apart 112 old new ->
  exists m1,
    run sym tr asm_swtch m = (m1, Some (regs m1 RA)) /\ csrs m1 = csrs m /\
    (forall r o, (r, o) ∈ context_slots -> load64 (ram m1) (old + o) = regs m r /\ regs m1 r = load64 (ram m) (new + o)) /\
    (forall r, r ∉ context_regs -> regs m1 r = regs m r) /\
    same_outside old 112 (ram m) (ram m1).
Proof.
  intros Hw Ho Hn Hd. rewrite swtch_split. rewrite (run_saves_at _ _ _ _ _ _ 112 old) by done.
  pose proof (store_all_outside old (regs m) context_slots 0 112 (ram m) eq_refl) as Hso. rewrite Z.add_0_r, Z.sub_0_r in Hso.
  rewrite (run_loads_at _ _ _ _ _ _ 112 new) by first [done|decided].
  erewrite run_exit by reflexivity. eexists. split; [done|]. cbn [set_ram regs ram csrs]. split_and!; [done| | |done].
  - intros r o Hr. destruct (spaced_in 0 112 context_slots r o) as [??]; [done..|].
    split; [by eapply (store_all_load _ _ _ 0 112)|]. rewrite (load_all_in _ _ _ _ r o); [|decided|done].
    apply (same_outside_load 8 _ _ _ _ _ Hso). destruct Hd; lia.
  - intros r Hr. by apply load_all_out.
Qed.

(** ** The registers survive *)

(** C23: a trap from user space and the return to it preserve the user
    program's registers.  uservec leaves the 31 registers at their offsets in
    the process's trapframe and changes no other memory; it goes to the address
    in the trapframe's kernel_trap, on the kernel stack, with the hart id and the page table
    named by kernel_sp, kernel_hartid and kernel_satp, with ra at userret and
    the control registers of the trap as they were.
    From any later machine with the user satp in a0, userret loads every
    register from the trapframe and leaves for sepc under the user page
    table; so if the register area was not written in between, the user program
    continues with exactly its registers. *)
Theorem user_registers_survive sym tr usatp tf m :
  (forall o, 0 <= o < PGSIZE -> tr usatp (TRAPFRAME + o) = tf + o) ->
  words m -> csrs m satp = usatp ->
  exists m1,
    run sym tr uservec m = (m1, Some (load64 (ram m) (tf + 16))) /\
    regs m1 SP = load64 (ram m) (tf + 8) /\ regs m1 TP = load64 (ram m) (tf + 32) /\ regs m1 RA = sym "userret" /\
    csrs m1 satp = load64 (ram m) (tf + 0) /\ (forall c, c <> sscratch -> c <> satp -> csrs m1 c = csrs m c) /\
    (forall r, load64 (ram m1) (tf + trapframe_offset r) = regs m r) /\
    same_outside (tf + 40) 248 (ram m) (ram m1) /\
    forall k, regs k A0 = usatp -> exists m2,
      run sym tr userret k = (m2, Some (csrs k sepc)) /\ csrs m2 satp = usatp /\ ram m2 = ram k /\
      (forall r, regs m2 r = load64 (ram k) (tf + trapframe_offset r)) /\
      (saved_area tf (ram m1) (ram k) -> forall r, regs m2 r = regs m r).
Proof.
  intros Htf Hw Hs. destruct (uservec_run sym tr usatp tf Htf m Hw Hs) as (m1 & Hr & H1 & H2 & H3 & H4 & Hc & Hsv & Ho).
  exists m1. split_and!; [done..|]. intros k Ha. destruct (userret_run sym tr usatp tf Htf k Ha) as (m2 & Hr2 & Hl & Hs2 & Hm2).
  exists m2. split_and!; [done..|]. intros Hk r. rewrite Hl, <- Hsv. pose proof (trapframe_offset_range r).
  apply load_ext. intros b Hb. replace b with (tf + (b - tf)) by lia. apply Hk. lia.
Qed.

(** C25: a trap taken in the kernel is invisible to the code it interrupts:
    kernelvec saves the registers a C function may change in 256 bytes below
    the stack pointer, changing no other memory, and calls kerneltrap.  When
    that returns as C functions do (sp and the callee-saved registers as they
    were, the frame not written), possibly on another hart, the return path
    leaves for sepc with every register as at the trap except tp, which stays
    the hart's own. *)
Theorem kernel_trap_invisible sym tr p m :
  words m -> 256 <= regs m SP -> mapped_at tr (set_reg SP (regs m SP - 256) m) SP 256 p ->
  exists m1,
    run sym tr kernelvec m = (m1, Some (sym "kerneltrap")) /\ regs m1 RA = sym "kernelvec_ret" /\
    same_outside p 256 (ram m) (ram m1) /\
    forall k, csrs k satp = csrs m1 satp -> regs k SP = regs m1 SP ->
      (forall r, r ∈ callee_saved -> regs k r = regs m1 r) ->
      (forall b, p <= b < p + 256 -> rd8 (ram k) b = rd8 (ram m1) b) ->
      exists m2, run sym tr kernelvec_ret k = (m2, Some (csrs k sepc)) /\ ram m2 = ram k /\
        regs m2 TP = regs k TP /\ forall r, r <> TP -> regs m2 r = regs m r.
Proof.
  intros Hw Hsp Hp. destruct (kernelvec_run sym tr p m Hw Hsp Hp) as (m1 & Hr & Hra & H1 & Hc & Hcs & Hs & Ho).
  exists m1. split_and!; [done..|]. intros k Hks Hksp Hkc Hkf.
  destruct (kernelvec_ret_run sym tr p k) as (m2 & Hr2 & Hsp2 & _ & Hm2 & Hl & Hcc); [rewrite Hksp, H1; specialize (Hw SP); lia| |].
  { revert Hp. unfold mapped_at. cbn [set_reg regs csrs]. rewrite fn_lookup_insert. by rewrite Hksp, H1, Hks, Hcs. }
  exists m2. split_and!; [done|done|apply Hcc; decided|]. intros r Hrt.
  destruct (kernel_regs_cover r Hrt) as [->|[Hin|(o & Hb & Hsl)]].
  { rewrite Hsp2, Hksp, H1. apply Z.sub_add. }
  { rewrite (Hcc r (list_elem_of_further _ _ _ Hin)), (Hkc r Hin). by apply Hc. }
  destruct (spaced_in 0 256 kernel_back r o) as [??]; [done..|].
  rewrite (Hl _ _ Hb), <- (Hs _ _ Hsl). apply load_ext. intros. apply Hkf. lia.
Qed.

(** C24: swtch suspends one thread of control and resumes another.  It leaves
    ra, sp and the callee-saved registers of the caller in the old context and
    changes no other memory, it returns to the ra of the new context with the
    registers stored there, and every other register keeps its value.  So a
    thread that switched away at [m] and whose context was not written since
    returns from its swtch, whichever hart [k] switches to it, with the
    registers it had. *)
Theorem swtch_resumes sym tr m old new :
  words m -> mapped_at tr m A0 112 old -> mapped_at tr m A1 112 new -> apart 112 old new ->
  exists m1,
    run sym tr asm_swtch m = (m1, Some (load64 (ram m) new)) /\ same_outside old 112 (ram m) (ram m1) /\
    (forall r o, (r, o) ∈ context_slots -> load64 (ram m1) (old + o) = regs m r /\ regs m1 r = load64 (ram m) (new + o)) /\
    (forall r, r ∉ context_regs -> regs m1 r = regs m r) /\
    forall k old', words k -> mapped_at tr k A0 112 old' -> mapped_at tr k A1 112 old -> apart 112 old' old ->
      (forall b, old <= b < old + 112 -> rd8 (ram k) b = rd8 (ram m1) b) ->
      exists m2, run sym tr asm_swtch k = (m2, Some (regs m RA)) /\ forall r, r ∈ context_regs -> regs m2 r = regs m r.
Proof.
  intros Hw Ho Hn Hd. destruct (swtch_run sym tr m old new Hw Ho Hn Hd) as (m1 & Hr & Hcs & Hctx & Hoth & Hout).
  exists m1. assert (HRA : (RA, 0) ∈ context_slots) by decided.
  split_and!; [by rewrite Hr, (proj2 (Hctx RA 0 HRA)), Z.add_0_r|done..|].
  intros k old' Hwk Ho' Hn' Hd' Hsame. destruct (swtch_run sym tr k old' old Hwk Ho' Hn' Hd') as (m2 & Hr2 & _ & Hctx2 & _ & _).
  assert (Hback : forall r o, (r, o) ∈ context_slots -> regs m2 r = regs m r).
  { intros r o Hin. destruct (spaced_in 0 112 context_slots r o) as [??]; [done..|].
    rewrite (proj2 (Hctx2 r o Hin)), <- (proj1 (Hctx r o Hin)). apply load_ext. intros. apply Hsame. lia. }
  exists m2. split; [by rewrite Hr2, (Hback RA 0 HRA)|]. intros r Hin.
  assert (Hs : r ∈ context_slots.*1) by exact Hin. apply list_elem_of_fmap in Hs as ([r' o] & -> & Hin'). by eapply Hback.
Qed.

(** ** Witnesses *)

Definition w_usatp : Z := MAKE_SATP 0x87fff000.
Definition w_tr (s va : Z) : Z := if decide (s = w_usatp) then 0x87654000 + (va - TRAPFRAME) else va.
Definition w_sym (l : string) : Z := TRAMPOLINE + Z.of_nat (String.length l).
Definition w_regs (r : reg) : Z :=
  match r with SP => 0x8000a000 | A0 => 0x80010000 | A1 => 0x80020000 | _ => 2 ^ 63 + trapframe_offset r end.
Definition w_mach (s : Z) : mach := Mach w_regs (fun c => match c with satp => s | _ => 0 end) ∅.

Lemma w_words s : words (w_mach s).
Proof. intros r. destruct r; simpl; lia. Qed.

Lemma w_mapped r n : 0 <= w_regs r -> w_regs r + n <= 2 ^ 64 -> mapped_at w_tr (w_mach 0) r n (w_regs r).
Proof. done. Qed.

(** A user program traps and is returned to, at address 24, with its registers. *)
Lemma user_registers_survive_witness :
  exists m1 m2 pc,
    run w_sym w_tr uservec (w_mach w_usatp) = (m1, Some pc) /\
    run w_sym w_tr userret (Mach (fun _ => w_usatp) (fun _ => 24) (ram m1)) = (m2, Some 24) /\
    forall r, regs m2 r = w_regs r.
Proof.
  destruct (user_registers_survive w_sym w_tr w_usatp 0x87654000 (w_mach w_usatp)) as (m1 & Hr & _ & _ & _ & _ & _ & _ & _ & Hk).
  - intros o Ho. unfold w_tr. rewrite decide_True by reflexivity. lia.
  - apply w_words.
  - reflexivity.
  - destruct (Hk (Mach (fun _ => w_usatp) (fun _ => 24) (ram m1))) as (m2 & Hr2 & _ & _ & _ & Hrs); [reflexivity|].
    exists m1, m2. eexists. split; [exact Hr|]. split; [exact Hr2|]. apply Hrs. intros o Ho. reflexivity.
Defined.

(** A timer interrupt in the kernel that comes back on another hart. *)
Lemma kernel_trap_invisible_witness :
  exists m1 m2,
    run w_sym w_tr kernelvec (w_mach 0) = (m1, Some (w_sym "kerneltrap")) /\
    run w_sym w_tr kernelvec_ret (set_reg TP 5 m1) = (m2, Some (csrs m1 sepc)) /\ regs m2 TP = 5 /\
    forall r, r <> TP -> regs m2 r = w_regs r.
Proof.
  destruct (kernel_trap_invisible w_sym w_tr (0x8000a000 - 256) (w_mach 0)) as (m1 & Hr & _ & _ & Hk).
  - apply w_words.
  - cbn [w_mach regs w_regs]. lia.
  - split_and!; [vm_compute; congruence..|]. intros o Ho. reflexivity.
  - destruct (Hk (set_reg TP 5 m1)) as (m2 & Hr2 & _ & Htp & Hrs).
    + reflexivity.
    + reflexivity.
    + intros r Hin. apply fn_lookup_insert_ne. intros <-. revert Hin. decided.
    + reflexivity.
    + exists m1, m2. split_and!; [exact Hr|exact Hr2|exact Htp|exact Hrs].
Defined.

(** Thread 1 switches to thread 2, which switches back. *)
Lemma swtch_resumes_witness :
  exists m1 m2,
    run w_sym w_tr asm_swtch (w_mach 0) = (m1, Some 0) /\
    run w_sym w_tr asm_swtch (Mach (<[A0 := 0x80020000]> (<[A1 := 0x80010000]> w_regs)) (csrs (w_mach 0)) (ram m1)) = (m2, Some (2 ^ 63 + 40)) /\
    forall r, r ∈ context_regs -> regs m2 r = w_regs r.
Proof.
  destruct (swtch_resumes w_sym w_tr (w_mach 0) 0x80010000 0x80020000) as (m1 & Hr & _ & _ & _ & Hk).
  - apply w_words.
  - apply (w_mapped A0); cbn; lia.
  - apply (w_mapped A1); cbn; lia.
  - left. lia.
  - destruct (Hk (Mach (<[A0 := 0x80020000]> (<[A1 := 0x80010000]> w_regs)) (csrs (w_mach 0)) (ram m1)) 0x80020000) as (m2 & Hr2 & Hrs).
    + intros r. destruct r; vm_compute; split; congruence.
    + apply (w_mapped A1); cbn; lia.
    + apply (w_mapped A0); cbn; lia.
    + right. lia.
    + reflexivity.
    + exists m1, m2. split_and!; [exact Hr|exact Hr2|exact Hrs].
Defined.
