(* ===== verification/Plic.v ===== *)
(** * kernel/plic.c: the interrupt controller

    The controller is a parameter: [plic_reads log a] is what a read of the
    32-bit register at [a] gives after the accesses in [log]; the driver's
    accesses are recorded in order. *)
From S2P Require Import Prelude Kmonad Riscv Csr.

Definition UART0_IRQ : Z := 10.
Definition VIRTIO0_IRQ : Z := 1.
Definition PLIC_SENABLE (hart : Z) : Z := PLIC + 0x2080 + hart * 0x100.
Definition PLIC_SPRIORITY (hart : Z) : Z := PLIC + 0x201000 + hart * 0x2000.
Definition PLIC_SCLAIM (hart : Z) : Z := PLIC + 0x201004 + hart * 0x2000.

Inductive access := Rd (a v : Z) | Wr (a v : Z).

(** [cpuid()] of kernel/proc.c. *)
Definition cpuid : K cpuregs Z := x <- r_tp ;; ret (i32 x).

Section plic.
Context (plic_reads : list access -> Z -> Z).

(** The accesses so far, and the registers of the hart. *)
Definition plst : Type := list access * cpuregs.
Definition hart {A} (m : K cpuregs A) : K plst A := zoom snd (fun h s => (fst s, h)) m.

Definition rd32 (a : Z) : K plst Z := fun c s =>
  let v := u32 (plic_reads (fst s) a) in Ok v c (fst s ++ [Rd a v], snd s).
Definition wr32 (a v : Z) : K plst unit := modify (fun s => (fst s ++ [Wr a (u32 v)], snd s)).

Definition plicinit : K plst unit :=
  wr32 (PLIC + UART0_IRQ * 4) 1 ;;
  wr32 (PLIC + VIRTIO0_IRQ * 4) 1.

Definition plicinithart : K plst unit :=
  h <- hart cpuid ;;
  wr32 (PLIC_SENABLE h) (Z.lor (Z.shiftl 1 UART0_IRQ) (Z.shiftl 1 VIRTIO0_IRQ)) ;;
  wr32 (PLIC_SPRIORITY h) 0.

Definition plic_claim : K plst Z :=
  h <- hart cpuid ;;
  irq <- rd32 (PLIC_SCLAIM h) ;;
  ret (i32 irq).

Definition plic_complete (irq : Z) : K plst unit :=
  h <- hart cpuid ;;
  wr32 (PLIC_SCLAIM h) irq.
End plic.
