(* ===== verification/Uart.v ===== *)
(** * kernel/uart.c: the 16550a UART

    The device is a parameter: [UartDev] is a state with a read and a write of
    its registers, [UartLaws] what the driver relies on, after the data sheet
    uart.c refers to (http://byterunner.com/16550.html): the bits of LSR, the
    receive and the transmit holding registers.  Bytes arrive between the
    activations of the driver.  [push_off] and [pop_off] around the polling
    loop have no counterpart here: an activation is not interrupted. *)
From S2P Require Import Prelude Kmonad.

Definition RHR : Z := 0.
Definition THR : Z := 0.
Definition IER : Z := 1.
Definition IER_RX_ENABLE : Z := Z.shiftl 1 0.
Definition IER_TX_ENABLE : Z := Z.shiftl 1 1.
Definition FCR : Z := 2.
Definition FCR_FIFO_ENABLE : Z := Z.shiftl 1 0.
Definition FCR_FIFO_CLEAR : Z := Z.shiftl 3 1.
Definition ISR : Z := 2.
Definition LCR : Z := 3.
Definition LCR_EIGHT_BITS : Z := Z.shiftl 3 0.
Definition LCR_BAUD_LATCH : Z := Z.shiftl 1 7.
Definition LSR : Z := 5.
Definition LSR_RX_READY : Z := Z.shiftl 1 0.
Definition LSR_TX_IDLE : Z := Z.shiftl 1 5.

Class UartDev := {
  udev : Type;
  reg_read : Z -> udev -> Z * udev;
  reg_write : Z -> Z -> udev -> udev;
}.

(** What the registers mean: [rx] are the bytes received and not yet read,
    [tx] the bytes accepted for transmission, [delay] the number of polls of
    LSR until the transmit holding register is empty. *)
Class UartLaws (U : UartDev) := {
  rx : udev -> list Z;
  tx : udev -> list Z;
  delay : udev -> nat;
  tx_time : nat;
  delay_bound d : (delay d <= tx_time)%nat;
  rx_bytes d : Forall (fun c => 0 <= c < 256) (rx d);
  read_lsr d : exists v d', reg_read LSR d = (v, d') /\ rx d' = rx d /\ tx d' = tx d /\ delay d' = pred (delay d) /\
    (Z.land v LSR_RX_READY = 0 <-> rx d = []) /\ (Z.land v LSR_TX_IDLE = 0 <-> delay d <> 0%nat);
  read_rhr d ch l : rx d = ch :: l -> exists d', reg_read RHR d = (ch, d') /\ rx d' = l /\ tx d' = tx d;
  read_isr d : exists v d', reg_read ISR d = (v, d') /\ rx d' = rx d /\ tx d' = tx d /\ delay d' = delay d;
  write_thr d ch : delay d = 0%nat -> rx (reg_write THR ch d) = rx d /\ tx (reg_write THR ch d) = tx d ++ [ch];
}.

Section driver.
Context {U : UartDev}.

(** The driver's variables, those of printf.c it reads, and the device. *)
Record uart := MkUart {
  tx_busy : Z;            (** is the UART busy sending? *)
  panicking : Z;
  panicked : Z;
  dev : udev;
}.
Definition set_tx_busy v s := MkUart v (panicking s) (panicked s) (dev s).
Definition set_dev v s := MkUart (tx_busy s) (panicking s) (panicked s) v.

Definition tx_lock : lockid := ("uart", 0).
Definition tx_chan : chan := ("tx_chan", 0).

Definition ReadReg (reg : Z) : K uart Z := fun c s =>
  let '(v, d) := reg_read reg (dev s) in Ok v c (set_dev d s).
Definition WriteReg (reg v : Z) : K uart unit := modify (fun s => set_dev (reg_write reg v (dev s)) s).

Definition uartinit : K uart unit :=
  WriteReg IER 0x00 ;;
  WriteReg LCR LCR_BAUD_LATCH ;;
  WriteReg 0 0x03 ;;
  WriteReg 1 0x00 ;;
  WriteReg LCR LCR_EIGHT_BITS ;;
  WriteReg FCR (Z.lor FCR_FIFO_ENABLE FCR_FIFO_CLEAR) ;;
  WriteReg IER (Z.lor IER_TX_ENABLE IER_RX_ENABLE) ;;
  initlock tx_lock.

(** From the head of the loop, with [i] bytes sent and the lock held. *)
Definition uartwrite_from (buf : list Z) (n i : Z) : K uart unit :=
  loop (Z.to_nat (n - i) + 1) (fun i =>
    if i <? n then
      b <- gets tx_busy ;;
      if negb (b =? 0) then sleep tx_chan tx_lock
      else
        WriteReg THR (buf !!! Z.to_nat i) ;;
        modify (set_tx_busy 1) ;;
        ret (inl (i + 1))
    else ret (inr tt)) i ;;
  release tx_lock.

Definition uartwrite (buf : list Z) (n : Z) : K uart unit :=
  acquire tx_lock ;;
  uartwrite_from buf n 0.

(** [polls] bounds the turns of the loop that waits for the transmitter. *)
Definition uartputc_sync (polls : nat) (ch : Z) : K uart unit :=
  p <- gets panicked ;;
  if negb (p =? 0) then nofuel
  else
    loop polls (fun _ =>
      v <- ReadReg LSR ;;
      if Z.land v LSR_TX_IDLE =? 0 then ret (inl tt) else ret (inr tt)) tt ;;
    WriteReg THR (u8 ch).

Definition uartgetc : K uart Z :=
  v <- ReadReg LSR ;;
  if negb (Z.land v LSR_RX_READY =? 0) then ReadReg RHR else ret (-1).

(** The part of [uartintr] before the loop. *)
Definition uartintr_tx : K uart unit :=
  ReadReg ISR ;;
  acquire tx_lock ;;
  v <- ReadReg LSR ;;
  (if negb (Z.land v LSR_TX_IDLE =? 0) then
     modify (set_tx_busy 0) ;;
     wakeup tx_chan
   else skip) ;;
  release tx_lock.

(** ** What the driver does *)

Context {L : UartLaws U}.
Implicit Types (s : uart).

(** The driver's view of the device: what it has sent, what it may read. *)
Definition same_flags s s' : Prop := panicking s' = panicking s /\ panicked s' = panicked s.

Lemma uartputc_spec polls ch Q c s :
  panicked s = 0 -> (tx_time < polls)%nat ->
  (forall s', rx (dev s') = rx (dev s) -> tx (dev s') = tx (dev s) ++ [u8 ch] -> tx_busy s' = tx_busy s -> same_flags s s' -> Q tt c s') ->
  wp (uartputc_sync polls ch) Q c s.
Proof.
  intros Hp Hpolls HQ. unfold uartputc_sync. ksteps. rewrite Hp. cbn [Z.eqb negb]. apply wp_bind.
  apply wp_loop with (I := fun k _ c' s' => c' = c /\ (delay (dev s') < k)%nat /\ rx (dev s') = rx (dev s) /\ tx (dev s') = tx (dev s) /\ tx_busy s' = tx_busy s /\ same_flags s s').
  2: { pose proof (delay_bound (dev s)). split_and!; try done. lia. }
  intros k _ c' s' (-> & Hk & Hrx & Htx & Hb & Hf). destruct k as [|k]; [lia|]. exists k. split; [done|]. kstep.
  destruct (read_lsr (dev s')) as (v & d' & E & Hrx' & Htx' & Hd' & _ & Hi). unfold wp at 1, ReadReg. rewrite E.
  destruct (Z.eqb_spec (Z.land v LSR_TX_IDLE) 0) as [E0|E0]; apply wp_ret.
  - apply Hi in E0. cbn. split_and!; [done|lia|congruence..|done].
  - assert (delay (dev s') = 0%nat) by (destruct (delay (dev s')); [done|]; exfalso; by apply E0, Hi).
    destruct (write_thr d' (u8 ch)) as [Hr Ht]; [lia|]. apply wp_modify. apply HQ; cbn; congruence || done.
Qed.

Lemma uartgetc_spec Q c s :
  (forall s', rx (dev s') = tl (rx (dev s)) -> tx (dev s') = tx (dev s) -> tx_busy s' = tx_busy s -> same_flags s s' -> Q (hd (-1) (rx (dev s))) c s') ->
  wp uartgetc Q c s.
Proof.
  intros HQ. unfold uartgetc. kstep. destruct (read_lsr (dev s)) as (v & d' & E & Hrx & Htx & _ & Hr & _). unfold wp at 1, ReadReg at 1. rewrite E.
  destruct (Z.eqb_spec (Z.land v LSR_RX_READY) 0) as [E0|E0]; cbn [negb].
  - apply Hr in E0. apply wp_ret. rewrite E0 in HQ. apply HQ; cbn; congruence || done.
  - destruct (rx (dev s)) as [|ch l] eqn:El; [by destruct E0; apply Hr|]. destruct (read_rhr d' ch l) as (d2 & E2 & Hr2 & Ht2); [done|].
    unfold wp, ReadReg. cbn [dev set_dev]. rewrite E2. apply HQ; cbn; congruence || done.
Qed.

Lemma uartintr_tx_spec Q h w s : tx_lock ∉ h ->
  (forall s' b, rx (dev s') = rx (dev s) -> tx (dev s') = tx (dev s) -> same_flags s s' ->
     b = bool_decide (delay (dev s) = 0%nat) -> tx_busy s' = (if b then 0 else tx_busy s) -> Q tt (Ctx h (w ++ if b then [tx_chan] else [])) s') ->
  wp uartintr_tx Q (Ctx h w) s.
Proof.
  intros Hh HQ. unfold uartintr_tx. kstep. destruct (read_isr (dev s)) as (v & d & E & Hrx & Htx & Hd). unfold wp at 1, ReadReg at 1. rewrite E.
  kstep. apply wp_acquire; [done|]. kstep. destruct (read_lsr d) as (v' & d' & E' & Hrx' & Htx' & _ & _ & Hi). unfold wp at 1, ReadReg at 1. cbn [dev set_dev]. rewrite E'.
  kstep. rewrite Hd in Hi. destruct (Z.eqb_spec (Z.land v' LSR_TX_IDLE) 0) as [E0|E0]; cbn [negb]; ksteps.
  - rewrite <- (app_nil_r w). apply HQ with (b := false); cbn; try congruence; [done|]. rewrite bool_decide_false; [done|]. by apply Hi.
  - apply HQ with (b := true); cbn; try congruence; [done|]. rewrite bool_decide_true; [done|]. destruct (delay (dev s)); [done|]. by destruct E0; apply Hi.
Qed.
End driver.
#[global] Arguments uart : clear implicits.
#[global] Arguments uart U : assert.
