(* ===== verification/Console.v ===== *)
(** * kernel/console.c: the line discipline of the terminal

    [cons] is the input buffer with its three indices; [tty] adds the UART
    driver below it.  [consoleread] and [consolewrite] also have the memory [M]
    at the other end of [either_copyout] and [either_copyin]; a call that
    sleeps is resumed at its loop head.  The second part specifies the buffer
    as two lists of characters, those ready to be read and those still being
    edited. *)
From S2P Require Import Prelude Kmonad Mem Block Fs FsPath Printf Proc Uart.

Definition INPUT_BUF_SIZE : Z := 128.
Definition CONSOLE : Z := 1.

(** [C(x)]: Control-x *)
Definition Ctl (x : Z) : Z := x - 64.
Definition ctl_D : Z := Ctl 68.
Definition ctl_H : Z := Ctl 72.
Definition ctl_P : Z := Ctl 80.
Definition ctl_U : Z := Ctl 85.
Definition newline : Z := 10.
Definition carriage_return : Z := 13.

Record cons := Cons {
  cbuf : list Z;
  c_r : Z;         (** read index *)
  c_w : Z;         (** write index *)
  c_e : Z;         (** edit index *)
}.
Definition set_r v s := Cons (cbuf s) v (c_w s) (c_e s).
Definition set_w v s := Cons (cbuf s) (c_r s) v (c_e s).
Definition set_e v s := Cons (cbuf s) (c_r s) (c_w s) v.

Definition cons_lock : lockid := ("cons", 0).
Definition cons_chan : chan := ("cons.r", 0).
Definition pr_lock : lockid := ("pr", 0).

(** The bytes of a string constant. *)
Definition chars (s : string) : list Z := (fun a => Z.of_N (Ascii.N_of_ascii a)) <$> String.list_ascii_of_string s.

(** [states[]] of [procdump]; every value of the type has a name. *)
Definition states (st : procstate) : list Z :=
  match st with
  | UNUSED => chars "unused" | USED => chars "used" | SLEEPING => chars "sleep "
  | RUNNABLE => chars "runble" | RUNNING => chars "run   " | ZOMBIE => chars "zombie"
  end.

Section code.
Context {U : UartDev} (polls : nat).

Record tty := Tty { con : cons; ur : uart U }.
Definition cz {A} (m : K cons A) : K tty A := zoom con (fun s t => Tty s (ur t)) m.
Definition uz {A} (m : K (uart U) A) : K tty A := zoom ur (fun s t => Tty (con t) s) m.

Definition consputc (c : Z) : K (uart U) unit :=
  if c =? BACKSPACE then
    uartputc_sync polls 8 ;; uartputc_sync polls 32 ;; uartputc_sync polls 8
  else uartputc_sync polls c.

(** [printf] of the kernel: the bytes of [kprintf] go to the UART one by one. *)
Definition send (out : list Z) : K (uart U) unit := foldr (fun b m => uartputc_sync polls b ;; m) skip out.

Definition printf (fmt : list Z) (ap : list arg) : K (uart U) unit :=
  p <- gets panicking ;;
  when (p =? 0) (acquire pr_lock) ;;
  (match kprintf fmt ap with
   | Prints out => send out
   | Undefined => panic "undefined"
   | OutOfFuel => nofuel
   end) ;;
  p <- gets panicking ;;
  when (p =? 0) (release pr_lock).

Definition procdump_proc (p : proc) : K (uart U) unit :=
  if bool_decide (state p = UNUSED) then skip
  else
    printf (chars "%d %s %s") [Word (pid p); Str (Some (states (state p))); Str (Some (before_nul (pname p)))] ;;
    printf [newline] [].
Definition procdump (procs : list proc) : K (uart U) unit :=
  printf [newline] [] ;;
  foldr (fun p m => procdump_proc p ;; m) skip procs.

(** [cons.buf[cons.e++ % INPUT_BUF_SIZE] = c] *)
Definition put_char (c : Z) (s : cons) : cons :=
  Cons (<[Z.to_nat (c_e s mod INPUT_BUF_SIZE) := c]> (cbuf s)) (c_r s) (c_w s) (u32 (c_e s + 1)).

Definition kill_line : K tty unit :=
  loop (Z.to_nat INPUT_BUF_SIZE + 1) (fun _ =>
    s <- cz get ;;
    if negb (c_e s =? c_w s) && negb (cbuf s !!! Z.to_nat (u32 (c_e s - 1) mod INPUT_BUF_SIZE) =? newline) then
      cz (modify (set_e (u32 (c_e s - 1)))) ;;
      uz (consputc BACKSPACE) ;;
      ret (inl tt)
    else ret (inr tt)) tt.

Definition consoleintr (procs : list proc) (c : Z) : K tty unit :=
  acquire cons_lock ;;
  (if c =? ctl_P then uz (procdump procs)
   else if c =? ctl_U then kill_line
   else if (c =? ctl_H) || (c =? 0x7f) then
     s <- cz get ;;
     if negb (c_e s =? c_w s) then
       cz (modify (set_e (u32 (c_e s - 1)))) ;;
       uz (consputc BACKSPACE)
     else skip
   else
     s <- cz get ;;
     if negb (c =? 0) && (u32 (c_e s - c_r s) <? INPUT_BUF_SIZE) then
       let c := if c =? carriage_return then newline else c in
       uz (consputc c) ;;
       cz (modify (put_char c)) ;;
       s <- cz get ;;
       if (c =? newline) || (c =? ctl_D) || (u32 (c_e s - c_r s) =? INPUT_BUF_SIZE) then
         cz (modify (fun s => set_w (c_e s) s)) ;;
         wakeup cons_chan
       else skip
     else skip) ;;
  release cons_lock.

(** [uartintr] of uart.c, which calls [consoleintr]; [turns] bounds its loop. *)
Definition uartintr (turns : nat) (procs : list proc) : K tty unit :=
  uz uartintr_tx ;;
  loop turns (fun _ =>
    c <- uz uartgetc ;;
    if c =? -1 then ret (inr tt)
    else consoleintr procs c ;; ret (inl tt)) tt.

(** ** System calls *)

Section rw.
Context {M : Type} {MV : Mover M} (killed : K M Z).
Definition tz {A} (m : K tty A) : K (tty * M) A := zoom fst (fun t s => (t, snd s)) m.
Definition mz {A} (m : K M A) : K (tty * M) A := zoom snd (fun m s => (fst s, m)) m.

(** From the loop head, with [n] bytes of [target] to go and the lock held. *)
Definition consoleread_from (target dst n : Z) : K (tty * M) Z :=
  r <- loop (Z.to_nat n + 1) (fun '(n, dst) =>
    if 0 <? n then
      s <- tz (cz get) ;;
      if c_r s =? c_w s then
        k <- mz killed ;;
        if negb (k =? 0) then release cons_lock ;; ret (inr None)
        else sleep cons_chan cons_lock
      else
        let c := cbuf s !!! Z.to_nat (c_r s mod INPUT_BUF_SIZE) in
        tz (cz (modify (set_r (u32 (c_r s + 1))))) ;;
        if c =? ctl_D then
          when (u32 n <? target) (tz (cz (modify (fun s => set_r (u32 (c_r s - 1)) s)))) ;;
          ret (inr (Some n))
        else
          r <- mz (either_copyout dst [c]) ;;
          if r =? -1 then ret (inr (Some n))
          else if c =? newline then ret (inr (Some (n - 1)))
          else ret (inl (n - 1, u64 (dst + 1)))
    else ret (inr (Some n))) (n, dst) ;;
  match r with
  | None => ret (-1)
  | Some n => release cons_lock ;; ret (i32 (target - n))
  end.

Definition consoleread (dst n : Z) : K (tty * M) Z :=
  acquire cons_lock ;;
  consoleread_from (u32 n) dst n.

(** From the loop head with [i] bytes handed to the UART; [consolewrite_resume]
    goes on inside [uartwrite] with [j] of the [nn] bytes of [buf] sent. *)
Definition consolewrite_from (src n i : Z) : K (tty * M) Z :=
  loop (Z.to_nat (n - i) + 1) (fun i =>
    if i <? n then
      let nn := if 32 >? n - i then n - i else 32 in
      x <- mz (either_copyin (replicate (Z.to_nat nn) 0) (u64 (src + i))) ;;
      if snd x =? -1 then ret (inr i)
      else
        tz (uz (uartwrite (fst x) nn)) ;;
        ret (inl (i + nn))
    else ret (inr i)) i.
Definition consolewrite_resume (src n i nn : Z) (buf : list Z) (j : Z) : K (tty * M) Z :=
  tz (uz (uartwrite_from buf nn j)) ;;
  consolewrite_from src n (i + nn).
Definition consolewrite (src n : Z) : K (tty * M) Z := consolewrite_from src n 0.

Definition consoleinit : K tty unit :=
  initlock cons_lock ;;
  uz uartinit.
(** The entries of [devsw] that [consoleinit] sets: [read] and [write]. *)
Definition console_devsw (devsw : Z -> option (Z -> Z -> K (tty * M) Z) * option (Z -> Z -> K (tty * M) Z)) (major : Z) :=
  if major =? CONSOLE then (Some consoleread, Some consolewrite) else devsw major.
End rw.
End code.
#[global] Arguments tty : clear implicits.
#[global] Arguments tty U : assert.
