(* ===== verification/ConsoleSpec.v ===== *)
(** * What a terminal does with what is typed

    [line] is the specification: the characters ready to be read and those
    being edited.  [cons_is] relates it to the ring buffer of console.c, and
    the theorems show that [uartintr] (with [uartgetc], [consoleintr],
    [consputc] and [procdump] below it) and [consoleread] refine it. *)
From S2P Require Import Prelude Ring Kmonad Mem Block Fs FsPath Printf Proc Uart Console.

(** ** The specification *)

Record line := Line { ready : list Z; editing : list Z }.

Definition is_end (c : Z) : bool := (c =? newline) || (c =? ctl_D).
Definition line_len (l : line) : Z := Z.of_nat (length (ready l) + length (editing l)).

(** The character [c] is typed. *)
Definition line_type (l : line) (c : Z) : line :=
  if c =? ctl_P then l
  else if c =? ctl_U then Line (ready l) []
  else if (c =? ctl_H) || (c =? 0x7f) then Line (ready l) (removelast (editing l))
  else if negb (c =? 0) && (line_len l <? INPUT_BUF_SIZE) then
    let c := if c =? carriage_return then newline else c in
    if is_end c || (line_len l + 1 =? INPUT_BUF_SIZE) then Line (ready l ++ editing l ++ [c]) []
    else Line (ready l) (editing l ++ [c])
  else l.

(** A process listing, as [procdump] prints it. *)
Definition proc_text (p : proc) : list Z :=
  if bool_decide (state p = UNUSED) then []
  else default [] (kprintint kdigits (i32 (pid p)) 10 true) ++ 32 :: states (state p) ++ 32 :: before_nul (pname p) ++ [newline].
Definition procs_text (procs : list proc) : list Z := newline :: concat (proc_text <$> procs).

(** What is shown for it. *)
Definition erase : list Z := [8; 32; 8].
Definition line_echo (procs : list proc) (l : line) (c : Z) : list Z :=
  if c =? ctl_P then procs_text procs
  else if c =? ctl_U then concat (replicate (length (editing l)) erase)
  else if (c =? ctl_H) || (c =? 0x7f) then (if bool_decide (editing l = []) then [] else erase)
  else if negb (c =? 0) && (line_len l <? INPUT_BUF_SIZE) then [if c =? carriage_return then newline else c]
  else [].

Fixpoint echoes (procs : list proc) (l : line) (cs : list Z) : list Z :=
  match cs with [] => [] | c :: cs => line_echo procs l c ++ echoes procs (line_type l c) cs end.

(** A read of at most [n] characters: what it gets, what is left, and whether
    it is complete or waits for more.  [fresh]: nothing has been read yet. *)
Fixpoint take_line (n : nat) (fresh : bool) (cs : list Z) : list Z * list Z * bool :=
  match n with
  | O => ([], cs, true)
  | S n =>
      match cs with
      | [] => ([], [], false)
      | c :: cs =>
          if c =? ctl_D then ([], if fresh then cs else c :: cs, true)
          else if c =? newline then ([c], cs, true)
          else let '(out, rest, fin) := take_line n false cs in (c :: out, rest, fin)
      end
  end.

(** ** The ring buffer *)

Lemma u32_slot x : u32 x mod INPUT_BUF_SIZE = x mod INPUT_BUF_SIZE.
Proof. unfold u32, INPUT_BUF_SIZE. zlia. Qed.
Lemma INPUT_BUF_SIZE_pos : 0 < INPUT_BUF_SIZE.
Proof. done. Qed.

(** The buffer [s] holds the line [l]. *)
Record cons_is (s : cons) (l : line) : Prop := {
  ci_len : length (cbuf s) = Z.to_nat INPUT_BUF_SIZE;
  ci_r : 0 <= c_r s < 2 ^ 32;
  ci_w : c_w s = u32 (c_r s + Z.of_nat (length (ready l)));
  ci_e : c_e s = u32 (c_r s + line_len l);
  ci_cap : line_len l <= INPUT_BUF_SIZE;
  ci_ring : ring_is INPUT_BUF_SIZE (cbuf s) (c_r s) (ready l ++ editing l);
  ci_edit : Forall (fun c => is_end c = false) (editing l);
}.

Lemma ci_empty s l : cons_is s l -> (c_e s =? c_w s) = bool_decide (editing l = []).
Proof.
  intros [_ Hr Hw He Hc _ _]. rewrite Hw, He. unfold line_len in *. case_bool_decide as E.
  - apply Z.eqb_eq. rewrite E. f_equal. cbn. lia.
  - apply Z.eqb_neq. assert (length (editing l) <> 0)%nat by (by intros ?%nil_length_inv).
    unfold u32, INPUT_BUF_SIZE in *. zlia.
Qed.

Lemma ci_unread s l : cons_is s l -> (c_r s =? c_w s) = bool_decide (ready l = []).
Proof.
  intros [_ Hr Hw He Hc _ _]. rewrite Hw. unfold line_len in *. case_bool_decide as E.
  - apply Z.eqb_eq. rewrite E. cbn. rewrite Z.add_0_r, u32_id; done.
  - apply Z.eqb_neq. assert (length (ready l) <> 0)%nat by (by intros ?%nil_length_inv).
    unfold u32, INPUT_BUF_SIZE in *. zlia.
Qed.

Lemma ci_count s l : cons_is s l -> u32 (c_e s - c_r s) = line_len l.
Proof. intros [_ Hr Hw He Hc _ _]. rewrite He. unfold line_len, u32, INPUT_BUF_SIZE in *. zlia. Qed.

(** The last character is dropped. *)
Lemma ci_back s R E x : cons_is s (Line R (E ++ [x])) ->
  cons_is (set_e (u32 (c_e s - 1)) s) (Line R E) /\ cbuf s !!! Z.to_nat (u32 (c_e s - 1) mod INPUT_BUF_SIZE) = x.
Proof.
  intros [Hl Hr Hw He Hc Hring Hed]. cbn [ready editing] in *. unfold line_len in *. cbn [ready editing] in *. rewrite length_app in *. cbn [length] in *.
  rewrite app_assoc in Hring. apply ring_app in Hring as [Hring Hx]. apply Forall_app in Hed as [Hed _].
  assert (u32 (c_e s - 1) = u32 (c_r s + Z.of_nat (length R + length E))) as Ee by (rewrite He; unfold u32; zlia). split.
  - split; cbn [set_e cbuf c_r c_w c_e ready editing]; unfold line_len; cbn [ready editing]; try done. lia.
  - rewrite Ee, u32_slot. apply ring_one in Hx. rewrite length_app in Hx. done.
Qed.

(** A character is added. *)
Lemma ci_put s l c : cons_is s l -> line_len l < INPUT_BUF_SIZE ->
  let s' := put_char c s in
  u32 (c_e s' - c_r s') = line_len l + 1 /\
  (is_end c = false -> cons_is s' (Line (ready l) (editing l ++ [c]))) /\
  cons_is (set_w (c_e s') s') (Line (ready l ++ editing l ++ [c]) []).
Proof.
  destruct l as [R E]. intros [Hl Hr Hw He Hc Hring Hed] Hlt. unfold line_len in *. cbn [ready editing] in *.
  set (n := (length R + length E)%nat) in *.
  assert (u32 (c_e s + 1) = u32 (c_r s + Z.of_nat (n + 1))) as Ee by (rewrite He; unfold u32; zlia).
  assert (ring_is INPUT_BUF_SIZE (<[Z.to_nat (c_e s mod INPUT_BUF_SIZE) := c]> (cbuf s)) (c_r s) ((R ++ E) ++ [c])) as Hring'.
  { rewrite He, u32_slot. unfold n. rewrite <- length_app. apply (ring_snoc INPUT_BUF_SIZE INPUT_BUF_SIZE_pos); [done|rewrite length_app; lia|done]. }
  rewrite <- app_assoc in Hring'. split_and!; cbn [put_char c_e c_r cbuf c_w set_w].
  - rewrite Ee. unfold u32, INPUT_BUF_SIZE in *. zlia.
  - intros Hc0. split; cbn [put_char c_e c_r cbuf c_w ready editing]; unfold line_len; cbn [ready editing]; rewrite ?length_insert, ?length_app; cbn [length]; try done; [| |].
    + rewrite Ee. f_equal. lia.
    + lia.
    + apply Forall_app. by split; [|constructor].
  - split; cbn [put_char c_e c_r cbuf c_w ready editing set_w]; unfold line_len; cbn [ready editing]; rewrite ?app_nil_r, ?length_insert, ?length_app; cbn [length]; try done; [| |].
    + rewrite Ee. f_equal. lia.
    + rewrite Ee. f_equal. lia.
    + lia.
Qed.

(** The first ready character is taken, or put back. *)
Lemma ci_take s c R E : cons_is s (Line (c :: R) E) ->
  cbuf s !!! Z.to_nat (c_r s mod INPUT_BUF_SIZE) = c /\
  cons_is (set_r (u32 (c_r s + 1)) s) (Line R E) /\ u32 (u32 (c_r s + 1) - 1) = c_r s.
Proof.
  intros [Hl Hr Hw He Hc Hring Hed]. unfold line_len in *. cbn [ready editing length] in *.
  change ((c :: R) ++ E) with ([c] ++ (R ++ E)) in Hring. apply ring_app in Hring as [Hx Hring]. apply ring_one in Hx. split_and!; [done| |unfold u32; zlia].
  split; cbn [set_r cbuf c_r c_w c_e ready editing]; unfold line_len; cbn [ready editing]; try done.
  - apply u32_range.
  - rewrite Hw. unfold u32. zlia.
  - rewrite He. unfold u32. zlia.
  - lia.
  - apply (ring_mod _ _ (c_r s + 1)); [by rewrite u32_slot|exact Hring].
Qed.

(** ** Output *)

Section input.
Context {U : UartDev} {L : UartLaws U} (polls : nat) (Hpolls : (tx_time < polls)%nat).
Implicit Types (s : uart U) (t : tty U).

(** From [s] to [s'] the driver sent [out]. *)
Record sends (out : list Z) s s' : Prop := {
  sn_rx : rx (dev s') = rx (dev s);
  sn_tx : tx (dev s') = tx (dev s) ++ out;
  sn_busy : tx_busy s' = tx_busy s;
  sn_flags : same_flags s s';
}.

Lemma sends_nil s : sends [] s s.
Proof. by split; rewrite ?app_nil_r. Qed.
Lemma sends_app o1 o2 s1 s2 s3 : sends o1 s1 s2 -> sends o2 s2 s3 -> sends (o1 ++ o2) s1 s3.
Proof. intros [H1 H2 H3 [H4 H5]] [G1 G2 G3 [G4 G5]]. split; [congruence| |congruence|split; congruence]. by rewrite G2, H2, app_assoc. Qed.
Lemma sends_panicked out s s' : sends out s s' -> panicked s = 0 -> panicked s' = 0.
Proof. intros [_ _ _ [_ ->]]. done. Qed.
Lemma sends_panicking out s s' : sends out s s' -> panicking s' = panicking s.
Proof. by intros [_ _ _ [-> _]]. Qed.

Lemma putc_sends ch Q c s : panicked s = 0 -> (forall s', sends [u8 ch] s s' -> Q tt c s') -> wp (uartputc_sync polls ch) Q c s.
Proof. intros Hp HQ. apply uartputc_spec; [done..|]. intros. by apply HQ. Qed.

Lemma consputc_sends ch Q c s : panicked s = 0 -> (forall s', sends (u8 <$> consputc_bytes ch) s s' -> Q tt c s') -> wp (consputc polls ch) Q c s.
Proof.
  intros Hp HQ. unfold consputc, consputc_bytes in *. destruct (ch =? BACKSPACE).
  - kstep. apply putc_sends; [done|]. intros s1 H1. kstep. apply putc_sends; [by eapply sends_panicked|]. intros s2 H2.
    apply putc_sends; [do 2 (eapply sends_panicked; [done|]); done|]. intros s3 H3. apply HQ.
    apply (sends_app [u8 8] [u8 32; u8 8] s s1 s3); [done|]. by apply (sends_app [u8 32] [u8 8] s1 s2 s3).
  - apply putc_sends; [done|]. intros s' Hs. apply HQ. cbn. replace (u8 (u8 ch)) with (u8 ch); [done|]. rewrite (u8_id (u8 ch)); [done|apply u8_range].
Qed.

Lemma send_sends out Q c s : panicked s = 0 -> (forall s', sends (u8 <$> out) s s' -> Q tt c s') -> wp (send polls out) Q c s.
Proof.
  revert Q s. induction out as [|b out IH]; intros Q s Hp HQ; cbn [send foldr].
  - kstep. apply HQ, sends_nil.
  - kstep. apply putc_sends; [done|]. intros s1 H1. apply IH; [by eapply sends_panicked|]. intros s2 H2. apply HQ. by apply (sends_app [u8 b] _ s s1 s2).
Qed.

Lemma printf_sends fmt ap out Q h w s : kprintf fmt ap = Prints out -> pr_lock ∉ h -> panicked s = 0 ->
  (forall s', sends (u8 <$> out) s s' -> Q tt (Ctx h w) s') -> wp (printf polls fmt ap) Q (Ctx h w) s.
Proof.
  intros E Hh Hp HQ. unfold printf. rewrite E. ksteps.
  destruct (Z.eqb_spec (panicking s) 0) as [E0|E0]; cbn [when]; [apply wp_acquire; [done|]|kstep]; kstep;
    (apply send_sends; [done|]; intros s' Hs; ksteps; rewrite (sends_panicking _ _ _ Hs)).
  - rewrite E0. cbn [Z.eqb when]. kstep. by apply HQ.
  - rewrite (proj2 (Z.eqb_neq _ _)) by done. cbn [when]. kstep. by apply HQ.
Qed.

Lemma i32_prints v : exists out, kprintint kdigits (i32 v) 10 true = Some out.
Proof.
  destruct (printint_spec kdigits (i32 v) 10 true kdigits_ok (or_introl eq_refl)) as (out & H & _); [|by exists out].
  pose proof (i32_range v). lia.
Qed.

Lemma dump_line v a b : kprintf (chars "%d %s %s") [Word v; Str (Some a); Str (Some b)] =
  Prints (default [] (kprintint kdigits (i32 v) 10 true) ++ 32 :: a ++ 32 :: b).
Proof.
  destruct (i32_prints v) as [out E]. unfold kprintf. change (chars "%d %s %s") with [37; 100; 32; 37; 115; 32; 37; 115]. rewrite E.
  cbn -[kprintint]. unfold conv_word. cbn -[kprintint]. rewrite E. cbn. by rewrite app_nil_r.
Qed.

Lemma procdump_sends procs Q h w s : pr_lock ∉ h -> panicked s = 0 ->
  (forall s', sends (u8 <$> procs_text procs) s s' -> Q tt (Ctx h w) s') -> wp (procdump polls procs) Q (Ctx h w) s.
Proof.
  intros Hh Hp HQ. unfold procdump. kstep. apply (printf_sends _ _ [newline]); [done..|]. intros s1 H1.
  assert (panicked s1 = 0) as Hp1 by (by eapply sends_panicked).
  assert (forall s', sends (u8 <$> concat (proc_text <$> procs)) s1 s' -> Q tt (Ctx h w) s') as HQ1.
  { intros s' Hs. apply HQ. by apply (sends_app [u8 newline] _ s s1 s'). }
  clear H1 HQ Hp. revert Q s1 Hp1 HQ1. induction procs as [|p procs IH]; intros Q s1 Hp1 HQ1; cbn [foldr fmap list_fmap concat] in *.
  - kstep. apply HQ1, sends_nil.
  - kstep. unfold procdump_proc, proc_text in *. case_bool_decide; [kstep; by apply IH|].
    kstep. apply (printf_sends _ _ _ _ _ _ _ (dump_line _ _ _)); [done..|]. intros s2 H2. assert (panicked s2 = 0) by (by eapply sends_panicked).
    apply (printf_sends _ _ [newline]); [done..|]. intros s3 H3. apply IH; [by eapply sends_panicked|]. intros s4 H4. apply HQ1.
    rewrite fmap_app. eapply sends_app; [|done]. pose proof (sends_app _ _ _ _ _ H2 H3) as Hs. rewrite <- fmap_app in Hs.
    by rewrite <- app_assoc, <- app_comm_cons, <- app_assoc, <- app_comm_cons in Hs.
Qed.

(** ** Input *)

Lemma u8_erase : u8 <$> erase = erase.
Proof. reflexivity. Qed.
Lemma back_bytes : u8 <$> consputc_bytes BACKSPACE = erase.
Proof. reflexivity. Qed.
Lemma erase_snoc n : concat (replicate (n + 1) erase) = concat (replicate n erase) ++ erase.
Proof. rewrite replicate_add, concat_app. cbn [replicate concat]. by rewrite app_nil_r. Qed.

Lemma kill_line_spec R E Q c t : panicked (ur t) = 0 -> cons_is (con t) (Line R E) ->
  (forall t', cons_is (con t') (Line R []) -> sends (concat (replicate (length E) erase)) (ur t) (ur t') -> Q tt c t') ->
  wp (kill_line polls) Q c t.
Proof.
  intros Hp Hok HQ. unfold kill_line.
  apply wp_loop with (I := fun k _ c' t' => c' = c /\ exists E1 E2, E = E1 ++ E2 /\ (length E1 < k)%nat /\ cons_is (con t') (Line R E1) /\
    sends (concat (replicate (length E2) erase)) (ur t) (ur t')).
  2: { split; [done|]. exists E, []. rewrite app_nil_r. split_and!; [done| |done|apply sends_nil].
       pose proof (ci_cap _ _ Hok) as Hc. unfold line_len, INPUT_BUF_SIZE in *. cbn [ready editing] in Hc. lia. }
  intros k _ c' t' (-> & E1 & E2 & -> & Hk & Hok' & Hs). destruct k as [|k]; [lia|]. exists k. split; [done|].
  unfold cz at 1. kstep. apply wp_zoom. kstep. rewrite (ci_empty _ _ Hok'). cbn [editing].
  destruct E1 as [|x E1 _] using rev_ind.
  { rewrite bool_decide_true by done. cbn [negb andb]. kstep. cbn [length app] in *. destruct t'. by apply HQ. }
  rewrite bool_decide_false by (by destruct E1). destruct (ci_back _ _ _ _ Hok') as [Hback ->].
  pose proof (ci_edit _ _ Hok') as Hed. cbn [editing] in Hed. apply Forall_app in Hed as [_ Hx%Forall_inv]. unfold is_end in Hx.
  apply orb_false_iff in Hx as [-> _]. cbn [negb andb]. unfold cz, uz. kstep. apply wp_zoom. kstep. cbn [con ur]. kstep. apply wp_zoom.
  apply consputc_sends; [by eapply sends_panicked|]. cbn [ur]. intros s' Hs'. kstep. split; [done|]. exists E1, (x :: E2). rewrite length_app in Hk. cbn [length] in *.
  split_and!; [by rewrite <- app_assoc|lia|done|]. replace (S (length E2)) with (length E2 + 1)%nat by lia. rewrite erase_snoc. cbn [ur]. rewrite back_bytes in Hs'. by eapply sends_app.
Qed.

Lemma removelast_snoc {A} (l : list A) x : removelast (l ++ [x]) = l.
Proof. rewrite removelast_app by done. cbn. apply app_nil_r. Qed.

(** Readers are woken when something has become ready. *)
Definition wakes (l l' : line) : list chan := if bool_decide (ready l' = ready l) then [] else [cons_chan].

Lemma ready_grows R E (c : Z) : R ++ E ++ [c] <> R.
Proof. intros Eq%(f_equal length). rewrite !length_app in Eq. cbn in Eq. lia. Qed.

Lemma consoleintr_spec procs ch l Q h w t : cons_lock ∉ h -> pr_lock ∉ h -> panicked (ur t) = 0 -> cons_is (con t) l -> 0 <= ch < 256 ->
  (forall t', cons_is (con t') (line_type l ch) -> sends (u8 <$> line_echo procs l ch) (ur t) (ur t') -> Q tt (Ctx h (w ++ wakes l (line_type l ch))) t') ->
  wp (consoleintr polls procs ch) Q (Ctx h w) t.
Proof.
  intros Hh1 Hh2 Hp Hok Hch HQ. unfold consoleintr. kstep. apply wp_acquire; [done|]. cbn [held woken]. kstep.
  unfold line_type, line_echo, wakes in *. destruct l as [R E]. cbn [ready editing] in *.
  destruct (ch =? ctl_P).
  { unfold uz. apply wp_zoom, procdump_sends; [|done|]. { intros [?|?]%elem_of_cons; done. }
    intros s' Hs. kstep. rewrite bool_decide_true, app_nil_r in HQ by done. by apply HQ. }
  destruct (ch =? ctl_U).
  { apply (kill_line_spec R E); [done..|]. intros t' Hok' Hs. kstep. rewrite bool_decide_true, app_nil_r in HQ by done. apply HQ; [done|].
    replace (u8 <$> _) with (concat (replicate (length E) erase)); [done|]. clear. induction (length E) as [|n IH]; [done|]. cbn [replicate concat]. by rewrite fmap_app, <- IH. }
  destruct ((ch =? ctl_H) || (ch =? 0x7f)).
  { unfold cz at 1. kstep. apply wp_zoom. kstep. rewrite (ci_empty _ _ Hok). cbn [ready editing] in *. rewrite (bool_decide_true (R = R)), app_nil_r in HQ by done.
    destruct E as [|x E _] using rev_ind.
    - rewrite bool_decide_true in * by done. cbn [negb]. ksteps. destruct t. apply HQ; [done|apply sends_nil].
    - rewrite bool_decide_false in * by (by destruct E). cbn [negb]. rewrite removelast_snoc in HQ. destruct (ci_back _ _ _ _ Hok) as [Hback _].
      unfold cz, uz. kstep. apply wp_zoom. kstep. cbn [con ur]. apply wp_zoom, consputc_sends; [done|]. intros s' Hs. kstep. apply HQ; [done|].
      by rewrite back_bytes in Hs. }
  unfold cz at 1. kstep. apply wp_zoom. kstep. rewrite (ci_count _ _ Hok).
  destruct (negb (ch =? 0) && (line_len (Line R E) <? INPUT_BUF_SIZE)) eqn:Eroom.
  2: { ksteps. rewrite bool_decide_true, app_nil_r in HQ by done. destruct t. apply HQ; [done|apply sends_nil]. }
  apply andb_prop in Eroom as [_ Hroom%Z.ltb_lt]. set (c := if ch =? carriage_return then newline else ch) in *.
  assert (0 <= c < 256) as Hc by (unfold c, newline; destruct (ch =? _); lia).
  unfold uz. kstep. apply wp_zoom, consputc_sends; [done|]. intros s' Hs. unfold cz at 1. kstep. apply wp_zoom. kstep. unfold cz at 1. kstep. apply wp_zoom. kstep. cbn [con ur].
  destruct (ci_put _ _ c Hok Hroom) as (Hn & Hput & Hcommit). cbn [ready editing] in *. rewrite Hn.
  assert (sends (u8 <$> [c]) (ur t) s') as Hs1.
  { unfold consputc_bytes in Hs. rewrite (proj2 (Z.eqb_neq _ _)) in Hs by (unfold BACKSPACE; lia). cbn in *. by rewrite u8_id in Hs by apply u8_range. }
  fold (is_end c) in *. destruct (is_end c || (line_len (Line R E) + 1 =? INPUT_BUF_SIZE)) eqn:Eend.
  - unfold cz. kstep. apply wp_zoom. ksteps. cbn [ready] in HQ. rewrite bool_decide_false in HQ by apply ready_grows. by apply HQ.
  - ksteps. apply orb_false_iff in Eend as [Eend _]. cbn [ready] in HQ. rewrite bool_decide_true, app_nil_r in HQ by done. apply HQ; [by apply Hput|done].
Qed.
End input.

(** C26: An interrupt of the UART: every character received goes through the
    line discipline (erase, kill, end of line, end of file, a full buffer),
    in order and with its echo, the echo of Control-P being the process
    listing; the transmitter is marked free and its writers are woken when it
    is idle; and readers are woken when characters have become ready. *)
Theorem uartintr_edits_lines {U : UartDev} {L : UartLaws U} polls turns procs l (t : tty U) w :
  (tx_time < polls)%nat -> (length (rx (dev (ur t))) < turns)%nat -> panicked (ur t) = 0 -> cons_is (con t) l ->
  let typed := rx (dev (ur t)) in
  let l' := foldl line_type l typed in
  wp (uartintr polls turns procs)
    (fun _ c' t' => held c' = [] /\ cons_is (con t') l' /\ rx (dev (ur t')) = [] /\
       tx (dev (ur t')) = tx (dev (ur t)) ++ (u8 <$> echoes procs l typed) /\
       (delay (dev (ur t)) = 0%nat -> tx_busy (ur t') = 0 /\ tx_chan ∈ woken c') /\
       (ready l' <> ready l -> cons_chan ∈ woken c'))
    (Ctx [] w) t.
Proof.
  intros Hpolls Hturns Hp Hok typed l'. unfold uartintr. kstep. unfold uz at 1. apply wp_zoom, uartintr_tx_spec; [set_solver|].
  intros s b Hrx Htx [_ Hp'] Hb Hbusy. set (w1 := w ++ _).
  apply wp_loop with (I := fun k _ c' t' => exists pre post, typed = pre ++ post /\ held c' = [] /\ (length post < k)%nat /\ panicked (ur t') = 0 /\
    rx (dev (ur t')) = post /\ tx (dev (ur t')) = tx (dev (ur t)) ++ (u8 <$> echoes procs l pre) /\ tx_busy (ur t') = tx_busy s /\
    cons_is (con t') (foldl line_type l pre) /\ w1 `prefix_of` woken c' /\ (ready (foldl line_type l pre) = ready l \/ cons_chan ∈ woken c')).
  2: { exists [], typed. cbn. rewrite app_nil_r. split_and!; try done; try congruence. by left. }
  intros k _ [h w2] t' (pre & post & Etyped & Hh & Hk & Hp2 & Hrx2 & Htx2 & Hb2 & Hok2 & Hw2 & Hr2). cbn [held woken] in *. subst h. destruct k as [|k]; [lia|].
  exists k. split; [done|]. unfold uz. kstep. apply wp_zoom, uartgetc_spec. intros s' Hrx3 Htx3 Hb3 [_ Hp3]. rewrite Hrx2 in *.
  assert (Forall (fun ch => 0 <= ch < 256) post) as Hbytes by (rewrite <- Hrx2; apply rx_bytes).
  destruct post as [|ch post]; cbn [hd tl] in *.
  - rewrite Z.eqb_refl. kstep. cbn [held woken ur con]. rewrite app_nil_r in Etyped. subst pre. split_and!; try done; [congruence| |].
    + intros Hd. rewrite bool_decide_true in Hb by done. subst b. split; [congruence|].
      destruct Hw2 as [x ->]. unfold w1. set_solver.
    + intros Hne. by destruct Hr2.
  - apply Forall_cons in Hbytes as [Hch _]. rewrite (proj2 (Z.eqb_neq ch (-1))) by lia. kstep.
    apply (consoleintr_spec polls Hpolls procs ch (foldl line_type l pre)); [set_solver|set_solver|cbn; congruence|done|done|].
    intros t2 Hok3 [Hrx4 Htx4 Hb4 [_ Hp4]]. kstep. cbn [ur] in *. exists (pre ++ [ch]), post. rewrite foldl_app. cbn [foldl held woken length] in *. split_and!; try done.
    + by rewrite Etyped, <- app_assoc.
    + lia.
    + congruence.
    + congruence.
    + rewrite Htx4, Htx3, Htx2, <- app_assoc, <- fmap_app. do 2 f_equal. clear. revert l. induction pre as [|x pre IH]; intros l; cbn; [by rewrite app_nil_r|]. by rewrite <- app_assoc, IH.
    + congruence.
    + destruct Hw2 as [x ->]. exists (x ++ wakes (foldl line_type l pre) (line_type (foldl line_type l pre) ch)). by rewrite app_assoc.
    + clear Hb. unfold wakes. case_bool_decide as Er; [rewrite Er, app_nil_r; done|]. right. set_solver.
Qed.

(** ** Reading *)

Lemma take_line_fits n fresh cs out rest fin : take_line n fresh cs = (out, rest, fin) ->
  (length out <= n)%nat /\ (fin = false -> rest = [] /\ (length out < n)%nat).
Proof.
  revert fresh cs out rest fin. induction n as [|n IH]; intros fresh cs out rest fin; cbn; [by intros [= <- <- <-]|].
  destruct cs as [|c cs]; [intros [= <- <- <-]; cbn; lia || (split; [lia|split; [done|cbn; lia]])|].
  destruct (c =? ctl_D); [intros [= <- <- <-]; split; [cbn; lia|done]|]. destruct (c =? newline); [intros [= <- <- <-]; split; [cbn; lia|done]|].
  destruct (take_line n false cs) as [[o r] f] eqn:E. intros [= <- <- <-]. destruct (IH _ _ _ _ _ E) as [H1 H2]. cbn. split; [lia|].
  intros Hf. destruct (H2 Hf). split; [done|lia].
Qed.

(** A read that waited gets what it would have got had everything been there. *)
Lemma take_line_resume n fresh cs out rest more : take_line n fresh cs = (out, rest, false) ->
  take_line n fresh (cs ++ more) =
    let '(out2, rest2, fin2) := take_line (n - length out) (fresh && bool_decide (out = [])) more in (out ++ out2, rest2, fin2).
Proof.
  revert fresh cs out rest. induction n as [|n IH]; intros fresh cs out rest; cbn [take_line]; [done|].
  destruct cs as [|c cs].
  { intros [= <- <-]. cbn [app length]. rewrite Nat.sub_0_r, bool_decide_true, andb_true_r by done. transitivity (take_line (S n) fresh more); [done|]. by destruct (take_line (S n) fresh more) as [[? ?] ?]. }
  cbn [app]. destruct (c =? ctl_D); [done|]. destruct (c =? newline); [done|].
  destruct (take_line n false cs) as [[o r] f] eqn:E. intros [= <- <- ->]. rewrite (IH _ _ _ _ E). cbn [length Nat.sub andb].
  rewrite bool_decide_false, andb_false_r by done. by destruct (take_line (n - length o) false more) as [[? ?] ?].
Qed.

(** C27: A read from the terminal, from its call or after a wakeup with [n] of
    the [target] bytes to go: it copies out ready characters up to [n] of
    them, a whole line, or the end-of-file character, which it swallows only
    when it has nothing else to return; it goes to sleep exactly when it has
    used up what is ready and is not killed; what is being edited is never
    handed out.  Resumed with [more] ready, it delivers what one read of
    everything would have delivered. *)
Theorem consoleread_takes_line {U : UartDev} (killed : K (list Z) Z) (k target dst n : Z) mem l (t : tty U) out rest fin w :
  (forall c m, killed c m = Ok k c m) ->
  0 <= n <= target -> target < 2 ^ 31 -> 0 <= dst -> dst + n <= Z.of_nat (length mem) -> dst + n < 2 ^ 64 ->
  cons_is (con t) l -> take_line (Z.to_nat n) (n =? target) (ready l) = (out, rest, fin) ->
  wpx (acquire cons_lock ;; consoleread_from killed target dst n)
    (fun r c' t' => c' = Ctx [] w /\ cons_is (con (fst t')) (Line rest (editing l)) /\ ur (fst t') = ur t /\ snd t' = putb dst out mem /\
       if fin then r = target - n + Z.of_nat (length out) else r = -1 /\ k <> 0)
    (fun ch c' t' => ch = cons_chan /\ c' = Ctx [] w /\ cons_is (con (fst t')) (Line [] (editing l)) /\ ur (fst t') = ur t /\
       snd t' = putb dst out mem /\ fin = false /\ k = 0)
    (Ctx [] w) (t, mem) /\
  (fin = false -> forall more, take_line (Z.to_nat n) (n =? target) (ready l ++ more) =
     let '(out2, rest2, fin2) := take_line (Z.to_nat (n - Z.of_nat (length out))) (n - Z.of_nat (length out) =? target) more in (out ++ out2, rest2, fin2)).
Proof.
  intros Hkilled Hn Htgt Hdst Hmem Hw64 Hok Htake. destruct (take_line_fits _ _ _ _ _ _ Htake) as [Hfit Hwait]. split.
  2: { intros -> more. rewrite (take_line_resume _ _ _ _ _ more Htake). replace (Z.to_nat (n - _)) with (Z.to_nat n - length out)%nat by lia.
       replace (n - _ =? target) with ((n =? target) && bool_decide (out = [])); [done|].
       case_bool_decide as E; [rewrite E; cbn; by rewrite Z.sub_0_r, andb_true_r|]. rewrite andb_false_r. symmetry. apply Z.eqb_neq.
       assert (length out <> 0)%nat by (by intros ?%nil_length_inv). lia. }
  apply wpx_bind_wp, wp_acquire; [set_solver|]. cbn [held woken]. unfold consoleread_from. apply wpx_bind.
  apply wpx_loop with (I := fun fuel '(m, a) c' t' => exists o1 o2 R, out = o1 ++ o2 /\ m = n - Z.of_nat (length o1) /\ a = dst + Z.of_nat (length o1) /\
    0 <= m < Z.of_nat fuel /\ take_line (Z.to_nat m) (m =? target) R = (o2, rest, fin) /\ c' = Ctx [cons_lock] w /\
    cons_is (con (fst t')) (Line R (editing l)) /\ ur (fst t') = ur t /\ snd t' = putb dst o1 mem).
  2: { exists [], out, (ready l). cbn. rewrite Z.sub_0_r, Z.add_0_r, putb_nil by lia. destruct l. split_and!; try done; lia. }
  intros fuel [m a] c' [t1 mem1] (o1 & o2 & R & -> & Em & -> & Hm & Ht & -> & Hok1 & Hur & Hmem1). cbn [fst snd] in *. destruct fuel as [|fuel]; [lia|].
  exists fuel. split; [done|]. cbv beta iota. destruct (Z.ltb_spec 0 m) as [Hm0|Hm0].
  2: { replace (Z.to_nat m) with 0%nat in Ht by lia. cbn in Ht. injection Ht as <- <- <-. apply wpx_ret, wpx_wp. ksteps. cbn [fst snd]. rewrite app_nil_r in *.
       split_and!; try done. rewrite i32_id; lia. }
  rewrite length_app in Hfit. apply wpx_bind_wp, wp_zoom, wp_zoom. kstep. cbn [con ur fst snd]. rewrite (ci_unread _ _ Hok1). cbn [ready].
  destruct (Z.to_nat m) as [|m'] eqn:Em'; [lia|]. cbn [take_line] in Ht. destruct R as [|ch R].
  { rewrite bool_decide_true by done. injection Ht as <- <- <-. rewrite app_nil_r in *. apply wpx_bind_wp, wp_zoom. unfold wp at 1. cbn [fst snd con ur]. rewrite Hkilled.
    destruct (Z.eqb_spec k 0) as [Ek|Ek]; cbn [negb].
    - apply wpx_sleep. destruct t1. by rewrite Hmem1.
    - apply wpx_wp. ksteps. apply wp_ret. destruct t1. by rewrite Hmem1. }
  rewrite bool_decide_false by done. destruct (ci_take _ _ _ _ Hok1) as (-> & Htaken & Hback).
  apply wpx_bind_wp, wp_zoom, wp_zoom. kstep. cbn [con ur fst snd]. destruct (ch =? ctl_D).
  { injection Ht as <- <- <-. rewrite app_nil_r in *. rewrite u32_id by lia. destruct (Z.ltb_spec m target) as [Hlt|Hge]; cbn [when].
    - apply wpx_bind_wp, wp_zoom, wp_zoom. kstep. apply wpx_ret, wpx_wp. ksteps. cbn [con ur fst snd]. rewrite (proj2 (Z.eqb_neq m target)) by lia.
      split_and!; try done; [|rewrite i32_id; lia]. cbn [set_r c_r cbuf c_w c_e]. rewrite Hback. by destruct (con t1).
    - apply wpx_bind_wp. kstep. apply wpx_ret, wpx_wp. ksteps. cbn [con ur fst snd]. rewrite (proj2 (Z.eqb_eq m target)) by lia.
      split_and!; try done. rewrite i32_id; lia. }
  assert (forall o, length o = 1%nat -> (length o1 + length o <= Z.to_nat n)%nat -> putb (dst + Z.of_nat (length o1)) o mem1 = putb dst (o1 ++ o) mem) as Hput.
  { intros o Ho Hl. rewrite Hmem1, putb_app; [done|lia|lia]. }
  apply wpx_bind_wp, wp_zoom. cbn [either_copyout kernel_object fst snd]. ksteps. cbn [Z.eqb fst snd]. destruct (ch =? newline).
  - injection Ht as <- <- <-. apply wpx_ret, wpx_wp. ksteps. cbn [con ur fst snd]. rewrite Hput by (cbn in *; lia).
    split_and!; try done. rewrite length_app in *. cbn [length] in *. rewrite i32_id; lia.
  - destruct (take_line m' false R) as [[o r] f] eqn:Etl. injection Ht as <- <- <-. apply wpx_ret. cbn [length] in Hfit. exists (o1 ++ [ch]), o, R. rewrite !length_app. cbn [length con ur fst snd].
    rewrite Hput by (cbn; lia). split_and!; try done; [by rewrite <- app_assoc|lia|rewrite u64_id; lia|lia|lia|].
    replace (Z.to_nat (m - 1)) with m' by lia. by rewrite (proj2 (Z.eqb_neq _ _)) by lia.
Qed.

(** ** Concrete runs *)

(** A UART that sends at once: the bytes to come and the bytes sent. *)
#[local] Instance loopback_dev : UartDev := {|
  udev := list Z * list Z;
  reg_read r d :=
    if r =? LSR then (match d.1 with [] => 32 | _ => 33 end, d)
    else if r =? RHR then (match d.1 with [] => 0 | c :: _ => c mod 256 end, (tl d.1, d.2))
    else (0, d);
  reg_write r v d := if r =? THR then (d.1, d.2 ++ [v]) else d;
|}.
#[local] Instance loopback_laws : UartLaws loopback_dev.
Proof.
  refine {| rx d := (fun c => c mod 256) <$> d.1; tx d := d.2 : list Z; delay _ := 0%nat; tx_time := 0%nat |}.
  - done.
  - intros d. apply Forall_fmap, Forall_true. intros c. by apply Z.mod_pos_bound.
  - intros [[|c r] o]; [exists 32|exists 33]; eexists; (split; [reflexivity|]); cbn; repeat split; done.
  - intros [[|c' r] o] ch l [= <- <-]. eexists. split; [reflexivity|done].
  - intros d. eexists _, _. split; [reflexivity|done].
  - done.
Defined.

Lemma cons_is_start buf : length buf = Z.to_nat INPUT_BUF_SIZE -> cons_is (Cons buf 0 0 0) (Line [] []).
Proof. intros Hl. split; cbn; try done. intros j Hj. cbn in Hj. lia. Qed.

(** Typed: a b delete c return. *)
Definition ex_tty : tty loopback_dev := Tty (Cons (replicate 128 0) 0 0 0) (MkUart (U := loopback_dev) 1 0 0 ([97; 98; 0x7f; 99; 13], [])).

Lemma uartintr_edits_lines_witness :
  wp (uartintr (U := loopback_dev) 1 6 [])
    (fun _ c' t' => cons_is (con t') (Line [97; 99; 10] []) /\ tx (dev (ur t')) = [97; 98; 8; 32; 8; 99; 10] /\ tx_busy (ur t') = 0 /\ cons_chan ∈ woken c')
    (Ctx [] []) ex_tty.
Proof.
  eapply wp_mono; [apply (uartintr_edits_lines (U := loopback_dev) 1 6 [] (Line [] []) ex_tty [])|].
  - cbn. lia.
  - cbn. lia.
  - reflexivity.
  - by apply cons_is_start.
  - cbv beta zeta. intros _ c' t' (_ & Hc & _ & Ht & Hb & Hw). split; [exact Hc|]. split; [exact Ht|]. split; [by apply Hb|]. by apply Hw.
Defined.

Lemma consoleread_takes_line_witness :
  wpx (acquire cons_lock ;; consoleread_from (U := loopback_dev) (ret 0) 5 0 5)
    (fun r c' t' => r = 3 /\ snd t' = [97; 99; 10; 0; 0]) (fun _ _ _ => False)
    (Ctx [] []) (Tty (Cons ([97; 99; 10; 100] ++ replicate 124 0) 0 3 4) (ur ex_tty), replicate 5 0).
Proof.
  eapply wpx_mono.
  - apply (consoleread_takes_line (U := loopback_dev) (ret 0) 0 5 0 5 (replicate 5 0) (Line [97; 99; 10] [100])
      (Tty (Cons ([97; 99; 10; 100] ++ replicate 124 0) 0 3 4) (ur ex_tty)) [97; 99; 10] [] true []); try done; try (cbn; lia).
    split; cbn; try done.
    + intros j Hj. cbn in Hj. destruct j as [|[|[|[|j]]]]; [reflexivity..|lia].
    + by constructor.
  - intros r c' t' (_ & _ & _ & Hm & Hr). split; [exact Hr|exact Hm].
  - intros ch c' t' (_ & _ & _ & _ & _ & Hf & _). discriminate.
Defined.
