(* ===== verification/Virtio.v ===== *)
(** * kernel/virtio_disk.c: the disk driver

    The state is the memory shared with the device (descriptors and rings),
    the driver's own variables ([struct disk]), the buffers, and the device.
    An address in a descriptor is the object it points to.  The functions are
    computations of [K]: [virtio_disk_rw] sleeps at most twice, and
    [rw_alloc] and [rw_wait] are its two loops.  [virtio_spec] is what the
    virtio specification says a block device does; the device itself is a
    parameter of the theorems. *)
From stdpp Require Import functions.
From S2P Require Import Prelude Kmonad Riscv Mem KString Kalloc Block.

(** ** kernel/virtio.h *)
Definition VIRTIO_MMIO_MAGIC_VALUE : Z := 0x000.
Definition VIRTIO_MMIO_VERSION : Z := 0x004.
Definition VIRTIO_MMIO_DEVICE_ID : Z := 0x008.
Definition VIRTIO_MMIO_VENDOR_ID : Z := 0x00c.
Definition VIRTIO_MMIO_DEVICE_FEATURES : Z := 0x010.
Definition VIRTIO_MMIO_DRIVER_FEATURES : Z := 0x020.
Definition VIRTIO_MMIO_QUEUE_SEL : Z := 0x030.
Definition VIRTIO_MMIO_QUEUE_NUM_MAX : Z := 0x034.
Definition VIRTIO_MMIO_QUEUE_NUM : Z := 0x038.
Definition VIRTIO_MMIO_QUEUE_READY : Z := 0x044.
Definition VIRTIO_MMIO_QUEUE_NOTIFY : Z := 0x050.
Definition VIRTIO_MMIO_INTERRUPT_STATUS : Z := 0x060.
Definition VIRTIO_MMIO_INTERRUPT_ACK : Z := 0x064.
Definition VIRTIO_MMIO_STATUS : Z := 0x070.
Definition VIRTIO_MMIO_QUEUE_DESC_LOW : Z := 0x080.
Definition VIRTIO_MMIO_QUEUE_DESC_HIGH : Z := 0x084.
Definition VIRTIO_MMIO_DRIVER_DESC_LOW : Z := 0x090.
Definition VIRTIO_MMIO_DRIVER_DESC_HIGH : Z := 0x094.
Definition VIRTIO_MMIO_DEVICE_DESC_LOW : Z := 0x0a0.
Definition VIRTIO_MMIO_DEVICE_DESC_HIGH : Z := 0x0a4.
Definition VIRTIO_CONFIG_S_ACKNOWLEDGE : Z := 1.
Definition VIRTIO_CONFIG_S_DRIVER : Z := 2.
Definition VIRTIO_CONFIG_S_DRIVER_OK : Z := 4.
Definition VIRTIO_CONFIG_S_FEATURES_OK : Z := 8.
Definition VIRTIO_BLK_F_RO : Z := 5.
Definition VIRTIO_BLK_F_SCSI : Z := 7.
Definition VIRTIO_BLK_F_CONFIG_WCE : Z := 11.
Definition VIRTIO_BLK_F_MQ : Z := 12.
Definition VIRTIO_F_ANY_LAYOUT : Z := 27.
Definition VIRTIO_RING_F_INDIRECT_DESC : Z := 28.
Definition VIRTIO_RING_F_EVENT_IDX : Z := 29.
Definition NUM : Z := 8.
Definition VRING_DESC_F_NEXT : Z := 1.
Definition VRING_DESC_F_WRITE : Z := 2.
Definition VIRTIO_BLK_T_IN : Z := 0.
Definition VIRTIO_BLK_T_OUT : Z := 1.

Inductive addr := ANull | AOps (i : nat) | AData (b : nat) | AStatus (i : nat).

Record vdesc := Vdesc { d_addr : addr; d_len : Z; d_flags : Z; d_next : nat }.
Definition vdesc0 : vdesc := Vdesc ANull 0 0 0.
#[global] Instance vdesc_inhabited : Inhabited vdesc := populate vdesc0.

Record blk_req := BlkReq { q_type : Z; q_reserved : Z; q_sector : Z }.
#[global] Instance blk_req_inhabited : Inhabited blk_req := populate (BlkReq 0 0 0).

Record vst := Vst {
  desc : list vdesc;   (** the descriptors, read by the device *)
  avail_idx : Z;   (** [avail->idx], [uint16] *)
  avail_ring : list nat;
  used_dev : Z;   (** [used->idx], [uint16], written by the device *)
  used_ring : list nat;   (** the heads of completed chains *)
  vfree : list Z;   (** is a descriptor free? *)
  used_idx : Z;   (** [uint16]: looked this far in the used ring *)
  info_b : list (option nat);
  info_status : list Z;
  ops : list blk_req;
  bdata : nat -> list Z;   (** the buffers of bio.c: data, *)
  bdisk : nat -> Z;   (** does the disk own the buffer? *)
  bblockno : nat -> Z;
  dev_avail : Z;   (** the device: how far it has looked in the avail ring, *)
  pending : list nat;   (** the chains it works on, *)
  sectors : Z -> list Z;   (** the sectors of the disk, *)
  intr_status : Z;   (** and its register [VIRTIO_MMIO_INTERRUPT_STATUS] *)
  vregs : list (Z * Z);   (** the driver's writes to the device's registers *)
}.
Definition set_desc v s := Vst v (avail_idx s) (avail_ring s) (used_dev s) (used_ring s) (vfree s) (used_idx s) (info_b s) (info_status s) (ops s) (bdata s) (bdisk s) (bblockno s) (dev_avail s) (pending s) (sectors s) (intr_status s) (vregs s).
Definition set_avail_idx v s := Vst (desc s) v (avail_ring s) (used_dev s) (used_ring s) (vfree s) (used_idx s) (info_b s) (info_status s) (ops s) (bdata s) (bdisk s) (bblockno s) (dev_avail s) (pending s) (sectors s) (intr_status s) (vregs s).
Definition set_avail_ring v s := Vst (desc s) (avail_idx s) v (used_dev s) (used_ring s) (vfree s) (used_idx s) (info_b s) (info_status s) (ops s) (bdata s) (bdisk s) (bblockno s) (dev_avail s) (pending s) (sectors s) (intr_status s) (vregs s).
Definition set_used_dev v s := Vst (desc s) (avail_idx s) (avail_ring s) v (used_ring s) (vfree s) (used_idx s) (info_b s) (info_status s) (ops s) (bdata s) (bdisk s) (bblockno s) (dev_avail s) (pending s) (sectors s) (intr_status s) (vregs s).
Definition set_used_ring v s := Vst (desc s) (avail_idx s) (avail_ring s) (used_dev s) v (vfree s) (used_idx s) (info_b s) (info_status s) (ops s) (bdata s) (bdisk s) (bblockno s) (dev_avail s) (pending s) (sectors s) (intr_status s) (vregs s).
Definition set_vfree v s := Vst (desc s) (avail_idx s) (avail_ring s) (used_dev s) (used_ring s) v (used_idx s) (info_b s) (info_status s) (ops s) (bdata s) (bdisk s) (bblockno s) (dev_avail s) (pending s) (sectors s) (intr_status s) (vregs s).
Definition set_used_idx v s := Vst (desc s) (avail_idx s) (avail_ring s) (used_dev s) (used_ring s) (vfree s) v (info_b s) (info_status s) (ops s) (bdata s) (bdisk s) (bblockno s) (dev_avail s) (pending s) (sectors s) (intr_status s) (vregs s).
Definition set_info_b v s := Vst (desc s) (avail_idx s) (avail_ring s) (used_dev s) (used_ring s) (vfree s) (used_idx s) v (info_status s) (ops s) (bdata s) (bdisk s) (bblockno s) (dev_avail s) (pending s) (sectors s) (intr_status s) (vregs s).
Definition set_info_status v s := Vst (desc s) (avail_idx s) (avail_ring s) (used_dev s) (used_ring s) (vfree s) (used_idx s) (info_b s) v (ops s) (bdata s) (bdisk s) (bblockno s) (dev_avail s) (pending s) (sectors s) (intr_status s) (vregs s).
Definition set_ops v s := Vst (desc s) (avail_idx s) (avail_ring s) (used_dev s) (used_ring s) (vfree s) (used_idx s) (info_b s) (info_status s) v (bdata s) (bdisk s) (bblockno s) (dev_avail s) (pending s) (sectors s) (intr_status s) (vregs s).
Definition set_bdata v s := Vst (desc s) (avail_idx s) (avail_ring s) (used_dev s) (used_ring s) (vfree s) (used_idx s) (info_b s) (info_status s) (ops s) v (bdisk s) (bblockno s) (dev_avail s) (pending s) (sectors s) (intr_status s) (vregs s).
Definition set_bdisk v s := Vst (desc s) (avail_idx s) (avail_ring s) (used_dev s) (used_ring s) (vfree s) (used_idx s) (info_b s) (info_status s) (ops s) (bdata s) v (bblockno s) (dev_avail s) (pending s) (sectors s) (intr_status s) (vregs s).
Definition set_bblockno v s := Vst (desc s) (avail_idx s) (avail_ring s) (used_dev s) (used_ring s) (vfree s) (used_idx s) (info_b s) (info_status s) (ops s) (bdata s) (bdisk s) v (dev_avail s) (pending s) (sectors s) (intr_status s) (vregs s).
Definition set_dev_avail v s := Vst (desc s) (avail_idx s) (avail_ring s) (used_dev s) (used_ring s) (vfree s) (used_idx s) (info_b s) (info_status s) (ops s) (bdata s) (bdisk s) (bblockno s) v (pending s) (sectors s) (intr_status s) (vregs s).
Definition set_pending v s := Vst (desc s) (avail_idx s) (avail_ring s) (used_dev s) (used_ring s) (vfree s) (used_idx s) (info_b s) (info_status s) (ops s) (bdata s) (bdisk s) (bblockno s) (dev_avail s) v (sectors s) (intr_status s) (vregs s).
Definition set_sectors v s := Vst (desc s) (avail_idx s) (avail_ring s) (used_dev s) (used_ring s) (vfree s) (used_idx s) (info_b s) (info_status s) (ops s) (bdata s) (bdisk s) (bblockno s) (dev_avail s) (pending s) v (intr_status s) (vregs s).
Definition set_intr_status v s := Vst (desc s) (avail_idx s) (avail_ring s) (used_dev s) (used_ring s) (vfree s) (used_idx s) (info_b s) (info_status s) (ops s) (bdata s) (bdisk s) (bblockno s) (dev_avail s) (pending s) (sectors s) v (vregs s).
Definition set_vregs v s := Vst (desc s) (avail_idx s) (avail_ring s) (used_dev s) (used_ring s) (vfree s) (used_idx s) (info_b s) (info_status s) (ops s) (bdata s) (bdisk s) (bblockno s) (dev_avail s) (pending s) (sectors s) (intr_status s) v.

Definition vdisk_lock : lockid := ("virtio_disk", 0).
Definition free_chan : chan := ("disk.free", 0).
Definition buf_chan (b : nat) : chan := ("buf", Z.of_nat b).

Definition put_desc (i : nat) (d : vdesc) (s : vst) : vst := set_desc (<[i := d]> (desc s)) s.
Definition put_reg (r v : Z) (s : vst) : vst := set_vregs (vregs s ++ [(r, u32 v)]) s.
Definition put_free (i : nat) (v : Z) (s : vst) : vst := set_vfree (<[i := v]> (vfree s)) s.

(** ** The driver *)

Definition alloc_desc : K vst (option nat) :=
  loop (Z.to_nat NUM + 1) (fun i : nat =>
    if Z.of_nat i <? NUM then
      f <- gets (fun s => vfree s !!! i) ;;
      if negb (f =? 0) then
        modify (put_free i 0) ;;
        ret (inr (Some i))
      else ret (inl (i + 1)%nat)
    else ret (inr None)) O.

Definition free_desc (i : nat) : K vst unit :=
  if NUM <=? Z.of_nat i then panic "free_desc 1"
  else
    f <- gets (fun s => vfree s !!! i) ;;
    if negb (f =? 0) then panic "free_desc 2"
    else
      modify (put_desc i vdesc0) ;;
      modify (put_free i 1) ;;
      wakeup free_chan.

Definition free_chain (i : nat) : K vst unit :=
  loop (Z.to_nat NUM + 1) (fun i =>
    d <- gets (fun s => desc s !!! i) ;;
    free_desc i ;;
    if negb (Z.land (d_flags d) VRING_DESC_F_NEXT =? 0) then ret (inl (d_next d))
    else ret (inr tt)) i.

(** [None]: not enough descriptors; those allocated have been freed again. *)
Definition alloc3_desc : K vst (option (list nat)) :=
  loop 4 (fun idx =>
    if (length idx <? 3)%nat then
      d <- alloc_desc ;;
      match d with
      | None => foldr (fun j m => free_desc j ;; m) skip idx ;; ret (inr None)
      | Some d => ret (inl (idx ++ [d]))
      end
    else ret (inr (Some idx))) [].

(** Between the two loops: the descriptors are filled in and handed to the device. *)
Definition rw_submit (b : nat) (write : bool) (i0 i1 i2 : nat) : K vst unit :=
  blockno <- gets (fun s => bblockno s b) ;;
  let sector := u32 (blockno * (BSIZE / 512)) in
  modify (fun s => set_ops (<[i0 := BlkReq (if write then VIRTIO_BLK_T_OUT else VIRTIO_BLK_T_IN) 0 sector]> (ops s)) s) ;;
  modify (put_desc i0 (Vdesc (AOps i0) 16 VRING_DESC_F_NEXT i1)) ;;
  modify (put_desc i1 (Vdesc (AData b) BSIZE (Z.lor (if write then 0 else VRING_DESC_F_WRITE) VRING_DESC_F_NEXT) i2)) ;;
  modify (fun s => set_info_status (<[i0 := 0xff]> (info_status s)) s) ;;
  modify (put_desc i2 (Vdesc (AStatus i0) 1 VRING_DESC_F_WRITE 0)) ;;
  modify (fun s => set_bdisk (<[b := 1]> (bdisk s)) s) ;;
  modify (fun s => set_info_b (<[i0 := Some b]> (info_b s)) s) ;;
  modify (fun s => set_avail_ring (<[Z.to_nat (avail_idx s mod NUM) := i0]> (avail_ring s)) s) ;;
  modify (fun s => set_avail_idx (u16 (avail_idx s + 1)) s) ;;
  modify (put_reg VIRTIO_MMIO_QUEUE_NOTIFY 0).

(** The wait for the request with head [i0], with the lock held, and what follows it. *)
Definition rw_wait (b i0 : nat) : K vst unit :=
  d <- gets (fun s => bdisk s b) ;;
  if d =? 1 then sleep (buf_chan b) vdisk_lock
  else
    modify (fun s => set_info_b (<[i0 := None]> (info_b s)) s) ;;
    free_chain i0 ;;
    release vdisk_lock.

(** From the loop that allocates, with the lock held. *)
Definition rw_alloc (b : nat) (write : bool) : K vst unit :=
  r <- alloc3_desc ;;
  match r with
  | Some [i0; i1; i2] => rw_submit b write i0 i1 i2 ;; rw_wait b i0
  | _ => sleep free_chan vdisk_lock
  end.

Definition virtio_disk_rw (b : nat) (write : bool) : K vst unit :=
  acquire vdisk_lock ;;
  rw_alloc b write.

Definition virtio_disk_intr : K vst unit :=
  acquire vdisk_lock ;;
  modify (fun s => put_reg VIRTIO_MMIO_INTERRUPT_ACK (Z.land (u32 (intr_status s)) 0x3) s) ;;
  loop (Z.to_nat NUM + 1) (fun _ =>
    s <- get ;;
    if negb (used_idx s =? used_dev s) then
      let id := used_ring s !!! Z.to_nat (used_idx s mod NUM) in
      if negb (info_status s !!! id =? 0) then panic "virtio_disk_intr status"
      else
        match info_b s !!! id with
        | None => panic "null"
        | Some b =>
            modify (fun s => set_bdisk (<[b := 0]> (bdisk s)) s) ;;
            wakeup (buf_chan b) ;;
            modify (fun s => set_used_idx (u16 (used_idx s + 1)) s) ;;
            ret (inl tt)
        end
    else ret (inr tt)) tt ;;
  release vdisk_lock.

(** ** Initialization

    The registers are the device's: [rd] is what a register reads as, after
    the writes in [i_regs].  The three pages of [kalloc] hold the descriptors
    and the rings, the fields of [i_v]; [memset] makes them zero. *)

Record ist := Ist { i_k : mstate; i_v : vst; i_desc : Z; i_avail : Z; i_used : Z; i_regs : list (Z * Z) }.
Definition set_i_k v s := Ist v (i_v s) (i_desc s) (i_avail s) (i_used s) (i_regs s).
Definition set_i_v v s := Ist (i_k s) v (i_desc s) (i_avail s) (i_used s) (i_regs s).
Definition set_i_desc v s := Ist (i_k s) (i_v s) v (i_avail s) (i_used s) (i_regs s).
Definition set_i_avail v s := Ist (i_k s) (i_v s) (i_desc s) v (i_used s) (i_regs s).
Definition set_i_used v s := Ist (i_k s) (i_v s) (i_desc s) (i_avail s) v (i_regs s).
Definition set_i_regs v s := Ist (i_k s) (i_v s) (i_desc s) (i_avail s) (i_used s) v.

Section init.
Context (rd : list (Z * Z) -> Z -> Z).

Definition R_get (r : Z) : K ist Z := gets (fun s => u32 (rd (i_regs s) r)).
Definition R_set (r v : Z) : K ist unit := modify (fun s => set_i_regs (i_regs s ++ [(r, u32 v)]) s).
Definition in_mem {A} (m : K mstate A) : K ist A := zoom i_k set_i_k m.
Definition in_v (f : vst -> vst) : K ist unit := modify (fun s => set_i_v (f (i_v s)) s).

Definition clear_bit (x k : Z) : Z := Z.land x (Z.lnot (Z.shiftl 1 k)).
Definition features_of (f : Z) : Z :=
  fold_left clear_bit [VIRTIO_BLK_F_RO; VIRTIO_BLK_F_SCSI; VIRTIO_BLK_F_CONFIG_WCE; VIRTIO_BLK_F_MQ;
    VIRTIO_F_ANY_LAYOUT; VIRTIO_RING_F_EVENT_IDX; VIRTIO_RING_F_INDIRECT_DESC] f.

Definition virtio_disk_init : K ist unit :=
  initlock vdisk_lock ;;
  magic <- R_get VIRTIO_MMIO_MAGIC_VALUE ;;
  version <- R_get VIRTIO_MMIO_VERSION ;;
  device <- R_get VIRTIO_MMIO_DEVICE_ID ;;
  vendor <- R_get VIRTIO_MMIO_VENDOR_ID ;;
  if negb (magic =? 0x74726976) || negb (version =? 2) || negb (device =? 2) || negb (vendor =? 0x554d4551)
  then panic "could not find virtio disk"
  else
    let status := 0 in
    R_set VIRTIO_MMIO_STATUS status ;;
    let status := Z.lor status VIRTIO_CONFIG_S_ACKNOWLEDGE in
    R_set VIRTIO_MMIO_STATUS status ;;
    let status := Z.lor status VIRTIO_CONFIG_S_DRIVER in
    R_set VIRTIO_MMIO_STATUS status ;;
    features <- R_get VIRTIO_MMIO_DEVICE_FEATURES ;;
    R_set VIRTIO_MMIO_DRIVER_FEATURES (features_of features) ;;
    let status := Z.lor status VIRTIO_CONFIG_S_FEATURES_OK in
    R_set VIRTIO_MMIO_STATUS status ;;
    status <- R_get VIRTIO_MMIO_STATUS ;;
    if Z.land status VIRTIO_CONFIG_S_FEATURES_OK =? 0 then panic "virtio disk FEATURES_OK unset"
    else
      R_set VIRTIO_MMIO_QUEUE_SEL 0 ;;
      ready <- R_get VIRTIO_MMIO_QUEUE_READY ;;
      if negb (ready =? 0) then panic "virtio disk should not be ready"
      else
        max <- R_get VIRTIO_MMIO_QUEUE_NUM_MAX ;;
        if max =? 0 then panic "virtio disk has no queue 0"
        else if max <? NUM then panic "virtio disk max queue too short"
        else
          d <- in_mem kalloc ;; modify (set_i_desc d) ;;
          a <- in_mem kalloc ;; modify (set_i_avail a) ;;
          u <- in_mem kalloc ;; modify (set_i_used u) ;;
          if (d =? 0) || (a =? 0) || (u =? 0) then panic "virtio disk kalloc"
          else
            in_mem (kmemset d 0 PGSIZE) ;;
            in_v (set_desc (replicate (Z.to_nat NUM) vdesc0)) ;;
            in_mem (kmemset a 0 PGSIZE) ;;
            in_v (fun s => set_avail_ring (replicate (Z.to_nat NUM) O) (set_avail_idx 0 s)) ;;
            in_mem (kmemset u 0 PGSIZE) ;;
            in_v (fun s => set_used_ring (replicate (Z.to_nat NUM) O) (set_used_dev 0 s)) ;;
            R_set VIRTIO_MMIO_QUEUE_NUM NUM ;;
            R_set VIRTIO_MMIO_QUEUE_DESC_LOW d ;;
            R_set VIRTIO_MMIO_QUEUE_DESC_HIGH (Z.shiftr d 32) ;;
            R_set VIRTIO_MMIO_DRIVER_DESC_LOW a ;;
            R_set VIRTIO_MMIO_DRIVER_DESC_HIGH (Z.shiftr a 32) ;;
            R_set VIRTIO_MMIO_DEVICE_DESC_LOW u ;;
            R_set VIRTIO_MMIO_DEVICE_DESC_HIGH (Z.shiftr u 32) ;;
            R_set VIRTIO_MMIO_QUEUE_READY 0x1 ;;
            in_v (fun s => foldl (fun s i => put_free i 1 s) s (seq 0 (Z.to_nat NUM))) ;;
            let status := Z.lor status VIRTIO_CONFIG_S_DRIVER_OK in
            R_set VIRTIO_MMIO_STATUS status.
End init.

(** ** The device *)

Definition get_sectors (s : vst) (sec : Z) : list Z := sectors s sec ++ sectors s (sec + 1).
Definition put_sectors (sec : Z) (bs : list Z) (s : vst) : vst :=
  set_sectors (<[sec := take 512 bs]> (<[sec + 1 := drop 512 bs]> (sectors s))) s.

(** The chain at [h] is a request for a block: its kind, its sector, its
    buffer, and the status byte to set. *)
Definition request_at (s : vst) (h : nat) (write : bool) (sec : Z) (b st : nat) : Prop :=
  exists i, let d0 := desc s !!! h in let d1 := desc s !!! d_next d0 in let d2 := desc s !!! d_next d1 in
    d_addr d0 = AOps i /\ d_len d0 = 16 /\ d_flags d0 = VRING_DESC_F_NEXT /\
    ops s !!! i = BlkReq (if write then VIRTIO_BLK_T_OUT else VIRTIO_BLK_T_IN) 0 sec /\
    d_addr d1 = AData b /\ d_len d1 = BSIZE /\ d_flags d1 = Z.lor (if write then 0 else VRING_DESC_F_WRITE) VRING_DESC_F_NEXT /\
    d_addr d2 = AStatus st /\ d_len d2 = 1 /\ d_flags d2 = VRING_DESC_F_WRITE.

(** A completed request: the data moves, the status byte is 0, and the head is
    in the used ring. *)
Definition dev_done (h : nat) (write : bool) (sec : Z) (b st : nat) (s : vst) : vst :=
  let s := if write then put_sectors sec (bdata s b) s else set_bdata (<[b := get_sectors s sec]> (bdata s)) s in
  let s := set_info_status (<[st := 0]> (info_status s)) s in
  let s := set_used_ring (<[Z.to_nat (used_dev s mod NUM) := h]> (used_ring s)) s in
  set_used_dev (u16 (used_dev s + 1)) s.

(** The steps the virtio specification (sections 2.6 and 5.2) allows a block
    device: it sets its interrupt status, takes the next chain from the avail
    ring, or finishes any of the chains it has taken.  It may do anything once it has been given a
    chain that is not a request. *)
Inductive virtio_spec : vst -> vst -> Prop :=
  | vs_status s v : virtio_spec s (set_intr_status v s)
  | vs_take s :
      dev_avail s <> avail_idx s ->
      virtio_spec s (set_dev_avail (u16 (dev_avail s + 1))
        (set_pending (pending s ++ [avail_ring s !!! Z.to_nat (dev_avail s mod NUM)]) s))
  | vs_finish s p1 h p2 write sec b st :
      pending s = p1 ++ h :: p2 -> request_at s h write sec b st ->
      virtio_spec s (dev_done h write sec b st (set_pending (p1 ++ p2) s))
  | vs_wild s h s' :
      h ∈ pending s -> (forall write sec b st, ~ request_at s h write sec b st) ->
      virtio_spec s s'.
