(* ===== verification/VirtioSpec.v ===== *)
(** * The invariant of the disk driver

    [inv] relates the driver's state to the requests under way ([F], by the
    head of their chain) and to the disk as the callers of [virtio_disk_rw]
    see it ([ad], by block number).  Every operation of the driver and every
    step of the device preserves it. *)
From stdpp Require Import functions.
From S2P Require Import Prelude Kmonad Block Ring Virtio.

(** A request: the buffer, the direction, the other two descriptors, and the
    data to be found in the buffer at the end. *)
Record req := Req { r_b : nat; r_write : bool; r_1 : nat; r_2 : nat; r_data : list Z }.

Definition trip (h : nat) (r : req) : list nat := [h; r_1 r; r_2 r].
Definition sector_of (n : Z) : Z := u32 (n * (BSIZE / 512)).
Definition blk (sec : Z -> list Z) (n : Z) : list Z := sec (sector_of n) ++ sec (sector_of n + 1).
Definition blockno_ok (n : Z) : Prop := 0 <= n < 2 ^ 31.

Implicit Types (F : gmap nat req) (A P U S : list nat) (s : vst) (h i : nat) (r : req).

(** ** The invariant *)

Record lens s : Prop := {
  l_desc : length (desc s) = Z.to_nat NUM;
  l_avail : length (avail_ring s) = Z.to_nat NUM;
  l_used : length (used_ring s) = Z.to_nat NUM;
  l_free : length (vfree s) = Z.to_nat NUM;
  l_b : length (info_b s) = Z.to_nat NUM;
  l_status : length (info_status s) = Z.to_nat NUM;
  l_ops : length (ops s) = Z.to_nat NUM;
}.

Definition taken F i : Prop := exists h r, F !! h = Some r /\ i ∈ trip h r.

Record chains_ok (fr : list Z) F : Prop := {
  c_free : forall i, (i < Z.to_nat NUM)%nat -> (taken F i /\ fr !!! i = 0) \/ (~ taken F i /\ fr !!! i = 1);
  c_trip : forall h r, F !! h = Some r -> NoDup (trip h r) /\ Forall (fun i => (i < Z.to_nat NUM)%nat) (trip h r);
  c_disj : forall h r h' r' i, F !! h = Some r -> F !! h' = Some r' -> i ∈ trip h r -> i ∈ trip h' r' -> h = h';
}.

Definition req_ok (de : list vdesc) (op : list blk_req) (ib : list (option nat)) (bn : nat -> Z) h r : Prop :=
  de !!! h = Vdesc (AOps h) 16 VRING_DESC_F_NEXT (r_1 r) /\
  de !!! r_1 r = Vdesc (AData (r_b r)) BSIZE (Z.lor (if r_write r then 0 else VRING_DESC_F_WRITE) VRING_DESC_F_NEXT) (r_2 r) /\
  de !!! r_2 r = Vdesc (AStatus h) 1 VRING_DESC_F_WRITE 0 /\
  op !!! h = BlkReq (if r_write r then VIRTIO_BLK_T_OUT else VIRTIO_BLK_T_IN) 0 (sector_of (bn (r_b r))) /\
  ib !!! h = Some (r_b r) /\ blockno_ok (bn (r_b r)) /\ length (r_data r) = Z.to_nat BSIZE.

(** Different requests are for different buffers and blocks. *)
Definition apart (bn : nat -> Z) F : Prop := forall h r h' r', F !! h = Some r -> F !! h' = Some r' ->
  r_b r = r_b r' \/ bn (r_b r) = bn (r_b r') -> h = h'.

(** Where the requests are: in the avail ring, with the device, in the used
    ring, or seen by the interrupt handler. *)
Record phases F A P U S : Prop := {
  p_nodup : NoDup (A ++ P ++ U ++ S);
  p_all : forall h, h ∈ A ++ P ++ U ++ S <-> is_Some (F !! h);
}.

Definition queue_ok (ring : list nat) (first next : Z) A : Prop :=
  0 <= first < 2 ^ 16 /\ next = u16 (first + Z.of_nat (length A)) /\ ring_is NUM ring first A.

Definition final (da : nat -> list Z) (sec : Z -> list Z) (bn : nat -> Z) r : Prop :=
  da (r_b r) = r_data r /\ blk sec (bn (r_b r)) = r_data r.

Record data_ok (dk : nat -> Z) (da : nat -> list Z) (st : list Z) (sec : Z -> list Z) (bn : nat -> Z) (ad : Z -> list Z) F A P U S : Prop := {
  k_busy : forall h r, F !! h = Some r -> h ∈ A ++ P -> dk (r_b r) = 1 /\ (r_write r = true -> da (r_b r) = r_data r);
  k_used : forall h r, F !! h = Some r -> h ∈ U -> dk (r_b r) = 1 /\ st !!! h = 0 /\ final da sec bn r;
  k_seen : forall h r, F !! h = Some r -> h ∈ S -> dk (r_b r) <> 1 /\ final da sec bn r;
  k_read : forall h r, F !! h = Some r -> r_write r = false -> r_data r = ad (bn (r_b r));
  k_disk : forall n, blockno_ok n -> (forall h r, F !! h = Some r -> r_write r = true -> bn (r_b r) = n -> h ∈ A ++ P) -> blk sec n = ad n;
  k_sec : forall x, length (sec x) = 512%nat;
}.

Record inv s F (ad : Z -> list Z) A U S : Prop := {
  v_lens : lens s;
  v_chains : chains_ok (vfree s) F;
  v_reqs : forall h r, F !! h = Some r -> req_ok (desc s) (ops s) (info_b s) (bblockno s) h r;
  v_apart : apart (bblockno s) F;
  v_phases : phases F A (pending s) U S;
  v_avail : queue_ok (avail_ring s) (dev_avail s) (avail_idx s) A;
  v_used : queue_ok (used_ring s) (used_idx s) (used_dev s) U;
  v_data : data_ok (bdisk s) (bdata s) (info_status s) (sectors s) (bblockno s) ad F A (pending s) U S;
}.

(** ** Queues and sectors *)

Lemma NUM_pos : 0 < NUM.
Proof. done. Qed.
Lemma u16_slot x : u16 x mod NUM = x mod NUM.
Proof. unfold u16, NUM. zlia. Qed.

(** The chains are few: every list of different heads is shorter than a ring. *)
Lemma heads_short (l : list nat) : NoDup l -> (forall h, h ∈ l -> (h < Z.to_nat NUM)%nat) -> (length l <= Z.to_nat NUM)%nat.
Proof.
  intros Hn Hl. rewrite <- (length_seq (Z.to_nat NUM) 0). apply submseteq_length, NoDup_submseteq; [done|]. intros h Hh. apply elem_of_seq. specialize (Hl h Hh). lia.
Qed.

Lemma queue_push ring first next A h : length ring = Z.to_nat NUM -> Z.of_nat (length A) < NUM -> queue_ok ring first next A ->
  queue_ok (<[Z.to_nat (next mod NUM) := h]> ring) first (u16 (next + 1)) (A ++ [h]).
Proof.
  intros Hl HA (Hf & Hn & Hr). split; [done|]. rewrite length_app. cbn [length]. split; [rewrite Hn; unfold u16; zlia|].
  rewrite Hn, u16_slot. by apply (ring_snoc NUM NUM_pos).
Qed.

Lemma queue_pop ring first next A h : queue_ok ring first next (h :: A) ->
  ring !!! Z.to_nat (first mod NUM) = h /\ queue_ok ring (u16 (first + 1)) next A.
Proof.
  intros (Hf & Hn & [Hh Hr]%ring_cons). split; [done|]. split; [unfold u16; zlia|]. split; [rewrite Hn; cbn [length]; unfold u16; zlia|].
  eapply ring_mod; [|exact Hr]. by rewrite u16_slot.
Qed.

Lemma queue_empty ring first next A : Z.of_nat (length A) <= NUM -> queue_ok ring first next A -> (first = next <-> A = []).
Proof.
  intros HA (Hf & Hn & _). split.
  - intros E. destruct A; [done|]. cbn [length] in *. unfold u16, NUM in *. zlia.
  - intros ->. rewrite Hn. cbn. rewrite Z.add_0_r. unfold u16. zlia.
Qed.

Lemma sector_val n : blockno_ok n -> sector_of n = 2 * n.
Proof. intros H. unfold sector_of. change (BSIZE / 512) with 2. rewrite u32_id; unfold blockno_ok in *; lia. Qed.

Definition sec_write (sec : Z -> list Z) (n : Z) (bs : list Z) : Z -> list Z :=
  <[sector_of n := take 512 bs]> (<[sector_of n + 1 := drop 512 bs]> sec).

Lemma sec_write_eq sec n bs : blk (sec_write sec n bs) n = bs.
Proof. unfold blk, sec_write. rewrite fn_lookup_insert, fn_lookup_insert_ne, fn_lookup_insert by lia. apply take_drop. Qed.
Lemma sec_write_ne sec n m bs : blockno_ok n -> blockno_ok m -> n <> m -> blk (sec_write sec n bs) m = blk sec m.
Proof. intros Hn Hm Hne. unfold blk, sec_write. rewrite !sector_val by done. rewrite !fn_lookup_insert_ne by lia. done. Qed.
Lemma sec_write_len sec n bs x : length bs = Z.to_nat BSIZE -> (forall x, length (sec x) = 512%nat) -> length (sec_write sec n bs x) = 512%nat.
Proof.
  intros Hb Hs. unfold sec_write. destruct (decide (x = sector_of n)) as [->|Hne]; [rewrite fn_lookup_insert, length_take; unfold BSIZE in Hb; lia|].
  rewrite fn_lookup_insert_ne by done. destruct (decide (x = sector_of n + 1)) as [->|Hne2]; [rewrite fn_lookup_insert, length_drop; unfold BSIZE in Hb; lia|].
  by rewrite fn_lookup_insert_ne.
Qed.

(** ** The device *)

Lemma phases_perm F A P U S A' P' U' S' : A' ++ P' ++ U' ++ S' ≡ₚ A ++ P ++ U ++ S -> phases F A P U S -> phases F A' P' U' S'.
Proof. intros Hp [H1 H2]. split; [by rewrite Hp|]. intros h. by rewrite Hp. Qed.

Lemma inv_head s F ad A U S h r : inv s F ad A U S -> F !! h = Some r -> (h < Z.to_nat NUM)%nat.
Proof. intros Hi Hh. destruct (c_trip _ _ (v_chains _ _ _ _ _ _ Hi) h r Hh) as [_ Ht]. by inversion Ht. Qed.

Lemma inv_elem s F ad A U S h : inv s F ad A U S -> h ∈ A ++ pending s ++ U ++ S -> exists r, F !! h = Some r.
Proof. intros Hi Hh. apply (p_all _ _ _ _ _ (v_phases _ _ _ _ _ _ Hi)) in Hh as [r Hr]. by exists r. Qed.

Lemma inv_short s F ad A U S l : inv s F ad A U S -> NoDup l -> (forall h, h ∈ l -> h ∈ A ++ pending s ++ U ++ S) -> Z.of_nat (length l) <= NUM.
Proof.
  intros Hi Hn Hl. assert (length l <= Z.to_nat NUM)%nat; [|unfold NUM in *; lia]. apply heads_short; [done|]. intros h Hh. apply Hl, (inv_elem _ _ _ _ _ _ _ Hi) in Hh as [r Hr].
  by eapply inv_head.
Qed.

Lemma inv_request s F ad A U S h r write sec b st : inv s F ad A U S -> F !! h = Some r -> request_at s h write sec b st ->
  write = r_write r /\ sec = sector_of (bblockno s (r_b r)) /\ b = r_b r /\ st = h.
Proof.
  intros Hi Hr (i & H0 & _ & _ & H1 & H2 & _ & _ & H3 & _ & _). destruct (v_reqs _ _ _ _ _ _ Hi h r Hr) as (D0 & D1 & D2 & Ho & _).
  rewrite D0 in *. cbn [d_addr d_next] in *. rewrite D1 in *. cbn [d_addr d_next] in *. rewrite D2 in *. cbn [d_addr] in *.
  injection H0 as <-. injection H2 as <-. injection H3 as <-. rewrite H1 in Ho. by destruct write, (r_write r); injection Ho as ?; subst.
Qed.

Lemma inv_has_request s F ad A U S h r : inv s F ad A U S -> F !! h = Some r ->
  request_at s h (r_write r) (sector_of (bblockno s (r_b r))) (r_b r) h.
Proof.
  intros Hi Hr. destruct (v_reqs _ _ _ _ _ _ Hi h r Hr) as (D0 & D1 & D2 & Ho & _). exists h. cbv zeta. rewrite D0. cbn [d_next]. rewrite D1. cbn [d_next]. rewrite D2. by split_and!.
Qed.

Lemma take_inv s F ad A U S : inv s F ad A U S -> dev_avail s <> avail_idx s ->
  exists A', inv (set_dev_avail (u16 (dev_avail s + 1)) (set_pending (pending s ++ [avail_ring s !!! Z.to_nat (dev_avail s mod NUM)]) s)) F ad A' U S.
Proof.
  intros Hi Hne. pose proof (v_avail _ _ _ _ _ _ Hi) as Hq. pose proof (v_phases _ _ _ _ _ _ Hi) as Hph. destruct A as [|h A].
  { destruct Hne. eapply queue_empty; [|exact Hq|done]. done. }
  destruct (queue_pop _ _ _ _ _ Hq) as [-> Hq']. exists A. destruct Hi as [Hl Hc Hr Ha _ _ Hu Hd].
  split; cbn [set_dev_avail set_pending vfree desc ops info_b bblockno pending avail_ring dev_avail avail_idx used_ring used_idx used_dev bdisk bdata info_status sectors]; try done.
  - by destruct Hl.
  - eapply phases_perm; [|exact Hph]. solve_Permutation.
  - destruct Hd as [K1 K2 K3 K4 K5 K6]. split; try done.
    + intros h' r' Hr' Hin. apply (K1 h' r' Hr'). set_solver.
    + intros n Hn Hw. apply K5; [done|]. intros h' r' Hr' Hwr Hbn. specialize (Hw h' r' Hr' Hwr Hbn). set_solver.
Qed.

Lemma finish_inv s F ad A U S p1 h p2 write sec b st : inv s F ad A U S -> pending s = p1 ++ h :: p2 -> request_at s h write sec b st ->
  inv (dev_done h write sec b st (set_pending (p1 ++ p2) s)) F ad A (U ++ [h]) S.
Proof.
  intros Hi Hp Hreq. destruct (inv_elem _ _ _ _ _ _ h Hi) as [r Hr]; [rewrite Hp; set_solver|].
  destruct (inv_request _ _ _ _ _ _ _ _ _ _ _ _ Hi Hr Hreq) as (-> & -> & -> & ->). pose proof (inv_head _ _ _ _ _ _ _ _ Hi Hr) as Hh.
  pose proof (v_phases _ _ _ _ _ _ Hi) as Hph. assert (Z.of_nat (length (U ++ [h])) <= NUM) as HU.
  { apply (inv_short _ _ _ _ _ _ (U ++ [h]) Hi); [|rewrite Hp; set_solver]. destruct Hph as [Hn _]. rewrite Hp in Hn. apply NoDup_app in Hn as (_ & _ & Hn).
    rewrite <- app_assoc in Hn. apply NoDup_app in Hn as (_ & _ & Hn). cbn in Hn. apply NoDup_cons in Hn as [Hn1 Hn2]. apply NoDup_app in Hn2 as (_ & _ & Hn2). apply NoDup_app in Hn2 as (Hn2 & _ & _).
    rewrite <- Permutation_cons_append. constructor; [set_solver|done]. }
  rewrite length_app in HU. cbn [length] in HU. pose proof (v_data _ _ _ _ _ _ Hi) as Hd. destruct (v_reqs _ _ _ _ _ _ Hi h r Hr) as (_ & _ & _ & _ & _ & Hbn & Hlen).
  destruct (k_busy _ _ _ _ _ _ _ _ _ _ _ Hd h r Hr) as [Hdk Hda]; [rewrite Hp; set_solver|].
  set (da' := if r_write r then bdata s else <[r_b r := blk (sectors s) (bblockno s (r_b r))]> (bdata s)).
  set (sec' := if r_write r then sec_write (sectors s) (bblockno s (r_b r)) (bdata s (r_b r)) else sectors s).
  assert (final da' sec' (bblockno s) r) as Hfin.
  { unfold final, da', sec'. destruct (r_write r) eqn:Ew.
    - rewrite sec_write_eq. by split; apply Hda.
    - rewrite fn_lookup_insert. split; [|].
      all: rewrite (k_read _ _ _ _ _ _ _ _ _ _ _ Hd h r Hr Ew); apply (k_disk _ _ _ _ _ _ _ _ _ _ _ Hd); [done|];
        intros h' r' Hr' Hw' Hb'; assert (h' = h) as -> by (eapply (v_apart _ _ _ _ _ _ Hi); [done|done|by right]); congruence. }
  assert (forall h' r', F !! h' = Some r' -> h' <> h -> da' (r_b r') = bdata s (r_b r') /\ blk sec' (bblockno s (r_b r')) = blk (sectors s) (bblockno s (r_b r'))) as Hoth.
  { intros h' r' Hr' Hne. assert (r_b r <> r_b r' /\ bblockno s (r_b r) <> bblockno s (r_b r')) as [N1 N2] by (split; intros E; apply Hne; symmetry; eapply (v_apart _ _ _ _ _ _ Hi); eauto).
    destruct (v_reqs _ _ _ _ _ _ Hi h' r' Hr') as (_ & _ & _ & _ & _ & Hbn' & _).
    unfold da', sec'. destruct (r_write r); [by rewrite sec_write_ne|by rewrite fn_lookup_insert_ne]. }
  assert (h ∉ U ++ S /\ h ∉ A ++ p1 ++ p2) as [HhU HhA].
  { destruct Hph as [Hn _]. rewrite Hp in Hn. assert (A ++ (p1 ++ h :: p2) ++ U ++ S ≡ₚ h :: (A ++ p1 ++ p2) ++ U ++ S) as Hperm by solve_Permutation. rewrite Hperm in Hn.
    apply NoDup_cons in Hn as [Hn _]. set_solver. }
  assert (dev_done h (r_write r) (sector_of (bblockno s (r_b r))) (r_b r) h (set_pending (p1 ++ p2) s) =
    Vst (desc s) (avail_idx s) (avail_ring s) (u16 (used_dev s + 1)) (<[Z.to_nat (used_dev s mod NUM) := h]> (used_ring s)) (vfree s) (used_idx s) (info_b s)
      (<[h := 0]> (info_status s)) (ops s) da' (bdisk s) (bblockno s) (dev_avail s) (p1 ++ p2) sec' (intr_status s) (vregs s)) as ->.
  { unfold dev_done, da', sec'. destruct (r_write r); reflexivity. }
  assert (forall n, blockno_ok n -> (r_write r = true -> n <> bblockno s (r_b r)) -> blk sec' n = blk (sectors s) n) as Hblk.
  { intros n Hn Hne. unfold sec'. destruct (r_write r); [|done]. apply sec_write_ne; [done..|]. apply not_eq_sym. by apply Hne. }
  assert (forall x, length (sec' x) = 512%nat) as Hsec.
  { intros x. unfold sec'. pose proof (k_sec _ _ _ _ _ _ _ _ _ _ _ Hd) as Hs. destruct (r_write r) eqn:Ew; [|done]. apply sec_write_len; [|done]. by rewrite Hda. }
  destruct Hi as [Hl Hc Hrs Ha _ Hav Hu _]. clearbody da' sec'. split; cbn [vfree desc ops info_b bblockno pending avail_ring dev_avail avail_idx used_ring used_idx used_dev bdisk bdata info_status sectors]; try done.
  - destruct Hl. split; cbn; rewrite ?length_insert; done.
  - eapply phases_perm; [|exact Hph]. rewrite Hp. solve_Permutation.
  - apply queue_push; [apply Hl|lia|done].
  - destruct Hd as [K1 K2 K3 K4 K5 K6]. rewrite Hp in *. split; try done.
    + intros h' r' Hr' Hin. destruct (K1 h' r' Hr') as [E1 E2]; [set_solver|]. split; [done|]. intros Hw. rewrite (proj1 (Hoth h' r' Hr' ltac:(set_solver))). by apply E2.
    + intros h' r' Hr' [Hin|Hin]%elem_of_app.
      * destruct (K2 h' r' Hr' Hin) as (E1 & E2 & E3 & E4). assert (h' <> h) as Hne by set_solver. destruct (Hoth h' r' Hr' Hne) as [O1 O2].
        rewrite list_lookup_total_insert_ne by done. split_and!; try done. by split; [rewrite O1|rewrite O2].
      * apply list_elem_of_singleton in Hin as ->. assert (r' = r) as -> by congruence. rewrite list_lookup_total_insert_eq by (destruct Hl; lia). by split_and!.
    + intros h' r' Hr' Hin. destruct (K3 h' r' Hr' Hin) as (E1 & E3 & E4). assert (h' <> h) as Hne by set_solver. destruct (Hoth h' r' Hr' Hne) as [O1 O2].
      split; [done|]. by split; [rewrite O1|rewrite O2].
    + intros n Hn Hw. rewrite Hblk; [|done|].
      * apply K5; [done|]. intros h' r' Hr' Hw' Hb'. specialize (Hw h' r' Hr' Hw' Hb'). set_solver.
      * intros Hwr ->. apply HhA. by apply (Hw h r).
Qed.

Lemma regs_inv s F ad A U S x l : inv s F ad A U S -> inv (set_intr_status x s) F ad A U S /\ inv (set_vregs l s) F ad A U S.
Proof. intros [[] Hc Hrs Ha Hp Hav Hus Hd]. split; split; try done; split; done. Qed.

Lemma dev_inv s s' F ad A U S : inv s F ad A U S -> virtio_spec s s' -> exists A' U', inv s' F ad A' U' S.
Proof.
  intros Hi Hs. inversion Hs as [? v|? Hne|? p1 h p2 write sec b st Hp Hreq|? h ? Hin Hno]; subst.
  - exists A, U. by apply (regs_inv _ _ _ _ _ _ v []).
  - destruct (take_inv s F ad A U S Hi Hne) as [A' HA]. by exists A', U.
  - exists A, (U ++ [h]). by apply finish_inv.
  - destruct (inv_elem _ _ _ _ _ _ h Hi) as [r Hr]; [set_solver|]. by destruct (Hno _ _ _ _ (inv_has_request _ _ _ _ _ _ _ _ Hi Hr)).
Qed.

(** ** The interrupt handler *)

Lemma seen_inv s F ad A h U S r : inv s F ad A (h :: U) S -> F !! h = Some r ->
  inv (set_used_idx (u16 (used_idx s + 1)) (set_bdisk (<[r_b r := 0]> (bdisk s)) s)) F ad A U (S ++ [h]).
Proof.
  intros Hi Hr. pose proof (v_phases _ _ _ _ _ _ Hi) as Hph. destruct (queue_pop _ _ _ _ _ (v_used _ _ _ _ _ _ Hi)) as [_ Hq].
  assert (forall h' r', F !! h' = Some r' -> h' <> h -> r_b r' <> r_b r) as Hoth.
  { intros h' r' Hr' Hne E. apply Hne. eapply (v_apart _ _ _ _ _ _ Hi); [done|done|by left]. }
  assert (h ∉ A ++ pending s ++ U ++ S) as Hnin.
  { destruct Hph as [Hn _]. assert (A ++ pending s ++ (h :: U) ++ S ≡ₚ h :: A ++ pending s ++ U ++ S) as Hperm by solve_Permutation. rewrite Hperm in Hn. by apply NoDup_cons in Hn as [? _]. }
  destruct Hi as [Hl Hc Hrs Ha _ Hav _ Hd]. split; cbn [set_used_idx set_bdisk vfree desc ops info_b bblockno pending avail_ring dev_avail avail_idx used_ring used_idx used_dev bdisk bdata info_status sectors]; try done.
  - by destruct Hl.
  - eapply phases_perm; [|exact Hph]. solve_Permutation.
  - destruct Hd as [K1 K2 K3 K4 K5 K6]. split; try done.
    + intros h' r' Hr' Hin. rewrite fn_lookup_insert_ne; [by apply (K1 h')|]. apply not_eq_sym, (Hoth h' r' Hr'). set_solver.
    + intros h' r' Hr' Hin. rewrite fn_lookup_insert_ne; [apply (K2 h'); [done|by right]|]. apply not_eq_sym, (Hoth h' r' Hr'). set_solver.
    + intros h' r' Hr' [Hin|Hin]%elem_of_app.
      * rewrite fn_lookup_insert_ne; [by apply (K3 h')|]. apply not_eq_sym, (Hoth h' r' Hr'). set_solver.
      * apply list_elem_of_singleton in Hin as ->. assert (r' = r) as -> by congruence. rewrite fn_lookup_insert. split; [done|]. by apply (K2 h r Hr ltac:(by left)).
Qed.

Lemma intr_inv s F ad A U S w : inv s F ad A U S ->
  wp virtio_disk_intr (fun _ c' s' => held c' = [] /\ inv s' F ad A [] (S ++ U) /\
    forall h r, h ∈ U -> F !! h = Some r -> buf_chan (r_b r) ∈ woken c') (Ctx [] w) s.
Proof.
  intros Hi. unfold virtio_disk_intr. kstep. apply wp_acquire; [set_solver|]. cbn [held woken]. do 2 kstep. unfold put_reg.
  apply (regs_inv _ _ _ _ _ _ 0 (vregs s ++ [(VIRTIO_MMIO_INTERRUPT_ACK, u32 (Z.land (u32 (intr_status s)) 0x3))])) in Hi as [_ Hi]. revert Hi. generalize (set_vregs (vregs s ++ [(VIRTIO_MMIO_INTERRUPT_ACK, u32 (Z.land (u32 (intr_status s)) 0x3))]) s). clear s. intros s Hi. kstep.
  apply wp_loop with (I := fun k _ c' s' => exists U1 U2, U = U1 ++ U2 /\ held c' = [vdisk_lock] /\ inv s' F ad A U2 (S ++ U1) /\ (length U2 < k)%nat /\
    forall h r, h ∈ U1 -> F !! h = Some r -> buf_chan (r_b r) ∈ woken c').
  2: { exists [], U. rewrite app_nil_r. split_and!; try done; [|set_solver]. assert (Z.of_nat (length U) <= NUM) as HU; [|unfold NUM in *; lia]. eapply inv_short; [exact Hi| |set_solver].
       destruct (v_phases _ _ _ _ _ _ Hi) as [Hn _]. apply NoDup_app in Hn as (_ & _ & Hn). apply NoDup_app in Hn as (_ & _ & Hn). by apply NoDup_app in Hn as (Hn & _ & _). }
  intros k _ [hl w'] s' (U1 & U2 & -> & Hh & Hi' & Hk & Hwk). cbn [held woken] in *. subst hl. destruct k as [|k]; [lia|]. exists k. split; [done|]. ksteps.
  assert (Z.of_nat (length U2) <= NUM) as HU2.
  { eapply inv_short; [exact Hi'| |set_solver]. destruct (v_phases _ _ _ _ _ _ Hi') as [Hn _]. apply NoDup_app in Hn as (_ & _ & Hn). apply NoDup_app in Hn as (_ & _ & Hn). by apply NoDup_app in Hn as (Hn & _ & _). }
  pose proof (queue_empty _ _ _ _ HU2 (v_used _ _ _ _ _ _ Hi')) as Hemp. destruct (Z.eqb_spec (used_idx s') (used_dev s')) as [E|E]; cbn [negb].
  - apply Hemp in E as ->. ksteps. rewrite app_nil_r. cbn [held woken]. split_and!; done.
  - destruct U2 as [|h U2]; [by destruct E; apply Hemp|]. destruct (queue_pop _ _ _ _ _ (v_used _ _ _ _ _ _ Hi')) as [-> _].
    destruct (inv_elem _ _ _ _ _ _ h Hi') as [r Hr]; [set_solver|]. destruct (k_used _ _ _ _ _ _ _ _ _ _ _ (v_data _ _ _ _ _ _ Hi') h r Hr) as (_ & -> & _); [by left|]. cbn [Z.eqb negb].
    destruct (v_reqs _ _ _ _ _ _ Hi' h r Hr) as (_ & _ & _ & _ & -> & _). ksteps. exists (U1 ++ [h]), U2. cbn [held woken length] in *. rewrite <- app_assoc. split_and!; try done.
    + rewrite app_assoc. exact (seen_inv s' F ad A h U2 (S ++ U1) r Hi' Hr).
    + lia.
    + intros h' r' [Hin|Hin]%elem_of_app Hr'; [apply elem_of_app; left; by eapply Hwk|]. apply list_elem_of_singleton in Hin as ->. assert (r' = r) as -> by congruence. set_solver.
Qed.

(** ** Descriptors *)

Lemma wp_loop_step {T X R} n (body : X -> K T (X + R)) (x : X) Q c (t : T) :
  wp (body x) (fun v c' t' => match v with inl x' => wp (loop n body x') Q c' t' | inr y => Q y c' t' end) c t -> wp (loop (Datatypes.S n) body x) Q c t.
Proof. intros H. cbn [loop]. apply wp_bind. eapply wp_mono; [exact H|]. by intros [x'|v] c' t' ?; [|apply wp_ret]. Qed.

Lemma alloc_desc_spec c s : wp alloc_desc (fun o c' s' => c' = c /\
  match o with Some i => (i < Z.to_nat NUM)%nat /\ vfree s !!! i <> 0 /\ s' = put_free i 0 s
             | None => (forall i, (i < Z.to_nat NUM)%nat -> vfree s !!! i = 0) /\ s' = s end) c s.
Proof.
  unfold alloc_desc. apply wp_loop with (I := fun k i c' s' => c' = c /\ s' = s /\ (i + k = Z.to_nat NUM + 1)%nat /\ (i <= Z.to_nat NUM)%nat /\ forall j, (j < i)%nat -> vfree s !!! j = 0).
  2: { split_and!; try done; lia. }
  intros k i c' s' (-> & -> & Hk & Hi & Hz). destruct k as [|k]; [lia|]. exists k. split; [done|]. destruct (Z.ltb_spec (Z.of_nat i) NUM) as [Hlt|Hge].
  - ksteps. destruct (Z.eqb_spec (vfree s !!! i) 0) as [E|E]; cbn [negb]; ksteps.
    + split_and!; try done; [lia|unfold NUM in *; lia|]. apply below_S; [done|done].
    + split; [done|]. split_and!; try done. unfold NUM in *. lia.
  - ksteps. split; [done|]. split; [|done]. intros j Hj. apply Hz. unfold NUM in *. lia.
Qed.

Lemma free_desc_spec i Q hl w s : (i < Z.to_nat NUM)%nat -> vfree s !!! i = 0 ->
  Q tt (Ctx hl (w ++ [free_chan])) (put_free i 1 (put_desc i vdesc0 s)) -> wp (free_desc i) Q (Ctx hl w) s.
Proof.
  intros Hi Hf HQ. unfold free_desc. rewrite (proj2 (Z.leb_gt NUM (Z.of_nat i))) by (unfold NUM in *; lia). ksteps. rewrite Hf. cbn [Z.eqb negb]. ksteps. exact HQ.
Qed.

(** The flags of free descriptors are 1. *)
Definition flags_ok s : Prop := length (vfree s) = Z.to_nat NUM /\ forall i, (i < Z.to_nat NUM)%nat -> vfree s !!! i = 0 \/ vfree s !!! i = 1.

Lemma put_free_comm i j x y s : i <> j -> put_free i x (put_free j y s) = put_free j y (put_free i x s).
Proof. intros H. unfold put_free, set_vfree. cbn. by rewrite list_insert_insert_ne. Qed.
Lemma put_free_desc i j x d s : put_free i x (put_desc j d s) = put_desc j d (put_free i x s).
Proof. reflexivity. Qed.
Lemma put_free_back i s : (i < length (vfree s))%nat -> vfree s !!! i = 1 -> put_free i 1 (put_free i 0 s) = s.
Proof.
  intros Hi Hf. destruct s. unfold put_free, set_vfree. cbn in *. f_equal. rewrite list_insert_insert_eq. apply list_insert_id. by rewrite list_lookup_lookup_total_lt, Hf by done.
Qed.

Definition free_back s s' : Prop :=
  exists de, length de = length (desc s) /\ s' = set_desc de s /\ forall i, vfree s !!! i = 0 -> de !!! i = desc s !!! i.

Lemma alloc3_spec s w : flags_ok s -> length (desc s) = Z.to_nat NUM ->
  wp alloc3_desc (fun o c' s' => held c' = [vdisk_lock] /\ match o with
    | Some idx => exists i0 i1 i2, idx = [i0; i1; i2] /\ NoDup idx /\ Forall (fun i => (i < Z.to_nat NUM)%nat /\ vfree s !!! i = 1) idx /\
        s' = put_free i2 0 (put_free i1 0 (put_free i0 0 s))
    | None => free_back s s' end) (Ctx [vdisk_lock] w) s.
Proof.
  intros [Hlen Hfl] Hde. unfold alloc3_desc. assert (forall i, (i < Z.to_nat NUM)%nat -> vfree s !!! i <> 0 -> vfree s !!! i = 1) as H1 by (intros i Hi Hn; destruct (Hfl i Hi); [done|done]).
  apply wp_loop_step. cbn [length Nat.ltb Nat.leb]. kstep. eapply wp_mono; [apply alloc_desc_spec|]. cbn beta. intros [i0|] c0 s0 [-> H0]; ksteps.
  2: { destruct H0 as [_ ->]. split; [done|]. exists (desc s). split_and!; [done|by destruct s|done]. }
  destruct H0 as (Hi0 & Hf0 & ->). apply H1 in Hf0; [|done]. apply wp_loop_step. cbn [length Nat.ltb Nat.leb app]. kstep. eapply wp_mono; [apply alloc_desc_spec|]. cbn beta.
  intros [i1|] c1 s1 [-> H2]; ksteps.
  2: { destruct H2 as [_ ->]. cbn [foldr]. kstep. apply free_desc_spec; [done|cbn; by rewrite list_lookup_total_insert_eq by lia|]. ksteps. split; [done|].
       exists (<[i0 := vdesc0]> (desc s)). split_and!; [by rewrite length_insert| |].
       - by rewrite put_free_desc, put_free_back by (done || lia).
       - intros i Hi. rewrite list_lookup_total_insert_ne; [done|]. intros ->. lia. }
  destruct H2 as (Hi1 & Hf1 & ->). cbn [vfree put_free set_vfree] in Hf1. assert (i1 <> i0) as Hn1 by (intros ->; apply Hf1; by rewrite list_lookup_total_insert_eq by lia).
  rewrite list_lookup_total_insert_ne in Hf1 by done. apply H1 in Hf1; [|done]. apply wp_loop_step. cbn [length Nat.ltb Nat.leb app]. kstep. eapply wp_mono; [apply alloc_desc_spec|]. cbn beta.
  intros [i2|] c2 s2 [-> H3]; ksteps.
  2: { destruct H3 as [_ ->]. cbn [foldr]. kstep. apply free_desc_spec; [done|cbn; by rewrite list_lookup_total_insert_ne, list_lookup_total_insert_eq by lia|].
       kstep. apply free_desc_spec; [done|cbn; by rewrite list_lookup_total_insert_ne, list_lookup_total_insert_eq by (rewrite ?length_insert; lia)|]. ksteps. split; [done|].
       exists (<[i1 := vdesc0]> (<[i0 := vdesc0]> (desc s))). split_and!; [by rewrite !length_insert| |].
       - rewrite !put_free_desc, (put_free_comm i0 i1 1 0) by done. by rewrite (put_free_back i0), (put_free_back i1) by (done || lia).
       - intros i Hi. rewrite !list_lookup_total_insert_ne; [done|intros ->; lia|intros ->; lia]. }
  destruct H3 as (Hi2 & Hf2 & ->). cbn [vfree put_free set_vfree] in Hf2. assert (i2 <> i1) as Hn2 by (intros ->; apply Hf2; by rewrite list_lookup_total_insert_eq by (rewrite length_insert; lia)).
  rewrite list_lookup_total_insert_ne in Hf2 by done. assert (i2 <> i0) as Hn3 by (intros ->; apply Hf2; by rewrite list_lookup_total_insert_eq by lia).
  rewrite list_lookup_total_insert_ne in Hf2 by done. apply H1 in Hf2; [|done]. apply wp_loop_step. cbn [length Nat.ltb Nat.leb app]. ksteps. split; [done|].
  exists i0, i1, i2. split_and!; try done.
  - repeat (constructor; [set_solver|]). constructor.
  - by rewrite !Forall_cons, Forall_nil.
Qed.

(** ** A call of [virtio_disk_rw] *)

Definition callable s F b : Prop :=
  length (bdata s b) = Z.to_nat BSIZE /\ blockno_ok (bblockno s b) /\
  forall h r, F !! h = Some r -> r_b r <> b /\ bblockno s (r_b r) <> bblockno s b.

Lemma inv_flags s F ad A U S : inv s F ad A U S -> flags_ok s.
Proof. intros Hi. split; [apply Hi|]. intros i Hi'. destruct (c_free _ _ (v_chains _ _ _ _ _ _ Hi) i Hi') as [[_ ?]|[_ ?]]; auto. Qed.

Lemma inv_taken s F ad A U S i : inv s F ad A U S -> taken F i -> (i < Z.to_nat NUM)%nat /\ vfree s !!! i = 0.
Proof.
  intros Hi (h & r & Hr & Hin). destruct (c_trip _ _ (v_chains _ _ _ _ _ _ Hi) h r Hr) as [_ Hf]. pose proof (Forall_elem _ _ _ Hf Hin) as Hlt. split; [done|].
  destruct (c_free _ _ (v_chains _ _ _ _ _ _ Hi) i Hlt) as [[_ ?]|[[] _]]; [done|by exists h, r].
Qed.

Lemma req_ok_ext de op ib de' op' ib' bn h r : (forall i, i ∈ trip h r -> de' !!! i = de !!! i) -> op' !!! h = op !!! h -> ib' !!! h = ib !!! h ->
  req_ok de op ib bn h r -> req_ok de' op' ib' bn h r.
Proof. intros Hde Hop Hib. unfold req_ok. rewrite !Hde, Hop, Hib by (unfold trip; set_solver). done. Qed.

Lemma nodesc_inv s s' F ad A U S : inv s F ad A U S -> free_back s s' -> inv s' F ad A U S.
Proof.
  intros Hi (de & Hl & -> & Hde). pose proof Hi as [Hlen Hc Hrs Ha Hp Hav Hus Hd]. split; cbn; try done.
  - destruct Hlen. split; cbn; congruence.
  - intros h r Hr. eapply req_ok_ext; [| | |by apply Hrs]; [|done|done]. intros i Hin. apply Hde. eapply inv_taken; [exact Hi|]. by exists h, r.
Qed.

Lemma chains_add fr F i0 i1 i2 r : length fr = Z.to_nat NUM -> r_1 r = i1 -> r_2 r = i2 -> NoDup [i0; i1; i2] ->
  Forall (fun i => (i < Z.to_nat NUM)%nat /\ fr !!! i = 1) [i0; i1; i2] -> chains_ok fr F ->
  F !! i0 = None /\ chains_ok (<[i2 := 0]> (<[i1 := 0]> (<[i0 := 0]> fr))) (<[i0 := r]> F) /\ forall i, i ∈ trip i0 r -> ~ taken F i.
Proof.
  intros Hl <- <- Hnd Hf [Hfr Htr Hdj]. change [i0; r_1 r; r_2 r] with (trip i0 r) in *.
  assert (forall i, i ∈ trip i0 r -> ~ taken F i) as Hnt.
  { intros i Hin Ht. destruct (Forall_elem _ _ _ Hf Hin) as [Hlt H1]. destruct (Hfr i Hlt) as [[_ ?]|[? _]]; [lia|done]. }
  assert (F !! i0 = None) as Hn.
  { destruct (F !! i0) as [r'|] eqn:E; [|done]. destruct (Hnt i0); [by left|]. exists i0, r'. split; [done|by left]. }
  split_and!; [done| |done]. split.
  - intros i Hi. assert (<[r_2 r:=0]> (<[r_1 r:=0]> (<[i0:=0]> fr)) !!! i = if decide (i ∈ trip i0 r) then 0 else fr !!! i) as ->.
    { unfold trip in *. rewrite !Forall_cons in Hf. rewrite !list_insert_total by (rewrite ?length_insert; lia). repeat case_decide; set_solver. }
    case_decide as Hin; [left; split; [|done]; exists i0, r; by rewrite lookup_insert_eq|].
    destruct (Hfr i Hi) as [[(h & r' & Hr' & Hin') ->]|[Hnt' ->]]; [left|right]; split; try done.
    + exists h, r'. rewrite lookup_insert_ne; [done|]. congruence.
    + intros (h & r' & Hr' & Hin'). apply Hnt'. apply lookup_insert_Some in Hr' as [[-> ->]|[_ Hr']]; [done|by exists h, r'].
  - intros h r' [[<- <-]|[_ Hr']]%lookup_insert_Some; [|by apply Htr]. split; [done|]. eapply Forall_impl; [exact Hf|]. by intros ? [? _].
  - intros h r' h' r'' i [[<- <-]|[_ Hr']]%lookup_insert_Some [[<- <-]|[_ Hr'']]%lookup_insert_Some Hin Hin'; try done.
    + destruct (Hnt i Hin). by exists h', r''.
    + destruct (Hnt i Hin'). by exists h, r'.
    + by eapply Hdj.
Qed.

Lemma trip_ne (i0 i1 i2 : nat) : NoDup [i0; i1; i2] -> i0 <> i1 /\ i0 <> i2 /\ i1 <> i2.
Proof. intros [H0 [H1 _]%NoDup_cons]%NoDup_cons. rewrite !not_elem_of_cons in *. tauto. Qed.

Lemma phases_add F A P U S h r : F !! h = None -> phases F A P U S -> phases (<[h := r]> F) (A ++ [h]) P U S.
Proof.
  intros Hn [H1 H2]. assert ((A ++ [h]) ++ P ++ U ++ S ≡ₚ h :: A ++ P ++ U ++ S) as Hp by solve_Permutation. split.
  - rewrite Hp. apply NoDup_cons. split; [|done]. intros [x Hx]%H2. congruence.
  - intros h'. rewrite Hp, elem_of_cons, H2, lookup_insert_is_Some. destruct (decide (h = h')); naive_solver.
Qed.

Lemma data_add dk da st st' sec bn ad F A P U S h r : F !! h = None -> phases F A P U S -> (forall i, i <> h -> st' !!! i = st !!! i) ->
  (forall h' r', F !! h' = Some r' -> r_b r' <> r_b r /\ bn (r_b r') <> bn (r_b r)) ->
  (r_write r = true -> da (r_b r) = r_data r) -> (r_write r = false -> r_data r = ad (bn (r_b r))) ->
  data_ok dk da st sec bn ad F A P U S -> data_ok (<[r_b r := 1]> dk) da st' sec bn ad (<[h := r]> F) (A ++ [h]) P U S.
Proof.
  intros Hn Hp Hst Hnf Hw Hrd [K1 K2 K3 K4 K5 K6]. assert (forall h', h' ∈ A ++ P ++ U ++ S -> h' <> h) as Hne.
  { intros h' [x Hx]%(p_all _ _ _ _ _ Hp) ->. congruence. }
  split; [..|done].
  - intros h' r' [[<- <-]|[Hh Hr']]%lookup_insert_Some Hin; [by rewrite fn_lookup_insert|]. rewrite fn_lookup_insert_ne by (by apply not_eq_sym, (Hnf h')). apply (K1 h'); [done|]. set_solver.
  - intros h' r' [[<- <-]|[Hh Hr']]%lookup_insert_Some Hin; [destruct (Hne h); set_solver|]. rewrite fn_lookup_insert_ne by (by apply not_eq_sym, (Hnf h')). rewrite Hst by done. by apply (K2 h').
  - intros h' r' [[<- <-]|[Hh Hr']]%lookup_insert_Some Hin; [destruct (Hne h); set_solver|]. rewrite fn_lookup_insert_ne by (by apply not_eq_sym, (Hnf h')). by apply (K3 h').
  - intros h' r' [[<- <-]|[Hh Hr']]%lookup_insert_Some Hr; [by apply Hrd|by apply (K4 h')].
  - intros n Hok Hall. apply K5; [done|]. intros h' r' Hr' Hwr E. assert (h' <> h) as Hh by congruence.
    specialize (Hall h' r'). rewrite lookup_insert_ne in Hall by done. specialize (Hall Hr' Hwr E). set_solver.
Qed.

(** A ring is never full of heads: there are fewer chains than descriptors. *)
Lemma chains_short fr F A P U S : chains_ok fr F -> phases F A P U S -> Z.of_nat (length A) <= NUM.
Proof.
  intros Hc [Hn Ha]. apply NoDup_app in Hn as (Hn & _ & _). assert (length A <= Z.to_nat NUM)%nat as H; [|unfold NUM in *; lia]. apply heads_short; [done|].
  intros h Hin. destruct (Ha h) as [[r Hr] _]; [set_solver|]. destruct (c_trip _ _ Hc h r Hr) as [_ Hf]. eapply (Forall_elem _ _ h Hf). by left.
Qed.

Lemma submit_inv s F ad A U S b write i0 i1 i2 c : inv s F ad A U S -> callable s F b -> NoDup [i0; i1; i2] ->
  Forall (fun i => (i < Z.to_nat NUM)%nat /\ vfree s !!! i = 1) [i0; i1; i2] ->
  wp (rw_submit b write i0 i1 i2) (fun _ c' s' => c' = c /\ bdisk s' b = 1 /\ desc s' !!! i0 = Vdesc (AOps i0) 16 VRING_DESC_F_NEXT i1 /\
    d_next (desc s' !!! i1) = i2 /\ avail_ring s' !!! Z.to_nat (avail_idx s mod NUM) = i0 /\ F !! i0 = None /\
    inv s' (<[i0 := Req b write i1 i2 (if write then bdata s b else ad (bblockno s b))]> F) ad (A ++ [i0]) U S)
    c (put_free i2 0 (put_free i1 0 (put_free i0 0 s))).
Proof.
  intros Hi (Hbl & Hbn & Hnf) Hnd Hf. set (r := Req _ _ _ _ _). pose proof Hi as [[] Hc Hrs Ha Hp Hav Hus Hd].
  destruct (chains_add (vfree s) F i0 i1 i2 r) as (HF0 & Hc' & Hnt); try done. assert (i0 ∉ A ++ pending s ++ U ++ S) as Hni0.
  { intros Hin%(p_all _ _ _ _ _ Hp). rewrite HF0 in Hin. by destruct Hin. }
  assert (forall n, blockno_ok n -> n = bblockno s b -> blk (sectors s) n = ad n) as Had.
  { intros n Hn ->. apply (k_disk _ _ _ _ _ _ _ _ _ _ _ Hd); [done|]. intros h r' Hr' _ E. by destruct (Hnf h r' Hr') as [_ []]. }
  unfold rw_submit. ksteps. cbn [put_free set_vfree set_ops put_desc set_desc set_info_status set_bdisk set_info_b set_avail_ring set_avail_idx put_reg set_vregs vfree desc ops info_b bblockno pending avail_ring dev_avail avail_idx used_ring used_idx used_dev bdisk bdata info_status sectors].
  destruct (trip_ne _ _ _ Hnd) as (Hn01 & Hn02 & Hn12). rewrite !Forall_cons in Hf. destruct Hf as ([H0 _] & [H1 _] & [H2 _] & _).
  split_and!; try done.
  - apply fn_lookup_insert.
  - rewrite !list_insert_total by (rewrite ?length_insert; lia). by rewrite !decide_False, decide_True by congruence.
  - rewrite !list_insert_total by (rewrite ?length_insert; lia). by rewrite decide_False, decide_True by congruence.
  - apply list_lookup_total_insert_eq. rewrite l_avail0. apply Nat2Z.inj_lt. unfold NUM. zlia.
  - split; cbn; try done; try by rewrite ?length_insert.
    + by split; cbn; rewrite ?length_insert.
    + intros h r' [[<- <-]|[Hh Hr']]%lookup_insert_Some.
      * unfold req_ok, r. cbn [r_b r_1 r_2 r_write r_data]. rewrite !list_lookup_total_insert_ne by congruence. rewrite !list_lookup_total_insert_eq by (rewrite ?length_insert; lia). split_and!; try done.
        { rewrite list_lookup_total_insert_ne by congruence. rewrite list_lookup_total_insert_eq by (rewrite ?length_insert; lia). done. }
        destruct write; [done|]. rewrite <- Had by done. unfold blk. by rewrite length_app, !(k_sec _ _ _ _ _ _ _ _ _ _ _ Hd).
      * eapply req_ok_ext; [| | |by apply Hrs].
        { intros i Hin. assert (taken F i) as Ht by (by exists h, r'). rewrite !list_lookup_total_insert_ne; [done|..]; intros ->; apply (Hnt i); unfold trip; set_solver. }
        { by rewrite list_lookup_total_insert_ne. } { by rewrite list_lookup_total_insert_ne. }
    + intros h r1 h' r2 [[<- <-]|[Hh Hr1]]%lookup_insert_Some [[<- <-]|[Hh' Hr2]]%lookup_insert_Some E; [done|..].
      * by destruct (Hnf h' r2 Hr2), E.
      * by destruct (Hnf h r1 Hr1), E.
      * by eapply Ha.
    + by apply phases_add.
    + apply queue_push; [done| |done]. pose proof (chains_short _ _ _ _ _ _ Hc' (phases_add _ _ _ _ _ i0 r HF0 Hp)) as Hs. rewrite length_app in Hs. cbn in Hs. lia.
    + apply (data_add _ _ (info_status s) _ _ _ _ _ _ _ _ _ i0 r); try done; [|by unfold r; destruct write..]. intros i Hne. by rewrite list_lookup_total_insert_ne.
Qed.

(** ** The wait for the request *)

(** The callers' disk is a block device in the sense of [Block]. *)
#[program] Definition fn_disk : BlockDev := {|
  disk := Z -> block;
  dread d n := d n;
  dwrite d n v := <[n := v]> d;
|}.
Next Obligation. intros d b b' v. cbn. case_decide; [subst; apply fn_lookup_insert|by apply fn_lookup_insert_ne]. Qed.

(** The disk after a request. *)
Definition adisk_done (bn : nat -> Z) r (ad : @disk fn_disk) : @disk fn_disk := if r_write r then dwrite ad (bn (r_b r)) (r_data r) else ad.

Lemma chains_del fr F h r : length fr = Z.to_nat NUM -> F !! h = Some r -> chains_ok fr F -> chains_ok (<[r_2 r := 1]> (<[r_1 r := 1]> (<[h := 1]> fr))) (delete h F).
Proof.
  intros Hl Hr [Hfr Htr Hdj]. destruct (Htr h r Hr) as [Hnd Hf]. split.
  - intros i Hi. assert (<[r_2 r:=1]> (<[r_1 r:=1]> (<[h:=1]> fr)) !!! i = if decide (i ∈ trip h r) then 1 else fr !!! i) as ->.
    { unfold trip in *. rewrite !Forall_cons in Hf. rewrite !list_insert_total by (rewrite ?length_insert; lia). repeat case_decide; set_solver. }
    case_decide as Hin.
    + right. split; [|done]. intros (h' & r' & [Hne Hr']%lookup_delete_Some & Hin'). apply Hne. by eapply Hdj.
    + destruct (Hfr i Hi) as [[(h' & r' & Hr' & Hin') ->]|[Hnt ->]]; [left|right]; split; try done.
      * exists h', r'. rewrite lookup_delete_ne; [done|]. congruence.
      * intros (h' & r' & [_ Hr']%lookup_delete_Some & Hin'). apply Hnt. by exists h', r'.
  - intros h' r' [_ Hr']%lookup_delete_Some. by apply Htr.
  - intros h1 r1 h2 r2 i [_ H1]%lookup_delete_Some [_ H2]%lookup_delete_Some. by eapply Hdj.
Qed.

Lemma phases_del F A P U S1 S2 h : phases F A P U (S1 ++ h :: S2) -> phases (delete h F) A P U (S1 ++ S2) /\ h ∉ A ++ P ++ U ++ S1 ++ S2.
Proof.
  intros [H1 H2]. assert (A ++ P ++ U ++ S1 ++ h :: S2 ≡ₚ h :: A ++ P ++ U ++ S1 ++ S2) as Hp by solve_Permutation.
  rewrite Hp in H1. apply NoDup_cons in H1 as [Hn H1]. split; [|done]. split; [done|]. intros h'. specialize (H2 h'). rewrite Hp, elem_of_cons in H2.
  rewrite lookup_delete_is_Some. destruct (decide (h = h')) as [->|Hne]; naive_solver.
Qed.

Lemma data_del dk da st sec bn ad F A P U S1 S2 h r : phases F A P U (S1 ++ h :: S2) -> F !! h = Some r -> apart bn F ->
  data_ok dk da st sec bn ad F A P U (S1 ++ h :: S2) -> data_ok dk da st sec bn (adisk_done bn r ad) (delete h F) A P U (S1 ++ S2).
Proof.
  intros Hp Hr Hap [K1 K2 K3 K4 K5 K6]. destruct (K3 h r Hr) as [_ [_ Hblk]]; [set_solver|]. split; [..|done].
  - intros h' r' [_ Hr']%lookup_delete_Some. by apply K1.
  - intros h' r' [_ Hr']%lookup_delete_Some. by apply K2.
  - intros h' r' [_ Hr']%lookup_delete_Some Hin. apply (K3 h'); [done|]. set_solver.
  - intros h' r' [Hne Hr']%lookup_delete_Some Hw. rewrite (K4 h' r' Hr' Hw). unfold adisk_done. cbn [dwrite fn_disk]. destruct (r_write r); [|done].
    rewrite fn_lookup_insert_ne; [done|]. intros E. apply Hne. eapply Hap; [done|done|by right].
  - intros n Hn Hall. unfold adisk_done. cbn [dwrite fn_disk]. destruct (r_write r && bool_decide (bn (r_b r) = n)) eqn:E.
    + apply andb_true_iff in E as [-> <-%bool_decide_eq_true]. by rewrite fn_lookup_insert.
    + rewrite (K5 n Hn).
      * destruct (r_write r); [|done]. rewrite fn_lookup_insert_ne; [done|]. by apply bool_decide_eq_false in E.
      * intros h' r' Hr' Hw Hb. destruct (decide (h = h')) as [->|Hne].
        { assert (r' = r) as -> by congruence. rewrite Hw in E. by apply bool_decide_eq_false in E. }
        apply (Hall h' r'); [by rewrite lookup_delete_ne|done|done].
Qed.

(** The state after the chain has been freed. *)
Definition freed h r s : vst :=
  put_free (r_2 r) 1 (put_desc (r_2 r) vdesc0 (put_free (r_1 r) 1 (put_desc (r_1 r) vdesc0 (put_free h 1 (put_desc h vdesc0 (set_info_b (<[h := None]> (info_b s)) s)))))).

Lemma freed_inv s F ad A U S1 S2 h r : inv s F ad A U (S1 ++ h :: S2) -> F !! h = Some r ->
  inv (freed h r s) (delete h F) (adisk_done (bblockno s) r ad) A U (S1 ++ S2).
Proof.
  intros Hi Hr. pose proof Hi as [Hl Hc Hrs Ha Hp Hav Hus Hd].
  split; cbn [freed put_free put_desc set_info_b set_vfree set_desc vfree desc ops info_b bblockno pending avail_ring dev_avail avail_idx used_ring used_idx used_dev bdisk bdata info_status sectors]; try done.
  - destruct Hl. by split; cbn; rewrite ?length_insert.
  - apply chains_del; [apply Hl|done|done].
  - intros h' r' [Hne Hr']%lookup_delete_Some. eapply req_ok_ext; [| | |by apply Hrs]; [|done|by rewrite list_lookup_total_insert_ne].
    assert (forall i j, i ∈ trip h' r' -> j ∈ trip h r -> j <> i) as Hd' by (intros i j Hi' Hj ->; apply Hne; by eapply (c_disj _ _ Hc)).
    intros i Hin. rewrite !list_lookup_total_insert_ne; [done|..]; apply Hd'; unfold trip; set_solver.
  - intros h1 r1 h2 r2 [_ H1]%lookup_delete_Some [_ H2]%lookup_delete_Some. by apply Ha.
  - by apply phases_del.
  - by apply data_del.
Qed.

Lemma free_chain_spec s F ad A U S h r w : inv s F ad A U S -> F !! h = Some r ->
  wp (free_chain h) (fun _ c' s' => c' = Ctx [vdisk_lock] (w ++ [free_chan] ++ [free_chan] ++ [free_chan]) /\ s' = freed h r s) (Ctx [vdisk_lock] w) (set_info_b (<[h := None]> (info_b s)) s).
Proof.
  intros Hi Hr. destruct (v_reqs _ _ _ _ _ _ Hi h r Hr) as (Hd0 & Hd1 & Hd2 & _). destruct (c_trip _ _ (v_chains _ _ _ _ _ _ Hi) h r Hr) as [Hnd _]. destruct (trip_ne _ _ _ Hnd) as (Hn01 & Hn02 & Hn12).
  assert (forall i, i ∈ trip h r -> (i < Z.to_nat NUM)%nat /\ vfree s !!! i = 0) as Ht by (intros i Hin; eapply inv_taken; [exact Hi|by exists h, r]).
  destruct (Ht h), (Ht (r_1 r)), (Ht (r_2 r)); [unfold trip; set_solver..|]. unfold free_chain. change (Z.to_nat NUM + 1)%nat with 9%nat.
  apply wp_loop_step. ksteps. cbn [set_info_b desc]. rewrite Hd0. apply free_desc_spec; [done|done|]. cbn [d_flags d_next]. ksteps.
  apply wp_loop_step. ksteps. cbn [put_free put_desc set_info_b set_vfree set_desc desc]. rewrite list_lookup_total_insert_ne, Hd1 by done. apply free_desc_spec; [done|cbn; by rewrite list_lookup_total_insert_ne|]. cbn [d_flags d_next].
  replace (negb (Z.land _ _ =? 0)) with true by (by destruct (r_write r)). ksteps.
  apply wp_loop_step. ksteps. cbn [put_free put_desc set_info_b set_vfree set_desc desc]. rewrite !list_lookup_total_insert_ne, Hd2 by done. apply free_desc_spec; [done|cbn; by rewrite !list_lookup_total_insert_ne|]. cbn [d_flags d_next]. ksteps.
  split; [|done]. by rewrite <- !app_assoc.
Qed.
