(* ===== verification/VirtioSys.v ===== *)
(** * The disk driver is a disk

    [sys] is the driver's state together with the requests under way
    ([calls], by the head of their chain) and the disk as the callers of
    [virtio_disk_rw] see it ([adisk], a [BlockDev]).  The steps are those
    of the callers, of the interrupt handler and of the device, in any
    order. *)
From stdpp Require Import functions.
From S2P Require Import Prelude Kmonad Mem Kalloc Block Ring Virtio VirtioSpec.

(** ** Initialization *)

(** The driver's variables before [virtio_disk_init]: zero, as C's static
    variables are; the device has just been reset. *)
Definition vst0 (bd : nat -> list Z) (bn : nat -> Z) (sec : Z -> list Z) : vst :=
  let n := Z.to_nat NUM in
  Vst [] 0 [] 0 [] (replicate n 0) 0 (replicate n None) (replicate n 0) (replicate n (BlkReq 0 0 0)) bd (fun _ => 0) bn 0 [] sec 0 [].

Definition ready_queues (s : vst) : vst :=
  set_used_ring (replicate (Z.to_nat NUM) O) (set_used_dev 0
    (set_avail_ring (replicate (Z.to_nat NUM) O) (set_avail_idx 0 (set_desc (replicate (Z.to_nat NUM) vdesc0) s)))).
Definition vst_ready (s : vst) : vst := foldl (fun s i => put_free i 1 s) (ready_queues s) (seq 0 (Z.to_nat NUM)).

Lemma wlp_in_v {A} (f : vst -> vst) (m : unit -> K ist A) Q c i v : i_v i = v ->
  (forall c' i', i_v i' = f v -> wlp (m tt) Q (fun _ => True) c' i') -> wlp (bind (in_v f) m) Q (fun _ => True) c i.
Proof. intros Hv H. apply wlp_bind. unfold in_v, wlp, modify. intros c'. apply H. cbn. by rewrite Hv. Qed.

Lemma in_mem_keeps {A} (m : K mstate A) : keeps i_v (in_mem m).
Proof. by apply keeps_zoom. Qed.
Lemma initlock_keeps lk : keeps i_v (initlock lk).
Proof. by intros c s. Qed.
Lemma R_get_keeps rd x : keeps i_v (R_get rd x).
Proof. apply keeps_gets. Qed.
Lemma R_set_keeps x y : keeps i_v (R_set x y).
Proof. by apply keeps_modify. Qed.

Lemma wlp_i_keeps {A B} (m : K ist A) (g : A -> K ist B) Q c i v : keeps i_v m -> i_v i = v ->
  (forall a c' i', i_v i' = v -> wlp (g a) Q (fun _ => True) c' i') -> wlp (bind m g) Q (fun _ => True) c i.
Proof. intros Hk Hv H. apply wlp_bind, (wlp_keeps i_v); [done| |done]. intros a i' E c'. apply H. congruence. Qed.

#[local] Hint Resolve in_mem_keeps initlock_keeps R_get_keeps R_set_keeps : keeps.

Ltac istep := cbn zeta; match goal with
  | |- wlp (if ?b then panic _ else _) _ _ _ _ => destruct b; [exact I|]
  | |- wlp (bind (in_v _) _) _ _ _ _ => eapply wlp_in_v; [eassumption|intros ? ? ?]
  | |- wlp (bind _ _) _ _ _ _ => eapply wlp_i_keeps; [first [solve [auto with keeps nocore] | by apply keeps_modify]|eassumption|intros ? ? ? ?]
  end.

Lemma init_wlp rd c i v : i_v i = v -> wlp (virtio_disk_init rd) (fun _ i' => i_v i' = vst_ready v) (fun _ => True) c i.
Proof. intros Hv. unfold virtio_disk_init. repeat istep. done. Qed.

Lemma ready_inv bd bn sec : (forall x, length (sec x) = 512%nat) -> inv (vst_ready (vst0 bd bn sec)) ∅ (blk sec) [] [] [].
Proof.
  intros Hs. split.
  - done.
  - split; [|done|done]. intros i Hi. right. split; [by intros (h & r & Hr & _)|]. by do 8 (destruct i as [|i]; [done|]); unfold NUM in Hi; lia.
  - done.
  - done.
  - split; [constructor|]. intros h. split; [by intros ?%not_elem_of_nil|by intros [? ?]].
  - split; [done|]. split; [done|]. apply ring_nil.
  - split; [done|]. split; [done|]. apply ring_nil.
  - by split.
Qed.

(** ** The system *)

Record sys := Sys { drv : vst; calls : gmap nat req; adisk : @disk fn_disk }.

(** One activation of a call: the first, or one that was asleep for want of
    descriptors. *)
Inductive attempt (b : nat) (write : bool) : K vst unit -> ctx -> Prop :=
  | first_try w : attempt b write (virtio_disk_rw b write) (Ctx [] w)
  | next_try w : attempt b write (rw_alloc b write) (Ctx [vdisk_lock] w).

(** The request an activation submits, read off the rings. *)
Definition submitted (b : nat) (write : bool) (data : list Z) (s s' : vst) : nat * req :=
  let h := avail_ring s' !!! Z.to_nat (avail_idx s mod NUM) in
  let i1 := d_next (desc s' !!! h) in
  (h, Req b write i1 (d_next (desc s' !!! i1)) data).

Lemma wait_spec s F ad A U S h r w : inv s F ad A U S -> F !! h = Some r ->
  wpx (rw_wait (r_b r) h) (fun _ c' s' => s' = freed h r s /\ held c' = [] /\ free_chan ∈ woken c' /\ h ∈ S)
    (fun ch c' s' => ch = buf_chan (r_b r) /\ s' = s /\ bdisk s (r_b r) = 1) (Ctx [vdisk_lock] w) s.
Proof.
  intros Hi Hr. unfold rw_wait. apply wpx_bind_wp. ksteps. destruct (Z.eqb_spec (bdisk s (r_b r)) 1) as [E|E]; [by apply wpx_sleep|].
  apply wpx_wp. ksteps. eapply wp_mono; [by eapply free_chain_spec|]. cbn beta. intros _ c' s' [-> ->]. ksteps. split_and!; try done; [set_solver|].
  pose proof (v_data _ _ _ _ _ _ Hi) as Hd. assert (h ∈ A ++ pending s ++ U ++ S) as Hin by (apply (p_all _ _ _ _ _ (v_phases _ _ _ _ _ _ Hi)); by exists r).
  rewrite app_assoc, !elem_of_app in Hin. destruct Hin as [Hin|[Hin|Hin]]; [|..|done].
  - destruct E. apply (k_busy _ _ _ _ _ _ _ _ _ _ _ Hd h r Hr). set_solver.
  - destruct E. by apply (k_used _ _ _ _ _ _ _ _ _ _ _ Hd h r Hr).
Qed.

Lemma alloc_spec s F ad A U S b write w : inv s F ad A U S -> callable s F b ->
  wpx (rw_alloc b write) (fun _ _ _ => False) (fun ch c' s' => held c' = [] /\
    ((ch = free_chan /\ inv s' F ad A U S) \/
    (ch = buf_chan b /\ let '(h, r) := submitted b write (if write then bdata s b else ad (bblockno s b)) s s' in inv s' (<[h := r]> F) ad (A ++ [h]) U S)))
    (Ctx [vdisk_lock] w) s.
Proof.
  intros Hi Hb. unfold rw_alloc. apply wpx_bind_wp. eapply wp_mono; [apply alloc3_spec; [by eapply inv_flags|apply Hi]|]. cbn beta. intros o [hl w'] s' [Hh Ho]. cbn [held] in Hh. subst hl.
  destruct o as [idx|]; [|apply wpx_sleep; split; [done|left]; split; [done|by eapply nodesc_inv]]. destruct Ho as (i0 & i1 & i2 & -> & Hnd & Hf & ->).
  apply wpx_bind_wp. eapply wp_mono; [by eapply submit_inv|]. cbn beta. intros _ c' s' (-> & Hd & Hd0 & Hd1 & Hring & Hn & Hi').
  unfold rw_wait. apply wpx_bind_wp. ksteps. rewrite Hd. cbn [Z.eqb Pos.eqb]. apply wpx_sleep. split; [done|right]. split; [done|].
  unfold submitted. rewrite Hring, Hd0. cbn [d_next]. by rewrite Hd1.
Qed.

Lemma attempt_spec s F ad A U S b write m c : inv s F ad A U S -> callable s F b -> attempt b write m c ->
  wpx m (fun _ _ _ => False) (fun ch c' s' => held c' = [] /\
    ((ch = free_chan /\ inv s' F ad A U S) \/
    (ch = buf_chan b /\ let '(h, r) := submitted b write (if write then bdata s b else ad (bblockno s b)) s s' in inv s' (<[h := r]> F) ad (A ++ [h]) U S))) c s.
Proof.
  intros Hi Hb [w|w]; [|by apply alloc_spec]. unfold virtio_disk_rw. apply wpx_bind_wp, wp_acquire; [set_solver|]. by apply alloc_spec.
Qed.

Lemma client_inv s F ad A U S b d n : inv s F ad A U S -> (forall h r, F !! h = Some r -> r_b r <> b) ->
  inv (set_bblockno (<[b := n]> (bblockno s)) (set_bdata (<[b := d]> (bdata s)) s)) F ad A U S.
Proof.
  intros [Hl Hc Hrs Ha Hp Hav Hus [K1 K2 K3 K4 K5 K6]] Hb. assert (forall T (f : nat -> T) x h r, F !! h = Some r -> (<[b := x]> f : nat -> T) (r_b r) = f (r_b r)) as Hins.
  { intros T f x h r Hr. apply fn_lookup_insert_ne, not_eq_sym. by eapply Hb. }
  split; cbn [set_bblockno set_bdata vfree desc ops info_b bblockno pending avail_ring dev_avail avail_idx used_ring used_idx used_dev bdisk bdata info_status sectors]; try done.
  - by destruct Hl.
  - intros h r Hr. specialize (Hrs h r Hr). unfold req_ok in *. by rewrite (Hins _ _ _ h).
  - intros h r h' r' Hr Hr'. rewrite (Hins _ _ _ h), (Hins _ _ _ h') by done. by apply Ha.
  - split; [..|done]; unfold final in *.
    + intros h r Hr. rewrite (Hins _ _ _ h) by done. by apply K1.
    + intros h r Hr. rewrite !(Hins _ _ _ h) by done. by apply K2.
    + intros h r Hr. rewrite !(Hins _ _ _ h) by done. by apply K3.
    + intros h r Hr. rewrite !(Hins _ _ _ h) by done. by apply (K4 h).
    + intros k Hk Hall. apply K5; [done|]. intros h r Hr Hw E. apply (Hall h r); [done..|]. by rewrite (Hins _ _ _ h).
Qed.

Section system.
Context (dev : vst -> vst -> Prop).

Inductive dstep : sys -> sys -> Prop :=
  | d_dev s s' F ad : dev s s' -> dstep (Sys s F ad) (Sys s' F ad)
  | d_client s F ad b d n : (forall h r, F !! h = Some r -> r_b r <> b) ->
      dstep (Sys s F ad) (Sys (set_bblockno (<[b := n]> (bblockno s)) (set_bdata (<[b := d]> (bdata s)) s)) F ad)
  | d_nodesc s F ad b write m c c' s' : callable s F b -> attempt b write m c ->
      m c s = Asleep free_chan c' s' -> dstep (Sys s F ad) (Sys s' F ad)
  | d_submit s F ad b write m c c' s' : callable s F b -> attempt b write m c ->
      m c s = Asleep (buf_chan b) c' s' ->
      let '(h, r) := submitted b write (if write then bdata s b else ad (bblockno s b)) s s' in
      dstep (Sys s F ad) (Sys s' (<[h := r]> F) ad)
  | d_intr s F ad w c' s' : virtio_disk_intr (Ctx [] w) s = Ok tt c' s' -> dstep (Sys s F ad) (Sys s' F ad)
  | d_wait s F ad h r w ch c' s' : F !! h = Some r -> rw_wait (r_b r) h (Ctx [vdisk_lock] w) s = Asleep ch c' s' ->
      dstep (Sys s F ad) (Sys s' F ad)
  | d_return s F ad h r w c' s' : F !! h = Some r -> rw_wait (r_b r) h (Ctx [vdisk_lock] w) s = Ok tt c' s' ->
      dstep (Sys s F ad) (Sys s' (delete h F) (adisk_done (bblockno s) r ad)).

Definition sys_ok (x : sys) : Prop := exists A U S, inv (drv x) (calls x) (adisk x) A U S.

Lemma dstep_ok x y : (forall s s', dev s s' -> virtio_spec s s') -> sys_ok x -> dstep x y -> sys_ok y.
Proof.
  intros Hdev (A & U & S & Hi) Hst. destruct Hst as [s s' F ad Hd|s F ad b d n Hb|s F ad b write m c c' s' Hb Hat Hm|s F ad b write m c c' s' Hb Hat Hm|s F ad w c' s' Hm|s F ad h r w ch c' s' Hr Hm|s F ad h r w c' s' Hr Hm]; cbn [drv calls adisk] in *.
  - apply Hdev in Hd. eapply dev_inv in Hd as (A' & U' & Hd); [|exact Hi]. by exists A', U', S.
  - exists A, U, S. by apply client_inv.
  - pose proof (attempt_spec _ _ _ _ _ _ _ _ _ _ Hi Hb Hat) as H. unfold wpx in H. rewrite Hm in H. destruct H as [_ [[_ H]|[? _]]]; [by exists A, U, S|done].
  - pose proof (attempt_spec _ _ _ _ _ _ _ _ _ _ Hi Hb Hat) as H. unfold wpx in H. rewrite Hm in H. destruct H as [_ [[? _]|[_ H]]]; [done|]. by exists (A ++ [avail_ring s' !!! Z.to_nat (avail_idx s mod NUM)]), U, S.
  - pose proof (intr_inv _ _ _ _ _ _ w Hi) as H. unfold wp in H. rewrite Hm in H. destruct H as (_ & H & _). by exists A, [], (S ++ U).
  - pose proof (wait_spec _ _ _ _ _ _ _ _ w Hi Hr) as H. unfold wpx in H. rewrite Hm in H. destruct H as (_ & -> & _). by exists A, U, S.
  - pose proof (wait_spec _ _ _ _ _ _ _ _ w Hi Hr) as H. unfold wpx in H. rewrite Hm in H. destruct H as (-> & _ & _ & (S1 & S2 & ->)%list_elem_of_split). exists A, U, (S1 ++ S2). by apply freed_inv.
Qed.
End system.

(** ** What the driver promises *)

Record driver_ok (x : sys) : Prop := {
  (** A call never panics: it sleeps until there are descriptors or, having
      submitted its request, until the request has been completed. *)
  ok_call b write m c : callable (drv x) (calls x) b -> attempt b write m c ->
    wpx m (fun _ _ _ => False) (fun ch c' _ => (ch = free_chan \/ ch = buf_chan b) /\ held c' = []) c (drv x);
  (** When it returns, the request's data are in the buffer and on the disk,
      and its descriptors have been given back. *)
  ok_return h r w : calls x !! h = Some r ->
    wpx (rw_wait (r_b r) h) (fun _ c' s' => bdata s' (r_b r) = r_data r /\ blk (sectors s') (bblockno (drv x) (r_b r)) = r_data r /\
        (forall i, i ∈ trip h r -> vfree s' !!! i = 1) /\ held c' = [] /\ free_chan ∈ woken c')
      (fun ch _ s' => ch = buf_chan (r_b r) /\ s' = drv x) (Ctx [vdisk_lock] w) (drv x);
  (** What a read returns. *)
  ok_read h r : calls x !! h = Some r -> r_write r = false -> r_data r = dread (adisk x) (bblockno (drv x) (r_b r));
  (** The interrupt handler never panics and loses no completion. *)
  ok_intr w : wp virtio_disk_intr (fun _ c' s' => held c' = [] /\
      (forall h r, calls x !! h = Some r -> bdisk (drv x) (r_b r) = 1 -> bdisk s' (r_b r) <> 1 -> buf_chan (r_b r) ∈ woken c') /\
      (pending (drv x) = [] -> dev_avail (drv x) = avail_idx (drv x) -> forall h r, calls x !! h = Some r -> bdisk s' (r_b r) <> 1)) (Ctx [] w) (drv x);
  (** Every block is as the calls that have returned left it, or as a write
      under way will leave it. *)
  ok_block n : blockno_ok n -> blk (sectors (drv x)) n = dread (adisk x) n \/
    exists h r, calls x !! h = Some r /\ r_write r = true /\ bblockno (drv x) (r_b r) = n /\ blk (sectors (drv x)) n = r_data r;
}.

Lemma inv_block s F ad A U S n : inv s F ad A U S -> blockno_ok n -> blk (sectors s) n = ad n \/
  exists h r, F !! h = Some r /\ r_write r = true /\ bblockno s (r_b r) = n /\ blk (sectors s) n = r_data r.
Proof.
  intros Hi Hn. pose proof (v_data _ _ _ _ _ _ Hi) as Hd.
  destruct (decide (map_Forall (fun h r => r_write r = true /\ bblockno s (r_b r) = n -> h ∈ A ++ pending s) F)) as [Hall|Hex].
  - left. apply (k_disk _ _ _ _ _ _ _ _ _ _ _ Hd); [done|]. intros h r Hr Hw E. by apply (Hall h r Hr).
  - right. apply map_not_Forall in Hex as (h & r & Hr & Hnot); [|apply _].
    destruct (decide (r_write r = true /\ bblockno s (r_b r) = n)) as [[Hw E]|]; [|tauto]. exists h, r. split_and!; try done. rewrite <- E.
    destruct (decide (h ∈ A ++ pending s)) as [|Hnin]; [tauto|]. assert (h ∈ A ++ pending s ++ U ++ S) as Hin by (apply (p_all _ _ _ _ _ (v_phases _ _ _ _ _ _ Hi)); by exists r).
    rewrite app_assoc in Hin. apply elem_of_app in Hin as [Hin|[Hin|Hin]%elem_of_app]; [done|..].
    + apply (k_used _ _ _ _ _ _ _ _ _ _ _ Hd h r Hr Hin).
    + apply (k_seen _ _ _ _ _ _ _ _ _ _ _ Hd h r Hr Hin).
Qed.

Lemma intr_complete s F ad A U S w : inv s F ad A U S ->
  wp virtio_disk_intr (fun _ c' s' => held c' = [] /\
      (forall h r, F !! h = Some r -> bdisk s (r_b r) = 1 -> bdisk s' (r_b r) <> 1 -> buf_chan (r_b r) ∈ woken c') /\
      (pending s = [] -> dev_avail s = avail_idx s -> forall h r, F !! h = Some r -> bdisk s' (r_b r) <> 1)) (Ctx [] w) s.
Proof.
  intros Hi. eapply wp_mono; [by apply intr_inv|]. cbn beta. intros _ c' s' (Hh & Hi' & Hw). split; [done|]. pose proof (v_data _ _ _ _ _ _ Hi) as Hd. pose proof (v_data _ _ _ _ _ _ Hi') as Hd'. split.
  - intros h r Hr Hb Hb'. apply (Hw h r); [|done]. assert (h ∈ A ++ pending s' ++ [] ++ S ++ U) as Hin by (apply (p_all _ _ _ _ _ (v_phases _ _ _ _ _ _ Hi')); by exists r).
    rewrite app_assoc, elem_of_app in Hin. destruct Hin as [Hin|Hin]; [by destruct Hb'; apply (k_busy _ _ _ _ _ _ _ _ _ _ _ Hd' h r Hr)|].
    cbn [app] in Hin. apply elem_of_app in Hin as [Hin|Hin]; [|done]. by destruct (k_seen _ _ _ _ _ _ _ _ _ _ _ Hd h r Hr Hin).
  - intros Hp Hav h r Hr. assert (h ∈ A ++ pending s ++ U ++ S) as Hin by (apply (p_all _ _ _ _ _ (v_phases _ _ _ _ _ _ Hi)); by exists r).
    apply (queue_empty _ _ _ _ (chains_short _ _ _ _ _ _ (v_chains _ _ _ _ _ _ Hi) (v_phases _ _ _ _ _ _ Hi)) (v_avail _ _ _ _ _ _ Hi)) in Hav as ->.
    rewrite Hp in Hin. apply (k_seen _ _ _ _ _ _ _ _ _ _ _ Hd' h r Hr). set_solver.
Qed.

Lemma wait_done s F ad A U S h r w : inv s F ad A U S -> F !! h = Some r ->
  wpx (rw_wait (r_b r) h) (fun _ c' s' => bdata s' (r_b r) = r_data r /\ blk (sectors s') (bblockno s (r_b r)) = r_data r /\
      (forall i, i ∈ trip h r -> vfree s' !!! i = 1) /\ held c' = [] /\ free_chan ∈ woken c')
    (fun ch _ s' => ch = buf_chan (r_b r) /\ s' = s) (Ctx [vdisk_lock] w) s.
Proof.
  intros Hi Hr. eapply wpx_mono; [exact (wait_spec s F ad A U S h r w Hi Hr)| |]; cbn beta; [|by intros ch c' s' (-> & -> & _)]. intros _ c' s' (-> & Hh & Hf & Hin).
  destruct (k_seen _ _ _ _ _ _ _ _ _ _ _ (v_data _ _ _ _ _ _ Hi) h r Hr Hin) as (_ & Hda & Hbl). split_and!; try done.
  apply list_elem_of_split in Hin as (S1 & S2 & ->). pose proof (freed_inv _ _ _ _ _ _ _ _ _ Hi Hr) as Hi'. intros i Hin. destruct (inv_taken _ _ _ _ _ _ i Hi) as [Hlt _]; [by exists h, r|].
  destruct (c_free _ _ (v_chains _ _ _ _ _ _ Hi') i Hlt) as [[(h' & r' & [Hne Hr']%lookup_delete_Some & Hin') _]|[_ ?]]; [|done].
  destruct Hne. by eapply (c_disj _ _ (v_chains _ _ _ _ _ _ Hi)).
Qed.

Lemma sys_driver_ok x : sys_ok x -> driver_ok x.
Proof.
  intros (A & U & S & Hi). split.
  - intros b write m c Hb Hat. eapply wpx_mono; [by eapply attempt_spec|done|]. cbn beta. intros ch c' s' [Hh H]. split; [|done]. by destruct H as [[? _]|[? _]]; [left|right].
  - intros h r w Hr. by eapply wait_done.
  - intros h r. apply (k_read _ _ _ _ _ _ _ _ _ _ _ (v_data _ _ _ _ _ _ Hi)).
  - intros w. by eapply intr_complete.
  - intros n. by eapply inv_block.
Qed.


(** ** Witness: a block is written *)

Definition rd_ok (log : list (Z * Z)) (r : Z) : Z :=
  if r =? VIRTIO_MMIO_MAGIC_VALUE then 0x74726976 else if r =? VIRTIO_MMIO_VERSION then 2 else if r =? VIRTIO_MMIO_DEVICE_ID then 2
  else if r =? VIRTIO_MMIO_VENDOR_ID then 0x554d4551 else if r =? VIRTIO_MMIO_STATUS then 11 else if r =? VIRTIO_MMIO_QUEUE_NUM_MAX then 1024 else 0.
Definition zeros (_ : Z) : list Z := replicate 512 0.
Definition kmem3 : mstate := Mst (store64 (store64 ∅ 0x80100000 0x80200000) 0x80200000 0x80300000) 0x80100000.
Definition ist0 : ist := Ist kmem3 (vst0 (fun _ => []) (fun _ => 0) zeros) 0 0 0 [].

(** The state after an activation. *)
Definition after {S A} (m : K S A) (c : ctx) (s : S) : S := match m c s with Ok _ _ s' | Asleep _ _ s' => s' | _ => s end.
Definition ends {S A} (m : K S A) (c : ctx) (s : S) : option (option chan) :=
  match m c s with Ok _ _ _ => Some None | Asleep ch _ _ => Some (Some ch) | _ => None end.
Lemma ends_ok {S} (m : K S unit) c s : ends m c s = Some None -> exists c', m c s = Ok tt c' (after m c s).
Proof. unfold ends, after. destruct (m c s) as [[]| | |]; naive_solver. Qed.
Lemma ends_asleep {S A} (m : K S A) c s ch : ends m c s = Some (Some ch) -> exists c', m c s = Asleep ch c' (after m c s).
Proof. unfold ends, after. destruct (m c s); naive_solver. Qed.

Definition ist1 : ist := after (virtio_disk_init rd_ok) (Ctx [] []) ist0.
Definition drv1 : vst := set_bblockno (<[1%nat := 5]> (bblockno (i_v ist1))) (set_bdata (<[1%nat := replicate 1024 7]> (bdata (i_v ist1))) (i_v ist1)).
Definition drv2 : vst := after (virtio_disk_rw 1 true) (Ctx [] []) drv1.
Definition drv3 : vst := set_dev_avail (u16 (dev_avail drv2 + 1)) (set_pending (pending drv2 ++ [avail_ring drv2 !!! Z.to_nat (dev_avail drv2 mod NUM)]) drv2).
Definition drv4 : vst := dev_done 0 true 10 1 0 (set_pending [] drv3).
Definition drv5 : vst := after virtio_disk_intr (Ctx [] []) drv4.
Definition drv6 : vst := after (rw_wait 1 0) (Ctx [vdisk_lock] []) drv5.
Definition req1 : req := Req 1 true 1 2 (replicate 1024 7).

Lemma init_run : exists c, virtio_disk_init rd_ok (Ctx [] []) ist0 = Ok tt c ist1.
Proof. unfold ist1. apply ends_ok. vm_compute. reflexivity. Qed.
Lemma submit_run F : F = ∅ -> dstep virtio_spec (Sys drv1 F (blk zeros)) (Sys drv2 (<[0%nat := req1]> ∅) (blk zeros)).
Proof.
  intros ->. assert (callable drv1 ∅ 1) as Hb by (split_and!; [vm_compute; reflexivity|vm_compute; intuition congruence|done]).
  destruct (ends_asleep (virtio_disk_rw 1 true) (Ctx [] []) drv1 (buf_chan 1)) as [c H]; [vm_compute; reflexivity|].
  assert (after (virtio_disk_rw 1 true) (Ctx [] []) drv1 = drv2) as E by (unfold drv2; reflexivity). rewrite E in H.
  pose proof (d_submit virtio_spec _ _ (blk zeros) _ _ _ _ _ _ Hb (first_try 1 true []) H) as Hst.
  replace (submitted 1 true (bdata drv1 1%nat) drv1 drv2) with (0%nat, req1) in Hst by (vm_compute; reflexivity). exact Hst.
Qed.
Lemma take_run : virtio_spec drv2 drv3.
Proof. unfold drv3. apply vs_take. vm_compute. discriminate. Qed.
Lemma finish_run : virtio_spec drv3 drv4.
Proof. apply (vs_finish drv3 [] 0%nat [] true 10 1 0); [vm_compute; reflexivity|]. exists 0%nat. vm_compute. intuition congruence. Qed.
Lemma intr_run F ad : dstep virtio_spec (Sys drv4 F ad) (Sys drv5 F ad).
Proof. destruct (ends_ok virtio_disk_intr (Ctx [] []) drv4) as [c H]; [vm_compute; reflexivity|]. unfold drv5. apply (d_intr _ _ _ _ _ _ _ H). Qed.
Lemma return_run ad : dstep virtio_spec (Sys drv5 (<[0%nat := req1]> ∅) ad) (Sys drv6 (delete 0%nat (<[0%nat := req1]> ∅)) (adisk_done (bblockno drv5) req1 ad)).
Proof.
  destruct (ends_ok (rw_wait 1 0) (Ctx [vdisk_lock] []) drv5) as [c H]; [vm_compute; reflexivity|]. unfold drv6.
  apply (d_return virtio_spec drv5 _ ad 0 req1 _ _ _ (lookup_insert_eq _ _ _) H).
Qed.
Lemma write_run : rtc (dstep virtio_spec) (Sys (i_v ist1) ∅ (blk zeros)) (Sys drv6 (delete 0%nat (<[0%nat := req1]> ∅)) (adisk_done (bblockno drv5) req1 (blk zeros))).
Proof.
  eapply rtc_l; [by apply (d_client _ _ _ _ 1%nat (replicate 1024 7) 5)|]. eapply rtc_l; [by apply submit_run|].
  eapply rtc_l; [apply d_dev, take_run|]. eapply rtc_l; [apply d_dev, finish_run|]. eapply rtc_l; [apply intr_run|]. eapply rtc_l; [apply return_run|]. apply rtc_refl.
Qed.

