(* ===== verification/Trap.v ===== *)
(** * kernel/trap.c, and forkret of kernel/proc.c and syscall of kernel/syscall.c

    The trap handlers in C, on one hart: its control registers ([Csr]), the
    interrupt controller ([Plic]), the kernel's state ([File], [Proc]), the
    terminal ([Console]) and the disk driver ([Virtio]).  [myproc()] is the
    process the hart runs, by the number in its tp.

    [yield] ends an activation at [swtch]; [usertrap_resumed] and
    [kerneltrap_resumed] are the handlers from its return on.  A system call
    that sleeps ends the activation inside it. *)
From S2P Require Import Prelude Kmonad Riscv Mem KString Kalloc Vm Block Sleeplock Bio Log FsLayout Fs FsDir FsPath Pipe File Proc Syscall Exec Sysfile Printf Uart Console Virtio Csr Plic.

(** The constants of [devintr]. *)
Definition EXTERNAL_INTERRUPT : Z := 0x8000000000000009.
Definition TIMER_INTERRUPT : Z := 0x8000000000000005.

Section trap.
Context {L : Layout} {D : BlockDev} {U : UartDev}.
(** The addresses of functions, labels and constants in the kernel. *)
Context (sym : string -> Z).
Context (plic_reads : list access -> Z -> Z) (polls turns : nat) (kbuf : Z).
Context (devsw : Z -> devfn (M := pst) * devfn (M := pst)) (junk : list Z).

Record tst := Tst {
  kern : kst (M := pst);
  term : tty U;
  vdisk : vst;
  hreg : cpuregs;
  plic : list access;
  first : Z;             (** the static variable of [forkret] *)
}.

Definition kz {A} (m : K (kst (M := pst)) A) : K tst A :=
  zoom kern (fun k s => Tst k (term s) (vdisk s) (hreg s) (plic s) (first s)) m.
Definition pz {A} (m : K pst A) : K tst A := kz (pr m).
Definition tz {A} (m : K (tty U) A) : K tst A :=
  zoom term (fun t s => Tst (kern s) t (vdisk s) (hreg s) (plic s) (first s)) m.
Definition vz {A} (m : K vst A) : K tst A :=
  zoom vdisk (fun v s => Tst (kern s) (term s) v (hreg s) (plic s) (first s)) m.
Definition hz {A} (m : K cpuregs A) : K tst A :=
  zoom hreg (fun h s => Tst (kern s) (term s) (vdisk s) h (plic s) (first s)) m.
Definition iz {A} (m : K plst A) : K tst A :=
  zoom (fun s => (plic s, hreg s)) (fun x s => Tst (kern s) (term s) (vdisk s) (snd x) (fst x) (first s)) m.
Definition print (fmt : string) (ap : list arg) : K tst unit := tz (uz (printf polls (chars fmt ++ [newline]) ap)).

(** [mycpu()->proc] *)
Definition myproc : K tst (option nat) :=
  h <- hz cpuid ;;
  gets (fun s => cproc (kmem (kern s)) !!! Z.to_nat h).

(** ** Set-up *)

Definition trapinit : K tst unit := initlock tickslock.
Definition trapinithart : K tst unit := hz (w_stvec (sym "kernelvec")).

(** [kvminithart] of kernel/vm.c; the fences around the write order accesses
    that are in program order here. *)
Definition kvminithart (kernel_pagetable : Z) : K tst unit := hz (w_satp (MAKE_SATP kernel_pagetable)).

(** ** Interrupts *)

Definition clockintr : K tst unit :=
  h <- hz cpuid ;;
  (if h =? 0 then
     acquire tickslock ;;
     pz (modify (fun s => set_ticks (u32 (ticks s + 1)) s)) ;;
     p <- myproc ;;
     pz (wakeup_procs (default nproc p) (Some ticks_chan)) ;;
     release tickslock
   else skip) ;;
  t <- hz r_time ;;
  hz (w_stimecmp (u64 (t + 1000000))).

(** The handler of the device that interrupted. *)
Definition dev_handler (irq : Z) : K tst unit :=
  if irq =? UART0_IRQ then
    ps <- gets (fun s => procs (kmem (kern s))) ;;
    tz (uartintr polls turns ps)
  else if irq =? VIRTIO0_IRQ then vz virtio_disk_intr
  else if negb (irq =? 0) then print "unexpected interrupt irq=%d" [Word irq]
  else skip.

Definition devintr : K tst Z :=
  sc <- hz r_scause ;;
  if sc =? EXTERNAL_INTERRUPT then
    irq <- iz (plic_claim plic_reads) ;;
    dev_handler irq ;;
    when (negb (irq =? 0)) (iz (plic_complete irq)) ;;
    ret 1
  else if sc =? TIMER_INTERRUPT then
    clockintr ;;
    ret 2
  else ret 0.

(** ** System calls (kernel/syscall.c) *)

Definition trap_syscall (p : nat) : K tst unit :=
  a7 <- pz (get_tf p (tf_a 7)) ;;
  let num := i32 a7 in
  match syscalls (sym "forkret") p kbuf devsw junk num with
  | Some f =>
      r <- kz f ;;
      pz (set_tf p (tf_a 0) r)
  | None =>
      x <- pz (get_proc p id) ;;
      print "%d %s: unknown sys call %d" [Word (pid x); Str (Some (before_nul (pname x))); Word num] ;;
      pz (set_tf p (tf_a 0) (u64 (-1)))
  end.

(** ** Return to user space *)

Definition prepare_return (p : nat) : K tst unit :=
  hz intr_off ;;
  hz (w_stvec (u64 (TRAMPOLINE + (sym "uservec" - trampoline)))) ;;
  v <- hz r_satp ;;
  pz (set_tf p tf_kernel_satp v) ;;
  ks <- pz (get_proc p kstack) ;;
  pz (set_tf p tf_kernel_sp (u64 (ks + PGSIZE))) ;;
  pz (set_tf p tf_kernel_trap (sym "usertrap")) ;;
  v <- hz r_tp ;;
  pz (set_tf p tf_kernel_hartid v) ;;
  x <- hz r_sstatus ;;
  let x := Z.land x (u64 (Z.lnot SSTATUS_SPP)) in
  let x := Z.lor x SSTATUS_SPIE in
  hz (w_sstatus x) ;;
  e <- pz (get_tf p tf_epc) ;;
  hz (w_sepc e).

(** The end of [usertrap]. *)
Definition user_return (p : nat) : K tst Z :=
  prepare_return p ;;
  pt <- pz (get_proc p pagetable) ;;
  ret (MAKE_SATP pt).

(** ** usertrap *)

(** The test for a page fault of a lazily allocated page. *)
Definition lazy_fault (p : nat) : K tst bool :=
  sc <- hz r_scause ;;
  if (sc =? 15) || (sc =? 13) then
    x <- pz (get_proc p id) ;;
    va <- hz r_stval ;;
    r <- pz (pm (vmfault (sz x) (pagetable x) (pagetable x) va)) ;;
    ret (negb (r =? 0))
  else ret false.

(** The chain of tests on the cause of the trap; [which_dev]. *)
Definition usertrap_cause (p : nat) : K tst Z :=
  sc <- hz r_scause ;;
  if sc =? 8 then
    k <- pz (killed p) ;;
    when (negb (k =? 0)) (kz (kexit p (-1))) ;;
    e <- pz (get_tf p tf_epc) ;;
    pz (set_tf p tf_epc (u64 (e + 4))) ;;
    hz intr_on ;;
    trap_syscall p ;;
    ret 0
  else
    which_dev <- devintr ;;
    if negb (which_dev =? 0) then ret which_dev
    else
      b <- lazy_fault p ;;
      if b then ret 0
      else
        sc <- hz r_scause ;;
        x <- pz (get_proc p pid) ;;
        print "usertrap(): unexpected scause 0x%lx pid=%d" [Word sc; Word x] ;;
        e <- hz r_sepc ;;
        v <- hz r_stval ;;
        print "            sepc=0x%lx stval=0x%lx" [Word e; Word v] ;;
        pz (setkilled p) ;;
        ret 0.

Definition usertrap : K tst Z :=
  x <- hz r_sstatus ;;
  if negb (Z.land x SSTATUS_SPP =? 0) then panic "usertrap: not from user mode"
  else
    hz (w_stvec (sym "kernelvec")) ;;
    p <- myproc ;;
    match p with
    | None => panic "kerneltrap"      (* a null pointer *)
    | Some p =>
        e <- hz r_sepc ;;
        pz (set_tf p tf_epc e) ;;
        which_dev <- usertrap_cause p ;;
        k <- pz (killed p) ;;
        when (negb (k =? 0)) (kz (kexit p (-1))) ;;
        when (which_dev =? 2) (pz (yield p)) ;;
        user_return p
    end.

(** [usertrap] when [swtch] comes back to [sched] in its [yield]. *)
Definition usertrap_resumed (p : nat) : K tst Z :=
  pz (release (proc_lock p)) ;;
  user_return p.

(** ** kerneltrap *)

Definition kerneltrap_end (sepc sstatus : Z) : K tst unit :=
  hz (w_sepc sepc) ;;
  hz (w_sstatus sstatus).

Definition kerneltrap : K tst unit :=
  sepc <- hz r_sepc ;;
  sstatus <- hz r_sstatus ;;
  scause <- hz r_scause ;;
  if Z.land sstatus SSTATUS_SPP =? 0 then panic "kerneltrap: not from supervisor mode"
  else
    b <- hz intr_get ;;
    if (b : bool) then panic "kerneltrap: interrupts enabled"
    else
      which_dev <- devintr ;;
      if which_dev =? 0 then
        e <- hz r_sepc ;;
        v <- hz r_stval ;;
        print "scause=0x%lx sepc=0x%lx stval=0x%lx" [Word scause; Word e; Word v] ;;
        panic "kerneltrap"
      else
        p <- myproc ;;
        match p with
        | Some p => when (which_dev =? 2) (pz (yield p))
        | None => skip
        end ;;
        kerneltrap_end sepc sstatus.

(** [kerneltrap] from the return of [swtch] on. *)
Definition kerneltrap_resumed (p : nat) (sepc sstatus : Z) : K tst unit :=
  pz (release (proc_lock p)) ;;
  kerneltrap_end sepc sstatus.

(** ** forkret (kernel/proc.c)

    The first time a process runs: control goes to [userret] in the
    trampoline, with satp as the argument. *)
Definition forkret (p : nat) : K tst (Z * Z) :=
  pz (release (proc_lock p)) ;;
  f <- gets first ;;
  (if negb (f =? 0) then
     me <- pz (get_proc p pid) ;;
     kz (fsys (fsinit me ROOTDEV)) ;;
     modify (fun s => Tst (kern s) (term s) (vdisk s) (hreg s) (plic s) 0) ;;
     r <- kz (kexec p kbuf (chars "/init") [sym "/init"]) ;;
     pz (set_tf p (tf_a 0) (u64 r)) ;;
     a0 <- pz (get_tf p (tf_a 0)) ;;
     if a0 =? u64 (-1) then panic "exec" else skip
   else skip) ;;
  prepare_return p ;;
  pt <- pz (get_proc p pagetable) ;;
  ret (u64 (TRAMPOLINE + (sym "userret" - trampoline)), MAKE_SATP pt).
End trap.
