(* ===== verification/TrapSpec.v ===== *)
(** * The trap handlers: what they do, and the state they leave

    The state of a hart in the kernel is read through [csr_at] (a control
    register), [tf_at] (a field of a process's trapframe) and [tproc] (a process);
    [with_csr] and [with_tf] change one of them, and the rewrite database
    [tst] says that they leave the others.  [user_ready] is the state in which
    userret may be entered: every way to user space establishes it, through
    prepare_return.  The theorems are on usertrap and forkret (what a return
    to user space guarantees), on the timer (preemption, and the return after
    it), and on kerneltrap. *)
From stdpp Require Import functions.
From S2P Require Import Prelude Kmonad Riscv Mem KString Kalloc Vm Block Sleeplock Bio Log FsLayout Fs FsDir FsPath Pipe File Proc Syscall Exec Sysfile Printf Uart Console Virtio Csr Plic Trap ProcSpec.

(** ** The state of a hart in the kernel *)

Section state.
Context {D : BlockDev} {U : UartDev}.
Implicit Types (s : tst).

Definition tps s : pst := kmem (kern s).
Definition tmem s : memory := mmem (pmem (tps s)).
Definition tproc s (p : nat) : proc := proc_at (tps s) p.
(** A field of the trapframe of [p], and a control register. *)
Definition tf_at s (p : nat) (off : Z) : Z := load64 (tmem s) (trapframe (tproc s p) + off).
Definition csr_at s (r : csr) : Z := csrv (hreg s) r.

Definition with_hreg (h : cpuregs) s : tst := Tst (kern s) (term s) (vdisk s) h (plic s) (first s).
Definition with_csr (r : csr) (v : Z) s : tst := with_hreg (CpuRegs (<[r := v]> (csrv (hreg s))) (gtp (hreg s))) s.
Definition with_ps (x : pst) s : tst :=
  Tst (Kst (kfs (kern s)) (kft (kern s)) (kpipes (kern s)) x) (term s) (vdisk s) (hreg s) (plic s) (first s).
Definition with_mem (m : memory) s : tst :=
  with_ps (let x := tps s in Pst (set_mem m (pmem x)) (procs x) (nextpid x) (initproc x) (cproc x) (ticks x)) s.
Definition with_tf (p : nat) (off v : Z) s : tst := with_mem (store64 (tmem s) (trapframe (tproc s p) + off) v) s.

Lemma wp_csr_read r Q c s : (forall v, v = csr_at s r -> Q v c s) -> wp (hz (csr_read r)) Q c s.
Proof. intros H. destruct s. by apply H. Qed.
Lemma wp_csr_write r v Q c s : Q tt c (with_csr r v s) -> wp (hz (csr_write r v)) Q c s.
Proof. done. Qed.
Lemma wp_tp Q c s : (forall v, v = gtp (hreg s) -> Q v c s) -> wp (hz r_tp) Q c s.
Proof. intros H. destruct s. by apply H. Qed.
Lemma wp_cpuid Q c s : Q (i32 (gtp (hreg s))) c s -> wp (hz cpuid) Q c s.
Proof. by destruct s. Qed.
Lemma wp_pz {A} (m : K pst A) Q c s : wp m (fun a c' x => Q a c' (with_ps x s)) c (tps s) -> wp (pz m) Q c s.
Proof. unfold wp, pz, kz, pr, umem, zoom, tps. by destruct (m c (kmem (kern s))). Qed.
Lemma with_ps_id s : with_ps (tps s) s = s.
Proof. by destruct s as [[] ? ? ? ? ?]. Qed.
Lemma wp_proc {A} p (f : proc -> A) Q c s : (forall v, v = f (tproc s p) -> Q v c s) -> wp (pz (get_proc p f)) Q c s.
Proof. intros H. apply wp_pz. unfold wp, get_proc, gets. rewrite with_ps_id. by apply H. Qed.
Lemma wp_get_tf p off Q c s : (forall v, v = tf_at s p off -> Q v c s) -> wp (pz (get_tf p off)) Q c s.
Proof. intros H. apply wp_pz. unfold wp. cbn. replace (with_ps _ s) with s; [by apply H|]. by destruct s as [[? ? ? []] ? ? ? ? ?]. Qed.
Lemma wp_set_tf p off v Q c s : Q tt c (with_tf p off v s) -> wp (pz (set_tf p off v)) Q c s.
Proof. done. Qed.
Lemma wp_intr_off Q c s : (forall v, v = csr_at s sstatus -> Q tt c (with_csr sstatus (Z.land v (u64 (Z.lnot SSTATUS_SIE))) s)) -> wp (hz intr_off) Q c s.
Proof. intros H. by apply H. Qed.
Lemma wp_intr_on Q c s : (forall v, v = csr_at s sstatus -> Q tt c (with_csr sstatus (Z.lor v SSTATUS_SIE) s)) -> wp (hz intr_on) Q c s.
Proof. intros H. by apply H. Qed.

Lemma csr_at_csr r v s : csr_at (with_csr r v s) r = v.
Proof. apply fn_lookup_insert. Qed.
Lemma csr_at_csr_ne r r' v s : r <> r' -> csr_at (with_csr r v s) r' = csr_at s r'.
Proof. apply fn_lookup_insert_ne. Qed.
Lemma tf_at_tf p off v s : tf_at (with_tf p off v s) p off = u64 v.
Proof. apply (load_store_eq 8). Qed.
Lemma tf_at_tf_ne p off off' v s : off + 8 <= off' \/ off' + 8 <= off -> tf_at (with_tf p off v s) p off' = tf_at s p off'.
Proof. intros H. apply load64_store64_ne. change (tproc (with_tf p off v s) p) with (tproc s p). lia. Qed.
Lemma csr_at_tf p off v s r : csr_at (with_tf p off v s) r = csr_at s r.
Proof. done. Qed.
Lemma tf_at_csr r v s p off : tf_at (with_csr r v s) p off = tf_at s p off.
Proof. done. Qed.
Lemma tproc_csr r v s p : tproc (with_csr r v s) p = tproc s p.
Proof. done. Qed.
Lemma tproc_tf p off v s q : tproc (with_tf p off v s) q = tproc s q.
Proof. done. Qed.
Lemma csr_at_hreg r s s' : hreg s' = hreg s -> csr_at s' r = csr_at s r.
Proof. unfold csr_at. by intros ->. Qed.
Lemma procs_tf p off v s : procs (tps (with_tf p off v s)) = procs (tps s).
Proof. done. Qed.
Lemma ticks_tf p off v s : ticks (tps (with_tf p off v s)) = ticks (tps s).
Proof. done. Qed.
Lemma cproc_tf p off v s : cproc (tps (with_tf p off v s)) = cproc (tps s).
Proof. done. Qed.
Lemma tproc_ps x s p : tproc (with_ps x s) p = proc_at x p.
Proof. done. Qed.
Lemma csr_at_ps x s r : csr_at (with_ps x s) r = csr_at s r.
Proof. done. Qed.
Lemma tproc_tps s p : tproc s p = proc_at (tps s) p.
Proof. done. Qed.
Lemma tf_at_tps s p off : tf_at s p off = load64 (mmem (pmem (tps s))) (trapframe (proc_at (tps s) p) + off).
Proof. done. Qed.
Lemma tps_csr r v s : tps (with_csr r v s) = tps s.
Proof. done. Qed.
Lemma tp_csr r v s : gtp (hreg (with_csr r v s)) = gtp (hreg s).
Proof. done. Qed.
Lemma tp_tf p off v s : gtp (hreg (with_tf p off v s)) = gtp (hreg s).
Proof. done. Qed.
End state.
#[global] Opaque with_csr with_tf csr_at tf_at tproc.

(** What changes one part of the state leaves the others. *)
#[export] Hint Rewrite @csr_at_csr @csr_at_tf @tf_at_csr @tf_at_tf @tproc_csr @tproc_tf @tp_csr @tp_tf @tps_csr @procs_tf @ticks_tf @cproc_tf @tproc_ps @csr_at_ps : tst.
#[export] Hint Rewrite @csr_at_csr_ne using discriminate : tst.
#[export] Hint Rewrite @tf_at_tf_ne using (unfold tf_kernel_satp, tf_kernel_sp, tf_kernel_trap, tf_kernel_hartid, tf_epc, tf_a; lia) : tst.

Ltac tstep :=
  lazymatch goal with
  | |- wp (hz intr_off) _ _ _ => apply wp_intr_off; intros
  | |- wp (hz intr_on) _ _ _ => apply wp_intr_on; intros
  | |- wp (hz r_tp) _ _ _ => apply wp_tp; intros
  | |- wp (hz cpuid) _ _ _ => apply wp_cpuid
  | |- wp (hz (A := Z) _) _ _ _ => apply wp_csr_read; intros
  | |- wp (hz (A := unit) _) _ _ _ => apply wp_csr_write
  | |- wp (pz (get_proc _ _)) _ _ _ => apply wp_proc; intros
  | |- wp (pz (get_tf _ _)) _ _ _ => apply wp_get_tf; intros
  | |- wp (pz (set_tf _ _ _)) _ _ _ => apply wp_set_tf
  | _ => kstep
  end; cbn beta iota.


(** ** Returning to user space *)

Section ready.
Context {L : Layout} {D : BlockDev} {U : UartDev} (sym : string -> Z).

(** The hart is set up for [userret] to enter process [p] in user mode, and
    for its next trap: interrupts are off until [sret], which goes to user
    mode ([SPP] clear) with interrupts on ([SPIE]) at the process's saved
    program counter; a trap then goes to [uservec], which finds in the
    trapframe the kernel's page table, the process's kernel stack,
    [usertrap] and this hart. *)
Record user_ready (p : nat) (s : tst) : Prop := {
  ur_sie : bit 1 (csr_at s sstatus) = false;
  ur_spp : bit 8 (csr_at s sstatus) = false;
  ur_spie : bit 5 (csr_at s sstatus) = true;
  ur_stvec : csr_at s stvec = u64 (TRAMPOLINE + (sym "uservec" - trampoline));
  ur_sepc : csr_at s sepc = tf_at s p tf_epc;
  ur_satp : tf_at s p tf_kernel_satp = u64 (csr_at s satp);
  ur_sp : tf_at s p tf_kernel_sp = u64 (kstack (tproc s p) + PGSIZE);
  ur_trap : tf_at s p tf_kernel_trap = u64 (sym "usertrap");
  ur_hartid : tf_at s p tf_kernel_hartid = u64 (gtp (hreg s));
}.

(** The part of the trapframe that is the process's own. *)
Definition user_field (off : Z) : Prop := off = tf_epc \/ 40 <= off.

Lemma prepare_return_spec p Q c s :
  (forall s', user_ready p s' -> (forall q, tproc s' q = tproc s q) -> (forall off, user_field off -> tf_at s' p off = tf_at s p off) -> Q tt c s') ->
  wp (prepare_return sym p) Q c s.
Proof.
  intros HQ. unfold prepare_return. repeat tstep. subst. autorewrite with tst in *.
  apply HQ; [|intros q; by autorewrite with tst|].
  2: { intros off Hoff. autorewrite with tst. unfold user_field, tf_epc in Hoff.
       rewrite !tf_at_tf_ne by (unfold tf_kernel_satp, tf_kernel_sp, tf_kernel_trap, tf_kernel_hartid; lia). by autorewrite with tst. }
  constructor; autorewrite with tst; try done; unfold SSTATUS_SPIE, SSTATUS_SPP, SSTATUS_SIE.
  - rewrite bit_set, !bit_clear by lia. simpl. by rewrite andb_false_r.
  - rewrite bit_set, !bit_clear by lia. simpl. by rewrite andb_false_r.
  - rewrite bit_set by lia. apply orb_true_r.
  - apply u64_id, u64_range.
Qed.

Lemma user_return_spec p Q c s :
  (forall s', user_ready p s' -> (forall q, tproc s' q = tproc s q) -> (forall off, user_field off -> tf_at s' p off = tf_at s p off) ->
     Q (MAKE_SATP (pagetable (tproc s p))) c s') ->
  wp (user_return sym p) Q c s.
Proof.
  intros HQ. unfold user_return. apply wp_bind, prepare_return_spec. intros s' Hr Hp He. repeat tstep. subst. rewrite Hp. by apply HQ.
Qed.
End ready.

(** ** Code that does not return *)

Definition no_return {S A} (m : K S A) : Prop := forall c s, wlp m (fun _ _ => False) (fun _ => True) c s.

Lemma no_return_last {S A B} (m : K S A) (f : A -> K S B) : (forall a, no_return (f a)) -> no_return (bind m f).
Proof. intros H c s. apply wlp_bind. unfold wlp at 1. destruct (m c s); try done. intros c'. apply H. Qed.

Lemma no_return_zoom {S T A} (g : S -> T) (p : T -> S -> S) (m : K T A) : no_return m -> no_return (zoom g p m).
Proof. intros H c s. specialize (H c (g s)). unfold wlp, zoom in *. by destruct (m c (g s)). Qed.

Lemma yield_no_return cur : no_return (yield cur).
Proof.
  do 2 (apply no_return_last; intros ?). intros c s. apply wlp_bind. unfold wlp at 1, sched. by repeat case_match.
Qed.

Lemma kexit_no_return {D : BlockDev} {L : Layout} cur status : no_return (kexit (A := unit) cur status).
Proof.
  unfold kexit. apply no_return_last. intros i. case_match; [by intros c s|].
  do 6 (apply no_return_last; intros ?). apply no_return_zoom. unfold kexit_zombie, become_zombie.
  by repeat (apply no_return_last; intros ?).
Qed.

Section wlp.
Context {S : Type}.
Implicit Types (c : ctx) (s : S).

Lemma wlp_any {A B} (m : K S A) (f : A -> K S B) (Q : B -> S -> Prop) c s :
  (forall a c' s', wlp (f a) Q (fun _ => True) c' s') -> wlp (bind m f) Q (fun _ => True) c s.
Proof. intros H. apply wlp_bind. unfold wlp at 1. by destruct (m c s). Qed.

Lemma wlp_wp {A} (m : K S A) (Q : A -> S -> Prop) R c s : wp m (fun a _ s' => Q a s') c s -> wlp m Q R c s.
Proof. unfold wp, wlp. by destruct (m c s). Qed.

Lemma wlp_bind_wp {A B} (m : K S A) (f : A -> K S B) (Q : B -> S -> Prop) R c s :
  wp m (fun a c' s' => wlp (f a) Q R c' s') c s -> wlp (bind m f) Q R c s.
Proof. unfold wp, wlp, bind. by destruct (m c s). Qed.

Lemma wlp_no_return {A B} (m : K S A) (f : A -> K S B) (Q : B -> S -> Prop) c s : no_return m -> wlp (bind m f) Q (fun _ => True) c s.
Proof. intros H. specialize (H c s). unfold wlp, bind in *. by destruct (m c s). Qed.
End wlp.

Section usertrap.
Context {L : Layout} {D : BlockDev} {U : UartDev} (sym : string -> Z).
Context (plic_reads : list access -> Z -> Z) (polls turns : nat) (kbuf : Z).
Context (devsw : Z -> devfn (M := pst) * devfn (M := pst)) (junk : list Z).
Implicit Types (s : tst).

(** [myproc()] *)
Definition running s : option nat := cproc (tps s) !!! Z.to_nat (i32 (gtp (hreg s))).

Lemma myproc_spec Q c s : Q (running s) c s -> wp myproc Q c s.
Proof. intros H. unfold myproc. repeat tstep. done. Qed.

Lemma killed_spec p Q c s : proc_lock p ∉ held c -> Q (pkilled (tproc s p)) c s -> wp (pz (killed p)) Q c s.
Proof.
  intros Hl HQ. apply wp_pz. unfold killed. kstep. apply wp_acquire; [done|]. unfold get_proc. ksteps. rewrite with_ps_id. by destruct c.
Qed.

Lemma killed_wlp {B} p (f : Z -> K tst B) (Q : B -> tst -> Prop) c s :
  (forall c', wlp (f (pkilled (tproc s p))) Q (fun _ => True) c' s) -> wlp (bind (pz (killed p)) f) Q (fun _ => True) c s.
Proof.
  intros HQ. destruct (decide (proc_lock p ∈ held c)) as [Hl|Hl]; [|by apply wlp_bind_wp, killed_spec].
  unfold wlp, bind, pz, kz, pr, umem, zoom, killed, bind, acquire. by rewrite bool_decide_true by done.
Qed.

(** What a return of [usertrap] leaves, [p] being the running process. *)
Definition safe_return (p : nat) (v : Z) s : Prop :=
  v = MAKE_SATP (pagetable (tproc s p)) /\ user_ready sym p s /\ pkilled (tproc s p) = 0.

Lemma usertrap_safe c s :
  wlp (usertrap sym plic_reads polls turns kbuf devsw junk) (fun v s' => exists p, running s = Some p /\ safe_return p v s') (fun _ => True) c s.
Proof.
  unfold usertrap. apply wlp_bind_wp. tstep. case_match; [done|].
  apply wlp_bind_wp. tstep. apply wlp_bind_wp, myproc_spec. change (running (with_csr _ _ s)) with (running s).
  destruct (running s) as [p|]; [|done]. do 3 (apply wlp_any; intros ? ? ?). apply killed_wlp. intros c1.
  destruct (Z.eqb_spec (pkilled (tproc s'1 p)) 0) as [Hk|Hk]; cbn [negb when]; [|by apply wlp_no_return, no_return_zoom, kexit_no_return].
  apply wlp_bind_wp. kstep.
  destruct (Z.eqb_spec a1 2) as [->|Hd]; cbn [when]; [by apply wlp_no_return, no_return_zoom, no_return_zoom, yield_no_return|].
  apply wlp_bind_wp. kstep. apply wlp_wp, user_return_spec. intros s2 Hr Hp _. exists p. split; [done|].
  rewrite <- Hp. split_and!; [done|done|by rewrite Hp].
Qed.

Lemma print_wlp fmt ap {B} (f : unit -> K tst B) (Q : B -> tst -> Prop) c s :
  (forall c' s', kern s' = kern s -> hreg s' = hreg s -> wlp (f tt) Q (fun _ => True) c' s') ->
  wlp (bind (print polls fmt ap) f) Q (fun _ => True) c s.
Proof.
  intros H. apply wlp_bind. unfold wlp at 1, print, tz, zoom. destruct (uz _ c (term s)) as [[]|?|?|]; try done. intros c'. by apply H.
Qed.

Lemma setkilled_wlp p c s : (p < length (procs (tps s)))%nat ->
  wlp (pz (setkilled p)) (fun _ s' => pkilled (tproc s' p) = 1) (fun _ => True) c s.
Proof.
  intros Hp. destruct (decide (proc_lock p ∈ held c)) as [Hl|Hl].
  - unfold wlp, pz, kz, pr, umem, zoom, setkilled, bind, acquire. by rewrite bool_decide_true by done.
  - apply wlp_wp, wp_pz. unfold setkilled. kstep. apply wp_acquire; [done|]. unfold mod_proc. ksteps.
    change (tproc (with_ps ?x s) p) with (proc_at x p). rewrite proc_at_upd by done. by rewrite decide_True.
Qed.

(** The causes [usertrap] does not know. *)
Definition unexpected (sc : Z) : Prop := sc ∉ [8; 13; 15; EXTERNAL_INTERRUPT; TIMER_INTERRUPT].

Lemma cause_unexpected p c s : (p < length (procs (tps s)))%nat -> unexpected (csr_at s scause) ->
  wlp (usertrap_cause sym plic_reads polls turns kbuf devsw junk p) (fun v s' => pkilled (tproc s' p) = 1) (fun _ => True) c s.
Proof.
  intros Hp Hu. unfold usertrap_cause. apply wlp_bind_wp. tstep. subst.
  unfold unexpected in Hu. rewrite !not_elem_of_cons in Hu. destruct Hu as (H8 & H13 & H15 & HE & HT & _).
  rewrite (proj2 (Z.eqb_neq _ _) H8). apply wlp_bind_wp. unfold devintr. kstep. tstep. subst.
  rewrite (proj2 (Z.eqb_neq _ _) HE), (proj2 (Z.eqb_neq _ _) HT). kstep. cbn [Z.eqb negb].
  apply wlp_bind_wp. unfold lazy_fault. kstep. tstep. subst. rewrite (proj2 (Z.eqb_neq _ _) H13), (proj2 (Z.eqb_neq _ _) H15). cbn [orb]. kstep.
  do 2 (apply wlp_bind_wp; tstep). apply print_wlp. intros c1 s1 Hk1 _. do 2 (apply wlp_bind_wp; tstep).
  apply print_wlp. intros c2 s2 Hk2 _. apply wlp_bind. eapply wlp_mono; [apply setkilled_wlp|done|done].
  unfold tps. by rewrite Hk2, Hk1.
Qed.

Lemma usertrap_unexpected p c s : running s = Some p -> (p < length (procs (tps s)))%nat -> unexpected (csr_at s scause) ->
  wlp (usertrap sym plic_reads polls turns kbuf devsw junk) (fun _ _ => False) (fun _ => True) c s.
Proof.
  intros Hr Hp Hu. unfold usertrap. apply wlp_bind_wp. tstep. case_match; [done|].
  apply wlp_bind_wp. tstep. apply wlp_bind_wp, myproc_spec. change (running (with_csr _ _ s)) with (running s). rewrite Hr.
  do 2 (apply wlp_bind_wp; tstep). apply wlp_bind. eapply wlp_mono; [apply cause_unexpected; [done|by autorewrite with tst]|intros ? s1 Hk c1|done].
  apply killed_wlp. intros c2. rewrite Hk. cbn [Z.eqb negb when]. by apply wlp_no_return, no_return_zoom, kexit_no_return.
Qed.

Lemma forkret_wlp p c s :
  wlp (forkret sym kbuf p) (fun r s' => r = (u64 (TRAMPOLINE + (sym "userret" - trampoline)), MAKE_SATP (pagetable (tproc s' p))) /\ user_ready sym p s')
    (fun _ => True) c s.
Proof.
  unfold forkret. do 3 (apply wlp_any; intros ? ? ?). apply wlp_bind_wp, prepare_return_spec. intros s1 Hr Hp _.
  apply wlp_bind_wp. tstep. subst. done.
Qed.

Lemma resumed_spec p w Q s :
  (forall s', user_ready sym p s' -> tf_at s' p tf_epc = tf_at s p tf_epc -> Q (MAKE_SATP (pagetable (tproc s p))) (Ctx [] w) s') ->
  wp (usertrap_resumed sym p) Q (Ctx [proc_lock p] w) s.
Proof.
  intros HQ. unfold usertrap_resumed. kstep. apply wp_pz. kstep. apply user_return_spec. rewrite with_ps_id.
  intros s' Hr _ Hf. apply HQ; [done|]. apply Hf. by left.
Qed.

Lemma resumed_wlp p c s :
  wlp (usertrap_resumed sym p) (fun v s' => v = MAKE_SATP (pagetable (tproc s' p)) /\ user_ready sym p s') (fun _ => True) c s.
Proof.
  unfold usertrap_resumed. apply wlp_any. intros ? c1 s1. apply wlp_wp, user_return_spec. intros s2 Hr Hp _. by rewrite Hp.
Qed.

(** ** The clock *)

(** The state after [clockintr] on [s]: the timer is set, and on CPU 0 time
    has advanced by a tick and the sleepers on [ticks] are runnable. *)
Definition clocked s s' : Prop :=
  (forall r, csr_at s' r = if decide (r = stimecmp) then u64 (csr_at s Csr.time + 1000000) else csr_at s r) /\
  gtp (hreg s') = gtp (hreg s) /\
  if i32 (gtp (hreg s)) =? 0
  then changed (wake (default nproc (running s)) (Some ticks_chan)) (set_ticks (u32 (ticks (tps s) + 1)) (tps s)) (tps s')
  else tps s' = tps s.

Lemma clockintr_spec Q c s : length (procs (tps s)) = nproc -> tickslock ∉ held c -> no_proc_lock c ->
  (forall s', clocked s s' -> Q tt c s') -> wp clockintr Q c s.
Proof.
  intros Hn Hl Hc HQ. destruct c as [h w]. unfold clockintr. do 2 tstep. kstep.
  assert (Hend : forall s1, hreg s1 = hreg s ->
    (if i32 (gtp (hreg s)) =? 0
     then changed (wake (default nproc (running s)) (Some ticks_chan)) (set_ticks (u32 (ticks (tps s) + 1)) (tps s)) (tps s1)
     else tps s1 = tps s) -> wp (bind (hz r_time) (fun t => hz (w_stimecmp (u64 (t + 1000000))))) Q (Ctx h w) s1).
  { intros s1 Hh Ht. repeat tstep. subst. apply HQ. split_and!.
    - intros r. case_decide as Hd; [subst; autorewrite with tst|rewrite csr_at_csr_ne by done]; by rewrite !(csr_at_hreg _ _ _ Hh).
    - autorewrite with tst. by rewrite Hh.
    - by autorewrite with tst. }
  destruct (i32 (gtp (hreg s)) =? 0) eqn:E0; [|by kstep; apply Hend].
  kstep. apply wp_acquire; [done|]. kstep. apply wp_pz. kstep. apply wp_bind, myproc_spec.
  change (running (with_ps (set_ticks ?t (tps s)) s)) with (running s). kstep. apply wp_pz.
  eapply wp_mono; [apply wakeup_procs_spec; [done|]|].
  { intros i. cbn [held]. apply not_elem_of_cons. split; [done|apply Hc]. }
  intros [] c1 x1 [-> Hch]. kstep. by apply Hend.
Qed.

(** What the clock does to the process table, seen from the interrupted hart. *)
Definition tick_wakes s (j : nat) (x : proc) : proc :=
  if i32 (gtp (hreg s)) =? 0 then wake (default nproc (running s)) (Some ticks_chan) j x else x.

Lemma clocked_proc s s' j : clocked s s' -> (j < nproc)%nat -> tproc s' j = tick_wakes s j (tproc s j).
Proof.
  intros (_ & _ & H) Hj. unfold tick_wakes. rewrite !tproc_tps. destruct (_ =? 0); [by apply (cg_at _ _ _ H)|]. by rewrite H.
Qed.
Lemma clocked_mem s s' : clocked s s' -> pmem (tps s') = pmem (tps s) /\ cproc (tps s') = cproc (tps s) /\
  ticks (tps s') = (if i32 (gtp (hreg s)) =? 0 then u32 (ticks (tps s) + 1) else ticks (tps s)).
Proof.
  intros (_ & _ & H). destruct (_ =? 0); [|by rewrite H]. destruct (cg_rest _ _ _ H) as (-> & _ & _ & -> & ->). done.
Qed.
Lemma clocked_procs s s' : length (procs (tps s)) = nproc -> clocked s s' -> length (procs (tps s')) = nproc.
Proof. intros Hn (_ & _ & H). destruct (_ =? 0); [apply (cg_procs _ _ _ H)|by rewrite H]. Qed.
Lemma tick_wakes_trapframe s j x : trapframe (tick_wakes s j x) = trapframe x.
Proof. unfold tick_wakes, wake. by repeat case_match. Qed.
Lemma tick_wakes_killed s j x : pkilled (tick_wakes s j x) = pkilled x.
Proof. unfold tick_wakes, wake. by repeat case_match. Qed.
Lemma clocked_tf s s' j off : clocked s s' -> (j < nproc)%nat -> tf_at s' j off = tf_at s j off.
Proof.
  intros H Hj. pose proof (clocked_proc _ _ _ H Hj) as Hp. destruct (clocked_mem _ _ H) as [Hm _].
  rewrite !tf_at_tps, Hm, <- !tproc_tps, Hp. by rewrite tick_wakes_trapframe.
Qed.

(** [yield] gives up the CPU with the process runnable and its lock held. *)
Lemma yield_spec p w (R : chan -> ctx -> tst -> Prop) {B} (f : unit -> K tst B) Q s : (p < length (procs (tps s)))%nat ->
  R ("swtch", Z.of_nat p) (Ctx [proc_lock p] w) (with_ps (upd_proc p (set_state RUNNABLE) (tps s)) s) ->
  wpx (bind (pz (yield p)) f) Q R (Ctx [] w) s.
Proof.
  intros Hp HR. unfold wpx, bind at 1, pz, kz, pr, umem, zoom, yield, bind, acquire, mod_proc, modify, sched, swtch. cbn [held woken].
  rewrite bool_decide_false by apply not_elem_of_nil. rewrite bool_decide_true by (by left). cbn [negb length Nat.eqb].
  rewrite decide_False; [done|]. by rewrite proc_at_upd, decide_True.
Qed.

(** ** Timer interrupts in user space *)

Lemma timer_cause p w Q s : length (procs (tps s)) = nproc -> csr_at s scause = TIMER_INTERRUPT ->
  (forall s', clocked s s' -> Q 2 (Ctx [] w) s') ->
  wp (usertrap_cause sym plic_reads polls turns kbuf devsw junk p) Q (Ctx [] w) s.
Proof.
  intros Hn Hsc HQ. unfold usertrap_cause. kstep. tstep. subst. rewrite Hsc. change (TIMER_INTERRUPT =? 8) with false. cbv iota.
  kstep. unfold devintr. kstep. tstep. subst. rewrite Hsc. change (TIMER_INTERRUPT =? EXTERNAL_INTERRUPT) with false.
  rewrite Z.eqb_refl. cbv iota. kstep. apply clockintr_spec; [done|apply not_elem_of_nil|intros i; apply not_elem_of_nil|].
  intros s1 H1. kstep. cbn [Z.eqb negb]. kstep. by apply HQ.
Qed.

Lemma usertrap_timer p w R s :
  length (procs (tps s)) = nproc -> (p < nproc)%nat -> running s = Some p -> bit 8 (csr_at s sstatus) = false ->
  csr_at s scause = TIMER_INTERRUPT -> pkilled (tproc s p) = 0 ->
  (forall s', clocked (with_tf p tf_epc (csr_at s sepc) (with_csr stvec (sym "kernelvec") s)) s' ->
     R ("swtch", Z.of_nat p) (Ctx [proc_lock p] w) (with_ps (upd_proc p (set_state RUNNABLE) (tps s')) s')) ->
  wpx (usertrap sym plic_reads polls turns kbuf devsw junk) (fun _ _ _ => False) R (Ctx [] w) s.
Proof.
  intros Hn Hp Hr Hspp Hsc Hk HR. unfold usertrap. apply wpx_bind_wp. tstep. subst. unfold SSTATUS_SPP. rewrite land_bit, Hspp by lia. cbn [negb].
  apply wpx_bind_wp. tstep. apply wpx_bind_wp, myproc_spec. change (running (with_csr _ _ s)) with (running s). rewrite Hr.
  do 2 (apply wpx_bind_wp; tstep). subst. autorewrite with tst. apply wpx_bind_wp, timer_cause; [done|by autorewrite with tst|].
  intros s1 H1. apply wpx_bind_wp, killed_spec; [apply not_elem_of_nil|].
  rewrite (clocked_proc _ _ _ H1 Hp), tick_wakes_killed. autorewrite with tst. rewrite Hk. cbn [Z.eqb negb when].
  apply wpx_bind_wp. kstep. apply yield_spec; [|by apply HR]. apply clocked_procs in H1; [by rewrite H1|by autorewrite with tst].
Qed.

(** The process after its time slice. *)
Definition preempted p s s1 : Prop :=
  state (tproc s1 p) = RUNNABLE /\
  (forall j, (j < nproc)%nat -> j <> p -> tproc s1 j = tick_wakes s j (tproc s j)) /\
  ticks (tps s1) = (if i32 (gtp (hreg s)) =? 0 then u32 (ticks (tps s) + 1) else ticks (tps s)) /\
  csr_at s1 stimecmp = u64 (csr_at s Csr.time + 1000000).

Lemma preempted_clocked p s s1 : length (procs (tps s)) = nproc -> (p < nproc)%nat -> clocked s s1 ->
  preempted p s (with_ps (upd_proc p (set_state RUNNABLE) (tps s1)) s1) /\
  forall off, tf_at (with_ps (upd_proc p (set_state RUNNABLE) (tps s1)) s1) p off = tf_at s p off.
Proof.
  intros Hn Hp H1. destruct (clocked_mem _ _ H1) as (Hm & _ & Ht). pose proof (clocked_procs _ _ Hn H1) as Hn1.
  assert (Hl : (p < length (procs (tps s1)))%nat) by (by rewrite Hn1).
  split; [split_and!|]; autorewrite with tst.
  - rewrite proc_at_upd by done. by rewrite decide_True.
  - intros j Hj Hne. autorewrite with tst. rewrite proc_at_upd, decide_False by done. rewrite <- tproc_tps. by apply clocked_proc.
  - done.
  - by rewrite (proj1 H1).
  - intros off. rewrite tf_at_tps. change (tps (with_ps ?x s1)) with x. rewrite proc_at_upd, decide_True by done.
    rewrite <- (clocked_tf _ _ _ _ H1 Hp). by rewrite tf_at_tps.
Qed.

(** C13: a timer interrupt in user space preempts the process.  usertrap saves
    the program counter, on CPU 0 advances [ticks] (modulo 2^32) and makes
    the sleepers on it runnable, asks for the next interrupt a fixed time
    later, and leaves the CPU at swtch with the process runnable, holding no
    lock but the process's own.  No other process is touched.  When the
    scheduler runs the process again, in whatever state the machine then is, usertrap
    returns to it: the hart is set up for userret and for the next trap, and
    the process continues at the program counter saved in its trapframe. *)
Theorem timer_preempts p w s :
  length (procs (tps s)) = nproc -> (p < nproc)%nat -> running s = Some p -> bit 8 (csr_at s sstatus) = false ->
  csr_at s scause = TIMER_INTERRUPT -> pkilled (tproc s p) = 0 ->
  (exists s1, usertrap sym plic_reads polls turns kbuf devsw junk (Ctx [] w) s = Asleep ("swtch", Z.of_nat p) (Ctx [proc_lock p] w) s1 /\
     preempted p s s1 /\ csr_at s1 stvec = sym "kernelvec" /\ tf_at s1 p tf_epc = u64 (csr_at s sepc)) /\
  (forall w2 s2, exists s3, usertrap_resumed sym p (Ctx [proc_lock p] w2) s2 = Ok (MAKE_SATP (pagetable (tproc s2 p))) (Ctx [] w2) s3 /\
     user_ready sym p s3 /\ csr_at s3 sepc = tf_at s2 p tf_epc).
Proof.
  intros Hn Hp Hr Hspp Hsc Hk. split.
  - set (s0 := with_tf p tf_epc (csr_at s sepc) (with_csr stvec (sym "kernelvec") s)).
    assert (H : wpx (usertrap sym plic_reads polls turns kbuf devsw junk) (fun _ _ _ => False)
      (fun ch c' s' => ch = ("swtch", Z.of_nat p) /\ c' = Ctx [proc_lock p] w /\
         exists s1, s' = with_ps (upd_proc p (set_state RUNNABLE) (tps s1)) s1 /\ clocked s0 s1) (Ctx [] w) s).
    { apply (usertrap_timer p); [done..|]. intros s1 H1. split_and!; [done|done|]. by exists s1. }
    unfold wpx in H. destruct (usertrap _ _ _ _ _ _ _ _ _) as [| |ch c' s'|]; try done. destruct H as (-> & -> & s1 & -> & H1).
    destruct (preempted_clocked p s0 s1) as [Hpre Htf]; [by unfold s0; autorewrite with tst|done|done|].
    eexists. split; [done|]. split_and!.
    + revert Hpre. unfold s0, preempted. intros (Hp1 & Hp2 & Hp3 & Hp4). autorewrite with tst in *. split_and!; [done| |done|done].
      intros j Hj Hne. specialize (Hp2 j Hj Hne). autorewrite with tst in *. done.
    + autorewrite with tst. rewrite (proj1 H1). unfold s0. by autorewrite with tst.
    + rewrite Htf. unfold s0. by autorewrite with tst.
  - intros w2 s2. assert (H : wp (usertrap_resumed sym p) (fun v c' s3 => v = MAKE_SATP (pagetable (tproc s2 p)) /\ c' = Ctx [] w2 /\
      user_ready sym p s3 /\ csr_at s3 sepc = tf_at s2 p tf_epc) (Ctx [proc_lock p] w2) s2).
    { apply resumed_spec. intros s3 H3 He. split_and!; [done..|]. by rewrite (ur_sepc _ _ _ H3). }
    apply wp_inv in H as (v & c' & s3 & Hrun & -> & -> & H3). by exists s3.
Qed.

(** ** System calls *)

(** The kernel's state when [usertrap] calls the function of a system call. *)
Definition at_syscall p s : tst :=
  with_csr sstatus (Z.lor (csr_at s sstatus) SSTATUS_SIE)
    (with_tf p tf_epc (u64 (u64 (csr_at s sepc) + 4)) (with_tf p tf_epc (csr_at s sepc) (with_csr stvec (sym "kernelvec") s))).

Definition with_kern (k : kst (M := pst)) s : tst := Tst k (term s) (vdisk s) (hreg s) (plic s) (first s).

Lemma wp_kz {A} (m : K (kst (M := pst)) A) Q c s : wp m (fun a c' k => Q a c' (with_kern k s)) c (kern s) -> wp (kz m) Q c s.
Proof. unfold wp, kz, zoom. by destruct (m c (kern s)). Qed.

Lemma usertrap_syscall p c s f r c1 k1 Q :
  running s = Some p -> bit 8 (csr_at s sstatus) = false -> csr_at s scause = 8 -> pkilled (tproc s p) = 0 -> proc_lock p ∉ held c ->
  syscalls (sym "forkret") p kbuf devsw junk (i32 (tf_at s p (tf_a 7))) = Some f ->
  f c (kern (at_syscall p s)) = Ok r c1 k1 -> proc_lock p ∉ held c1 -> pkilled (proc_at (kmem k1) p) = 0 ->
  (forall s', user_ready sym p s' -> (forall q, tproc s' q = proc_at (kmem k1) q) -> tf_at s' p (tf_a 0) = u64 r ->
     (forall off, 40 <= off -> off + 8 <= tf_a 0 \/ tf_a 0 + 8 <= off -> tf_at s' p off = load64 (mmem (pmem (kmem k1))) (trapframe (proc_at (kmem k1) p) + off)) ->
     csr_at s' sepc = load64 (mmem (pmem (kmem k1))) (trapframe (proc_at (kmem k1) p) + tf_epc) ->
     Q (MAKE_SATP (pagetable (proc_at (kmem k1) p))) c1 s') ->
  wp (usertrap sym plic_reads polls turns kbuf devsw junk) Q c s.
Proof.
  intros Hr Hspp Hsc Hk Hl Hf Hrun Hl1 Hk1 HQ. unfold usertrap. kstep. tstep. subst. unfold SSTATUS_SPP. rewrite land_bit, Hspp by lia. cbn [negb].
  kstep. tstep. apply wp_bind, myproc_spec. change (running (with_csr _ _ s)) with (running s). rewrite Hr.
  kstep. tstep. kstep. tstep. kstep. subst. autorewrite with tst. unfold usertrap_cause. kstep. tstep. subst. autorewrite with tst. rewrite Hsc.
  rewrite Z.eqb_refl. cbv iota.
  kstep. apply killed_spec; [done|]. autorewrite with tst. rewrite Hk. cbn [Z.eqb negb when]. kstep. kstep.
  do 6 tstep. subst. unfold trap_syscall. kstep. kstep. tstep. subst. autorewrite with tst. rewrite Hf.
  kstep. apply wp_kz. fold (at_syscall p s). apply (wp_ok _ _ _ _ _ _ _ Hrun). tstep. do 2 kstep.
  set (s1 := with_kern k1 (at_syscall p s)).
  assert (Hp1 : forall q, tproc s1 q = proc_at (kmem k1) q) by (intros; apply tproc_tps).
  assert (Ht1 : forall off, tf_at s1 p off = load64 (mmem (pmem (kmem k1))) (trapframe (proc_at (kmem k1) p) + off)) by (intros; apply tf_at_tps).
  clearbody s1. apply killed_spec; [done|]. autorewrite with tst. rewrite Hp1, Hk1. cbn [Z.eqb negb when]. kstep. kstep. cbn [Z.eqb when]. kstep. kstep.
  apply user_return_spec. intros s2 Hr2 Hp2 Hf2. autorewrite with tst. rewrite Hp1. apply HQ; [done|..].
  - intros q. rewrite Hp2. autorewrite with tst. apply Hp1.
  - rewrite Hf2 by (right; unfold tf_a; lia). by autorewrite with tst.
  - intros off Ho Hne. rewrite Hf2 by (by right). rewrite tf_at_tf_ne by lia. apply Ht1.
  - rewrite (ur_sepc _ _ _ Hr2), Hf2 by (by left). autorewrite with tst. apply Ht1.
Qed.

(** ** Every way to user space *)

(** C12: the kernel enters user space only when that is safe.  Whenever
    usertrap returns, whatever the trap and the system call did, the running
    process has not been killed, the value returned is its page table, and
    the hart is set up so that sret enters user mode with interrupts enabled
    at the saved program counter, and so that the next trap finds uservec and,
    in the trapframe, the kernel's page table and stack.  A process that traps with an
    unknown cause is not returned to.  After a yield, and when forkret starts
    a new process, the hart is set up in the same way. *)
Theorem user_return_safe c s :
  (forall v c' s', usertrap sym plic_reads polls turns kbuf devsw junk c s = Ok v c' s' ->
     exists p, running s = Some p /\ safe_return p v s') /\
  (forall p v c' s', running s = Some p -> (p < length (procs (tps s)))%nat -> unexpected (csr_at s scause) ->
     usertrap sym plic_reads polls turns kbuf devsw junk c s <> Ok v c' s') /\
  (forall p v c' s', usertrap_resumed sym p c s = Ok v c' s' -> v = MAKE_SATP (pagetable (tproc s' p)) /\ user_ready sym p s') /\
  (forall p r c' s', forkret sym kbuf p c s = Ok r c' s' ->
     r = (u64 (TRAMPOLINE + (sym "userret" - trampoline)), MAKE_SATP (pagetable (tproc s' p))) /\ user_ready sym p s').
Proof.
  split_and!.
  - intros v c' s' E. pose proof (usertrap_safe c s) as H. unfold wlp in H. by rewrite E in H.
  - intros p v c' s' Hr Hp Hu E. pose proof (usertrap_unexpected p c s Hr Hp Hu) as H. unfold wlp in H. by rewrite E in H.
  - intros p v c' s' E. pose proof (resumed_wlp p c s) as H. unfold wlp in H. by rewrite E in H.
  - intros p r c' s' E. pose proof (forkret_wlp p c s) as H. unfold wlp in H. by rewrite E in H.
Qed.

(** ** Interrupts in the kernel *)

Lemma dev_handler_frame irq : keeps (fun s => (hreg s, plic s)) (dev_handler polls turns irq).
Proof. unfold dev_handler, print. repeat case_match; keeps; by apply keeps_zoom. Qed.

(** The claim of the hart's interrupt, and the state after it. *)
Definition claimed s : Z := i32 (u32 (plic_reads (plic s) (PLIC_SCLAIM (i32 (gtp (hreg s)))))).
Definition with_plic l s : tst := Tst (kern s) (term s) (vdisk s) (hreg s) l (first s).
Definition after_claim s : tst :=
  let a := PLIC_SCLAIM (i32 (gtp (hreg s))) in with_plic (plic s ++ [Rd a (u32 (plic_reads (plic s) a))]) s.

Lemma devintr_external c s c1 s1 Q :
  csr_at s scause = EXTERNAL_INTERRUPT -> dev_handler polls turns (claimed s) c (after_claim s) = Ok tt c1 s1 ->
  Q 1 c1 (with_plic (plic (after_claim s) ++ (if claimed s =? 0 then [] else [Wr (PLIC_SCLAIM (i32 (gtp (hreg s)))) (u32 (claimed s))])) s1) ->
  wp (devintr plic_reads polls turns) Q c s.
Proof.
  intros Hsc Hh HQ. unfold devintr. kstep. tstep. subst. rewrite Hsc, Z.eqb_refl. cbv iota. kstep.
  apply (wp_ok _ _ _ _ (claimed s) c (after_claim s)); [by destruct s as [? ? ? [? ?] ? ?]|]. kstep. apply (wp_ok _ _ _ _ _ _ _ Hh).
  pose proof (dev_handler_frame (claimed s) c (after_claim s)) as Hfr. rewrite Hh in Hfr.
  assert (Hh1 : hreg s1 = hreg s) by (by apply (f_equal fst) in Hfr). assert (Hp1 : plic s1 = plic (after_claim s)) by (by apply (f_equal snd) in Hfr).
  rewrite <- Hp1, <- Hh1 in HQ. kstep. destruct (Z.eqb_spec (claimed s) 0) as [E|E]; cbn [negb when].
  - kstep. kstep. rewrite app_nil_r in HQ. by destruct s1.
  - apply wp_zoom. unfold plic_complete, hart, cpuid, r_tp, wr32. kstep. apply wp_zoom. by ksteps.
Qed.

Lemma wp_intr_get Q c s : Q (bit 1 (csr_at s sstatus)) c s -> wp (hz intr_get) Q c s.
Proof.
  intros HQ. unfold wp, hz, zoom. change (intr_get c (hreg s)) with (Ok (S := cpuregs) (negb (Z.land (csr_at s sstatus) SSTATUS_SIE =? 0)) c (hreg s)).
  unfold SSTATUS_SIE. rewrite land_bit, negb_involutive by lia. by destruct s.
Qed.

Lemma kerneltrap_enter c s Q R :
  bit 8 (csr_at s sstatus) = true -> bit 1 (csr_at s sstatus) = false ->
  wpx (devintr plic_reads polls turns) (fun d c1 s1 => d <> 0 /\
    wpx (match running s1 with Some p => when (d =? 2) (pz (yield p)) | None => skip end ;; kerneltrap_end (csr_at s sepc) (csr_at s sstatus)) Q R c1 s1) R c s ->
  wpx (kerneltrap plic_reads polls turns) Q R c s.
Proof.
  intros H8 H1 H. unfold kerneltrap. do 3 (apply wpx_bind_wp; tstep). subst. unfold SSTATUS_SPP. rewrite land_bit, H8 by lia. cbn [negb].
  apply wpx_bind_wp, wp_intr_get. rewrite H1. apply wpx_bind. eapply wpx_mono; [exact H| |done].
  intros d c1 s1 [Hd H2]. rewrite (proj2 (Z.eqb_neq _ _) Hd). by apply wpx_bind_wp, myproc_spec.
Qed.

Lemma kerneltrap_end_run e x c s : kerneltrap_end e x c s = Ok tt c (with_csr sstatus x (with_csr sepc e s)).
Proof. done. Qed.

Lemma kerneltrap_panics c s :
  (bit 8 (csr_at s sstatus) = false -> kerneltrap plic_reads polls turns c s = Panic "kerneltrap: not from supervisor mode") /\
  (bit 8 (csr_at s sstatus) = true -> bit 1 (csr_at s sstatus) = true -> kerneltrap plic_reads polls turns c s = Panic "kerneltrap: interrupts enabled").
Proof.
  assert (Hm : forall n, 0 <= n -> (Z.land (csrv (hreg s) sstatus) (Z.shiftl 1 n) =? 0) = negb (bit n (csr_at s sstatus))) by (intros; by apply land_bit).
  split.
  - intros H8. unfold kerneltrap, bind, hz, zoom, r_sepc, r_sstatus, r_scause, csr_read, gets, SSTATUS_SPP. cbn [hreg]. by rewrite Hm, H8 by lia.
  - intros H8 H1. unfold kerneltrap, bind, hz, zoom, intr_get, r_sepc, r_sstatus, r_scause, csr_read, gets, SSTATUS_SPP, bind, SSTATUS_SIE. cbn [hreg].
    rewrite Hm, H8 by lia. cbn [negb hreg]. unfold gets, ret. by rewrite Hm, H1 by lia.
Qed.

Lemma kerneltrap_external c s c1 s1 :
  bit 8 (csr_at s sstatus) = true -> bit 1 (csr_at s sstatus) = false -> csr_at s scause = EXTERNAL_INTERRUPT ->
  dev_handler polls turns (claimed s) c (after_claim s) = Ok tt c1 s1 ->
  exists s', kerneltrap plic_reads polls turns c s = Ok tt c1 s' /\ csr_at s' sepc = csr_at s sepc /\ csr_at s' sstatus = csr_at s sstatus /\
    plic s' = plic (after_claim s) ++ (if claimed s =? 0 then [] else [Wr (PLIC_SCLAIM (i32 (gtp (hreg s)))) (u32 (claimed s))]).
Proof.
  intros H8 H1 Hsc Hh. set (l := plic (after_claim s) ++ _).
  assert (H : wpx (kerneltrap plic_reads polls turns) (fun _ c' s' => c' = c1 /\ s' = with_csr sstatus (csr_at s sstatus) (with_csr sepc (csr_at s sepc) (with_plic l s1)))
    (fun _ _ _ => False) c s).
  { apply kerneltrap_enter; [done..|]. apply wpx_wp. eapply devintr_external; [done..|]. split; [done|].
    apply wpx_bind_wp. destruct (running _); [change (1 =? 2) with false; cbn [when]|]; kstep; done. }
  unfold wpx in H. destruct (kerneltrap _ _ _ _ _) as [[] c' s'| | |]; try done. destruct H as [-> ->].
  eexists. split; [done|]. split_and!; by autorewrite with tst.
Qed.

Lemma kerneltrap_timer w s :
  bit 8 (csr_at s sstatus) = true -> bit 1 (csr_at s sstatus) = false -> csr_at s scause = TIMER_INTERRUPT -> length (procs (tps s)) = nproc ->
  match running s with
  | None => exists s1, clocked s s1 /\ kerneltrap plic_reads polls turns (Ctx [] w) s =
      Ok tt (Ctx [] w) (with_csr sstatus (csr_at s sstatus) (with_csr sepc (csr_at s sepc) s1))
  | Some p => (p < nproc)%nat -> exists s', preempted p s s' /\
      kerneltrap plic_reads polls turns (Ctx [] w) s = Asleep ("swtch", Z.of_nat p) (Ctx [proc_lock p] w) s'
  end.
Proof.
  intros H8 H1 Hsc Hn. assert (Hdev : forall Q, (forall s1, clocked s s1 -> Q 2 (Ctx [] w) s1) -> wp (devintr plic_reads polls turns) Q (Ctx [] w) s).
  { intros Q HQ. unfold devintr. kstep. tstep. subst. rewrite Hsc. change (TIMER_INTERRUPT =? EXTERNAL_INTERRUPT) with false.
    rewrite Z.eqb_refl. cbv iota. kstep. apply clockintr_spec; [done|apply not_elem_of_nil|intros i; apply not_elem_of_nil|].
    intros s1 Hs1. kstep. by apply HQ. }
  assert (Hrun : forall s1, clocked s s1 -> running s1 = running s).
  { intros s1 Hs1. unfold running. destruct (clocked_mem _ _ Hs1) as (_ & -> & _). by rewrite (proj1 (proj2 Hs1)). }
  destruct (running s) as [p|] eqn:Er.
  - intros Hp. assert (H : wpx (kerneltrap plic_reads polls turns) (fun _ _ _ => False)
      (fun ch c' s' => ch = ("swtch", Z.of_nat p) /\ c' = Ctx [proc_lock p] w /\ preempted p s s') (Ctx [] w) s).
    { apply kerneltrap_enter; [done..|]. apply wpx_wp, Hdev. intros s1 Hs1. split; [done|]. rewrite (Hrun s1 Hs1), Z.eqb_refl. cbn [when].
      apply yield_spec; [by rewrite (clocked_procs _ _ Hn Hs1)|]. split_and!; [done..|]. by apply preempted_clocked. }
    unfold wpx in H. destruct (kerneltrap _ _ _ _ _) as [| |ch c' s'|]; try done. destruct H as (-> & -> & H). by exists s'.
  - assert (H : wpx (kerneltrap plic_reads polls turns)
      (fun _ c' s' => c' = Ctx [] w /\ exists s1, clocked s s1 /\ s' = with_csr sstatus (csr_at s sstatus) (with_csr sepc (csr_at s sepc) s1))
      (fun _ _ _ => False) (Ctx [] w) s).
    { apply kerneltrap_enter; [done..|]. apply wpx_wp, Hdev. intros s1 Hs1. split; [done|]. rewrite (Hrun s1 Hs1). apply wpx_bind_wp. kstep.
      split; [done|]. by exists s1. }
    unfold wpx in H. destruct (kerneltrap _ _ _ _ _) as [[] c' s'| | |]; try done. destruct H as (-> & s1 & H & ->). by exists s1.
Qed.

End usertrap.
