(* ===== verification/TrapUser.v ===== *)
(** * A system call as the user program sees it

    The assembly of the trampoline ([Asm]) and the handlers in C ([TrapSpec])
    put together: from the [ecall] instruction of a process in user mode
    through uservec, usertrap and userret back to the instruction after it.
    [Asm.mach] is the hart with all its registers while assembly runs; the
    same memory and control registers are the [tst] of the C code. *)
From stdpp Require Import functions.
From S2P Require Import Asm Prelude Kmonad Riscv Mem KString Kalloc Vm Block Sleeplock Bio Log FsLayout Fs FsDir FsPath Pipe File Proc Syscall Exec Sysfile Printf Uart Console Virtio Csr Plic Trap ProcSpec TrapSpec.

Section user.
Context {L : Layout} {D : BlockDev} {U : UartDev} (sym : string -> Z) (tr : Z -> Z -> Z).
Context (plic_reads : list access -> Z -> Z) (polls turns : nat) (kbuf : Z).
Context (devsw : Z -> devfn (M := pst) * devfn (M := pst)) (junk : list Z).
Implicit Types (s : tst) (m : mach).

(** The state of the C code on the hart [m]. *)
Definition on_hart m s : tst := with_hreg (CpuRegs (csrs m) (regs m TP)) (with_mem (ram m) s).

Lemma on_hart_tf m s p off : tf_at (on_hart m s) p off = load64 (ram m) (trapframe (tproc s p) + off).
Proof. done. Qed.
Lemma on_hart_csr m s r : csr_at (on_hart m s) r = csrs m r.
Proof. done. Qed.
Lemma on_hart_proc m s p : tproc (on_hart m s) p = tproc s p.
Proof. done. Qed.

Lemma i32_u64 x : i32 (u64 x) = i32 x.
Proof. unfold i32, u64. zlia. Qed.

Lemma u64_add x y : u64 (u64 x + y) = u64 (x + y).
Proof. unfold u64. zlia. Qed.

(** The system call leaves the process its address space, its trapframe and,
    in it, the user's registers and the program counter. *)
Record leaves_user (p : nat) (k k1 : kst (M := pst)) : Prop := {
  lu_trapframe : trapframe (proc_at (kmem k1) p) = trapframe (proc_at (kmem k) p);
  lu_pagetable : pagetable (proc_at (kmem k1) p) = pagetable (proc_at (kmem k) p);
  lu_killed : pkilled (proc_at (kmem k1) p) = 0;
  lu_fields : forall off, user_field off -> off + 8 <= sizeof_trapframe ->
    load64 (mmem (pmem (kmem k1))) (trapframe (proc_at (kmem k) p) + off) = load64 (mmem (pmem (kmem k))) (trapframe (proc_at (kmem k) p) + off);
}.

(** The trapframe as uservec finds it. *)
Lemma trapframe_read p s m off :
  (forall b, trapframe (tproc s p) <= b < trapframe (tproc s p) + sizeof_trapframe -> rd8 (ram m) b = rd8 (tmem s) b) ->
  0 <= off -> off + 8 <= sizeof_trapframe -> load64 (ram m) (trapframe (tproc s p) + off) = tf_at s p off.
Proof. intros H Ho1 Ho2. rewrite tf_at_tps. apply load_ext. intros b Hb. apply H. rewrite tproc_tps. lia. Qed.

(** What [usertrap] returns with after the system call. *)
Lemma syscall_returns p w s0 m f r c1 k1 :
  running s0 = Some p -> bit 8 (csr_at s0 sstatus) = false -> csr_at s0 scause = 8 -> pkilled (tproc s0 p) = 0 ->
  (forall x, tf_at s0 p (trapframe_offset x) = regs m x) ->
  syscalls (sym "forkret") p kbuf devsw junk (i32 (regs m A7)) = Some f ->
  f (Ctx [] w) (kern (at_syscall sym p s0)) = Ok r c1 k1 -> proc_lock p ∉ held c1 -> leaves_user p (kern (at_syscall sym p s0)) k1 ->
  exists s2, usertrap sym plic_reads polls turns kbuf devsw junk (Ctx [] w) s0 = Ok (MAKE_SATP (pagetable (tproc s0 p))) c1 s2 /\ user_ready sym p s2 /\
    trapframe (tproc s2 p) = trapframe (tproc s0 p) /\ csr_at s2 sepc = u64 (csr_at s0 sepc + 4) /\
    forall x, tf_at s2 p (trapframe_offset x) = if decide (x = A0) then u64 r else regs m x.
Proof.
  intros Hrun Hspp Hsc Hk Hregs Hf Hcall Hl [Ht Hpt Hkd Hfl].
  assert (H : wp (usertrap sym plic_reads polls turns kbuf devsw junk) (fun v c' s2 => v = MAKE_SATP (pagetable (tproc s0 p)) /\ c' = c1 /\ user_ready sym p s2 /\
    trapframe (tproc s2 p) = trapframe (tproc s0 p) /\ csr_at s2 sepc = u64 (csr_at s0 sepc + 4) /\
    forall x, tf_at s2 p (trapframe_offset x) = if decide (x = A0) then u64 r else regs m x) (Ctx [] w) s0).
  2: { apply wp_inv in H as (v & c' & s2 & Hr & -> & -> & H). by exists s2. }
  assert (Hat : forall off, user_field off -> off + 8 <= sizeof_trapframe ->
    load64 (mmem (pmem (kmem k1))) (trapframe (proc_at (kmem k1) p) + off) = tf_at (at_syscall sym p s0) p off).
  { intros off Hu Ho. rewrite Ht, Hfl by done. by rewrite tf_at_tps. }
  eapply (usertrap_syscall sym plic_reads polls turns kbuf devsw junk p); try done; [apply not_elem_of_nil|by change (tf_a 7) with (trapframe_offset A7); rewrite Hregs|].
  intros s2 Hr2 Hp2 Ha0 Hoth Hsepc. rewrite Hpt in *.
  assert (Hproc : proc_at (kmem (kern (at_syscall sym p s0))) p = tproc s0 p) by (rewrite <- (tproc_tps (at_syscall sym p s0)); unfold at_syscall; by autorewrite with tst).
  rewrite Hproc in *. split_and!; [done|done|done|by rewrite Hp2| |].
  - rewrite Hsepc, Hat by first [by left|done]. unfold at_syscall. autorewrite with tst. rewrite u64_add. apply u64_id, u64_range.
  - intros x. case_decide as Hx; [by subst|]. pose proof (trapframe_offset_range x).
    rewrite Hoth, Hat; [|by right; lia|unfold sizeof_trapframe; lia|lia|destruct x; try done; unfold tf_a; simpl; lia].
    unfold at_syscall. autorewrite with tst. apply Hregs.
Qed.

(** C6: a system call, from the ecall instruction of a process to the
    instruction after it.  The process was entered with the hart set up by
    prepare_return and has not touched its trapframe, which is not mapped for
    it.  uservec then arrives at usertrap, on the process's kernel stack and
    under the kernel's page table.  When the function that a7 selects returns a
    value and leaves the trapframe's user fields alone, usertrap returns the
    process's page table, and userret goes back to user mode at the next
    instruction: a0 holds the value and the other thirty registers are those of the
    call. *)
Theorem system_call_round_trip p w s m :
  let pr0 := tproc s p in
  let us := MAKE_SATP (pagetable pr0) in
  user_ready sym p s -> running s = Some p -> pkilled pr0 = 0 ->
  (forall o, 0 <= o < PGSIZE -> tr us (TRAPFRAME + o) = trapframe pr0 + o) ->
  words m -> csrs m satp = us -> csrs m scause = 8 -> bit 8 (csrs m sstatus) = false ->
  (forall b, trapframe pr0 <= b < trapframe pr0 + sizeof_trapframe -> rd8 (ram m) b = rd8 (tmem s) b) ->
  exists m1,
    run sym tr uservec m = (m1, Some (u64 (sym "usertrap"))) /\ regs m1 SP = u64 (kstack pr0 + PGSIZE) /\ csrs m1 satp = u64 (csr_at s satp) /\
    let s0 := on_hart m1 s in
    forall f r c1 k1,
     syscalls (sym "forkret") p kbuf devsw junk (i32 (regs m A7)) = Some f ->
     f (Ctx [] w) (kern (at_syscall sym p s0)) = Ok r c1 k1 -> proc_lock p ∉ held c1 -> leaves_user p (kern (at_syscall sym p s0)) k1 ->
     exists s2, usertrap sym plic_reads polls turns kbuf devsw junk (Ctx [] w) s0 = Ok us c1 s2 /\ user_ready sym p s2 /\
       forall k, regs k A0 = us -> ram k = tmem s2 -> csrs k sepc = csr_at s2 sepc -> exists m2,
         run sym tr userret k = (m2, Some (u64 (csrs m sepc + 4))) /\ csrs m2 satp = us /\
         regs m2 A0 = u64 r /\ forall x, x <> A0 -> regs m2 x = regs m x.
Proof.
  intros pr0 us Hready Hrun Hk Htr Hw Hsatp Hsc Hspp Hram.
  destruct (uservec_run sym tr us (trapframe pr0) Htr m Hw Hsatp) as (m1 & Hr & Hsp & Htp & _ & Hks & Hcs & Hsv & _).
  assert (Hfield : forall off, 0 <= off -> off + 8 <= sizeof_trapframe -> load64 (ram m) (trapframe pr0 + off) = tf_at s p off)
    by (intros; by apply trapframe_read).
  rewrite !Hfield in * by (unfold sizeof_trapframe; lia). destruct Hready as [_ _ _ _ _ Hsatp1 Hsp1 Htrap1 Hid1].
  exists m1. split_and!; [rewrite Hr; do 2 f_equal; exact Htrap1|rewrite Hsp; exact Hsp1|rewrite Hks; exact Hsatp1|].
  intros s0 f r c1 k1 Hf Hcall Hl Hlu. assert (Hrun0 : running s0 = Some p).
  { rewrite <- Hrun. unfold running. change (gtp (hreg s0)) with (regs m1 TP). rewrite (eq_trans Htp Hid1), i32_u64. done. }
  assert (Hc0 : forall c, c <> sscratch -> c <> satp -> csr_at s0 c = csrs m c) by (intros; unfold s0; rewrite on_hart_csr; by apply Hcs).
  assert (Hspp0 : bit 8 (csr_at s0 sstatus) = false) by (by rewrite Hc0).
  assert (Hsc0 : csr_at s0 scause = 8) by (by rewrite Hc0).
  assert (Hregs0 : forall x, tf_at s0 p (trapframe_offset x) = regs m x) by (intros x; unfold s0; rewrite on_hart_tf; apply Hsv).
  destruct (syscall_returns p w s0 m f r c1 k1 Hrun0 Hspp0 Hsc0 Hk Hregs0 Hf Hcall Hl Hlu) as (s2 & Hut & Hr2 & Htf2 & He2 & Hregs2).
  exists s2. split; [exact Hut|]. split; [exact Hr2|]. intros k Ha0 Hkram Hksepc.
  destruct (userret_run sym tr us (trapframe pr0) Htr k Ha0) as (m2 & Hr3 & Hl3 & Hs3 & _).
  assert (Hout : forall x, regs m2 x = if decide (x = A0) then u64 r else regs m x).
  { intros x. rewrite Hl3, Hkram, <- Hregs2, tf_at_tps, <- tproc_tps, Htf2. reflexivity. }
  exists m2. split_and!; [rewrite Hr3, Hksepc, He2, Hc0 by done; reflexivity|exact Hs3|by rewrite Hout|].
  intros x Hx. by rewrite Hout, decide_False.
Qed.
End user.

(** ** Witnesses: process 0 with pid 3 runs on hart 0 *)

Definition silent_dev : UartDev := {| udev := unit; reg_read _ d := (32, d); reg_write _ _ d := d |}.
#[local] Existing Instance silent_dev.
#[local] Existing Instance map_disk.
#[local] Existing Instance ex_layout.

Definition w_proc : proc :=
  set_state RUNNING (set_pid 3 (set_kstack (KSTACK 0) (set_pagetable 0x87fff000 (set_trapframe 0x87654000 proc0)))).
Definition w_pst : pst := Pst (Mst ∅ 0) (w_proc :: replicate 63 proc0) 4 None (Some 0%nat :: replicate 7 None) 5.
Definition w_csr (cause : Z) (r : csr) : Z :=
  match r with scause => cause | satp => MAKE_SATP 0x87ffe000 | sepc => 0x1000 | Csr.time => 77 | _ => 0 end.
Definition w_tst (cause : Z) : tst :=
  Tst (Kst (Fst (Lst (Bst [] ∅ []) log0) (Superblock 0 0 0 0 0 0 0 0) []) [] ∅ w_pst) (Tty (Cons [] 0 0 0) (MkUart 0 0 0 tt))
    (Vst [] 0 [] 0 [] [] 0 [] [] [] (fun _ => []) (fun _ => 0) (fun _ => 0) 0 [] (fun _ => []) 0 []) (CpuRegs (w_csr cause) 0) [] 0.

(** The state in which [m] returns. *)
Definition after {S A} (m : K S A) (c : ctx) (s : S) : S := match m c s with Ok _ _ s' => s' | _ => s end.
Lemma after_wp {S A} (m : K S A) (P : S -> Prop) c s : wp m (fun _ _ s' => P s') c s -> P (after m c s).
Proof. unfold wp, after. by destruct (m c s). Qed.

Definition w_ready : tst := after (prepare_return w_sym 0) ctx0 (w_tst 8).
Lemma w_ready_ok : user_ready w_sym 0 w_ready /\ forall q, tproc w_ready q = tproc (w_tst 8) q.
Proof.
  apply (after_wp (prepare_return w_sym 0) (fun s => user_ready w_sym 0 s /\ forall q, tproc s q = tproc (w_tst 8) q)).
  apply prepare_return_spec. intros s' H1 H2 _. exact (conj H1 H2).
Qed.
Lemma w_ready_running : running w_ready = Some 0%nat.
Proof. vm_compute. reflexivity. Qed.

#[local] Strategy opaque [w_ready].

Definition w_user : mach :=
  Mach (fun x => match x with A7 => 11 | _ => trapframe_offset x end)
    (fun c => match c with satp => MAKE_SATP 0x87fff000 | scause => 8 | sepc => 0x2468 | _ => 0 end) (tmem w_ready).
Definition w_tr' (s va : Z) : Z := 0x87654000 + (va - TRAPFRAME).

Lemma w_user_words : words w_user.
Proof. intros x. destruct x; vm_compute; split; congruence. Qed.

Lemma w_getpid : syscalls (w_sym "forkret") 0 0 (fun _ => (None, None)) [] (i32 (regs w_user A7)) = Some (pr (sys_getpid 0)).
Proof. reflexivity. Qed.

Definition w_same (k : kst (M := pst)) : kst := Kst (kfs k) (kft k) (kpipes k) (kmem k).

Lemma w_getpid_run k : pr (sys_getpid 0) ctx0 k = Ok (u64 (pid (proc_at (kmem k) 0))) ctx0 (w_same k).
Proof. reflexivity. Qed.

Lemma w_leaves k : proc_at (kmem k) 0 = w_proc -> leaves_user 0 k (w_same k).
Proof. intros Hk. split; cbn [kmem w_same]; [reflexivity|reflexivity|rewrite Hk; reflexivity|reflexivity]. Qed.

(** getpid(): number 11, the answer is 3. *)
Lemma system_call_round_trip_witness : exists m1 c1 s2,
  run w_sym w_tr' uservec w_user = (m1, Some (u64 (w_sym "usertrap"))) /\
  usertrap w_sym (fun _ _ => 0) 0 0 0 (fun _ => (None, None)) [] ctx0 (on_hart m1 w_ready) = Ok (MAKE_SATP 0x87fff000) c1 s2 /\
  exists m2, run w_sym w_tr' userret (Mach (fun _ => MAKE_SATP 0x87fff000) (csrv (hreg s2)) (tmem s2)) = (m2, Some (u64 (0x2468 + 4))) /\
    regs m2 A0 = 3 /\ regs m2 S0 = 96.
Proof.
  destruct w_ready_ok as [Hready Hproc]. pose proof (Hproc 0%nat) as Hp0.
  destruct (system_call_round_trip w_sym w_tr' (fun _ _ => 0) 0 0 0 (fun _ => (None, None)) [] 0 [] w_ready w_user) as (m1 & Hr & _ & _ & Hcall).
  - exact Hready.
  - exact w_ready_running.
  - rewrite Hp0. reflexivity.
  - intros o Ho. rewrite Hp0. unfold w_tr'. change (trapframe (tproc (w_tst 8) 0)) with 0x87654000. lia.
  - exact w_user_words.
  - rewrite Hp0. reflexivity.
  - reflexivity.
  - reflexivity.
  - reflexivity.
  - cbv zeta in Hcall. set (k0 := kern (at_syscall w_sym 0 (on_hart m1 w_ready))) in Hcall.
    specialize (Hcall (pr (sys_getpid 0)) (u64 (pid (proc_at (kmem k0) 0))) ctx0 (w_same k0)).
    assert (Hk0 : proc_at (kmem k0) 0 = w_proc).
    { transitivity (tproc (at_syscall w_sym 0 (on_hart m1 w_ready)) 0); [by rewrite tproc_tps|].
      unfold at_syscall. autorewrite with tst. rewrite on_hart_proc, Hp0. reflexivity. }
    clearbody k0. destruct Hcall as (s2 & Hut & _ & Hk).
    + exact w_getpid.
    + exact (w_getpid_run k0).
    + apply not_elem_of_nil.
    + exact (w_leaves k0 Hk0).
    + rewrite Hp0 in Hut, Hk. destruct (Hk (Mach (fun _ => MAKE_SATP 0x87fff000) (csrv (hreg s2)) (tmem s2))) as (m2 & Hr2 & _ & Ha0 & Hx).
      * reflexivity.
      * reflexivity.
      * reflexivity.
      * exists m1, ctx0, s2. split; [exact Hr|]. split; [exact Hut|]. exists m2. split; [exact Hr2|].
        split; [rewrite Ha0, Hk0; reflexivity|rewrite Hx by discriminate; reflexivity].
Defined.

(** A time slice ends. *)
Lemma timer_preempts_witness : exists s1,
  usertrap w_sym (fun _ _ => 0) 0 0 0 (fun _ => (None, None)) [] ctx0 (w_tst TIMER_INTERRUPT) = Asleep ("swtch", 0) (Ctx [proc_lock 0] []) s1 /\
  state (tproc s1 0) = RUNNABLE /\ ticks (tps s1) = 6.
Proof.
  destruct (timer_preempts w_sym (fun _ _ => 0) 0 0 0 (fun _ => (None, None)) [] 0 [] (w_tst TIMER_INTERRUPT)) as [(s1 & Hr & Hp & _) _];
    [reflexivity|vm_compute; lia|reflexivity..|].
  destruct Hp as (H1 & _ & H2 & _). exists s1. split; [exact Hr|]. split; [exact H1|]. rewrite H2. reflexivity.
Defined.
