(* ===== verification/Boot.v ===== *)
(** * The boot of a hart: entry.S and start.c

    Every hart begins at _entry in machine mode, with its number in mhartid.
    The theorem follows it through the assembly ([Asm]) and start() ([Csr])
    to the mret that enters main() in supervisor mode. *)
From stdpp Require Import functions.
From S2P Require Import Prelude Asm Kmonad Riscv Mem Csr Proc.

(** The registers [start] writes. *)
Definition start_writes : list csr :=
  [mstatus; mepc; satp; medeleg; mideleg; sie; pmpaddr0; pmpcfg0; mie; menvcfg; mcounteren; stimecmp].

Lemma entry_run sym tr m : 0 <= sym "stack0" -> sym "stack0" + 4096 * NCPU < 2 ^ 64 -> 0 <= csrs m mhartid < NCPU ->
  exists m1, run sym tr _entry m = (m1, Some (sym "start")) /\ regs m1 SP = sym "stack0" + (csrs m mhartid + 1) * 4096 /\
    regs m1 RA = sym "spin" /\ csrs m1 = csrs m /\ ram m1 = ram m.
Proof.
  unfold NCPU. intros H0 H1 Hid. unfold _entry. do 6 (erewrite run_next by reflexivity). erewrite run_exit by reflexivity. eexists. split; [done|].
  split_and!; [|done..]. cbn -[Z.mul Z.add].
  change (u64 (u64 (sym "stack0") + u64 (u64 (1024 * 4) * u64 (csrs m mhartid + 1))) = sym "stack0" + (csrs m mhartid + 1) * 4096).
  rewrite (u64_id (csrs m mhartid + 1)), (u64_id (1024 * 4)), (u64_id (sym "stack0")) by lia.
  rewrite (u64_id (1024 * 4 * _)) by lia. rewrite u64_id by lia. ring.
Qed.

Definition put_csr (r : csr) (v : Z) (h : cpuregs) : cpuregs := CpuRegs (<[r := v]> (csrv h)) (gtp h).

Lemma wp_read r Q c h : (forall v, v = csrv h r -> Q v c h) -> wp (csr_read r) Q c h.
Proof. intros H. by apply H. Qed.
Lemma wp_write r v Q c h : Q tt c (put_csr r v h) -> wp (csr_write r v) Q c h.
Proof. done. Qed.
Lemma csrv_put r v h : csrv (put_csr r v h) r = v.
Proof. apply fn_lookup_insert. Qed.
Lemma csrv_put_ne r r' v h : r <> r' -> csrv (put_csr r v h) r' = csrv h r'.
Proof. apply fn_lookup_insert_ne. Qed.
#[local] Opaque put_csr.
Hint Rewrite csrv_put : put.
Hint Rewrite csrv_put_ne using discriminate : put.

Ltac hstep :=
  lazymatch goal with
  | |- wp (bind _ _) _ _ _ => apply wp_bind
  | |- wp (ret _) _ _ _ => apply wp_ret
  | |- wp (w_tp _) _ _ _ => apply wp_modify
  | |- @wp _ Z _ _ _ _ => apply wp_read; intros
  | |- @wp _ unit _ _ _ _ => apply wp_write
  end; cbn beta zeta.

(** mret goes to supervisor mode. *)
Lemma mpp_supervisor x : Z.land (Z.lor (Z.land x (u64 (Z.lnot MSTATUS_MPP_MASK))) MSTATUS_MPP_S) MSTATUS_MPP_MASK = MSTATUS_MPP_S.
Proof.
  rewrite Z.land_lor_distr_l, <- Z.land_assoc. change (Z.land (u64 (Z.lnot MSTATUS_MPP_MASK)) MSTATUS_MPP_MASK) with 0. by rewrite Z.land_0_r.
Qed.

(** What [start] leaves in the control registers. *)
Record started (main : Z) (h h' : cpuregs) : Prop := {
  st_tp : gtp h' = csrv h mhartid;
  st_rest r : r ∉ start_writes -> csrv h' r = csrv h r;
  st_satp : csrv h' satp = 0;
  st_deleg : csrv h' medeleg = 0xffff /\ csrv h' mideleg = 0xffff;
  st_sie k : 0 <= k -> bit k (csrv h' sie) = bit k (csrv h sie) || (k =? 9) || (k =? 5);
  st_mie k : 0 <= k -> bit k (csrv h' mie) = bit k (csrv h mie) || (k =? 5);
  st_menvcfg k : 0 <= k -> bit k (csrv h' menvcfg) = bit k (csrv h menvcfg) || (k =? 63);
  st_mcounteren k : 0 <= k -> bit k (csrv h' mcounteren) = bit k (csrv h mcounteren) || (k =? 1);
  st_stimecmp : csrv h' stimecmp = u64 (csrv h Csr.time + 1000000);
}.

Lemma start_spec main c h : 0 <= csrv h mhartid < NCPU ->
  wp (start main) (fun r c' h' => r = (main, MSTATUS_MPP_S) /\ c' = c /\ started main h h') c h.
Proof.
  unfold NCPU. intros Hid. unfold start, timerinit, mret. repeat hstep. subst. 
  cbn [csrv gtp]. autorewrite with put.
  split; [by rewrite mpp_supervisor|]. split; [done|]. split; cbn [csrv gtp]; autorewrite with put.
  - rewrite i32_id by lia. apply u64_id. lia.
  - intros r Hr. unfold start_writes in Hr. rewrite !not_elem_of_cons in Hr. rewrite !csrv_put_ne by naive_solver. done.
  - done.
  - done.
  - intros k Hk. unfold SIE_SEIE, SIE_STIE. by rewrite !bit_set by lia.
  - intros k Hk. unfold MIE_STIE. by rewrite bit_set by lia.
  - intros k Hk. by rewrite bit_set by lia.
  - intros k Hk. change 2 with (Z.shiftl 1 1). by rewrite bit_set by lia.
  - done.
Qed.

(** A hart boots on a stack of its own.  _entry calls start() with sp at
    the top of the hart's 4096 bytes of stack0, inside the array, the stacks
    of two harts being disjoint.  start() ends in an mret to main() in
    supervisor mode, with paging off, traps delegated, tp the hart's
    number, external and timer interrupts enabled in addition to what was
    enabled, the timer register made accessible and set; no other control
    register changes. *)
Theorem hart_boots sym tr m c :
  0 <= sym "stack0" -> sym "stack0" + 4096 * NCPU < 2 ^ 64 -> 0 <= csrs m mhartid < NCPU ->
  exists m1, run sym tr _entry m = (m1, Some (sym "start")) /\ ram m1 = ram m /\
    regs m1 SP = sym "stack0" + (csrs m mhartid + 1) * 4096 /\ sym "stack0" + 4096 <= regs m1 SP <= sym "stack0" + 4096 * NCPU /\
    (forall m' m1', run sym tr _entry m' = (m1', Some (sym "start")) -> 0 <= csrs m' mhartid < NCPU -> csrs m' mhartid <> csrs m mhartid ->
       regs m1' SP <= regs m1 SP - 4096 \/ regs m1 SP <= regs m1' SP - 4096) /\
    exists h', start (sym "main") c (CpuRegs (csrs m1) (regs m1 TP)) = Ok (sym "main", MSTATUS_MPP_S) c h' /\
      started (sym "main") (CpuRegs (csrs m1) (regs m1 TP)) h'.
Proof.
  intros H0 H1 Hid. destruct (entry_run sym tr m H0 H1 Hid) as (m1 & Hr & Hsp & _ & Hc & Hm). exists m1.
  split_and!; [done|done|done|unfold NCPU in *; lia..| |].
  - intros m' m1' Hr' Hid' Hne. destruct (entry_run sym tr m' H0 H1 Hid') as (m2 & Hr2 & Hsp' & _). rewrite Hr2 in Hr'. simplify_eq. lia.
  - pose proof (start_spec (sym "main") c (CpuRegs (csrs m1) (regs m1 TP))) as H. cbn [csrv] in H.
    assert (Hid1 : 0 <= csrs m1 mhartid < NCPU) by (by rewrite Hc). specialize (H Hid1).
    apply wp_inv in H as (r & c' & h' & Hrun & -> & -> & Hst). by exists h'.
Qed.

(** Hart 2 of the image, with its addresses of kernel/kernel.sym. *)
Definition image_sym (l : string) : Z :=
  if String.eqb l "stack0" then 0x80007860 else if String.eqb l "start" then 0x80000060 else if String.eqb l "main" then 0x80000de2 else 0x8000001a.

Lemma hart_boots_witness : exists m1,
  run image_sym (fun _ va => va) _entry (Mach (fun _ => 0) (fun _ => 2) ∅) = (m1, Some 0x80000060) /\ regs m1 SP = 0x8000a860.
Proof.
  destruct (hart_boots image_sym (fun _ va => va) (Mach (fun _ => 0) (fun _ => 2) ∅) (Ctx [] [])) as (m1 & Hr & _ & Hsp & _);
    [vm_compute; congruence|vm_compute; congruence|cbn; unfold NCPU; lia|].
  exists m1. split; [exact Hr|]. rewrite Hsp. reflexivity.
Defined.
