(* ===== verification/Mkfs.v ===== *)
(** * mkfs/mkfs.c: building a disk image

    The image file is a list of blocks.  A file given on the command line is
    its name and what the host's [open] and [read] deliver: [None] when it
    cannot be opened, else the successive results of [read].  The host is
    little-endian; [die] and a failed [assert] are panics.  What mkfs prints is
    left out, and host writes succeed. *)
From S2P Require Import Prelude Kmonad Riscv Mem Block Sleeplock Log FsLayout Fs FsDir.

Definition FSSIZE : Z := 2000.
Definition NINODES : Z := 200.
Definition nbitmap : Z := FSSIZE / BPB + 1.
Definition ninodeblocks : Z := NINODES / IPB + 1.
Definition nlog : Z := LOGBLOCKS + 1.
Definition nmeta : Z := 2 + nlog + ninodeblocks + nbitmap.
Definition nblocks : Z := FSSIZE - nmeta.

Record mk := Mk { m_sb : superblock; img : list block; freeinode : Z; freeblock : Z }.
Definition set_m_sb v s := Mk v (img s) (freeinode s) (freeblock s).
Definition set_img v s := Mk (m_sb s) v (freeinode s) (freeblock s).
Definition set_freeinode v s := Mk (m_sb s) (img s) v (freeblock s).
Definition set_freeblock v s := Mk (m_sb s) (img s) (freeinode s) v.

(** To RISC-V byte order: the bytes of the result, lowest first. *)
Definition xshort (x : Z) : Z := u8 x + 0x100 * u8 (Z.shiftr x 8).
Definition xint (x : Z) : Z := u8 x + 0x100 * u8 (Z.shiftr x 8) + 0x10000 * u8 (Z.shiftr x 16) + 0x1000000 * u8 (Z.shiftr x 24).

(** The block of the image at byte [sec * BSIZE]; a write past the end leaves a hole. *)
Definition sect (sec : Z) : nat := Z.to_nat (u32 (sec * BSIZE) / BSIZE).
Definition put_sect (i : nat) (b : block) (l : list block) : list block :=
  if (i <? length l)%nat then <[i := b]> l else l ++ replicate (i - length l) zblock ++ [b].
Definition wsect (sec : Z) (buf : block) : K mk unit := modify (fun s => set_img (put_sect (sect sec) buf (img s)) s).
Definition rsect (sec : Z) : K mk block :=
  l <- gets img ;;
  match l !! sect sec with Some b => ret b | None => panic "read" end.

Definition winode (inum : Z) (ip : dinode) : K mk unit :=
  sb <- gets m_sb ;;
  let bn := IBLOCK inum sb in
  buf <- rsect bn ;;
  wsect bn (put_dinode (dip inum) ip buf).
Definition rinode (inum : Z) : K mk dinode :=
  sb <- gets m_sb ;;
  buf <- rsect (IBLOCK inum sb) ;;
  ret (get_dinode (dip inum) buf).

Definition zdinode : dinode := Dinode 0 0 0 0 0 (replicate 13 0).
Definition mkfs_ialloc (type : Z) : K mk Z :=
  inum <- gets freeinode ;;
  modify (set_freeinode (u32 (inum + 1))) ;;
  winode inum (Dinode (i16 (xshort type)) 0 0 (i16 (xshort 1)) (xint 0) (d_addrs zdinode)) ;;
  ret inum.

(** A bit map whose first [used] bits are set. *)
Definition bitmap_of (used : Z) : block :=
  foldl (fun buf i => let i := Z.of_nat i in put8 (i / 8) (Z.lor (get8 (i / 8) buf) (Z.shiftl 0x1 (i mod 8))) buf) zblock (seq 0 (Z.to_nat used)).

Definition mkfs_balloc (used : Z) : K mk unit :=
  if used <? BPB then
    sb <- gets m_sb ;;
    wsect (sb_bmapstart sb) (bitmap_of used)
  else panic "assert".

Definition new_block : K mk Z :=
  b <- gets freeblock ;;
  modify (set_freeblock (u32 (b + 1))) ;;
  ret b.

Definition set_addr (i : nat) (a : Z) (d : dinode) : dinode :=
  Dinode (d_type d) (d_major d) (d_minor d) (d_nlink d) (d_size d) (<[i := a]> (d_addrs d)).
Definition set_size (z : Z) (d : dinode) : dinode :=
  Dinode (d_type d) (d_major d) (d_minor d) (d_nlink d) z (d_addrs d).

(** The block for byte [off] of the file, allocated when there is none. *)
Definition iappend_direct (fbn : Z) (din : dinode) : K mk (Z * dinode) :=
  din <- (if xint (d_addrs din !!! Z.to_nat fbn) =? 0 then
            b <- new_block ;; ret (set_addr (Z.to_nat fbn) (xint b) din)
          else ret din) ;;
  ret (xint (d_addrs din !!! Z.to_nat fbn), din).

Definition iappend_indirect (fbn : Z) (din : dinode) : K mk (Z * dinode) :=
  din <- (if xint (d_addrs din !!! Z.to_nat NDIRECT) =? 0 then
            b <- new_block ;; ret (set_addr (Z.to_nat NDIRECT) (xint b) din)
          else ret din) ;;
  let ind := xint (d_addrs din !!! Z.to_nat NDIRECT) in
  indirect <- rsect ind ;;
  let i := 4 * (fbn - NDIRECT) in
  indirect <- (if get32 i indirect =? 0 then
                 b <- new_block ;;
                 let indirect := put32 i (xint b) indirect in
                 wsect ind indirect ;;
                 ret indirect
               else ret indirect) ;;
  ret (xint (get32 i indirect), din).

(** The bytes [p] go into the file from [off] on. *)
Definition iappend_loop (p : list Z) (off : Z) (din : dinode) : K mk (Z * dinode) :=
  loop (length p + 1) (fun '(p, off, din) =>
    if 0 <? Z.of_nat (length p) then
      let fbn := off / BSIZE in
      if fbn <? MAXFILE then
        r <- (if fbn <? NDIRECT then iappend_direct fbn din else iappend_indirect fbn din) ;;
        let n1 := Z.min (Z.of_nat (length p)) (u32 (u32 ((fbn + 1) * BSIZE) - off)) in
        buf <- rsect (fst r) ;;
        wsect (fst r) (putb (off - fbn * BSIZE) (take (Z.to_nat n1) p) buf) ;;
        ret (inl (drop (Z.to_nat n1) p, u32 (off + n1), snd r))
      else panic "assert"
    else ret (inr (off, din))) (p, off, din).

Definition iappend (inum : Z) (p : list Z) : K mk unit :=
  din <- rinode inum ;;
  r <- iappend_loop p (xint (d_size din)) din ;;
  winode inum (set_size (xint (fst r)) (snd r)).

(** ** main

    From the point where the image file has been created. *)

Definition put_sb (sb : superblock) (d : block) : block :=
  put_blocks 0 [sb_magic sb; sb_size sb; sb_nblocks sb; sb_ninodes sb; sb_nlog sb; sb_logstart sb; sb_inodestart sb; sb_bmapstart sb] d.

Definition main_sb : superblock :=
  Superblock FSMAGIC (xint FSSIZE) (xint nblocks) (xint NINODES) (xint nlog) (xint 2) (xint (2 + nlog)) (xint (2 + nlog + ninodeblocks)).

Record arg := Arg { a_path : list Z; a_open : option (list (list Z)) }.

Definition slash : Z := 47.
Definition underscore : Z := 95.
Definition user_slash : list Z := [117; 115; 101; 114; 47].

Definition shortname (path : list Z) : list Z :=
  if strncmp_l 5 path user_slash =? 0 then drop 5 path else path.
Definition skip_underscore (s : list Z) : list Z := if hd 0 s =? underscore then tl s else s.

Definition dirent_bytes (inum : Z) (name : list Z) : list Z :=
  put_dirent (Dirent (xshort inum) (strncpy_l (Z.to_nat DIRSIZ) name)) (replicate (Z.to_nat sizeof_dirent) 0).

Definition add_file (rootino : Z) (a : arg) : K mk unit :=
  let s := shortname (a_path a) in
  if bool_decide (slash ∈ s) then panic "assert"
  else match a_open a with
  | None => panic "open"
  | Some chunks =>
      let s := skip_underscore s in
      if Z.of_nat (length s) <=? DIRSIZ then
        inum <- mkfs_ialloc T_FILE ;;
        iappend rootino (dirent_bytes inum s) ;;
        foldr (fun buf m => iappend inum buf ;; m) skip chunks
      else panic "assert"
  end.

Definition main (argv : list arg) : K mk unit :=
  modify (set_m_sb main_sb) ;;
  modify (set_freeblock nmeta) ;;
  foldr (fun i m => wsect (Z.of_nat i) zblock ;; m) skip (seq 0 (Z.to_nat FSSIZE)) ;;
  wsect 1 (put_sb main_sb zblock) ;;
  rootino <- mkfs_ialloc T_DIR ;;
  if rootino =? ROOTINO then
    iappend rootino (dirent_bytes rootino [46]) ;;
    iappend rootino (dirent_bytes rootino [46; 46]) ;;
    foldr (fun a m => add_file rootino a ;; m) skip argv ;;
    din <- rinode rootino ;;
    let off := xint (d_size din) in
    let off := u32 ((off / BSIZE + 1) * BSIZE) in
    winode rootino (set_size (xint off) din) ;;
    fb <- gets freeblock ;;
    mkfs_balloc fb
  else panic "assert".
