(* ===== verification/MkfsMap.v ===== *)
(** * mkfs: which block belongs to which file

    [own] says what each allocated block is: block [n] of file [i]
    ([(i, Some n)]), or its indirect block ([(i, None)]).  File [i] has inode
    number [i + 1] and the addresses [A i]. *)
From stdpp Require Import functions.
From S2P Require Import Prelude Kmonad Riscv Mem Block Sleeplock Log FsLayout Fs Tx FsBlock FsFormat FsInode FsRead FsBmap Mkfs.

Implicit Types (V : Z -> block) (fb b n : Z) (i j : nat) (A : nat -> list Z) (own : gmap Z (nat * option Z)) (a : list Z).

Record amap V fb (N : nat) A own : Prop := {
  am_len : forall i, (i < N)%nat -> length (A i) = 13%nat;
  am_blk : forall i n b, (i < N)%nat -> 0 <= n < MAXFILE -> b <> 0 -> baddr V (A i) n = b <-> own !! b = Some (i, Some n);
  am_ind : forall i b, (i < N)%nat -> b <> 0 -> A i !!! 12%nat = b <-> own !! b = Some (i, None);
  am_dom : forall b, is_Some (own !! b) <-> nmeta <= b < fb;
  am_in : forall b i k, own !! b = Some (i, k) -> (i < N)%nat /\ (forall n, k = Some n -> 0 <= n < MAXFILE);
  am_zero : forall b, fb <= b < FSSIZE -> V b = zblock;
}.

Lemma nmeta_val : nmeta = 47.
Proof. reflexivity. Qed.

Section amap.
Context {V : Z -> block} {fb : Z} {N : nat} {A : nat -> list Z} {own : gmap Z (nat * option Z)} (Ha : amap V fb N A own).

Lemma am_fresh : nmeta <= fb -> own !! fb = None.
Proof. intros Hm. destruct (own !! fb) eqn:E; [|done]. assert (is_Some (own !! fb)) as H%(am_dom _ _ _ _ _ Ha) by (by rewrite E). lia. Qed.

Lemma am_own_range b x : own !! b = Some x -> nmeta <= b < fb.
Proof. intros E. apply (am_dom _ _ _ _ _ Ha). by rewrite E. Qed.

Lemma baddr_range i n : (i < N)%nat -> 0 <= n < MAXFILE -> baddr V (A i) n = 0 \/ nmeta <= baddr V (A i) n < fb.
Proof.
  intros Hi Hn. destruct (decide (baddr V (A i) n = 0)) as [|Hne]; [by left|right]. eapply am_own_range. by apply (am_blk _ _ _ _ _ Ha i n _ Hi Hn Hne).
Qed.

Lemma ind_range i : (i < N)%nat -> A i !!! 12%nat = 0 \/ nmeta <= A i !!! 12%nat < fb.
Proof.
  intros Hi. destruct (decide (A i !!! 12%nat = 0)) as [|Hne]; [by left|right]. eapply am_own_range. by apply (am_ind _ _ _ _ _ Ha i _ Hi Hne).
Qed.

Lemma addrs_range i : (i < N)%nat -> Forall (fun x => x = 0 \/ nmeta <= x < fb) (A i).
Proof.
  intros Hi. apply Forall_lookup. intros k x Hx. pose proof (lookup_lt_Some _ _ _ Hx) as Hk. rewrite (am_len _ _ _ _ _ Ha i Hi) in Hk.
  apply list_lookup_total_correct in Hx as <-. destruct (decide (k = 12)%nat) as [->|]; [by apply ind_range|].
  pose proof (baddr_range i (Z.of_nat k) Hi) as H. unfold baddr in H. rewrite (proj2 (Z.ltb_lt (Z.of_nat k) NDIRECT)) in H by (unfold NDIRECT; lia).
  rewrite Nat2Z.id in H. apply H. unfold MAXFILE, NDIRECT, NINDIRECT, BSIZE. change (1024 / 4) with 256. lia.
Qed.

(** A block of data changes. *)
Lemma am_data b i n v : own !! b = Some (i, Some n) -> amap (upd V b v) fb N A own.
Proof.
  intros Hb. pose proof (am_own_range _ _ Hb) as Hr. assert (forall i' n', (i' < N)%nat -> baddr (upd V b v) (A i') n' = baddr V (A i') n') as E.
  { intros i' n' Hi'. unfold baddr. destruct (n' <? NDIRECT); [done|]. change (Z.to_nat NDIRECT) with 12%nat. destruct (Z.eqb_spec (A i' !!! 12%nat) 0) as [|Hne]; [done|].
    rewrite upd_ne; [done|]. intros <-. apply (am_ind _ _ _ _ _ Ha i' _ Hi') in Hne as [Hne _]. specialize (Hne eq_refl). congruence. }
  destruct Ha as [H1 H2 H3 H4 H5 H6]. split; try done.
  - intros i' n' b' Hi' Hn' Hb'. rewrite E by done. by apply H2.
  - intros b' Hb'. rewrite upd_ne by lia. by apply H6.
Qed.

Lemma baddr_direct W a n x m : 0 <= n < NDIRECT -> length a = 13%nat -> 0 <= m ->
  baddr W (<[Z.to_nat n := x]> a) m = if decide (m = n) then x else baddr W a m.
Proof.
  intros Hn Hl Hm. unfold baddr, NDIRECT in *. change (Z.to_nat 12) with 12%nat. rewrite !list_insert_total by lia. rewrite (decide_False (P := Z.to_nat n = 12%nat)) by lia.
  destruct (Z.ltb_spec m 12); repeat case_decide; subst; try done; try lia.
Qed.

(** The next free block becomes block [n] of file [i], addressed directly. *)
Lemma am_direct i n : nmeta <= fb < FSSIZE -> (i < N)%nat -> 0 <= n < NDIRECT -> baddr V (A i) n = 0 ->
  amap V (fb + 1) N (<[i := <[Z.to_nat n := fb]> (A i)]> A) (<[fb := (i, Some n)]> own).
Proof.
  intros Hfb Hi Hn H0. pose proof (am_len _ _ _ _ _ Ha i Hi) as Hl. pose proof (am_fresh ltac:(lia)) as Hfr. pose proof nmeta_val as Hnm. pose proof Ha as [H1 H2 H3 H4 H5 H6]. split.
  - intros i' Hi'. destruct (decide (i' = i)) as [->|Hne]; [rewrite fn_lookup_insert, length_insert|rewrite fn_lookup_insert_ne by done]; by apply H1.
  - intros i' n' b Hi' Hn' Hb. destruct (decide (b = fb)) as [->|Hbf].
    + rewrite lookup_insert_eq. destruct (decide (i' = i)) as [->|Hne].
      * rewrite fn_lookup_insert, baddr_direct by (done || lia). case_decide; [by subst|]. rewrite H2 by done. split; [congruence|intros [= ->]; lia].
      * rewrite fn_lookup_insert_ne by done. rewrite H2 by done. split; congruence.
    + rewrite lookup_insert_ne by done. destruct (decide (i' = i)) as [->|Hne].
      * rewrite fn_lookup_insert, baddr_direct by (done || lia). case_decide; [subst|by apply H2]. rewrite <- H2 by done. split; congruence.
      * rewrite fn_lookup_insert_ne by done. by apply H2.
  - intros i' b Hi' Hb. assert ((<[i := <[Z.to_nat n := fb]> (A i)]> A : nat -> list Z) i' !!! 12%nat = A i' !!! 12%nat) as ->.
    { destruct (decide (i' = i)) as [->|Hne]; [rewrite fn_lookup_insert, list_lookup_total_insert_ne by (unfold NDIRECT in Hn; lia)|rewrite fn_lookup_insert_ne by done]; done. }
    destruct (decide (b = fb)) as [->|Hbf]; [rewrite lookup_insert_eq, H3 by done; split; congruence|rewrite lookup_insert_ne by done; by apply H3].
  - intros b. rewrite lookup_insert_is_Some. rewrite H4. lia.
  - intros b i' k [[<- [= <- <-]]|[Hne Hb]]%lookup_insert_Some; [|by eapply H5]. split; [done|]. intros m [= <-]. unfold MAXFILE, NDIRECT, NINDIRECT, BSIZE in *. change (1024 / 4) with 256. lia.
  - intros b Hb. apply H6. lia.
Qed.

Lemma baddr_indirect W a m : NDIRECT <= m -> baddr W a m = if a !!! 12%nat =? 0 then 0 else get32 (4 * (m - NDIRECT)) (W (a !!! 12%nat)).
Proof. intros Hm. unfold baddr. by rewrite (proj2 (Z.ltb_ge m NDIRECT)). Qed.

(** The next free block becomes the indirect block of file [i]. *)
Lemma am_new_ind i : nmeta <= fb < FSSIZE -> (i < N)%nat -> A i !!! 12%nat = 0 ->
  amap V (fb + 1) N (<[i := <[12%nat := fb]> (A i)]> A) (<[fb := (i, None)]> own).
Proof.
  intros Hfb Hi H0. pose proof (am_len _ _ _ _ _ Ha i Hi) as Hl. pose proof (am_fresh ltac:(lia)) as Hfr. pose proof nmeta_val as Hnm. pose proof Ha as [H1 H2 H3 H4 H5 H6].
  assert (forall i' n', (i' < N)%nat -> 0 <= n' -> baddr V ((<[i := <[12%nat := fb]> (A i)]> A : nat -> list Z) i') n' = baddr V (A i') n') as E.
  { intros i' n' Hi' Hn'. destruct (decide (i' = i)) as [->|Hne]; [rewrite fn_lookup_insert|by rewrite fn_lookup_insert_ne by done].
    destruct (Z.ltb_spec n' NDIRECT) as [Hd|Hd].
    - unfold baddr. rewrite (proj2 (Z.ltb_lt n' NDIRECT)) by done. rewrite list_lookup_total_insert_ne; [done|]. unfold NDIRECT in *. lia.
    - rewrite !baddr_indirect by done. rewrite list_lookup_total_insert_eq, H0 by lia. rewrite (proj2 (Z.eqb_neq fb 0)) by lia. cbn [Z.eqb]. rewrite H6 by lia. apply get32_zblock. }
  split.
  - intros i' Hi'. destruct (decide (i' = i)) as [->|Hne]; [rewrite fn_lookup_insert, length_insert|rewrite fn_lookup_insert_ne by done]; by apply H1.
  - intros i' n' b Hi' Hn' Hb. rewrite E by (done || lia). destruct (decide (b = fb)) as [->|Hbf]; [rewrite lookup_insert_eq, H2 by done; split; congruence|rewrite lookup_insert_ne by done; by apply H2].
  - intros i' b Hi' Hb. destruct (decide (i' = i)) as [->|Hne].
    + rewrite fn_lookup_insert, list_lookup_total_insert_eq by lia. destruct (decide (b = fb)) as [->|Hbf]; [by rewrite lookup_insert_eq|]. rewrite lookup_insert_ne, <- H3 by done. split; congruence.
    + rewrite fn_lookup_insert_ne by done. destruct (decide (b = fb)) as [->|Hbf]; [rewrite lookup_insert_eq, H3 by done; split; congruence|rewrite lookup_insert_ne by done; by apply H3].
  - intros b. rewrite lookup_insert_is_Some. rewrite H4. lia.
  - intros b i' k [[<- [= <- <-]]|[Hne Hb]]%lookup_insert_Some; [|by eapply H5]. by split.
  - intros b Hb. apply H6. lia.
Qed.

(** The next free block becomes block [n] of file [i], addressed by its indirect block. *)
Lemma am_via i n x : nmeta <= fb < FSSIZE -> (i < N)%nat -> NDIRECT <= n < MAXFILE -> A i !!! 12%nat = x -> x <> 0 -> blen (V x) -> baddr V (A i) n = 0 ->
  amap (upd V x (put32 (4 * (n - NDIRECT)) fb (V x))) (fb + 1) N A (<[fb := (i, Some n)]> own).
Proof.
  intros Hfb Hi Hn Hx Hx0 Hlen H0. pose proof (am_len _ _ _ _ _ Ha i Hi) as Hl. pose proof (am_fresh ltac:(lia)) as Hfr. pose proof nmeta_val as Hnm. pose proof Ha as [H1 H2 H3 H4 H5 H6].
  assert (own !! x = Some (i, None)) as Hox by (by apply (H3 i x Hi Hx0)). pose proof (am_own_range _ _ Hox) as Hxr.
  set (V' := upd V x _). assert (forall m, 0 <= m < MAXFILE -> baddr V' (A i) m = if decide (m = n) then fb else baddr V (A i) m) as E.
  { intros m Hm. destruct (Z.ltb_spec m NDIRECT) as [Hd|Hd]; [unfold baddr; rewrite (proj2 (Z.ltb_lt m NDIRECT)) by done; by rewrite decide_False by lia|].
    rewrite !baddr_indirect, Hx by done. rewrite (proj2 (Z.eqb_neq x 0)) by done. unfold V'. rewrite upd_eq. unfold MAXFILE, NDIRECT, NINDIRECT, BSIZE in *. change (1024 / 4) with 256 in *. case_decide as Em; [subst m|].
    - rewrite get32_put32_eq by (unfold blen, BSIZE in *; lia). apply u32_id. unfold FSSIZE in *. lia.
    - rewrite get32_put32_ne; [done|unfold blen, BSIZE in *; lia..]. }
  assert (forall i' m, (i' < N)%nat -> i' <> i -> baddr V' (A i') m = baddr V (A i') m) as E'.
  { intros i' m Hi' Hne. unfold baddr. destruct (m <? NDIRECT); [done|]. change (Z.to_nat NDIRECT) with 12%nat. destruct (Z.eqb_spec (A i' !!! 12%nat) 0) as [|Hz]; [done|].
    unfold V'. rewrite upd_ne; [done|]. intros Ex. rewrite <- Ex in Hox. apply (H3 i' _ Hi') in Hz as [Hz _]. specialize (Hz eq_refl). congruence. }
  split; try done.
  - intros i' n' b Hi' Hn' Hb. destruct (decide (i' = i)) as [->|Hne].
    + rewrite E by done. destruct (decide (b = fb)) as [->|Hbf].
      * rewrite lookup_insert_eq. case_decide; [by subst|]. rewrite H2 by done. split; [congruence|intros [= ->]; done].
      * rewrite lookup_insert_ne by done. case_decide; [subst|by apply H2]. rewrite <- H2 by done. split; congruence.
    + rewrite E' by done. destruct (decide (b = fb)) as [->|Hbf]; [rewrite lookup_insert_eq, H2 by done; split; congruence|rewrite lookup_insert_ne by done; by apply H2].
  - intros i' b Hi' Hb. destruct (decide (b = fb)) as [->|Hbf]; [rewrite lookup_insert_eq, H3 by done; split; congruence|rewrite lookup_insert_ne by done; by apply H3].
  - intros b. rewrite lookup_insert_is_Some. rewrite H4. lia.
  - intros b i' k [[<- [= <- <-]]|[Hne Hb]]%lookup_insert_Some; [|by eapply H5]. split; [done|]. intros m [= <-]. unfold NDIRECT in *. lia.
  - intros b Hb. unfold V'. rewrite upd_ne by lia. apply H6. lia.
Qed.
End amap.
