(* ===== verification/MkfsSpec.v ===== *)
(** * mkfs: the contents of files

    [repr] relates the image file to a function from block numbers to blocks,
    the view of the disk that the theorems on fs.c use.  [cont] says what the
    blocks of each file hold; [iappend] appends to a file. *)
From stdpp Require Import functions.
From S2P Require Import Prelude Kmonad Riscv Mem Block Sleeplock Log FsLayout Fs Tx FsBlock FsFormat FsInode FsRead FsBmap Mkfs MkfsMap.

Implicit Types (V : Z -> block) (fb b n x : Z) (i j : nat) (A : nat -> list Z) (own : gmap Z (nat * option Z)) (a : list Z) (C : list (Z * list Z)) (s : mk).

(** ** The image file *)

Record repr s V : Prop := {
  rp_sb : m_sb s = main_sb;
  rp_len : length (img s) = Z.to_nat FSSIZE;
  rp_img : forall k, 0 <= k < FSSIZE -> img s !! Z.to_nat k = Some (V k);
}.

Lemma sect_val k : 0 <= k < FSSIZE -> sect k = Z.to_nat k.
Proof. intros Hk. unfold sect, BSIZE, FSSIZE in *. rewrite u32_id by lia. by rewrite Z.div_mul. Qed.

Lemma rsect_ok s V k Q c : repr s V -> 0 <= k < FSSIZE -> Q (V k) c s -> wp (rsect k) Q c s.
Proof. intros Hr Hk HQ. unfold rsect. ksteps. rewrite sect_val, (rp_img _ _ Hr) by done. by ksteps. Qed.

Lemma wsect_ok s V k v Q c : repr s V -> 0 <= k < FSSIZE ->
  (forall s', repr s' (upd V k v) -> freeinode s' = freeinode s -> freeblock s' = freeblock s -> Q tt c s') -> wp (wsect k v) Q c s.
Proof.
  intros [Hsb Hl Hi] Hk HQ. unfold wsect. ksteps. rewrite sect_val by done. unfold put_sect. rewrite (proj2 (Nat.ltb_lt _ _)) by lia. apply HQ; [|done..]. split; cbn [set_img m_sb img]; [done|by rewrite length_insert|].
  intros j Hj. destruct (decide (j = k)) as [->|Hne]; [rewrite upd_eq; apply list_lookup_insert_eq; lia|]. rewrite upd_ne by done. rewrite list_lookup_insert_ne by lia. by apply Hi.
Qed.

Lemma xint_id x : 0 <= x < 2 ^ 32 -> xint x = x.
Proof. intros Hx. unfold xint, u8. rewrite !Z.shiftr_div_pow2 by lia. zlia. Qed.
Lemma xshort_id x : 0 <= x < 2 ^ 16 -> xshort x = x.
Proof. intros Hx. unfold xshort, u8. rewrite !Z.shiftr_div_pow2 by lia. zlia. Qed.

Lemma new_block_ok s V Q c : repr s V -> 0 <= freeblock s < FSSIZE ->
  (forall s', repr s' V -> freeinode s' = freeinode s -> freeblock s' = freeblock s + 1 -> Q (freeblock s) c s') -> wp new_block Q c s.
Proof.
  intros [Hsb Hl Hi] Hf HQ. unfold new_block. ksteps. apply HQ; [by split|done|]. cbn [set_freeblock freeblock]. apply u32_id. unfold FSSIZE in *. lia.
Qed.

(** ** The blocks of a file *)

(** Block [n] of the bytes [c], filled up with zeros. *)
Definition fblock (c : list Z) (n : Z) : block := take (Z.to_nat BSIZE) (drop (Z.to_nat (n * BSIZE)) c ++ zblock).

Lemma zblock_lookup (k : nat) : (k < Z.to_nat BSIZE)%nat -> zblock !! k = Some 0.
Proof. intros Hk. Transparent zblock. unfold zblock. Opaque zblock. by apply lookup_replicate_2. Qed.
Lemma zblock_length : length zblock = Z.to_nat BSIZE.
Proof. apply zblock_ok. Qed.

Lemma fblock_lookup c n (k : nat) : 0 <= n -> (k < Z.to_nat BSIZE)%nat -> fblock c n !! k = Some (default 0 (c !! (Z.to_nat (n * BSIZE) + k)%nat)).
Proof.
  intros Hn Hk. unfold fblock. rewrite lookup_take_lt by done. destruct (decide (k < length (drop (Z.to_nat (n * BSIZE)) c))%nat) as [H|H].
  - rewrite lookup_app_l, lookup_drop by done. rewrite length_drop in H. by destruct (lookup_lt_is_Some_2 c (Z.to_nat (n * BSIZE) + k)%nat ltac:(lia)) as [y ->].
  - rewrite lookup_app_r by lia. rewrite zblock_lookup by lia. rewrite length_drop in H. by rewrite lookup_ge_None_2 by lia.
Qed.
Lemma fblock_length c n : length (fblock c n) = Z.to_nat BSIZE.
Proof. unfold fblock. rewrite length_take, length_app, zblock_length. lia. Qed.

Lemma fblock_eq c n (l : block) : 0 <= n -> length l = Z.to_nat BSIZE ->
  (forall k : nat, (k < Z.to_nat BSIZE)%nat -> l !! k = Some (default 0 (c !! (Z.to_nat (n * BSIZE) + k)%nat))) -> l = fblock c n.
Proof.
  intros Hn Hl H. apply list_eq. intros k. destruct (decide (k < Z.to_nat BSIZE)%nat) as [Hk|Hk]; [by rewrite H, fblock_lookup|]. rewrite !lookup_ge_None_2; [done|rewrite fblock_length; lia|lia].
Qed.

Lemma fblock_zero c n : 0 <= n -> Z.of_nat (length c) <= n * BSIZE -> fblock c n = zblock.
Proof. intros Hn Hc. symmetry. apply fblock_eq; [done|apply zblock_length|]. intros k Hk. rewrite zblock_lookup by done. by rewrite lookup_ge_None_2 by lia. Qed.

Lemma fblock_before c d n : 0 <= n -> (n + 1) * BSIZE <= Z.of_nat (length c) -> fblock (c ++ d) n = fblock c n.
Proof.
  intros Hn Hc. apply fblock_eq; [done|apply fblock_length|]. intros k Hk. rewrite fblock_lookup by done. by rewrite lookup_app_l by (unfold BSIZE in *; lia).
Qed.

Lemma fblock_append c d n : 0 <= n -> n * BSIZE <= Z.of_nat (length c) -> Z.of_nat (length c + length d) <= (n + 1) * BSIZE ->
  putb (Z.of_nat (length c) - n * BSIZE) d (fblock c n) = fblock (c ++ d) n.
Proof.
  intros Hn Hc Hd. assert (BSIZE = 1024) as EB by done. apply fblock_eq; [done|rewrite putb_length; rewrite ?fblock_length; lia|]. intros k Hk. rewrite putb_lookup by (rewrite ?fblock_length; lia). case_decide as Hr.
  - rewrite lookup_app_r by lia. destruct (lookup_lt_is_Some_2 d (k - Z.to_nat (Z.of_nat (length c) - n * BSIZE))%nat ltac:(lia)) as [y Hy]. rewrite Hy.
    replace (Z.to_nat (n * BSIZE) + k - length c)%nat with (k - Z.to_nat (Z.of_nat (length c) - n * BSIZE))%nat by lia. by rewrite Hy.
  - rewrite fblock_lookup by done. destruct (decide (Z.to_nat (n * BSIZE) + k < length c)%nat); [by rewrite lookup_app_l|]. rewrite !lookup_ge_None_2; [done|rewrite length_app; lia|lia].
Qed.

Record cont V C own : Prop := {
  ct_blk : forall b i n ty c, own !! b = Some (i, Some n) -> C !! i = Some (ty, c) -> n * BSIZE < Z.of_nat (length c) /\ V b = fblock c n;
  ct_all : forall i ty c n, C !! i = Some (ty, c) -> 0 <= n -> n * BSIZE < Z.of_nat (length c) -> exists b, own !! b = Some (i, Some n);
  ct_ind : forall i ty c, C !! i = Some (ty, c) -> (exists b, own !! b = Some (i, None)) <-> NDIRECT * BSIZE < Z.of_nat (length c);
  ct_c : forall i ty c, C !! i = Some (ty, c) -> Z.of_nat (length c) <= MAXFILE * BSIZE /\ Forall byte c;
  ct_V : forall k, block_ok (V k);
}.

(** The blocks after block [n] of file [i] has been found or allocated at [x]. *)
Record grown V own V1 own1 (x : Z) (i : nat) (n : Z) : Prop := {
  gr_sub : own ⊆ own1;
  gr_x : own1 !! x = Some (i, Some n);
  gr_new : forall b k, own1 !! b = Some k -> own !! b = Some k \/ b = x \/ k = (i, None);
  gr_zero : own !! x = None -> V1 x = zblock;
  gr_data : forall b j m, own !! b = Some (j, Some m) -> V1 b = V b;
  gr_ind : (exists b, own1 !! b = Some (i, None)) <-> (exists b, own !! b = Some (i, None)) \/ NDIRECT <= n;
  gr_meta : forall k, k < nmeta -> V1 k = V k;
  gr_V : forall k, block_ok (V1 k);
}.

Lemma MAXFILE_val : MAXFILE = 268.
Proof. reflexivity. Qed.

Lemma own_inj V fb N A own b b' k : amap V fb N A own -> own !! b = Some k -> own !! b' = Some k -> b = b'.
Proof.
  intros Ha Hb Hb'. pose proof nmeta_val. pose proof (am_own_range Ha _ _ Hb). pose proof (am_own_range Ha _ _ Hb'). destruct k as [i [n|]]; destruct (am_in _ _ _ _ _ Ha _ _ _ Hb) as [Hi Hn].
  - specialize (Hn n eq_refl). apply (am_blk _ _ _ _ _ Ha i n b Hi Hn) in Hb as <-; [|lia]. apply (am_blk _ _ _ _ _ Ha i n b' Hi Hn) in Hb' as <-; [done|lia].
  - apply (am_ind _ _ _ _ _ Ha i b Hi) in Hb as <-; [|lia]. apply (am_ind _ _ _ _ _ Ha i b' Hi) in Hb' as <-; [done|lia].
Qed.

(** ... and [d] has been written at the end of the file. *)
Lemma grow V C own V1 fb1 A1 own1 x i n ty c d :
  cont V C own -> C !! i = Some (ty, c) -> n = Z.of_nat (length c) / BSIZE -> n < MAXFILE -> d <> [] -> Forall byte d ->
  Z.of_nat (length c + length d) <= (n + 1) * BSIZE -> grown V own V1 own1 x i n -> amap V1 fb1 (length C) A1 own1 ->
  cont (upd V1 x (putb (Z.of_nat (length c) - n * BSIZE) d (V1 x))) (<[i := (ty, c ++ d)]> C) own1.
Proof.
  intros [K1 K2 K3 K4 K5] Hc Hn Hmax Hd Hbd Hfit [G1 G2 G3 G4 G5 G6 G7 G8] Ha1. pose proof MAXFILE_val as EM. assert (BSIZE = 1024) as EB by done.
  assert (0 <= n /\ n * BSIZE <= Z.of_nat (length c) < (n + 1) * BSIZE) as [Hn0 Hnc] by (subst n; rewrite EB; zlia).
  assert (0 < Z.of_nat (length d)) as Hd0 by (destruct d; [done|cbn; lia]). pose proof (lookup_lt_Some _ _ _ Hc) as Hlt. assert (V1 x = fblock c n) as Ex.
  { destruct (own !! x) as [k|] eqn:E.
    - pose proof (lookup_weaken _ _ _ _ E G1) as E1. assert (k = (i, Some n)) as -> by congruence. rewrite (G5 _ _ _ E). by eapply K1.
    - rewrite (G4 eq_refl), fblock_zero; [done|lia|]. destruct (decide (n * BSIZE < Z.of_nat (length c))) as [H|H]; [|lia].
      destruct (K2 i ty c n Hc Hn0 H) as [b Hb]. assert (b = x) as -> by (eapply own_inj; [exact Ha1|by eapply lookup_weaken|done]). congruence. }
  assert (Z.of_nat (length c) - n * BSIZE + Z.of_nat (length d) <= Z.of_nat (length (V1 x))) as Hfits by (rewrite Ex, fblock_length; lia).
  split.
  - intros b j m ty' c' Hb Hc'. destruct (decide (b = x)) as [->|Hbx].
    + assert (j = i /\ m = n) as [-> ->] by (split; congruence). rewrite list_lookup_insert_eq in Hc' by done. injection Hc' as <- <-. rewrite upd_eq, Ex, fblock_append by lia. rewrite length_app. split; [lia|done].
    + rewrite upd_ne by done. destruct (G3 b _ Hb) as [Hb0|[->|?]]; [|done|done]. rewrite (G5 _ _ _ Hb0). destruct (decide (j = i)) as [->|Hne]; [|rewrite list_lookup_insert_ne in Hc' by done; by eapply K1].
      rewrite list_lookup_insert_eq in Hc' by done. injection Hc' as <- <-. destruct (K1 _ _ _ _ _ Hb0 Hc) as [Hm Hv]. rewrite length_app. split; [lia|]. rewrite Hv. symmetry.
      destruct (am_in _ _ _ _ _ Ha1 _ _ _ Hb) as [_ Hm0]. specialize (Hm0 m eq_refl). apply fblock_before; [lia|].
      assert (m <> n) by (intros ->; destruct Hbx; by eapply own_inj). rewrite EB in *. lia.
  - intros j ty' c' m Hc' Hm0 Hm. destruct (decide (j = i)) as [->|Hne]; [|rewrite list_lookup_insert_ne in Hc' by done; destruct (K2 _ _ _ _ Hc' Hm0 Hm) as [b Hb]; exists b; by eapply lookup_weaken].
    rewrite list_lookup_insert_eq in Hc' by done. injection Hc' as <- <-. rewrite length_app in Hm. destruct (decide (m = n)) as [->|Hmn]; [by exists x|].
    destruct (K2 i ty c m Hc Hm0) as [b Hb]; [rewrite EB in *; lia|]. exists b. by eapply lookup_weaken.
  - intros j ty' c' Hc'. destruct (decide (j = i)) as [->|Hne].
    + rewrite list_lookup_insert_eq in Hc' by done. injection Hc' as <- <-. rewrite G6, (K3 _ _ _ Hc), length_app. unfold NDIRECT. rewrite EB in *. lia.
    + rewrite list_lookup_insert_ne in Hc' by done. rewrite <- (K3 _ _ _ Hc'). split; intros [b Hb]; exists b; [|by eapply lookup_weaken]. destruct (G3 b _ Hb) as [?|[->|?]]; [done|congruence|congruence].
  - intros j ty' c' Hc'. destruct (decide (j = i)) as [->|Hne]; [|rewrite list_lookup_insert_ne in Hc' by done; by eapply K4].
    rewrite list_lookup_insert_eq in Hc' by done. injection Hc' as <- <-. destruct (K4 _ _ _ Hc). rewrite length_app. split; [rewrite EB in *; lia|by apply Forall_app].
  - intros k. destruct (decide (k = x)) as [->|Hk]; [rewrite upd_eq|by rewrite upd_ne]. apply putb_ok; [done|done|lia|]. rewrite Ex, fblock_length in Hfits. lia.
Qed.

(** ** Finding or allocating the block to write to *)

Definition with_addrs a (d : dinode) : dinode := Dinode (d_type d) (d_major d) (d_minor d) (d_nlink d) (d_size d) a.

Definition need (len : Z) : Z := (if len mod BSIZE =? 0 then 1 else 0) + (if len =? NDIRECT * BSIZE then 1 else 0).

Definition got_block V fb N A own i n (din : dinode) (s0 : mk) (r : Z * dinode) s : Prop :=
  exists V1 own1 A1, repr s V1 /\ freeinode s = freeinode s0 /\ freeblock s = fb /\ snd r = with_addrs (A1 i) din /\ (forall j, j <> i -> A1 j = A j) /\
    amap V1 fb N A1 own1 /\ grown V own V1 own1 (fst r) i n.

Section get_block.
Context {V : Z -> block} {fb : Z} {A : nat -> list Z} {own : gmap Z (nat * option Z)} {C : list (Z * list Z)} {i : nat} {ty : Z} {cs : list Z} {n : Z} {din : dinode}.
Context (Ha : amap V fb (length C) A own) (Hct : cont V C own) (Hc : C !! i = Some (ty, cs)) (En : n = Z.of_nat (length cs) / BSIZE) (Hmax : n < MAXFILE).
Context (Hdin : d_addrs din = A i).

Lemma gb_index : (i < length C)%nat.
Proof. by eapply lookup_lt_Some. Qed.
Lemma gb_n : 0 <= n /\ n * BSIZE <= Z.of_nat (length cs) < (n + 1) * BSIZE.
Proof. subst n. change BSIZE with 1024. zlia. Qed.

(** The block is there exactly when the file does not end at a block boundary. *)
Lemma gb_there : Z.of_nat (length cs) mod BSIZE <> 0 -> own !! baddr V (A i) n = Some (i, Some n) /\ baddr V (A i) n <> 0.
Proof.
  intros Hm. pose proof gb_n. pose proof nmeta_val. destruct (ct_all _ _ _ Hct i ty cs n Hc) as [b Hb]; [lia|change BSIZE with 1024 in *; zlia|].
  pose proof (am_own_range Ha _ _ Hb). pose proof (proj2 (am_blk _ _ _ _ _ Ha i n b gb_index ltac:(lia) ltac:(lia)) Hb) as ->. split; [done|lia].
Qed.
Lemma gb_absent : Z.of_nat (length cs) mod BSIZE = 0 -> baddr V (A i) n = 0.
Proof.
  intros Hm. pose proof gb_n. destruct (decide (baddr V (A i) n = 0)) as [|Hne]; [done|]. apply (am_blk _ _ _ _ _ Ha i n _ gb_index ltac:(lia)) in Hne as [H1 _].
  destruct (ct_blk _ _ _ Hct _ _ _ _ _ (H1 eq_refl) Hc) as [Hlt _]. change BSIZE with 1024 in *. zlia.
Qed.
Lemma gb_ind : NDIRECT * BSIZE < Z.of_nat (length cs) <-> A i !!! 12%nat <> 0.
Proof.
  rewrite <- (ct_ind _ _ _ Hct i ty cs Hc). pose proof nmeta_val. split.
  - intros [b Hb]. pose proof (am_own_range Ha _ _ Hb). apply (am_ind _ _ _ _ _ Ha i b gb_index) in Hb as <-; lia.
  - intros Hne. exists (A i !!! 12%nat). by apply (am_ind _ _ _ _ _ Ha i _ gb_index Hne).
Qed.

Lemma grown_same x : own !! x = Some (i, Some n) -> (NDIRECT <= n -> A i !!! 12%nat <> 0) -> grown V own V own x i n.
Proof.
  intros Hx Hi. split; try done; [by left|congruence| |apply Hct]. split; [by left|]. intros [?|H]; [done|]. exists (A i !!! 12%nat). by apply (am_ind _ _ _ _ _ Ha i _ gb_index (Hi H)).
Qed.

Lemma direct_ok s c : repr s V -> freeblock s = fb -> n < NDIRECT -> nmeta <= fb -> fb + need (Z.of_nat (length cs)) <= FSSIZE ->
  wp (iappend_direct n din) (fun r c' s' => c' = c /\ got_block V (fb + need (Z.of_nat (length cs))) (length C) A own i n din s r s') c s.
Proof.
  intros Hr Hfb Hd Hm Hroom. pose proof gb_n as Hn. pose proof nmeta_val. assert (baddr V (A i) n = A i !!! Z.to_nat n) as Eb by (unfold baddr; by rewrite (proj2 (Z.ltb_lt _ _))).
  assert (0 <= A i !!! Z.to_nat n < 2 ^ 32) as Hrange by (destruct (baddr_range Ha i n gb_index); unfold FSSIZE, need in *; repeat case_match; lia).
  assert (need (Z.of_nat (length cs)) = if Z.of_nat (length cs) mod BSIZE =? 0 then 1 else 0) as Ened.
  { unfold need. rewrite (proj2 (Z.eqb_neq (Z.of_nat (length cs)) _)); [lia|]. unfold NDIRECT in *. change BSIZE with 1024 in *. lia. }
  unfold iappend_direct. rewrite Hdin, xint_id by done. rewrite Ened in *. destruct (Z.eqb_spec (Z.of_nat (length cs) mod BSIZE) 0) as [E|E].
  - rewrite <- Eb, gb_absent by done. cbn [Z.eqb]. kstep. kstep. eapply new_block_ok; [done|unfold FSSIZE in *; lia|]. intros s' Hr' Hfi Hfb'. ksteps. split; [done|].
    rewrite Hfb, (xint_id fb) by (unfold FSSIZE in *; lia). cbn [fst snd set_addr d_addrs]. rewrite Hdin, list_lookup_total_insert_eq by (rewrite (am_len _ _ _ _ _ Ha i gb_index); unfold NDIRECT in *; lia). rewrite xint_id by (unfold FSSIZE in *; lia).
    exists V, (<[fb := (i, Some n)]> own), (<[i := <[Z.to_nat n := fb]> (A i)]> A). split_and!; try done; [lia|cbn [snd]; by rewrite fn_lookup_insert, <- Hdin| |apply (am_direct Ha); [lia|apply gb_index|lia|by apply gb_absent]|].
    + intros j Hj. by rewrite fn_lookup_insert_ne.
    + pose proof (am_fresh Ha Hm) as Hfr. split; try done.
      * by apply insert_subseteq.
      * apply lookup_insert_eq.
      * intros b k [[<- <-]|[_ ?]]%lookup_insert_Some; [right; by left|by left].
      * intros _. apply (am_zero _ _ _ _ _ Ha). cbn [fst]. lia.
      * split; [intros [b [[_ ?]|[_ ?]]%lookup_insert_Some]; [done|left; by exists b]|]. intros [[b Hb]|?]; [|lia]. exists b. rewrite lookup_insert_ne; [done|]. intros <-. congruence.
      * apply Hct.
  - destruct gb_there as [Ht Hne]; [done|]. rewrite <- Eb. rewrite (proj2 (Z.eqb_neq _ 0)) by done. ksteps. split; [done|]. rewrite Hdin, <- Eb, xint_id by (by rewrite Eb).
    exists V, own, A. rewrite Z.add_0_r. split_and!; try done; [cbn; rewrite <- Hdin; by destruct din|]. apply grown_same; [done|lia].
Qed.

(** The indirect block, found or allocated. *)
Lemma ind_ok s c : repr s V -> freeblock s = fb -> NDIRECT <= n -> nmeta <= fb -> fb + need (Z.of_nat (length cs)) <= FSSIZE ->
  wp (if xint (d_addrs din !!! Z.to_nat NDIRECT) =? 0 then b <- new_block ;; ret (set_addr (Z.to_nat NDIRECT) (xint b) din) else ret din)
    (fun din' c' s' => c' = c /\ exists own1 A1, repr s' V /\ freeinode s' = freeinode s /\
      freeblock s' = fb + (if Z.of_nat (length cs) =? NDIRECT * BSIZE then 1 else 0) /\ din' = with_addrs (A1 i) din /\ (forall j, j <> i -> A1 j = A j) /\
      amap V (freeblock s') (length C) A1 own1 /\ A1 i !!! 12%nat <> 0 /\ baddr V (A1 i) n = baddr V (A i) n /\
      own ⊆ own1 /\ (forall b k, own1 !! b = Some k -> own !! b = Some k \/ k = (i, None))) c s.
Proof.
  intros Hr Hfb Hd Hm Hroom. pose proof gb_n as Hn. pose proof nmeta_val. change (Z.to_nat NDIRECT) with 12%nat. rewrite Hdin.
  assert (0 <= A i !!! 12%nat < 2 ^ 32) as Hrange by (destruct (ind_range Ha i gb_index); unfold FSSIZE, need in *; repeat case_match; lia). rewrite xint_id by done.
  destruct (Z.eqb_spec (Z.of_nat (length cs)) (NDIRECT * BSIZE)) as [E|E].
  - assert (A i !!! 12%nat = 0) as Ez by (pose proof gb_ind; lia). rewrite Ez. cbn [Z.eqb]. assert (fb < FSSIZE) as Hlt.
    { rewrite E in Hroom. change (need (NDIRECT * BSIZE)) with 2 in Hroom. lia. }
    kstep. eapply new_block_ok; [done|lia|]. intros s' Hr' Hfi Hfb'. ksteps. split; [done|]. rewrite Hfb, xint_id in * by (unfold FSSIZE in *; lia).
    pose proof (am_new_ind Ha i ltac:(lia) gb_index Ez) as Ha1. exists (<[fb := (i, None)]> own), (<[i := <[12%nat := fb]> (A i)]> A).
    split_and!; try done; rewrite ?fn_lookup_insert.
    + by rewrite <- Hdin.
    + intros j Hj. by rewrite fn_lookup_insert_ne.
    + by rewrite Hfb'.
    + rewrite list_lookup_total_insert_eq by (rewrite (am_len _ _ _ _ _ Ha i gb_index); lia). lia.
    + rewrite !baddr_indirect, Ez by done. rewrite list_lookup_total_insert_eq by (rewrite (am_len _ _ _ _ _ Ha i gb_index); lia). rewrite (proj2 (Z.eqb_neq fb 0)) by lia. rewrite (am_zero _ _ _ _ _ Ha fb) by lia. by rewrite get32_zblock.
    + apply insert_subseteq. by apply (am_fresh Ha).
    + intros b k [[<- <-]|[_ ?]]%lookup_insert_Some; [by right|by left].
  - assert (A i !!! 12%nat <> 0) as Hne by (apply gb_ind; unfold NDIRECT in *; change BSIZE with 1024 in *; lia). rewrite (proj2 (Z.eqb_neq _ 0)) by done. ksteps. split; [done|].
    exists own, A. rewrite Hfb, Z.add_0_r. split_and!; try done; [by rewrite <- Hdin; destruct din|by left].
Qed.

Lemma indirect_ok s c : repr s V -> freeblock s = fb -> NDIRECT <= n -> nmeta <= fb -> fb + need (Z.of_nat (length cs)) <= FSSIZE ->
  wp (iappend_indirect n din) (fun r c' s' => c' = c /\ got_block V (fb + need (Z.of_nat (length cs))) (length C) A own i n din s r s') c s.
Proof.
  intros Hr Hfb Hd Hm Hroom. pose proof gb_n as Hn. pose proof nmeta_val. unfold iappend_indirect. kstep. eapply wp_mono; [by apply ind_ok|]. cbn beta.
  intros din' c' s1 (-> & own1 & A1 & Hr1 & Hfi1 & Hfb1 & -> & HA1 & Ha1 & Hne & Eb & Hsub & Hnew). cbn [with_addrs d_addrs]. change (Z.to_nat NDIRECT) with 12%nat.
  set (x := A1 i !!! 12%nat) in *. assert (own1 !! x = Some (i, None)) as Hox by (by apply (am_ind _ _ _ _ _ Ha1 i x gb_index Hne)). pose proof (am_own_range Ha1 _ _ Hox) as Hxr.
  assert (0 <= need (Z.of_nat (length cs)) - (if Z.of_nat (length cs) =? NDIRECT * BSIZE then 1 else 0)) by (unfold need; repeat case_match; lia).
  rewrite (xint_id x) by (unfold FSSIZE in *; lia). kstep. eapply rsect_ok; [done|lia|]. kstep.
  assert (baddr V (A1 i) n = get32 (4 * (n - NDIRECT)) (V x)) as Eg by (rewrite baddr_indirect by done; by rewrite (proj2 (Z.eqb_neq _ 0))). rewrite <- Eg, Eb.
  assert (need (Z.of_nat (length cs)) = (if Z.of_nat (length cs) mod BSIZE =? 0 then 1 else 0) + (if Z.of_nat (length cs) =? NDIRECT * BSIZE then 1 else 0)) as Ened by done.
  assert (block_ok (V x)) as Hvx by apply Hct. pose proof MAXFILE_val as EM. assert (BSIZE = 1024) as EB by done. assert (NDIRECT = 12) as EN by done.
  destruct (Z.eqb_spec (Z.of_nat (length cs) mod BSIZE) 0) as [E|E].
  - rewrite gb_absent by done. cbn [Z.eqb]. set (fb1 := freeblock s1) in *. assert (nmeta <= fb1 < FSSIZE) as Hfb1' by lia. kstep. eapply new_block_ok; [done|fold fb1; lia|]. fold fb1. intros s2 Hr2 Hfi2 Hfb2.
    rewrite (xint_id fb1) by (unfold FSSIZE in *; lia). kstep. eapply wsect_ok; [done|lia|]. intros s3 Hr3 Hfi3 Hfb3. ksteps. split; [done|].
    rewrite get32_put32_eq by (destruct Hvx as [Hvl _]; lia). rewrite u32_id, xint_id by (unfold FSSIZE in *; lia).
    assert (baddr V (A1 i) n = 0) as Eb0 by (rewrite Eb; by apply gb_absent). pose proof (am_via Ha1 i n x Hfb1' gb_index ltac:(lia) eq_refl Hne (block_ok_blen _ Hvx) Eb0) as Ha2.
    eexists _, (<[fb1 := (i, Some n)]> own1), A1. split_and!; [exact Hr3|congruence|lia|done|done| |].
    + replace (fb + need (Z.of_nat (length cs))) with (fb1 + 1) by lia. exact Ha2.
    + pose proof (am_fresh Ha1 ltac:(lia)) as Hfr. cbn [fst]. split.
      * etrans; [exact Hsub|by apply insert_subseteq].
      * apply lookup_insert_eq.
      * intros b k [[<- <-]|[_ Hb]]%lookup_insert_Some; [right; by left|]. destruct (Hnew _ _ Hb); [by left|right; by right].
      * intros _. rewrite upd_ne by (intros ->; congruence). apply (am_zero _ _ _ _ _ Ha1). lia.
      * intros b j m Hb. apply upd_ne. intros ->. pose proof (lookup_weaken _ _ _ _ Hb Hsub). congruence.
      * split; [by right|]. intros _. exists x. rewrite lookup_insert_ne; [done|]. intros ->. congruence.
      * intros k Hk. apply upd_ne. lia.
      * intros k. destruct (decide (k = x)) as [->|]; [rewrite upd_eq; apply put32_ok; [done|lia..]|rewrite upd_ne by done; apply Hct].
  - destruct gb_there as [Ht Hb0]; [done|]. rewrite (proj2 (Z.eqb_neq _ 0)) by done. ksteps. split; [done|]. rewrite <- Eg, Eb.
    assert (0 <= if Z.of_nat (length cs) =? NDIRECT * BSIZE then 1 else 0) by (case_match; lia). pose proof (am_own_range Ha _ _ Ht) as Htr. rewrite xint_id by (unfold FSSIZE in *; lia).
    exists V, own1, A1. split_and!; try done; [lia| |].
    + by replace (fb + need (Z.of_nat (length cs))) with (freeblock s1) by lia.
    + cbn [fst]. split; try done; [by eapply lookup_weaken| |congruence| |apply Hct].
      * intros b k Hb. destruct (Hnew _ _ Hb); [by left|right; by right].
      * split; [by right|]. intros _. by exists x.
Qed.
End get_block.
