(* ===== verification/MkfsRun.v ===== *)
(** * mkfs: the functions that build the image

    [minv] describes the image between the calls of [main]: file [i] has
    inode number [i + 1], and [C] lists the types and contents of the files. *)
From stdpp Require Import functions.
From S2P Require Import Prelude Kmonad Riscv Mem Block Sleeplock Log FsLayout Fs Tx FsBlock FsFormat FsInode FsRead FsBmap Mkfs MkfsMap MkfsSpec.

Implicit Types (V : Z -> block) (fb b n x : Z) (i j : nat) (A : nat -> list Z) (own : gmap Z (nat * option Z)) (a : list Z) (C : list (Z * list Z)) (s : mk).

(** ** How many blocks files take *)

Definition blocks_of (len : Z) : Z := (len + BSIZE - 1) / BSIZE + (if NDIRECT * BSIZE <? len then 1 else 0).
Definition total C : Z := foldr (fun f t => blocks_of (Z.of_nat (length (snd f))) + t) 0 C.

Lemma blocks_grow len d : 0 <= len -> 0 < d -> len + d <= (len / BSIZE + 1) * BSIZE -> blocks_of (len + d) = blocks_of len + need len.
Proof. intros. unfold blocks_of, need, NDIRECT. change BSIZE with 1024 in *. repeat case_match; zlia. Qed.
Lemma blocks_mono len len' : 0 <= len <= len' -> 0 <= blocks_of len <= blocks_of len'.
Proof. intros. unfold blocks_of, NDIRECT. change BSIZE with 1024 in *. repeat case_match; zlia. Qed.

Lemma total_app C C' : total (C ++ C') = total C + total C'.
Proof. induction C as [|x C IH]; cbn; [done|]. unfold total in *. lia. Qed.
Lemma total_insert C i f g : C !! i = Some f -> total (<[i := g]> C) = total C - blocks_of (Z.of_nat (length (snd f))) + blocks_of (Z.of_nat (length (snd g))).
Proof.
  intros Hx. rewrite <- (take_drop_middle C i f Hx) at 2. rewrite insert_take_drop by (by eapply lookup_lt_Some). rewrite !total_app. cbn. unfold total. lia.
Qed.

Lemma total_nonneg C : 0 <= total C.
Proof.
  induction C as [|f C IH]; cbn; [done|]. pose proof (blocks_mono (Z.of_nat (length (snd f))) _ ltac:(split; [lia|reflexivity])). unfold total in IH. lia.
Qed.

(** ** The super block *)

Lemma main_sb_ok : sb_ok main_sb 2.
Proof. by split; vm_compute. Qed.
Lemma data_start_val : data_start main_sb = nmeta.
Proof. reflexivity. Qed.
Lemma IBLOCK_main k : is_inum main_sb k -> 33 <= IBLOCK k main_sb < 46.
Proof. intros Hk. destruct (IBLOCK_range 2 main_sb main_sb_ok k Hk) as (_ & H & _). exact H. Qed.

Record minv s V A own C : Prop := {
  mi_repr : repr s V;
  mi_map : amap V (freeblock s) (length C) A own;
  mi_cont : cont V C own;
  mi_next : freeinode s = Z.of_nat (length C) + 1 /\ Z.of_nat (length C) < NINODES;
  mi_fb : freeblock s = nmeta + total C;
  mi_inodes : forall i ty c, C !! i = Some (ty, c) -> dinode_at main_sb V (Z.of_nat i + 1) = Dinode ty 0 0 1 (Z.of_nat (length c)) (A i);
  mi_types : forall i ty c, C !! i = Some (ty, c) -> 0 <= ty < 2 ^ 15;
  mi_noinodes : forall k, is_inum main_sb k -> k = 0 \/ Z.of_nat (length C) < k -> dinode_at main_sb V k = zdinode;
  mi_meta : forall k, 0 <= k < 33 \/ k = 46 -> V k = if decide (k = 1) then put_sb main_sb zblock else zblock;
}.

Lemma amap_meta V V' fb N A own : nmeta <= fb -> (forall k, nmeta <= k -> V' k = V k) -> amap V fb N A own -> amap V' fb N A own.
Proof.
  intros Hfb E Ha. pose proof Ha as [H1 H2 H3 H4 H5 H6]. assert (forall i n, (i < N)%nat -> baddr V' (A i) n = baddr V (A i) n) as Eb.
  { intros i n Hi. unfold baddr. destruct (n <? NDIRECT); [done|]. change (Z.to_nat NDIRECT) with 12%nat. destruct (ind_range Ha i Hi) as [->|Hr]; [done|]. rewrite E by lia. done. }
  split; try done.
  - intros i n b Hi. rewrite Eb by done. by apply H2.
  - intros b Hb. rewrite E by lia. by apply H6.
Qed.

Lemma cont_meta V V' fb N A C own : (forall k, nmeta <= k -> V' k = V k) -> (forall k, block_ok (V' k)) -> amap V fb N A own -> cont V C own -> cont V' C own.
Proof.
  intros E Hok Ha [K1 K2 K3 K4 K5]. split; try done. intros b i n ty c Hb Hc. pose proof (am_own_range Ha _ _ Hb). rewrite E by lia. by eapply K1.
Qed.

Lemma winode_ok s V k di Q c : repr s V -> is_inum main_sb k ->
  (forall s', repr s' (v_inode main_sb V k di) -> freeinode s' = freeinode s -> freeblock s' = freeblock s -> Q tt c s') -> wp (winode k di) Q c s.
Proof.
  intros Hr Hk HQ. pose proof (IBLOCK_main k Hk). unfold winode. kstep. kstep. rewrite (rp_sb _ _ Hr). kstep. eapply rsect_ok; [done|unfold FSSIZE; lia|]. eapply wsect_ok; [done|unfold FSSIZE; lia|]. exact HQ.
Qed.

Lemma rinode_ok s V k Q c : repr s V -> is_inum main_sb k -> Q (dinode_at main_sb V k) c s -> wp (rinode k) Q c s.
Proof.
  intros Hr Hk HQ. pose proof (IBLOCK_main k Hk). unfold rinode. kstep. kstep. rewrite (rp_sb _ _ Hr). kstep. eapply rsect_ok; [done|unfold FSSIZE; lia|]. by ksteps.
Qed.

(** Writing an inode touches only the inode blocks. *)
Lemma v_inode_other V k di m : is_inum main_sb k -> ~ 33 <= m < 46 -> v_inode main_sb V k di m = V m.
Proof. intros Hk Hm. pose proof (IBLOCK_main k Hk). unfold v_inode. apply upd_ne. lia. Qed.
Lemma v_inode_block_ok V k di m : (forall m, block_ok (V m)) -> length (d_addrs di) = 13%nat -> block_ok (v_inode main_sb V k di m).
Proof.
  intros HV Hl. destruct (dip_range k). unfold v_inode. destruct (decide (m = IBLOCK k main_sb)) as [->|Hne]; [rewrite upd_eq|rewrite upd_ne by done; apply HV]. by apply put_dinode_ok.
Qed.

Lemma addrs_words V fb N A own i : amap V fb N A own -> fb <= FSSIZE -> (i < N)%nat -> length (A i) = 13%nat /\ Forall (fun x => 0 <= x < 2 ^ 32) (A i).
Proof.
  intros Ha Hfb Hi. split; [by apply (am_len _ _ _ _ _ Ha)|]. pose proof nmeta_val. eapply Forall_impl; [by apply (addrs_range Ha)|]. intros y [->|Hy]; unfold FSSIZE in *; lia.
Qed.

(** ** iappend *)

Record appending s0 V0 A0 C0 i (ty : Z) (c done : list Z) s V A own : Prop := {
  ap_repr : repr s V;
  ap_map : amap V (freeblock s) (length C0) A own;
  ap_cont : cont V (<[i := (ty, c ++ done)]> C0) own;
  ap_next : freeinode s = freeinode s0;
  ap_fb : freeblock s = nmeta + total (<[i := (ty, c ++ done)]> C0);
  ap_meta : forall k, k < nmeta -> V k = V0 k;
  ap_others : forall j, j <> i -> A j = A0 j;
}.

(** One turn of the loop appends [d], which fits into the block at the end of the file. *)
Lemma append_turn s0 V0 A0 C0 i ty c dn s V A own din d c0 n :
  appending s0 V0 A0 C0 i ty c dn s V A own -> C0 !! i = Some (ty, c) -> d <> [] -> Forall byte d ->
  n = Z.of_nat (length (c ++ dn)) / BSIZE -> n < MAXFILE -> Z.of_nat (length (c ++ dn) + length d) <= (n + 1) * BSIZE ->
  nmeta + total (<[i := (ty, c ++ dn ++ d)]> C0) <= FSSIZE -> d_addrs din = A i ->
  wp (if n <? NDIRECT then iappend_direct n din else iappend_indirect n din) (fun r c' s1 => c' = c0 /\
    exists V1 own1 A1, snd r = with_addrs (A1 i) din /\ repr s1 V1 /\ 0 <= fst r < FSSIZE /\
      forall s2, repr s2 (upd V1 (fst r) (putb (Z.of_nat (length (c ++ dn)) - n * BSIZE) d (V1 (fst r)))) -> freeinode s2 = freeinode s1 -> freeblock s2 = freeblock s1 ->
        appending s0 V0 A0 C0 i ty c (dn ++ d) s2 (upd V1 (fst r) (putb (Z.of_nat (length (c ++ dn)) - n * BSIZE) d (V1 (fst r)))) A1 own1) c0 s.
Proof.
  intros [Hr Hm Hct Hnx Hfb Hmeta Hoth] Hc Hd Hbd En Hmax Hfit Hroom Hdin. pose proof (lookup_lt_Some _ _ _ Hc) as Hi. set (C := <[i := (ty, c ++ dn)]> C0) in *.
  assert (C !! i = Some (ty, c ++ dn)) as HC by (by apply list_lookup_insert_eq). assert (length C = length C0) as EC by apply length_insert. rewrite <- EC in Hm.
  assert (0 < Z.of_nat (length d)) as Hd0 by (destruct d; [done|cbn; lia]). set (len := Z.of_nat (length (c ++ dn))) in *.
  assert (total (<[i := (ty, c ++ dn ++ d)]> C0) = total C + need len) as Et.
  { unfold C. rewrite !(total_insert _ _ _ _ Hc). cbn [snd]. rewrite app_assoc, length_app, Nat2Z.inj_add. fold len. rewrite blocks_grow; [lia|lia|lia|]. rewrite <- En. lia. }
  pose proof (total_nonneg C) as Ht0.
  assert (wp (if n <? NDIRECT then iappend_direct n din else iappend_indirect n din) (fun r c' s' => c' = c0 /\ got_block V (freeblock s + need len) (length C) A own i n din s r s') c0 s) as Hw.
  { destruct (Z.ltb_spec n NDIRECT); [apply (direct_ok (ty := ty) (cs := c ++ dn))|apply (indirect_ok (ty := ty) (cs := c ++ dn))]; done || (fold len; lia). }
  eapply wp_mono; [exact Hw|]. cbn beta. intros [x din'] c' s1 (-> & V1 & own1 & A1 & Hr1 & Hfi1 & Hfb1 & -> & HA1 & Ha1 & Hg). cbn [fst snd] in *. split; [done|]. exists V1, own1, A1.
  pose proof (am_own_range Ha1 _ _ (gr_x _ _ _ _ _ _ _ Hg)) as Hx. pose proof nmeta_val. split_and!; [done|done|lia|lia|]. intros s2 Hr2 Hfi2 Hfb2. split.
  - done.
  - rewrite Hfb2, Hfb1, <- EC. eapply am_data; [exact Ha1|]. apply Hg.
  - rewrite app_assoc. pose proof (grow V C own V1 _ A1 own1 x i n ty (c ++ dn) d Hct HC En Hmax Hd Hbd Hfit Hg Ha1) as Hgr. unfold C in Hgr. by rewrite list_insert_insert_eq in Hgr.
  - congruence.
  - rewrite Hfb2, Hfb1, Et. lia.
  - intros k Hk. rewrite upd_ne by lia. rewrite (gr_meta _ _ _ _ _ _ _ Hg) by done. by apply Hmeta.
  - intros j Hj. rewrite HA1 by done. by apply Hoth.
Qed.

Lemma total_grow C i ty c p q : C !! i = Some (ty, c) -> (length p <= length q)%nat -> total (<[i := (ty, c ++ p)]> C) <= total (<[i := (ty, c ++ q)]> C).
Proof.
  intros Hc Hl. rewrite !(total_insert _ _ _ _ Hc). cbn [snd]. pose proof (blocks_mono (Z.of_nat (length (c ++ p))) (Z.of_nat (length (c ++ q)))) as H. rewrite !length_app in *. lia.
Qed.

Lemma append_loop_ok s V A own C i ty c p din c0 :
  minv s V A own C -> C !! i = Some (ty, c) -> Forall byte p -> Z.of_nat (length (c ++ p)) <= MAXFILE * BSIZE ->
  nmeta + total (<[i := (ty, c ++ p)]> C) <= FSSIZE -> d_addrs din = A i ->
  wp (iappend_loop p (Z.of_nat (length c)) din) (fun r c' s' => c' = c0 /\ exists V' A' own', r = (Z.of_nat (length (c ++ p)), with_addrs (A' i) din) /\ appending s V A C i ty c p s' V' A' own') c0 s.
Proof.
  intros Hm Hc Hbp Hmax Hroom Hdin. unfold iappend_loop. pose proof MAXFILE_val as EM. assert (BSIZE = 1024) as EB by done. rewrite length_app in Hmax.
  apply wp_loop with (I := fun k '(q, off, din') c' s' => c' = c0 /\ (length q < k)%nat /\ exists dn V' A' own', p = dn ++ q /\ off = Z.of_nat (length (c ++ dn)) /\
    din' = with_addrs (A' i) din /\ appending s V A C i ty c dn s' V' A' own').
  2: { split; [done|]. split; [lia|]. exists [], V, A, own. rewrite app_nil_r. split_and!; try done; [rewrite <- Hdin; by destruct din|]. destruct Hm as [M1 M2 M3 M4 M5 M6 M7 M8 M9]. split; rewrite ?app_nil_r, ?list_insert_id by done; done. }
  intros k [[q off] din'] c' s' (-> & Hk & dn & V' & A' & own' & -> & -> & -> & Hap). destruct k as [|k]; [lia|]. exists k. split; [done|]. destruct (Z.ltb_spec 0 (Z.of_nat (length q))) as [Hq|Hq].
  - set (len := Z.of_nat (length (c ++ dn))). set (n := len / BSIZE). rewrite length_app in Hmax. assert (0 <= len /\ len + Z.of_nat (length q) <= 268 * 1024) as [Hl0 Hl] by (unfold len; rewrite length_app; lia).
    assert (n < MAXFILE) as Hn by (unfold n; rewrite EB; zlia). rewrite (proj2 (Z.ltb_lt n MAXFILE)) by done.
    assert (u32 (u32 ((n + 1) * BSIZE) - len) = (n + 1) * BSIZE - len /\ 0 < (n + 1) * BSIZE - len) as [En Hpos].
    { unfold n. rewrite EB. rewrite (u32_id ((len / 1024 + 1) * 1024)) by zlia. split; [apply u32_id|]; zlia. }
    rewrite En. set (n1 := Z.min _ _). set (d := take (Z.to_nat n1) q). assert (Z.of_nat (length d) = n1) as Ed by (unfold d; rewrite length_take; lia).
    kstep. eapply wp_mono; [apply (append_turn s V A C i ty c dn s' V' A' own' (with_addrs (A' i) din) d c0 n Hap Hc)|].
    + intros E. rewrite E in Ed. cbn in Ed. lia.
    + apply Forall_app in Hbp as [_ Hbq]. by apply Forall_take.
    + done.
    + done.
    + fold len. lia.
    + pose proof (total_grow C i ty c (dn ++ d) (dn ++ q) Hc) as Ht. rewrite !length_app in Ht. unfold d in Ht at 1. rewrite length_take in Ht. lia.
    + done.
    + cbn beta. intros [x din1] c1 s1 (-> & V1 & own1 & A1 & Edin & Hr1 & Hx & Hnext). cbn [fst snd] in *. kstep. eapply rsect_ok; [exact Hr1|done|]. kstep. eapply wsect_ok; [exact Hr1|done|]. intros s2 Hr2 Hfi2 Hfb2. kstep.
      split; [done|]. split; [rewrite length_drop; lia|]. exists (dn ++ d), (upd V1 x (putb (len - n * BSIZE) d (V1 x))), A1, own1. split_and!.
      * rewrite <- app_assoc. unfold d. by rewrite take_drop.
      * rewrite u32_id by lia. rewrite app_assoc, (length_app (c ++ dn)), Nat2Z.inj_add. fold len. lia.
      * by rewrite Edin.
      * by apply Hnext.
  - destruct q; [|cbn in Hq; lia]. ksteps. split; [done|]. exists V', A', own'. by rewrite app_nil_r in *.
Qed.

Lemma iappend_ok s V A own C i ty c p c0 :
  minv s V A own C -> C !! i = Some (ty, c) -> Forall byte p -> Z.of_nat (length (c ++ p)) <= MAXFILE * BSIZE -> nmeta + total (<[i := (ty, c ++ p)]> C) <= FSSIZE ->
  wp (iappend (Z.of_nat i + 1) p) (fun _ c' s' => c' = c0 /\ exists V' A' own', minv s' V' A' own' (<[i := (ty, c ++ p)]> C)) c0 s.
Proof.
  intros Hm Hc Hbp Hmax Hroom. pose proof (lookup_lt_Some _ _ _ Hc) as Hi. destruct (mi_next _ _ _ _ _ Hm) as [Hnx Hlt]. assert (is_inum main_sb (Z.of_nat i + 1)) as Hin by (split; [lia|change (sb_ninodes main_sb) with NINODES; lia]).
  assert (MAXFILE * BSIZE = 274432) as EMB by done. unfold iappend. kstep. eapply rinode_ok; [apply Hm|done|]. rewrite (mi_inodes _ _ _ _ _ Hm i ty c Hc). cbn [d_size]. rewrite length_app in Hmax. rewrite xint_id by lia.
  kstep. eapply wp_mono; [apply (append_loop_ok s V A own C i ty c p); try done; by rewrite length_app|]. cbn beta. intros r c' s1 (-> & V1 & A1 & own1 & -> & [Q1 Q2 Q3 Q4 Q5 Q6 Q7]). cbn [fst snd].
  rewrite xint_id by (rewrite length_app; lia). eapply winode_ok; [exact Q1|done|]. intros s2 Hr2 Hfi2 Hfb2. split; [done|]. set (di := Dinode ty 0 0 1 (Z.of_nat (length (c ++ p))) (A1 i)) in *. change (set_size _ _) with di in Hr2.
  pose proof nmeta_val. assert (nmeta <= freeblock s1 <= FSSIZE) as Hfb1. { rewrite Q5. split; [|done]. pose proof (total_nonneg (<[i := (ty, c ++ p)]> C)). lia. }
  destruct (addrs_words _ _ _ _ _ i Q2 ltac:(lia) Hi) as [Hal Haw]. assert (dinode_ok di) as Hdi.
  { pose proof (mi_types _ _ _ _ _ Hm i ty c Hc). split; cbn [di d_type d_major d_minor d_nlink d_size d_addrs]; unfold is_short; try lia; [rewrite length_app; lia|done]. }
  assert (forall k, ~ 33 <= k < 46 -> v_inode main_sb V1 (Z.of_nat i + 1) di k = V1 k) as Ev by (intros k Hk; by apply v_inode_other). assert (forall k, block_ok (v_inode main_sb V1 (Z.of_nat i + 1) di k)) as Hok by (intros k; apply v_inode_block_ok; [apply Q3|done]).
  exists (v_inode main_sb V1 (Z.of_nat i + 1) di), A1, own1. split; rewrite ?length_insert, ?Hfb2; try done.
  - eapply amap_meta; [lia| |exact Q2]. intros k Hk. apply Ev. lia.
  - eapply cont_meta; [|done|exact Q2|exact Q3]. intros k Hk. apply Ev. lia.
  - split; [congruence|done].
  - intros j ty' c' Hj. pose proof (lookup_lt_Some _ _ _ Hj) as Hjl. rewrite length_insert in Hjl. rewrite (dinode_at_update 2 main_sb main_sb_ok); [|apply Q3|done|split; [lia|change (sb_ninodes main_sb) with NINODES; lia]|done].
    destruct (decide (j = i)) as [->|Hne].
    + rewrite list_lookup_insert_eq in Hj by done. injection Hj as <- <-. by rewrite decide_True.
    + rewrite decide_False by lia. rewrite list_lookup_insert_ne in Hj by done. unfold dinode_at. rewrite Q6, Q7 by (done || (pose proof (IBLOCK_main (Z.of_nat j + 1) ltac:(split; [lia|change (sb_ninodes main_sb) with NINODES; lia])); lia)). by apply (mi_inodes _ _ _ _ _ Hm).
  - intros j ty' c' Hj. destruct (decide (j = i)) as [->|Hne]; [rewrite list_lookup_insert_eq in Hj by done; injection Hj as <- <-|rewrite list_lookup_insert_ne in Hj by done]; by eapply (mi_types _ _ _ _ _ Hm).
  - intros k Hk Hfree. rewrite (dinode_at_update 2 main_sb main_sb_ok); [|apply Q3|done|done|done]. rewrite decide_False by lia. unfold dinode_at. rewrite Q6 by (pose proof (IBLOCK_main k Hk); lia). by apply (mi_noinodes _ _ _ _ _ Hm).
  - intros k Hk. rewrite Ev by lia. rewrite Q6 by lia. by apply (mi_meta _ _ _ _ _ Hm).
Qed.

(** ** ialloc *)

Lemma replicate_total (k m : nat) (x : Z) : (k < m)%nat -> replicate m x !!! k = x.
Proof. intros Hk. by rewrite lookup_total_replicate_2. Qed.

Lemma amap_new V fb (N : nat) A own : amap V fb N A own -> amap V fb (S N) (<[N := replicate 13 0]> A) own.
Proof.
  intros [H1 H2 H3 H4 H5 H6]. assert (forall n, 0 <= n < MAXFILE -> baddr V (replicate 13 0) n = 0) as Ez.
  { intros n Hn. unfold baddr. destruct (Z.ltb_spec n NDIRECT); [|done]. apply replicate_total. unfold NDIRECT in *. lia. }
  assert (forall i, (i < N)%nat -> (<[N := replicate 13 0]> A : nat -> list Z) i = A i) as Eo by (intros i Hi; apply fn_lookup_insert_ne; lia).
  assert (forall i, (i < S N)%nat -> (i < N)%nat \/ i = N) as Hcase by lia. split; try done.
  - intros i [Hi| ->]%Hcase; [rewrite Eo by done; by apply H1|by rewrite fn_lookup_insert].
  - intros i n b [Hi| ->]%Hcase Hn Hb; [rewrite Eo by done; by apply H2|]. rewrite fn_lookup_insert, Ez by done. split; [congruence|]. intros Hc%H5. lia.
  - intros i b [Hi| ->]%Hcase Hb; [rewrite Eo by done; by apply H3|]. rewrite fn_lookup_insert, replicate_total by lia. split; [congruence|]. intros Hc%H5. lia.
  - intros b i k [Hi Hk]%H5. split; [lia|done].
Qed.

Lemma cont_new V C own ty : (forall b i k, own !! b = Some (i, k) -> (i < length C)%nat) -> cont V C own -> cont V (C ++ [(ty, [])]) own.
Proof.
  intros Hown [K1 K2 K3 K4 K5]. assert (forall i ty' c, (C ++ [(ty, [])]) !! i = Some (ty', c) -> C !! i = Some (ty', c) \/ i = length C /\ c = []) as Hcase.
  { intros i ty' c [H|[Hl H]]%lookup_app_Some; [by left|right]. apply list_lookup_singleton_Some in H as [Hz [= _ <-]]. split; [lia|done]. }
  assert (forall b i k, own !! b = Some (i, k) -> i <> length C) as Hne by (intros b i k Hb ->; specialize (Hown _ _ _ Hb); lia). split; try done.
  - intros b i n ty' c Hb [Hc|[-> ->]]%Hcase; [by eapply K1|]. by apply Hne in Hb.
  - intros i ty' c n [Hc|[-> ->]]%Hcase Hn Hlt; [by eapply K2|]. unfold BSIZE in Hlt. cbn in Hlt. lia.
  - intros i ty' c [Hc|[-> ->]]%Hcase; [by eapply K3|]. split; [intros [b Hb]; by apply Hne in Hb|]. unfold NDIRECT, BSIZE. cbn. lia.
  - intros i ty' c [Hc|[-> ->]]%Hcase; [by eapply K4|]. split; [by vm_compute|constructor].
Qed.

Lemma ialloc_ok s V A own C type c : minv s V A own C -> Z.of_nat (length C) + 1 < NINODES -> 0 <= type < 2 ^ 15 -> freeblock s <= FSSIZE ->
  wp (mkfs_ialloc type) (fun r c' s' => r = Z.of_nat (length C) + 1 /\ c' = c /\ exists V' A', minv s' V' A' own (C ++ [(type, [])])) c s.
Proof.
  intros Hm Hlt Hty Hfs. destruct (mi_next _ _ _ _ _ Hm) as [Hnx _]. assert (is_inum main_sb (Z.of_nat (length C) + 1)) as Hin by (split; [lia|exact Hlt]). unfold mkfs_ialloc. kstep. kstep. kstep. kstep. rewrite Hnx.
  rewrite !xshort_id, xint_id by lia. change (i16 1) with 1. replace (i16 type) with type by (unfold i16; zlia). set (di := Dinode type 0 0 1 0 (d_addrs zdinode)). pose proof nmeta_val as Enm. pose proof (total_nonneg C).
  kstep. eapply (winode_ok _ V); [destruct (mi_repr _ _ _ _ _ Hm); by split|done|]. intros s1 Hr1 Hfi1 Hfb1. cbn [set_freeinode freeinode freeblock] in *. rewrite u32_id in Hfi1 by (unfold NINODES in *; lia). ksteps. split; [done|]. split; [done|].
  assert (dinode_ok di) as Hdi. { split; cbn [di d_type d_major d_minor d_nlink d_size d_addrs zdinode]; unfold is_short; try lia. split; [done|]. apply Forall_replicate. lia. }
  assert (forall k, ~ 33 <= k < 46 -> v_inode main_sb V (Z.of_nat (length C) + 1) di k = V k) as Ev by (intros k Hk; by apply v_inode_other).
  assert (forall k, block_ok (v_inode main_sb V (Z.of_nat (length C) + 1) di k)) as Hok by (intros k; apply v_inode_block_ok; [apply Hm|done]). pose proof (mi_fb _ _ _ _ _ Hm) as Hfb.
  exists (v_inode main_sb V (Z.of_nat (length C) + 1) di), (<[length C := replicate 13 0]> A). split.
  - done.
  - rewrite Hfb1, length_app, Nat.add_1_r. eapply amap_meta; [lia| |apply amap_new, Hm]. intros k Hk. apply Ev. lia.
  - eapply cont_meta; [|done|apply Hm|apply cont_new; [|apply Hm]]; [intros k Hk; apply Ev; lia|]. intros b i k Hb. by apply (am_in _ _ _ _ _ (mi_map _ _ _ _ _ Hm) _ _ _ Hb).
  - rewrite length_app. cbn. split; [lia|lia].
  - rewrite Hfb1, total_app, Hfb. change (total [(type, [])]) with 0. lia.
  - intros i ty' c' Hi. pose proof (lookup_lt_Some _ _ _ Hi) as Hil. rewrite length_app in Hil. cbn in Hil. rewrite (dinode_at_update 2 main_sb main_sb_ok); [|apply Hm|done|split; [lia|change (sb_ninodes main_sb) with NINODES; lia]|done].
    apply lookup_app_Some in Hi as [Hi|[Hl Hi]].
    + apply lookup_lt_Some in Hi as Hi'. rewrite decide_False by lia. rewrite fn_lookup_insert_ne by lia. by apply (mi_inodes _ _ _ _ _ Hm).
    + apply list_lookup_singleton_Some in Hi as [Hz [= <- <-]]. assert (i = length C) as -> by lia. rewrite decide_True by done. by rewrite fn_lookup_insert.
  - intros i ty' c' [Hi|[_ Hi]]%lookup_app_Some; [by eapply (mi_types _ _ _ _ _ Hm)|]. apply list_lookup_singleton_Some in Hi as [_ [= <- <-]]. done.
  - intros k Hk Hfree. rewrite length_app in Hfree. cbn in Hfree. rewrite (dinode_at_update 2 main_sb main_sb_ok); [|apply Hm|done|done|done]. rewrite decide_False by lia. apply (mi_noinodes _ _ _ _ _ Hm); [done|]. lia.
  - intros k Hk. rewrite Ev by lia. by apply (mi_meta _ _ _ _ _ Hm).
Qed.
