(* ===== verification/MkfsImage.v ===== *)
(** * The image that mkfs builds

    What [main] of mkfs.c leaves on the disk, in the terms of the theorems on
    fs.c: the kernel finds the files given on the command line in the root
    directory, with their contents. *)
From stdpp Require Import functions.
From S2P Require Import Prelude Kmonad Riscv Mem Block Sleeplock Bio Log FsLayout Fs FsDir Tx FsBlock FsFormat FsInode FsRead FsBmap FsFile Mkfs MkfsMap MkfsSpec MkfsRun.

Implicit Types (V : Z -> block) (i j : nat) (A : nat -> list Z) (own : gmap Z (nat * option Z)) (C : list (Z * list Z)) (s : mk).

(** ** The files *)

Definition arg_name (a : arg) : list Z := skip_underscore (shortname (a_path a)).
Definition file_bytes (a : arg) : list Z := concat (default [] (a_open a)).
Definition dir_bytes (argv : list arg) : list Z :=
  dirent_bytes 1 [46] ++ dirent_bytes 1 [46; 46] ++ concat (imap (fun k a => dirent_bytes (Z.of_nat k + 2) (arg_name a)) argv).
Definition image_files (argv : list arg) : list (Z * list Z) := (T_DIR, dir_bytes argv) :: ((fun a => (T_FILE, file_bytes a)) <$> argv).

(** A file that mkfs accepts: it can be opened, its name fits, and so does its contents. *)
Record arg_ok (a : arg) : Prop := {
  ao_slash : slash ∉ shortname (a_path a);
  ao_name : Z.of_nat (length (arg_name a)) <= DIRSIZ;
  ao_open : is_Some (a_open a);
  ao_size : Z.of_nat (length (file_bytes a)) <= MAXFILE * BSIZE;
  ao_bytes : Forall byte (a_path a) /\ Forall byte (file_bytes a);
}.

(** [C] is an earlier stage of [C']. *)
Definition below C C' : Prop := forall i f, C !! i = Some f -> exists f', C' !! i = Some f' /\ (length (snd f) <= length (snd f'))%nat.

Lemma total_below C C' : below C C' -> total C <= total C'.
Proof.
  revert C'. induction C as [|f C IH]; intros C' Hb; [apply total_nonneg|]. destruct C' as [|f' C']; [by destruct (Hb 0%nat f eq_refl) as (? & ? & _)|].
  destruct (Hb 0%nat f eq_refl) as (? & [= <-] & Hl). specialize (IH C' (fun i g Hg => Hb (S i) g Hg)). cbn. pose proof (blocks_mono (Z.of_nat (length (snd f))) (Z.of_nat (length (snd f')))). unfold total in IH. lia.
Qed.

Lemma strncpy_l_length n t : length (strncpy_l n t) = n.
Proof. revert t. induction n as [|n IH]; intros t; [done|]. cbn [strncpy_l]. case_match; [apply length_replicate|]. cbn. by rewrite IH. Qed.
Lemma strncpy_l_bytes n t : Forall byte t -> Forall byte (strncpy_l n t).
Proof.
  revert t. induction n as [|n IH]; intros t Ht; [constructor|]. cbn [strncpy_l]. case_match; [apply Forall_replicate; unfold byte; lia|].
  destruct t as [|x t]; [done|]. apply Forall_cons in Ht as [Hx Ht]. constructor; [done|by apply IH].
Qed.

Lemma dirent_bytes_eq k name : dirent_bytes k name = le_enc 2 (xshort k) ++ strncpy_l (Z.to_nat DIRSIZ) name.
Proof.
  unfold dirent_bytes, put_dirent, put16, putb. cbn [de_name de_inum]. rewrite strncpy_l_length, le_enc_length.
  generalize (le_enc_length 2 (xshort k)). generalize (le_enc 2 (xshort k)) (strncpy_l (Z.to_nat DIRSIZ) name). intros e l He.
  destruct e as [|e0 [|e1 [|]]]; try done. cbn. by rewrite app_nil_r.
Qed.
Lemma dirent_bytes_length k name : length (dirent_bytes k name) = 16%nat.
Proof. by rewrite dirent_bytes_eq, length_app, le_enc_length, strncpy_l_length. Qed.
Lemma dirent_bytes_ok k name : Forall byte name -> Forall byte (dirent_bytes k name).
Proof. intros Hn. rewrite dirent_bytes_eq. apply Forall_app. split; [apply le_enc_bytes|by apply strncpy_l_bytes]. Qed.

Lemma arg_name_bytes a : arg_ok a -> Forall byte (arg_name a).
Proof.
  intros [_ _ _ _ [Hp _]]. unfold arg_name, skip_underscore, shortname. assert (forall p : list Z, Forall byte p -> Forall byte (if hd 0 p =? underscore then tl p else p)) as H.
  { intros p Hp'. case_match; [|done]. destruct p; [done|]. by apply Forall_cons in Hp' as [_ ?]. }
  apply H. case_match; [by apply Forall_drop|done].
Qed.

Lemma dir_bytes_snoc argv a : dir_bytes (argv ++ [a]) = dir_bytes argv ++ dirent_bytes (Z.of_nat (length argv) + 2) (arg_name a).
Proof. unfold dir_bytes. rewrite imap_app, concat_app. cbn [imap concat]. rewrite app_nil_r, Nat.add_0_r, <- !app_assoc. done. Qed.
Lemma dir_bytes_length argv : length (dir_bytes argv) = (16 * (length argv + 2))%nat.
Proof.
  induction argv as [|a argv IH] using rev_ind; [by unfold dir_bytes; rewrite !length_app, !dirent_bytes_length|]. rewrite dir_bytes_snoc, !length_app, IH, dirent_bytes_length. cbn. lia.
Qed.
Lemma dir_bytes_ok argv : Forall arg_ok argv -> Forall byte (dir_bytes argv).
Proof.
  induction argv as [|a argv IH] using rev_ind; intros Hf.
  - unfold dir_bytes. rewrite app_nil_r. apply Forall_app. split; apply dirent_bytes_ok; repeat (constructor; [done|]); constructor.
  - apply Forall_app in Hf as [Hf [Ha _]%Forall_cons]. rewrite dir_bytes_snoc. apply Forall_app. split; [by apply IH|]. by apply dirent_bytes_ok, arg_name_bytes.
Qed.

Lemma image_files_length argv : length (image_files argv) = S (length argv).
Proof. unfold image_files. cbn. by rewrite length_fmap. Qed.

(** ** add_file *)

Lemma chunks_ok chunks : forall s V A own C i ty c0 c, minv s V A own C -> C !! i = Some (ty, c) -> Forall byte (concat chunks) -> Z.of_nat (length (c ++ concat chunks)) <= MAXFILE * BSIZE ->
  nmeta + total (<[i := (ty, c ++ concat chunks)]> C) <= FSSIZE ->
  wp (foldr (fun buf m => iappend (Z.of_nat i + 1) buf ;; m) skip chunks) (fun _ c' s' => c' = c0 /\ exists V' A' own', minv s' V' A' own' (<[i := (ty, c ++ concat chunks)]> C)) c0 s.
Proof.
  induction chunks as [|b chunks IH]; intros s V A own C i ty c0 c Hm Hc Hb Hl Ht; cbn [foldr concat] in *.
  - ksteps. split; [done|]. exists V, A, own. rewrite app_nil_r. by rewrite list_insert_id.
  - apply Forall_app in Hb as [Hb Hb']. rewrite app_assoc in *. pose proof (total_grow C i ty c b (b ++ concat chunks) Hc ltac:(rewrite length_app; lia)) as Hg. rewrite app_assoc in Hg.
    kstep. eapply wp_mono; [apply (iappend_ok s V A own C i ty c b c0 Hm Hc Hb); [rewrite length_app in Hl; lia|lia]|]. cbn beta. intros _ c' s' (-> & V1 & A1 & own1 & Hm1).
    pose proof (lookup_lt_Some _ _ _ Hc) as Hi. eapply wp_mono; [apply (IH s' V1 A1 own1 _ i ty c0 (c ++ b) Hm1); [by apply list_lookup_insert_eq|done|done|by rewrite list_insert_insert_eq]|].
    cbn beta. intros _ c'' s'' (-> & V2 & A2 & own2 & Hm2). split; [done|]. exists V2, A2, own2. by rewrite list_insert_insert_eq in Hm2.
Qed.

Lemma image_files_snoc argv a : image_files (argv ++ [a]) =
  <[length (image_files argv) := (T_FILE, file_bytes a)]> (<[0%nat := (T_DIR, dir_bytes (argv ++ [a]))]> (image_files argv ++ [(T_FILE, [])])).
Proof.
  unfold image_files. rewrite fmap_app. set (L := (fun a => (T_FILE, file_bytes a)) <$> argv).
  change ((T_DIR, dir_bytes (argv ++ [a])) :: L ++ [(T_FILE, file_bytes a)] = (T_DIR, dir_bytes (argv ++ [a])) :: <[length L := (T_FILE, file_bytes a)]> (L ++ [(T_FILE, [])])).
  rewrite insert_app_r_alt by done. by rewrite Nat.sub_diag.
Qed.

Lemma image_below argv argv' : below (image_files argv) (image_files (argv ++ argv')).
Proof.
  intros i f Hf. destruct i as [|i].
  - injection Hf as <-. eexists. split; [reflexivity|]. cbn [snd]. rewrite !dir_bytes_length, length_app. lia.
  - exists f. split; [|done]. change (((fun a => (T_FILE, file_bytes a)) <$> argv) !! i = Some f) in Hf. change (((fun a => (T_FILE, file_bytes a)) <$> argv ++ argv') !! i = Some f). rewrite fmap_app. by apply lookup_app_l_Some.
Qed.

Lemma add_file_ok s V A own argv a c : minv s V A own (image_files argv) -> arg_ok a -> Forall byte (dir_bytes (argv ++ [a])) -> Z.of_nat (length argv) + 2 < NINODES ->
  nmeta + total (image_files (argv ++ [a])) <= FSSIZE ->
  wp (add_file ROOTINO a) (fun _ c' s' => c' = c /\ exists V' A' own', minv s' V' A' own' (image_files (argv ++ [a]))) c s.
Proof.
  intros Hm [Hsl Hnm [chunks Hop] Hsz [Hpb Hfb]] Hdb Hlt Hroom. pose proof (image_files_length argv) as HL. unfold add_file. rewrite bool_decide_false by done. rewrite Hop. fold (arg_name a). rewrite (proj2 (Z.leb_le _ _)) by done.
  assert (file_bytes a = concat chunks) as Ef by (unfold file_bytes; by rewrite Hop). rewrite Ef in *. pose proof (total_below _ _ (image_below argv [a])) as Hbel.
  kstep. eapply wp_mono; [apply (ialloc_ok s V A own _ T_FILE c Hm); [lia|done|pose proof (mi_fb _ _ _ _ _ Hm); lia]|]. cbn beta. intros r c' s1 (-> & -> & V1 & A1 & Hm1). rewrite HL.
  rewrite image_files_snoc, HL, Ef in *. set (C1 := image_files argv ++ [(T_FILE, [])]) in *. assert (C1 !! 0%nat = Some (T_DIR, dir_bytes argv)) as H0 by done.
  rewrite dir_bytes_snoc in *. replace (Z.of_nat (S (length argv)) + 1) with (Z.of_nat (length argv) + 2) by lia. set (de := dirent_bytes _ _) in *. pose proof (dir_bytes_length argv) as Hdl.
  assert (length de = 16%nat) as Hde by apply dirent_bytes_length. set (C2 := <[0%nat := (T_DIR, dir_bytes argv ++ de)]> C1) in *. assert (length C1 = S (S (length argv))) as HC1 by (unfold C1; rewrite length_app, HL; cbn; lia).
  assert (C2 !! S (length argv) = Some (T_FILE, [])) as H1 by (unfold C2; rewrite list_lookup_insert_ne by done; unfold C1; rewrite lookup_app_r by lia; by rewrite HL, Nat.sub_diag).
  assert (total C2 <= total (<[S (length argv) := (T_FILE, concat chunks)]> C2)) as Ht2.
  { pose proof (total_grow C2 _ _ _ [] (concat chunks) H1) as H. cbn [app] in H. rewrite list_insert_id in H by done. apply H. cbn. lia. }
  kstep. eapply wp_mono; [apply (iappend_ok s1 V1 A1 own C1 0 T_DIR (dir_bytes argv) de c Hm1 H0)|].
  - by apply Forall_app in Hdb as [_ ?].
  - rewrite length_app. change (MAXFILE * BSIZE) with 274432. unfold NINODES in *. lia.
  - fold C2. lia.
  - cbn beta. intros _ c' s2 (-> & V2 & A2 & own2 & Hm2). fold C2 in Hm2. replace (Z.of_nat (length argv) + 2) with (Z.of_nat (S (length argv)) + 1) by lia. by apply (chunks_ok chunks s2 V2 A2 own2 C2 _ T_FILE c [] Hm2 H1).
Qed.

Lemma add_files_ok todo : forall s V A own argv c, minv s V A own (image_files argv) -> Forall arg_ok (argv ++ todo) -> Z.of_nat (length (argv ++ todo)) + 1 < NINODES ->
  nmeta + total (image_files (argv ++ todo)) <= FSSIZE ->
  wp (foldr (fun a m => add_file ROOTINO a ;; m) skip todo) (fun _ c' s' => c' = c /\ exists V' A' own', minv s' V' A' own' (image_files (argv ++ todo))) c s.
Proof.
  induction todo as [|a todo IH]; intros s V A own argv c Hm Hok Hlt Hroom; cbn [foldr].
  - ksteps. split; [done|]. exists V, A, own. by rewrite app_nil_r.
  - replace (argv ++ a :: todo) with ((argv ++ [a]) ++ todo) in * by (by rewrite <- app_assoc). pose proof Hok as [Hok1 _]%Forall_app. kstep. eapply wp_mono; [apply (add_file_ok s V A own argv a c Hm)|].
    + by apply Forall_app in Hok1 as [_ [? _]%Forall_cons].
    + by apply dir_bytes_ok.
    + rewrite !length_app in Hlt. cbn in Hlt. lia.
    + pose proof (total_below _ _ (image_below (argv ++ [a]) todo)). lia.
    + cbn beta. intros _ c' s' (-> & V' & A' & own' & Hm'). by apply (IH s' V' A' own' (argv ++ [a]) c).
Qed.

(** ** The empty image *)

Lemma zeros_ok n : forall (k : nat) s c, img s = replicate k zblock -> Z.of_nat (k + n) <= FSSIZE ->
  wp (foldr (fun i m => wsect (Z.of_nat i) zblock ;; m) skip (seq k n)) (fun _ c' s' => c' = c /\ s' = set_img (replicate (k + n) zblock) s) c s.
Proof.
  induction n as [|n IH]; intros k s c Hi Hk; cbn [seq foldr].
  - ksteps. split; [done|]. rewrite Nat.add_0_r, <- Hi. by destruct s.
  - kstep. unfold wsect. kstep. rewrite sect_val by lia. unfold put_sect. rewrite Hi, length_replicate, Nat2Z.id. rewrite (proj2 (Nat.ltb_ge _ _)) by done. rewrite Nat.sub_diag. cbn [replicate app].
    eapply wp_mono; [apply (IH (S k)); [cbn [set_img img]; by rewrite replicate_S_end|lia]|]. cbn beta. intros _ c' s' [-> ->]. split; [done|]. cbn. by rewrite Nat.add_succ_r.
Qed.

Lemma le_dec_zblock n off : le_dec (getb n off zblock) = 0.
Proof.
  unfold getb. Transparent zblock. unfold zblock. Opaque zblock. rewrite drop_replicate, take_replicate. generalize (Z.to_nat n `min` (Z.to_nat BSIZE - Z.to_nat off))%nat. intros m. induction m as [|m IH]; [done|]. cbn [replicate le_dec]. by rewrite IH.
Qed.
Lemma dinode_zero V k : V (IBLOCK k main_sb) = zblock -> dinode_at main_sb V k = zdinode.
Proof. intros E. unfold dinode_at, get_dinode, get16. rewrite E, !le_dec_zblock. cbn [get_words]. by rewrite !get32_zblock. Qed.

Definition sb_block : block := put_sb main_sb zblock.
Lemma sb_block_ok : block_ok sb_block.
Proof. apply put_words_ok; [apply zblock_ok|done|by vm_compute]. Qed.

Lemma empty_minv s : repr s (upd (fun _ => zblock) 1 sb_block) -> freeinode s = 1 -> freeblock s = nmeta -> minv s (upd (fun _ => zblock) 1 sb_block) (fun _ => []) ∅ [].
Proof.
  intros Hr Hfi Hfb. pose proof nmeta_val. split; rewrite ?Hfb; try done.
  - split; cbn; try lia.
    + intros b. rewrite lookup_empty. split; [by intros [? ?]|lia].
    + intros b i k Hb. by rewrite lookup_empty in Hb.
    + intros b Hb. by rewrite upd_ne by lia.
  - split; try (intros; by rewrite lookup_empty in * || done).
    intros k. destruct (decide (k = 1)) as [->|]; [rewrite upd_eq; apply sb_block_ok|rewrite upd_ne by done; apply zblock_ok].
  - intros k Hk _. apply dinode_zero. rewrite upd_ne; [done|]. pose proof (IBLOCK_main k Hk). lia.
Qed.

(** ** The bit map *)

Lemma bitmap_of_ok n : 0 <= n <= BPB -> block_ok (bitmap_of n) /\ forall k, 0 <= k < BPB -> blkbit (bitmap_of n) k = (k <? n).
Proof.
  intros Hn. rewrite <- (Z2Nat.id n) in Hn |- * by lia. unfold bitmap_of. rewrite Nat2Z.id. induction (Z.to_nat n) as [|m IH]; [cbn [seq foldl]|].
  - split; [apply zblock_ok|]. intros j Hj. unfold blkbit, get8. rewrite le_dec_zblock, Z.bits_0. symmetry. apply Z.ltb_ge. lia.
  - destruct IH as [IH1 IH2]; [lia|]. rewrite seq_S, foldl_app. cbn [foldl Nat.add]. cbn zeta. split.
    + apply put8_ok; [done|]. unfold BPB in Hn. zlia.
    + intros j Hj. rewrite blkbit_set by (done || lia). rewrite IH2 by done. case_bool_decide; cbn [orb]; destruct (Z.ltb_spec j (Z.of_nat m)), (Z.ltb_spec j (Z.of_nat (S m))); done || lia.
Qed.

(** ** The image *)

(** The blocks of file [j], and those of all files but [i]. *)
Definition file_block V A j (b : Z) : Prop := b <> 0 /\ (A j !!! 12%nat = b \/ exists n, 0 <= n < MAXFILE /\ baddr V (A j) n = b).
Definition other_blocks V A (N i : nat) (b : Z) : Prop := exists j, (j < N)%nat /\ j <> i /\ file_block V A j b.

(** The size of the root directory in its inode. *)
Definition root_size (len : Z) : Z := (len / BSIZE + 1) * BSIZE.
Definition file_size i (c : list Z) : Z := if decide (i = 0%nat) then root_size (Z.of_nat (length c)) else Z.of_nat (length c).

(** What the kernel relies on, with [V] the blocks of the image and [A] the
    addresses in the inodes: the super block, an empty log, every file with its
    type, its contents and blocks of its own, free inodes free, and a bit map
    that marks exactly the blocks in use. *)
Record image_ok V A (files : list (Z * list Z)) : Prop := {
  im_sb : get_sb (V 1) = main_sb /\ sb_magic main_sb = FSMAGIC /\ sb_ok main_sb 2;
  im_log : forall k, 2 <= k <= 2 + LOGBLOCKS -> V k = zblock;
  im_inode : forall i ty c, files !! i = Some (ty, c) -> dinode_at main_sb V (Z.of_nat i + 1) = Dinode ty 0 0 1 (file_size i c) (A i) /\ dinode_ok (Dinode ty 0 0 1 (file_size i c) (A i));
  im_file : forall i ty c, files !! i = Some (ty, c) -> file_ok main_sb V (A i) (other_blocks V A (length files) i);
  im_data : forall i ty c, files !! i = Some (ty, c) -> no_holes V (A i) (Z.of_nat (length c)) /\ frange V (A i) 0 (Z.of_nat (length c)) = c;
  im_pad : forall i ty c n, files !! i = Some (ty, c) -> Z.of_nat (length c) <= n -> 0 <= n / BSIZE < MAXFILE -> baddr V (A i) (n / BSIZE) <> 0 -> fbyte V (A i) n = 0;
  im_size : forall i ty c, files !! i = Some (ty, c) -> 0 <= file_size i c <= MAXFILE * BSIZE;
  im_free : forall k, is_inum main_sb k -> k = 0 \/ Z.of_nat (length files) < k -> d_type (dinode_at main_sb V k) = 0;
  im_used : forall b, 0 <= b < FSSIZE -> used main_sb V b = true <-> b < nmeta \/ exists i, (i < length files)%nat /\ file_block V A i b;
  im_ok : forall k, block_ok (V k);
}.

Section image.
Context {V : Z -> block} {fb : Z} {A : nat -> list Z} {own : gmap Z (nat * option Z)} {C : list (Z * list Z)}.
Context (Ha : amap V fb (length C) A own) (Hct : cont V C own) (Hfb : nmeta <= fb <= FSSIZE) (Hbits : forall b, 0 <= b < FSSIZE -> used main_sb V b = (b <? fb)).

Lemma file_block_own j b : (j < length C)%nat -> file_block V A j b <-> exists k, own !! b = Some (j, k).
Proof.
  intros Hj. pose proof nmeta_val as Enm. split.
  - intros [Hb [H|(n & Hn & H)]]; [exists None; by apply (am_ind _ _ _ _ _ Ha)|exists (Some n); by apply (am_blk _ _ _ _ _ Ha)].
  - intros [[n|] Hb]; pose proof (am_own_range Ha _ _ Hb); (split; [lia|]).
    + right. destruct (am_in _ _ _ _ _ Ha _ _ _ Hb) as [_ Hn]. exists n. specialize (Hn n eq_refl). split; [done|]. apply (am_blk _ _ _ _ _ Ha); [done|done|lia|done].
    + left. apply (am_ind _ _ _ _ _ Ha); [done|lia|done].
Qed.

Lemma im_data_ok b : nmeta <= b < fb -> is_data main_sb b /\ used main_sb V b = true.
Proof. intros Hb. pose proof nmeta_val. split; [split; [exact (proj1 Hb)|change (sb_size main_sb) with FSSIZE; lia]|]. rewrite Hbits by lia. apply Z.ltb_lt. lia. Qed.

Lemma im_file_ok i : (i < length C)%nat -> file_ok main_sb V (A i) (other_blocks V A (length C) i).
Proof.
  intros Hi. pose proof nmeta_val as Enm. assert (forall b k, own !! b = Some (i, k) -> is_data main_sb b /\ used main_sb V b = true /\ ~ other_blocks V A (length C) i b) as Hown.
  { intros b k Hb. destruct (im_data_ok b (am_own_range Ha _ _ Hb)) as [H1 H2]. split_and!; [done|done|]. intros (j & Hj & Hne & (k' & Hb')%file_block_own); [|done]. congruence. }
  split.
  - by apply (am_len _ _ _ _ _ Ha).
  - intros b Hb. rewrite data_start_val in Hb. rewrite Hbits by (unfold FSSIZE; lia). apply Z.ltb_lt. lia.
  - cbn zeta. change (Z.to_nat NDIRECT) with 12%nat. destruct (decide (A i !!! 12%nat = 0)) as [|Hne]; [by left|right]. eapply Hown. by apply (am_ind _ _ _ _ _ Ha i _ Hi Hne).
  - intros n Hn. cbn zeta. destruct (decide (baddr V (A i) n = 0)) as [|Hne]; [by left|right]. eapply Hown. by apply (am_blk _ _ _ _ _ Ha i n _ Hi Hn Hne).
  - intros n n' Hn Hn' Hne E. pose proof (proj1 (am_blk _ _ _ _ _ Ha i n _ Hi Hn Hne) eq_refl) as H1. pose proof (proj1 (am_blk _ _ _ _ _ Ha i n' _ Hi Hn' Hne) (eq_sym E)) as H2. congruence.
  - intros n Hn Hne E. pose proof (proj1 (am_blk _ _ _ _ _ Ha i n _ Hi Hn Hne) eq_refl) as H1. pose proof (proj1 (am_ind _ _ _ _ _ Ha i _ Hi Hne) (eq_sym E)) as H2. congruence.
  - intros b (j & Hj & Hne & (k & Hb)%file_block_own); [|done]. apply im_data_ok. by eapply am_own_range.
Qed.

Lemma im_block i ty c n : C !! i = Some (ty, c) -> 0 <= n < MAXFILE -> baddr V (A i) n <> 0 -> V (baddr V (A i) n) = fblock c n.
Proof. intros Hc Hn Hne. eapply (ct_blk _ _ _ Hct); [|exact Hc]. apply (am_blk _ _ _ _ _ Ha i n _ (lookup_lt_Some _ _ _ Hc) Hn Hne). done. Qed.

Lemma im_byte i ty c p : C !! i = Some (ty, c) -> 0 <= p -> 0 <= p / BSIZE < MAXFILE -> baddr V (A i) (p / BSIZE) <> 0 -> fbyte V (A i) p = default 0 (c !! Z.to_nat p).
Proof.
  intros Hc Hp Hn Hne. unfold fbyte. rewrite (im_block i ty c _ Hc Hn Hne). apply list_lookup_total_correct. rewrite fblock_lookup; [|lia|change BSIZE with 1024; zlia].
  do 3 f_equal. change BSIZE with 1024. zlia.
Qed.

Lemma im_contents i ty c : C !! i = Some (ty, c) -> no_holes V (A i) (Z.of_nat (length c)) /\ frange V (A i) 0 (Z.of_nat (length c)) = c.
Proof.
  intros Hc. pose proof nmeta_val. destruct (ct_c _ _ _ Hct _ _ _ Hc) as [Hsz _]. assert (no_holes V (A i) (Z.of_nat (length c))) as Hnh.
  { intros n Hn Hlt. destruct (ct_all _ _ _ Hct i ty c n Hc Hn Hlt) as [b Hb]. pose proof (am_own_range Ha _ _ Hb). destruct (am_in _ _ _ _ _ Ha _ _ _ Hb) as [Hi Hr].
    apply (am_blk _ _ _ _ _ Ha i n b Hi (Hr n eq_refl)) in Hb; lia. }
  split; [done|]. apply list_eq. intros k. destruct (decide (k < length c)%nat) as [Hk|Hk]; [|rewrite !lookup_ge_None_2; [done|lia|rewrite frange_length; lia]].
  rewrite frange_lookup by lia. rewrite Z.add_0_l. change (MAXFILE * BSIZE) with 274432 in Hsz. rewrite (im_byte i ty c) by (done || (try apply Hnh); change BSIZE with 1024; change MAXFILE with 268; zlia).
  rewrite Nat2Z.id. by destruct (lookup_lt_is_Some_2 c k Hk) as [y ->].
Qed.
End image.

(** ** main *)

Definition mk0 : mk := Mk (Superblock 0 0 0 0 0 0 0 0) [] 1 0.

Lemma get_put_sb : get_sb sb_block = main_sb.
Proof. vm_compute. reflexivity. Qed.

Lemma image_ok_final s V A own C root c :
  minv s V A own C -> C !! 0%nat = Some (T_DIR, root) -> freeblock s <= FSSIZE -> Z.of_nat (length root) < 2 ^ 16 ->
  let di := Dinode T_DIR 0 0 1 (root_size (Z.of_nat (length root))) (A 0%nat) in
  wp (winode ROOTINO di ;; fb <- gets freeblock ;; mkfs_balloc fb)
    (fun _ c' s' => c' = c /\ exists V', repr s' V' /\ image_ok V' A C) c s.
Proof.
  intros Hm H0 Hfs Hroot di. pose proof nmeta_val as Enm. pose proof (total_nonneg C) as Ht. pose proof (mi_fb _ _ _ _ _ Hm) as Hfb. pose proof (lookup_lt_Some _ _ _ H0) as Hlen. destruct (mi_next _ _ _ _ _ Hm) as [_ Hnino].
  assert (is_inum main_sb ROOTINO) as Hin by (by split). destruct (addrs_words _ _ _ _ _ 0 (mi_map _ _ _ _ _ Hm) Hfs Hlen) as [Hal Haw]. assert (forall n, 0 <= n < 2 ^ 16 -> 0 <= root_size n < 2 ^ 32) as Hrs by (intros n Hn; unfold root_size; change BSIZE with 1024; zlia).
  assert (dinode_ok di) as Hdi by (split; cbn [di d_type d_major d_minor d_nlink d_size d_addrs]; unfold is_short, T_DIR; try lia; [apply Hrs; lia|done]).
  kstep. eapply winode_ok; [apply Hm|done|]. intros s1 Hr1 _ Hfb1. kstep. kstep. rewrite Hfb1. unfold mkfs_balloc. rewrite (proj2 (Z.ltb_lt _ _)) by (unfold FSSIZE, BPB, BSIZE in *; lia). kstep. kstep. rewrite (rp_sb _ _ Hr1). change (sb_bmapstart main_sb) with 46.
  eapply wsect_ok; [exact Hr1|done|]. intros s2 Hr2 _ _. split; [done|]. eexists. split; [exact Hr2|]. set (V1 := v_inode main_sb V ROOTINO di) in *. set (V2 := upd V1 46 _) in *.
  destruct (bitmap_of_ok (freeblock s)) as [Hbok Hbits]; [unfold FSSIZE, BPB, BSIZE in *; lia|].
  assert (forall k, ~ 33 <= k < 47 -> V2 k = V k) as Ev by (intros k Hk; unfold V2; rewrite upd_ne by lia; apply v_inode_other; [done|lia]).
  assert (forall k, block_ok (V2 k)) as Hok by (intros k; unfold V2; destruct (decide (k = 46)) as [->|]; [by rewrite upd_eq|rewrite upd_ne by done; apply v_inode_block_ok; [apply Hm|done]]).
  assert (forall k, is_inum main_sb k -> dinode_at main_sb V2 k = dinode_at main_sb V1 k) as Ed by (intros k Hk; unfold dinode_at, V2; rewrite upd_ne; [done|]; pose proof (IBLOCK_main k Hk); lia).
  assert (amap V2 (freeblock s) (length C) A own) as Ha by (eapply amap_meta; [lia| |apply Hm]; intros k Hk; apply Ev; lia).
  assert (cont V2 C own) as Hct by (eapply cont_meta; [|exact Hok|apply Hm|apply Hm]; intros k Hk; apply Ev; lia).
  assert (forall b, 0 <= b < FSSIZE -> used main_sb V2 b = (b <? freeblock s)) as Hused.
  { intros b Hb. unfold used. assert (BBLOCK b main_sb = 46 /\ b mod BPB = b) as [-> ->] by (unfold BBLOCK; change (sb_bmapstart main_sb) with 46; unfold BPB, BSIZE, FSSIZE in *; rewrite u32_id; zlia). unfold V2. rewrite upd_eq. apply Hbits. unfold BPB, BSIZE, FSSIZE in *. lia. }
  split.
  - rewrite Ev by lia. rewrite (mi_meta _ _ _ _ _ Hm) by lia. rewrite decide_True by done. split_and!; [apply get_put_sb|done|apply main_sb_ok].
  - intros k Hk. unfold LOGBLOCKS, MAXOPBLOCKS in Hk. rewrite Ev by lia. rewrite (mi_meta _ _ _ _ _ Hm) by lia. by rewrite decide_False by lia.
  - intros i ty cs Hc. pose proof (lookup_lt_Some _ _ _ Hc) as Hi. assert (is_inum main_sb (Z.of_nat i + 1)) as Hii by (split; [lia|change (sb_ninodes main_sb) with NINODES; lia]). rewrite Ed by done. unfold V1. rewrite (dinode_at_update 2 main_sb main_sb_ok); [|apply Hm|done|done|done].
    unfold file_size, ROOTINO. destruct (decide (i = 0%nat)) as [->|Hne].
    + rewrite decide_True by done. assert ((ty, cs) = (T_DIR, root)) as [= -> ->] by congruence. done.
    + rewrite decide_False by lia. split; [by apply (mi_inodes _ _ _ _ _ Hm)|]. destruct (addrs_words _ _ _ _ _ i Ha Hfs Hi) as [Hal' Haw']. destruct (ct_c _ _ _ Hct _ _ _ Hc) as [Hsz _]. change (MAXFILE * BSIZE) with 274432 in Hsz.
      pose proof (mi_types _ _ _ _ _ Hm i ty cs Hc). split; cbn [d_type d_major d_minor d_nlink d_size d_addrs]; unfold is_short; try lia. done.
  - intros i ty cs Hc. eapply im_file_ok; [exact Ha|lia|exact Hused|by eapply lookup_lt_Some].
  - intros i ty cs Hc. by eapply im_contents.
  - intros i ty cs n Hc Hn Hb Hne. erewrite im_byte; [|exact Ha|exact Hct|exact Hc|lia|done|done]. by rewrite lookup_ge_None_2 by lia.
  - intros i ty cs Hc. destruct (ct_c _ _ _ Hct _ _ _ Hc) as [Hsz _]. unfold file_size. case_decide as E; [subst i|lia]. assert (cs = root) as -> by congruence. unfold root_size. change (MAXFILE * BSIZE) with 274432. change BSIZE with 1024. zlia.
  - intros k Hk Hfree. rewrite Ed by done. unfold V1. rewrite (dinode_at_update 2 main_sb main_sb_ok); [|apply Hm|done|done|done]. rewrite decide_False by (unfold ROOTINO; lia). by rewrite (mi_noinodes _ _ _ _ _ Hm).
  - intros b Hb. rewrite Hused, Z.ltb_lt by done. split.
    + intros Hlt. destruct (decide (b < nmeta)) as [|Hge]; [by left|right]. destruct (proj2 (am_dom _ _ _ _ _ Ha b)) as [[i k] Hown]; [lia|]. exists i. destruct (am_in _ _ _ _ _ Ha _ _ _ Hown) as [Hi _]. split; [done|]. apply (file_block_own Ha); [done|]. by exists k.
    + intros [|(i & Hi & (k & Hown)%(file_block_own Ha))]; [lia| |done]. apply (am_own_range Ha) in Hown. lia.
  - done.
Qed.

(** A run of [main] up to the last two steps. *)
Lemma main_run argv c : Forall arg_ok argv -> Z.of_nat (length argv) + 1 < NINODES -> nmeta + total (image_files argv) <= FSSIZE ->
  wp (main argv) (fun _ c' s => c' = c /\ exists V A, repr s V /\ image_ok V A (image_files argv)) c mk0.
Proof.
  intros Hok Hlt Hroom. pose proof nmeta_val as Enm. unfold main. kstep. kstep. kstep. kstep. kstep. eapply wp_mono; [apply (zeros_ok (Z.to_nat FSSIZE) 0); [done|by vm_compute]|]. cbn beta. intros _ c' s [-> ->]. set (s1 := set_img _ _).
  assert (repr s1 (fun _ => zblock)) as Hr1. { split; cbn [s1 set_img img]; [done|apply length_replicate|]. intros k Hk. apply lookup_replicate_2. lia. }
  kstep. eapply wsect_ok; [exact Hr1|done|]. intros s2 Hr2 Hfi2 Hfb2. pose proof (empty_minv s2 Hr2 Hfi2 Hfb2) as Hm2.
  kstep. eapply wp_mono; [apply (ialloc_ok _ _ _ _ _ T_DIR c Hm2); [done|done|rewrite Hfb2; by vm_compute]|]. cbn beta. intros r c' s3 (-> & -> & V3 & A3 & Hm3). cbn [length app] in *.
  change (Z.of_nat 0 + 1 =? ROOTINO) with true. cbn iota. pose proof (total_below _ _ (image_below [] argv)) as Hb0. cbn [app] in Hb0. set (d1 := dirent_bytes 1 [46]). set (d2 := dirent_bytes 1 [46; 46]). assert (dir_bytes [] = d1 ++ d2) as Ed by (unfold dir_bytes; cbn [imap concat]; by rewrite app_nil_r).
  assert (Forall byte (d1 ++ d2)) as [Hbd1 Hbd2]%Forall_app by (rewrite <- Ed; by apply dir_bytes_ok). pose proof (dirent_bytes_length 1 [46]) as Hl1. pose proof (dirent_bytes_length 1 [46; 46]) as Hl2. fold d1 in Hl1. fold d2 in Hl2.
  assert (image_files [] = [(T_DIR, d1 ++ d2)]) as Ei by (unfold image_files; by rewrite Ed). rewrite Ei in Hb0. assert (total [(T_DIR, d1)] <= total [(T_DIR, d1 ++ d2)]) as Hb1.
  { apply total_below. intros [|i] f Hf; [|done]. injection Hf as <-. eexists. split; [reflexivity|]. cbn [snd]. rewrite length_app. lia. }
  kstep. eapply wp_mono; [apply (iappend_ok s3 V3 A3 ∅ _ 0 T_DIR [] d1 c Hm3); [done|done|cbn [app]; rewrite Hl1; by vm_compute|cbn [app insert list_insert]; lia]|]. cbn beta. intros _ c' s4 (-> & V4 & A4 & own4 & Hm4). cbn [app insert list_insert] in Hm4.
  kstep. eapply wp_mono; [apply (iappend_ok s4 V4 A4 own4 _ 0 T_DIR d1 d2 c Hm4); [done|done|rewrite length_app, Hl1, Hl2; by vm_compute|cbn [insert list_insert]; lia]|]. cbn beta. intros _ c' s5 (-> & V5 & A5 & own5 & Hm5). cbn [insert list_insert] in Hm5. rewrite <- Ei in Hm5.
  kstep. eapply wp_mono; [apply (add_files_ok argv s5 V5 A5 own5 [] c Hm5); done|]. cbn beta. intros _ c' s6 (-> & V6 & A6 & own6 & Hm6). cbn [app] in Hm6.
  kstep. eapply rinode_ok; [apply Hm6|by split|]. pose proof (mi_inodes _ _ _ _ _ Hm6 0%nat T_DIR (dir_bytes argv) eq_refl) as Hroot. rewrite Hroot. change (Z.of_nat 0 + 1) with ROOTINO. cbn [d_size].
  pose proof (dir_bytes_length argv) as Hdl. unfold NINODES in Hlt. set (len := Z.of_nat (length (dir_bytes argv))) in *. assert (0 <= len < 2 ^ 16) as Hlen by lia.
  assert (u32 ((len / BSIZE + 1) * BSIZE) = root_size len /\ xint (root_size len) = root_size len) as [E1 E2] by (unfold root_size; change BSIZE with 1024; split; [apply u32_id|apply xint_id]; zlia). rewrite (xint_id len), E1, E2 by lia.
  cbn [set_size d_type d_major d_minor d_nlink d_addrs]. eapply wp_mono; [apply (image_ok_final s6 V6 A6 own6 _ (dir_bytes argv) c Hm6); [done|rewrite (mi_fb _ _ _ _ _ Hm6); lia|lia]|].
  cbn beta. intros _ c' s7 (-> & V7 & Hr7 & Him). split; [done|]. by exists V7, A6.
Qed.

(** ** The image and the kernel *)

(** Entry [k] of the kernel's inode table holds inode [i + 1] as it is on the disk. *)
Definition loaded `{BlockDev} (t : fstate) (k : nat) V i : Prop :=
  (k < length (itab t))%nat /\ idev (inode_at t k) = ROOTDEV /\ inum (inode_at t k) = Z.of_nat i + 1 /\ to_dinode (inode_at t k) = dinode_at main_sb V (Z.of_nat i + 1).

Lemma image_file_at `{BlockDev} V A files (t : fstate) k i ty c : image_ok V A files -> Z.of_nat (length files) < NINODES -> files !! i = Some (ty, c) ->
  (i = 0%nat -> Z.of_nat (length c) mod BSIZE <> 0) -> loaded t k V i ->
  file_at main_sb t k V (other_blocks V A (length files) i) /\ content t k V = c ++ replicate (Z.to_nat (file_size i c) - length c) 0.
Proof.
  intros [I1 I2 I3 I4 I5 I6 I7 I8 I9 I10] HN Hc Hroot (Hk & Hdev & Hinum & Hdi). pose proof (lookup_lt_Some _ _ _ Hc) as Hi. destruct (I3 i ty c Hc) as [Ed Hdok]. rewrite Ed in Hdi. destruct (I5 i ty c Hc) as [Hnh Hfr].
  assert (isize (inode_at t k) = file_size i c) as Es by exact (f_equal d_size Hdi). assert (iaddrs (inode_at t k) = A i) as Ea by exact (f_equal d_addrs Hdi). specialize (I7 i ty c Hc). set (len := Z.of_nat (length c)) in *.
  assert (len <= file_size i c /\ forall n, 0 <= n -> n * BSIZE < file_size i c -> n * BSIZE < len) as [Hle Hsame].
  { unfold file_size, root_size. case_decide as E; [specialize (Hroot E)|split; [lia|done]]. change BSIZE with 1024 in *. fold len. split; [zlia|]. intros n Hn Hlt. zlia. }
  assert (no_holes V (A i) (file_size i c)) as Hnh' by (intros n Hn Hlt; apply Hnh; [done|by apply Hsame]). split.
  - split; rewrite ?Ea, ?Es; try done; [rewrite Hinum; split; [lia|change (sb_ninodes main_sb) with NINODES; lia]|by rewrite Hdi|by eapply I4|lia].
  - unfold content. rewrite Ea, Es. replace (file_size i c) with (len + (file_size i c - len)) at 1 by lia. rewrite frange_app by lia. rewrite Hfr. f_equal. rewrite Z.add_0_l. apply list_eq. intros m.
    destruct (decide (m < Z.to_nat (file_size i c - len))%nat) as [Hm|Hm]; [|rewrite !lookup_ge_None_2; [done|rewrite length_replicate; lia|rewrite frange_length; lia]].
    rewrite frange_lookup by done. rewrite lookup_replicate_2 by lia. f_equal. assert (0 <= (len + Z.of_nat m) / BSIZE < MAXFILE /\ (len + Z.of_nat m) / BSIZE * BSIZE < file_size i c) as [Hb Hlt].
    { change (MAXFILE * BSIZE) with 274432 in I7. change MAXFILE with 268. change BSIZE with 1024. zlia. }
    eapply I6; [exact Hc|fold len; lia|done|]. apply Hnh'; [lia|done].
Qed.

(** C8: When the files given to mkfs exist, have names that fit and fit into
    the image, mkfs completes, and the image is what the kernel expects: it has
    the super block, an empty log, a root directory with the names of the
    files, every file with its type, one link and exactly its contents, in
    blocks of its own, free inodes marked free, and a bit map that marks
    exactly the blocks in use.  A kernel that loads the inode of a file reads
    back the bytes given to mkfs; the root directory is padded with unused
    entries, provided that its entries do not fill its last block. *)
Theorem mkfs_builds_image argv c :
  Forall arg_ok argv -> Z.of_nat (length argv) + 1 < NINODES -> nmeta + total (image_files argv) <= FSSIZE ->
  wp (main argv) (fun _ _ s => exists V A,
    (forall k, 0 <= k < FSSIZE -> img s !! Z.to_nat k = Some (V k)) /\ length (img s) = Z.to_nat FSSIZE /\
    image_ok V A (image_files argv) /\
    forall (D : BlockDev) (t : fstate) k i ty cs, image_files argv !! i = Some (ty, cs) -> i <> 0%nat \/ (Z.of_nat (length argv) + 2) mod 64 <> 0 -> loaded t k V i ->
      file_at main_sb t k V (other_blocks V A (length (image_files argv)) i) /\
      content t k V = cs ++ replicate (Z.to_nat (file_size i cs) - length cs) 0) c mk0.
Proof.
  intros Hok Hlt Hroom. eapply wp_mono; [by apply main_run|]. cbn beta. intros _ c' s (-> & V & A & [_ Hlen Himg] & Hio). exists V, A. split_and!; [done..|].
  intros D t k i ty cs Hi Hroot Hld. eapply image_file_at; [done|rewrite image_files_length; lia|done| |done]. intros ->. destruct Hroot as [?|Hroot]; [done|]. injection Hi as <- <-.
  rewrite dir_bytes_length. change BSIZE with 1024. intros E. apply Hroot. zlia.
Qed.

Definition witness_args : list arg := [Arg [117; 115; 101; 114; 47; 95; 97] (Some [replicate 1024 7; replicate 24 8]); Arg [98] (Some [])].

Lemma bytes_check (l : list Z) : forallb (fun x => (0 <=? x) && (x <? 256)) l = true -> Forall byte l.
Proof. intros Hl. apply Forall_forall. intros x Hx. rewrite forallb_forall in Hl. apply list_elem_of_In in Hx. specialize (Hl x Hx). unfold byte. lia. Qed.
Lemma witness_args_ok : Forall arg_ok witness_args.
Proof.
  repeat (apply Forall_cons; split); [..|by apply Forall_nil]; (split; [refine (bool_decide_unpack _ _); vm_compute; exact I|by vm_compute|by eexists|by vm_compute|split; apply bytes_check; vm_compute; reflexivity]).
Qed.

Lemma mkfs_builds_image_witness :
  Forall arg_ok witness_args /\ exists c s V A, main witness_args (Ctx [] []) mk0 = Ok tt c s /\ image_ok V A (image_files witness_args) /\
    image_files witness_args !! 1%nat = Some (T_FILE, replicate 1024 7 ++ replicate 24 8 ++ []).
Proof.
  split; [exact witness_args_ok|]. pose proof (mkfs_builds_image witness_args (Ctx [] []) witness_args_ok ltac:(by vm_compute) ltac:(by vm_compute)) as H.
  apply wp_inv in H as ([] & c' & s & Hrun & V & A & _ & _ & Him & _). exists c', s, V, A. split; [exact Hrun|]. split; [exact Him|reflexivity].
Defined.
