(* ===== verification/Ulib.v ===== *)
(** * user/ulib.c: strings

    The functions of the user library that grep and the shell use.  A C string
    is the list of its characters before the NUL. *)
From S2P Require Import Prelude.

(** [strchr]: the distance from [s] to the character. *)
Fixpoint strchr (s : list Z) (c : Z) : option nat :=
  match s with
  | [] => None
  | x :: s => if x =? 0 then None else if x =? c then Some O else S <$> strchr s c
  end.
