(* ===== verification/Grep.v ===== *)
(** * user/grep.c: the pattern matcher and the line filter

    A C string is the list of its characters before the NUL.  [grep] works in
    its 1024-byte buffer; the file descriptor is the text left to read and a
    schedule of how many bytes each [read] delivers (at least one, at most
    what was asked for, until the end of the file), since a [read] of a pipe
    or of the console may return less than it was asked for. *)
From S2P Require Import Prelude Ulib.

Definition ch_star : Z := 42.
Definition ch_dot : Z := 46.
Definition ch_caret : Z := 94.
Definition ch_dollar : Z := 36.
Definition ch_nl : Z := 10.

(** ** The matcher *)

(** The loop of [matchstar]; [here] is [matchhere re]. *)
Fixpoint matchstar (here : list Z -> bool) (c : Z) (text : list Z) : bool :=
  if here text then true
  else match text with
       | [] => false
       | t :: text => if (t =? c) || (c =? ch_dot) then matchstar here c text else false
       end.

Fixpoint matchhere (re text : list Z) {struct re} : bool :=
  match re with
  | [] => true
  | c :: re1 =>
      let plain :=
        if (c =? ch_dollar) && (match re1 with [] => true | _ => false end) then (match text with [] => true | _ => false end)
        else match text with
             | [] => false
             | t :: text => if (c =? ch_dot) || (c =? t) then matchhere re1 text else false
             end in
      match re1 with
      | c1 :: re2 => if c1 =? ch_star then matchstar (matchhere re2) c text else plain
      | [] => plain
      end
  end.

(** The loop of [match]. *)
Fixpoint match_from (re text : list Z) : bool :=
  if matchhere re text then true
  else match text with [] => false | _ :: text => match_from re text end.

Definition grep_match (re text : list Z) : bool :=
  match re with
  | c :: re1 => if c =? ch_caret then matchhere re1 text else match_from re text
  | [] => match_from re text
  end.

(** ** The filter *)

Definition buf_bytes : nat := 1024.

(** The loop over the complete lines, from position [p]. *)
Fixpoint grep_lines (fuel : nat) (pattern buf : list Z) (p : nat) (out : list Z) : option (list Z * nat * list Z) :=
  match fuel with
  | O => None
  | S fuel =>
      match strchr (drop p buf) ch_nl with
      | None => Some (buf, p, out)
      | Some d =>
          let q := (p + d)%nat in
          let buf := <[q := 0]> buf in
          if grep_match pattern (before_nul (drop p buf)) then
            let buf := <[q := ch_nl]> buf in
            grep_lines fuel pattern buf (q + 1) (out ++ take (q + 1 - p) (drop p buf))
          else grep_lines fuel pattern buf (q + 1) out
      end
  end.

(** [read(fd, buf + m, max)]: the number of bytes. *)
Definition read_count (sched : list nat) (input : list Z) (max : nat) : nat :=
  Nat.min (S (hd max sched)) (Nat.min max (length input)).

(** The loop of [grep] with [m] bytes of an incomplete line at the start of
    [buf]; the result is what is written to the standard output. *)
Fixpoint grep_loop (fuel : nat) (pattern buf : list Z) (m : nat) (input : list Z) (sched : list nat) (out : list Z) : option (list Z) :=
  match fuel with
  | O => None
  | S fuel =>
      let n := read_count sched input (buf_bytes - m - 1) in
      if (0 <? n)%nat then
        let buf := take m buf ++ take n input ++ drop (m + n) buf in
        let m := (m + n)%nat in
        let buf := <[m := 0]> buf in
        match grep_lines (buf_bytes + 1) pattern buf 0 out with
        | None => None
        | Some (buf, p, out) =>
            let m' := (m - p)%nat in
            grep_loop fuel pattern (take m' (drop p buf) ++ drop m' buf) m' (drop n input) (tl sched) out
        end
      else Some out
  end.

Definition grep (pattern buf input : list Z) (sched : list nat) : option (list Z) :=
  grep_loop (length input + 1) pattern buf 0 input sched [].

(** ** What a pattern means *)

Inductive atom := Lit (c : Z) | AnyChar.
Inductive item := One (a : atom) | Star (a : atom).
Record regex := Regex { at_start : bool; items : list item; at_end : bool }.

Definition atom_has (a : atom) (t : Z) : Prop := match a with Lit c => t = c | AnyChar => True end.

(** [items] describe the string exactly. *)
Inductive in_items : list item -> list Z -> Prop :=
  | in_nil : in_items [] []
  | in_one a t its s : atom_has a t -> in_items its s -> in_items (One a :: its) (t :: s)
  | in_star a ts its s : Forall (atom_has a) ts -> in_items its s -> in_items (Star a :: its) (ts ++ s).

(** Some part of [text] is described, at the start or the end where required. *)
Definition denotes (r : regex) (text : list Z) : Prop :=
  exists pre mid post, text = pre ++ mid ++ post /\ in_items (items r) mid /\
    (at_start r = true -> pre = []) /\ (at_end r = true -> post = []).

(** The syntax: [*] after a character, [^] first, [$] last; everything else is itself. *)
Definition atom_of (c : Z) : atom := if c =? ch_dot then AnyChar else Lit c.
Fixpoint parse_items (re : list Z) : list item * bool :=
  match re with
  | [] => ([], false)
  | c :: re1 =>
      let plain := if (c =? ch_dollar) && (match re1 with [] => true | _ => false end) then ([], true)
                   else let '(its, e) := parse_items re1 in (One (atom_of c) :: its, e) in
      match re1 with
      | c1 :: re2 => if c1 =? ch_star then let '(its, e) := parse_items re2 in (Star (atom_of c) :: its, e) else plain
      | [] => plain
      end
  end.
Definition parse_regex (re : list Z) : regex :=
  match re with
  | c :: re1 => if c =? ch_caret then Regex true (fst (parse_items re1)) (snd (parse_items re1))
                else Regex false (fst (parse_items re)) (snd (parse_items re))
  | [] => Regex false [] false
  end.

(** ** The matcher is right *)

Lemma atom_of_has c t : ((t =? c) || (c =? ch_dot)) = true <-> atom_has (atom_of c) t.
Proof.
  unfold atom_of. destruct (Z.eqb_spec c ch_dot) as [E|E]; cbn; [by rewrite orb_true_r|]. rewrite orb_false_r. apply Z.eqb_eq.
Qed.

Lemma matchstar_spec here c text : matchstar here c text = true <->
  exists ts rest, text = ts ++ rest /\ Forall (atom_has (atom_of c)) ts /\ here rest = true.
Proof.
  induction text as [|t text IH]; cbn [matchstar].
  - destruct (here []) eqn:E; split; try done.
    + intros _. by exists [], [].
    + intros (ts & rest & Et & _ & Hr). destruct ts, rest; congruence || done.
  - destruct (here (t :: text)) eqn:E; [split; [|done]; intros _; by exists [], (t :: text)|].
    pose proof (atom_of_has c t) as Ha. destruct ((t =? c) || (c =? ch_dot)).
    + rewrite IH. split; intros (ts & rest & Et & Hts & Hr).
      * exists (t :: ts), rest. split_and!; [by rewrite Et|constructor; [by apply Ha|done]|done].
      * destruct ts as [|t' ts]; [cbn in Et; congruence|]. injection Et as <- ->. exists ts, rest. by apply Forall_cons in Hts as [_ ?].
    + split; [done|]. intros (ts & rest & Et & Hts & Hr). destruct ts as [|t' ts]; [cbn in Et; congruence|].
      injection Et as <- ->. apply Forall_cons in Hts as [Ht%Ha _]. done.
Qed.

(** The part of [text] from its start on that [matchhere] accepts. *)
Definition here_denotes (p : list item * bool) (text : list Z) : Prop :=
  exists mid post, text = mid ++ post /\ in_items (fst p) mid /\ (snd p = true -> post = []).

Lemma here_star a its e text : here_denotes (Star a :: its, e) text <->
  exists ts rest, text = ts ++ rest /\ Forall (atom_has a) ts /\ here_denotes (its, e) rest.
Proof.
  split.
  - intros (mid & post & -> & Hin & He). inversion Hin as [| |? ts ? s Hts Hs]; subst. exists ts, (s ++ post). rewrite app_assoc. split_and!; try done. by exists s, post.
  - intros (ts & rest & -> & Hts & mid & post & -> & Hin & He). exists (ts ++ mid), post. rewrite app_assoc. split_and!; try done. by constructor.
Qed.

Lemma here_one a its e text : here_denotes (One a :: its, e) text <->
  exists t rest, text = t :: rest /\ atom_has a t /\ here_denotes (its, e) rest.
Proof.
  split.
  - intros (mid & post & -> & Hin & He). inversion Hin as [|? t ? s Ht Hs|]; subst. exists t, (s ++ post). split_and!; try done. by exists s, post.
  - intros (t & rest & -> & Ht & mid & post & -> & Hin & He). exists (t :: mid), post. split_and!; try done. by constructor.
Qed.

Lemma here_nil e text : here_denotes ([], e) text <-> (e = true -> text = []).
Proof.
  split.
  - intros (mid & post & -> & Hin & He) Hv. inversion Hin; subst. by rewrite He.
  - intros He. exists [], text. split_and!; try done. constructor.
Qed.

Lemma matchhere_spec re text : matchhere re text = true <-> here_denotes (parse_items re) text.
Proof.
  revert text. induction re as [re IH] using (induction_ltof1 _ (@length Z)); intros text. unfold ltof in IH.
  destruct re as [|c re1]; [cbn; by rewrite here_nil|].
  assert (forall its e, parse_items re1 = (its, e) -> (match text with [] => false | t :: text => if (c =? ch_dot) || (c =? t) then matchhere re1 text else false end = true <->
    here_denotes (One (atom_of c) :: its, e) text)) as Hone.
  { intros its e Ep. rewrite here_one. destruct text as [|t text]; [split; [done|by intros (? & ? & ? & _)]|].
    pose proof (atom_of_has c t) as Ha. rewrite Z.eqb_sym, orb_comm in Ha. destruct ((c =? ch_dot) || (c =? t)).
    - rewrite IH, Ep by (cbn; lia). split; [intros H; exists t, text; split_and!; [done|by apply Ha|done]|]. by intros (? & ? & [= <- <-] & _ & ?).
    - split; [done|]. intros (? & ? & [= <- <-] & Ht%Ha & _). done. }
  cbn [matchhere parse_items]. destruct (parse_items re1) as [its e] eqn:Ep1. specialize (Hone its e eq_refl).
  destruct re1 as [|c1 re2].
  - destruct (c =? ch_dollar); cbn [andb]; [|done]. rewrite here_nil. destruct text; naive_solver.
  - rewrite andb_false_r. destruct (c1 =? ch_star); [|done]. destruct (parse_items re2) as [its2 e2] eqn:Ep2.
    rewrite here_star, matchstar_spec. do 2 (apply exist_proper; intros ?). by rewrite IH, Ep2 by (cbn; lia).
Qed.

Lemma match_from_spec re text : match_from re text = true <-> exists pre rest, text = pre ++ rest /\ matchhere re rest = true.
Proof.
  induction text as [|t text IH]; cbn [match_from].
  - destruct (matchhere re []) eqn:E; split; try done.
    + intros _. by exists [], [].
    + intros (pre & rest & Et & Hr). destruct pre, rest; congruence || done.
  - destruct (matchhere re (t :: text)) eqn:E; [split; [|done]; intros _; by exists [], (t :: text)|]. rewrite IH.
    split; intros (pre & rest & Et & Hr).
    + exists (t :: pre), rest. by rewrite Et.
    + destruct pre as [|t' pre]; [cbn in Et; congruence|]. injection Et as <- ->. by exists pre, rest.
Qed.

Lemma grep_match_spec re text : grep_match re text = true <-> denotes (parse_regex re) text.
Proof.
  assert (forall re, match_from re text = true <-> denotes (Regex false (fst (parse_items re)) (snd (parse_items re))) text) as Hf.
  { intros re'. rewrite match_from_spec. unfold denotes. cbn. apply exist_proper. intros pre. split.
    - intros (rest & -> & (mid & post & -> & Hin & He)%matchhere_spec). by exists mid, post.
    - intros (mid & post & -> & Hin & _ & He). exists (mid ++ post). split; [done|]. apply matchhere_spec. by exists mid, post. }
  unfold grep_match, parse_regex. destruct re as [|c re1]; [apply (Hf [])|]. destruct (c =? ch_caret); [|apply Hf].
  rewrite matchhere_spec. unfold denotes. cbn. split.
  - intros (mid & post & -> & Hin & He). by exists [], mid, post.
  - intros (pre & mid & post & -> & Hin & Hs & He). rewrite Hs by done. by exists mid, post.
Qed.

(** ** The filter is right *)

#[global] Instance denotes_dec re text : Decision (denotes (parse_regex re) text).
Proof. destruct (grep_match re text) eqn:E; [left; by apply grep_match_spec|right; rewrite <- grep_match_spec; by rewrite E]. Defined.

(** A text: complete lines and what follows the last newline. *)
Definition plain_text (s : list Z) : Prop := Forall (fun c => c <> 0 /\ c <> ch_nl) s.
Definition with_nl (ls : list (list Z)) : list Z := concat ((fun l => l ++ [ch_nl]) <$> ls).

Lemma plain_no_nul s : plain_text s -> no_nul s.
Proof. intros H. eapply Forall_impl; [exact H|]. by intros c [? _]. Qed.

Lemma strchr_plain s t : plain_text s -> strchr (s ++ 0 :: t) ch_nl = None.
Proof.
  induction 1 as [|c s [H1 H2] _ IH]; cbn; [done|]. rewrite (proj2 (Z.eqb_neq c 0)), (proj2 (Z.eqb_neq c ch_nl)) by done. by rewrite IH.
Qed.
Lemma strchr_line s t : plain_text s -> strchr (s ++ ch_nl :: t) ch_nl = Some (length s).
Proof.
  induction 1 as [|c s [H1 H2] _ IH]; cbn; [done|]. rewrite (proj2 (Z.eqb_neq c 0)), (proj2 (Z.eqb_neq c ch_nl)) by done. by rewrite IH.
Qed.

Lemma insert_at {A} (l1 l2 : list A) (x y : A) n : n = length l1 -> <[n := y]> (l1 ++ x :: l2) = l1 ++ y :: l2.
Proof. intros ->. rewrite insert_app_r_alt, Nat.sub_diag by lia. done. Qed.

Definition selected (pattern : list Z) (ls : list (list Z)) : list Z := with_nl (filter (denotes (parse_regex pattern)) ls).

Lemma selected_cons pattern l ls : selected pattern (l :: ls) = (if grep_match pattern l then l ++ [ch_nl] else []) ++ selected pattern ls.
Proof.
  unfold selected. rewrite filter_cons. case_decide as H; rewrite <- grep_match_spec in H.
  - by rewrite H.
  - apply not_true_is_false in H. by rewrite H.
Qed.

Lemma selected_app pattern ls1 ls2 : selected pattern (ls1 ++ ls2) = selected pattern ls1 ++ selected pattern ls2.
Proof. unfold selected, with_nl. by rewrite filter_app, fmap_app, concat_app. Qed.

Lemma grep_lines_spec fuel pattern ls : Forall plain_text ls -> (length ls < fuel)%nat -> forall pre r post out, plain_text r ->
  exists pre', grep_lines fuel pattern (pre ++ with_nl ls ++ r ++ 0 :: post) (length pre) out =
    Some (pre' ++ r ++ 0 :: post, length pre', out ++ selected pattern ls) /\ length pre' = (length pre + length (with_nl ls))%nat.
Proof.
  revert fuel. induction ls as [|l ls IH]; intros fuel Hls Hf pre r post out Hr; (destruct fuel as [|fuel]; [cbn in Hf; lia|]); cbn [grep_lines].
  - rewrite drop_app_length. cbn [with_nl fmap list_fmap concat app]. rewrite strchr_plain by done. exists pre. cbn. rewrite app_nil_r. split; [done|lia].
  - apply Forall_cons in Hls as [Hl Hls]. assert (with_nl (l :: ls) = l ++ ch_nl :: with_nl ls) as E by (unfold with_nl; cbn; by rewrite <- app_assoc). rewrite E.
    rewrite drop_app_length, <- !app_assoc, <- !app_comm_cons, strchr_line by done. set (tail := with_nl ls ++ r ++ 0 :: post).
    rewrite (app_assoc pre l), insert_at by (by rewrite length_app). rewrite <- app_assoc, drop_app_length, before_nul_app by (by apply plain_no_nul).
    rewrite selected_cons. cbn [length] in Hf.
    assert (forall x, (pre ++ l ++ x :: tail) = (pre ++ l ++ [x]) ++ tail /\ length (pre ++ l ++ [x]) = (length pre + length l + 1)%nat) as Hx.
    { intros x. rewrite <- !app_assoc. rewrite !length_app. cbn. split; [done|lia]. }
    rewrite length_app. cbn [length]. destruct (grep_match pattern l).
    + rewrite (app_assoc pre l), insert_at by (by rewrite length_app). rewrite <- app_assoc, drop_app_length.
      replace (take _ (l ++ ch_nl :: tail)) with (l ++ [ch_nl]).
      2: { change (ch_nl :: tail) with ([ch_nl] ++ tail). rewrite app_assoc, take_app_length'; [done|]. rewrite length_app. cbn. lia. }
      destruct (Hx ch_nl) as [-> <-]. unfold tail. destruct (IH fuel Hls ltac:(lia) (pre ++ l ++ [ch_nl]) r post (out ++ l ++ [ch_nl]) Hr) as (pre' & -> & Hlen).
      exists pre'. split; [by rewrite <- app_assoc|]. rewrite Hlen, !length_app. cbn. lia.
    + cbn [app]. destruct (Hx 0) as [-> <-]. unfold tail. destruct (IH fuel Hls ltac:(lia) (pre ++ l ++ [0]) r post out Hr) as (pre' & -> & Hlen).
      exists pre'. split; [done|]. rewrite Hlen, !length_app. cbn. lia.
Qed.

(** A part of the text read so far ends with complete lines and a part of a line. *)
Lemma split_read A B ls r : Forall plain_text ls -> plain_text r -> A ++ B = with_nl ls ++ r ->
  exists ls1 ls2 r1, ls = ls1 ++ ls2 /\ A = with_nl ls1 ++ r1 /\ plain_text r1 /\ r1 ++ B = with_nl ls2 ++ r.
Proof.
  revert A. induction ls as [|l ls IH]; intros A Hls Hr E.
  - exists [], [], A. cbn in *. split_and!; try done. rewrite <- E in Hr. by apply Forall_app in Hr as [? _].
  - apply Forall_cons in Hls as [Hl Hls]. assert (with_nl (l :: ls) = l ++ ch_nl :: with_nl ls) as En by (unfold with_nl; cbn; by rewrite <- app_assoc).
    rewrite En, <- app_assoc, <- app_comm_cons in E. destruct (decide (length A <= length l)%nat) as [Hle|Hgt].
    + exists [], (l :: ls), A. split_and!; try done; [|by rewrite E, En, <- app_assoc].
      replace A with (take (length A) l); [by apply Forall_take|]. apply (f_equal (take (length A))) in E. by rewrite take_app_length, take_app_le in E.
    + assert (A = l ++ ch_nl :: drop (length l + 1) A) as EA.
      { apply (f_equal (take (length A))) in E. rewrite take_app_length, take_app_ge in E by lia. rewrite E at 1. f_equal.
        replace (length A - length l)%nat with (S (length A - length l - 1)) in * by lia. cbn [take] in *. f_equal.
        set (X := take _ _) in *. rewrite E, <- drop_drop, drop_app_length. done. }
      rewrite EA, <- app_assoc, <- app_comm_cons in E. apply app_inv_head in E. injection E as E.
      destruct (IH _ Hls Hr E) as (ls1 & ls2 & r1 & -> & E1 & Hr1 & E2). exists (l :: ls1), ls2, r1. split_and!; try done.
      rewrite EA, E1. unfold with_nl. cbn. by rewrite <- !app_assoc.
Qed.

Lemma with_nl_length ls : (length ls <= length (with_nl ls))%nat.
Proof. unfold with_nl. induction ls as [|l ls IH]; cbn; [lia|]. rewrite !length_app. cbn. lia. Qed.

Lemma grep_loop_spec fuel pattern ls r : Forall plain_text ls -> Forall (fun l => (length l < buf_bytes - 1)%nat) ls -> plain_text r ->
  forall buf pending input sched out, (length input < fuel)%nat -> length buf = buf_bytes ->
  (length pending < buf_bytes)%nat -> take (length pending) buf = pending -> plain_text pending -> pending ++ input = with_nl ls ++ r ->
  grep_loop fuel pattern buf (length pending) input sched out = Some (out ++ selected pattern ls).
Proof.
  intros Hls Hshort Hr. revert ls Hls Hshort. induction fuel as [|fuel IH]; intros ls Hls Hshort buf pending input sched out Hf Hb Hm Hpend Hplain E; [lia|].
  cbn [grep_loop]. set (n := read_count _ _ _). destruct (Nat.ltb_spec 0 n) as [Hn|Hn].
  - assert (n <= length input /\ length pending + n < buf_bytes)%nat as [Hn1 Hn2] by (unfold n, read_count in *; lia). clearbody n.
    rewrite Hpend, app_assoc. rewrite <- (take_drop n input), app_assoc in E.
    destruct (split_read _ _ _ _ Hls Hr E) as (ls1 & ls2 & r1 & -> & E1 & Hr1 & E2). apply Forall_app in Hls as [Hls1 Hls2], Hshort as [_ Hshort2].
    assert (length (pending ++ take n input) = length pending + n)%nat as Hlen by (rewrite length_app, length_take; lia).
    destruct (drop (length pending + n) buf) as [|x post] eqn:Ed; [apply (f_equal length) in Ed; rewrite length_drop in Ed; cbn in Ed; lia|].
    rewrite insert_at by done. rewrite E1, <- app_assoc.
    destruct (grep_lines_spec (buf_bytes + 1) pattern ls1 Hls1) with (pre := @nil Z) (r := r1) (post := post) (out := out) as (pre' & Eg & Hpre); [|done|].
    { pose proof (with_nl_length ls1). rewrite E1, length_app in Hlen. unfold buf_bytes in *. lia. }
    cbn [app length] in Eg. rewrite Eg. cbn [length Nat.add] in Hpre.
    replace (length pending + n - length pre')%nat with (length r1) by (rewrite E1, length_app in Hlen; lia).
    rewrite drop_app_length, take_app_length. rewrite selected_app, (app_assoc out).
    apply (IH ls2); try done.
    + rewrite length_drop. lia.
    + rewrite length_app, length_drop, !length_app. apply (f_equal length) in Ed. rewrite length_drop in Ed. cbn [length] in *. rewrite E1, length_app in Hlen. lia.
    + rewrite E1, length_app in Hlen. lia.
    + by rewrite take_app_length.
  - f_equal. rewrite <- (app_nil_r out) at 1. f_equal. destruct ls as [|l ls]; [done|]. exfalso.
    apply Forall_cons in Hls as [_ _], Hshort as [Hl _]. assert (length l < length pending)%nat as Hlt.
    { unfold n, read_count in Hn. destruct input; cbn [length] in *; [|unfold buf_bytes in *; lia].
      rewrite app_nil_r in E. rewrite E. unfold with_nl. cbn. rewrite !length_app. cbn. lia. }
    unfold with_nl in E. cbn in E. rewrite <- !app_assoc in E. apply (f_equal (fun x => x !! length l)) in E.
    rewrite lookup_app_l in E by done. cbn [app] in E. rewrite list_lookup_middle in E by done. by destruct (Forall_lookup_1 _ _ _ _ Hplain E) as [_ ?].
Qed.


