(* ===== verification/Umalloc.v ===== *)
(** * user/umalloc.c: the storage allocator of user programs

    Addresses are counted in units of [sizeof(Header)] (16 bytes), so that the
    pointer arithmetic on [Header *] is addition; 0 is the null pointer.  The
    heap is the map from addresses to headers, which a program can also
    overwrite inside its blocks.  The kernel's side of [sbrk] is the class
    [Os]: whether it grants more memory.  The program calls [sbrk] only
    through [malloc]. *)
From stdpp Require Import functions.
From S2P Require Import Prelude.

Record heap := Heap {
  hdr : Z -> Z * Z;      (** [s.ptr] and [s.size] *)
  freep : Z;
  brk : Z;               (** the end of the program's memory, in bytes *)
}.
Definition ptr (h : heap) (p : Z) : Z := fst (hdr h p).
Definition size (h : heap) (p : Z) : Z := snd (hdr h p).
Definition set_ptr (p v : Z) (h : heap) : heap := Heap (<[p := (v, size h p)]> (hdr h)) (freep h) (brk h).
Definition set_size (p v : Z) (h : heap) : heap := Heap (<[p := (ptr h p, v)]> (hdr h)) (freep h) (brk h).
Definition set_freep (p : Z) (h : heap) : heap := Heap (hdr h) p (brk h).
Definition set_brk (b : Z) (h : heap) : heap := Heap (hdr h) (freep h) b.

Definition header_bytes : Z := 16.

(** [granted brk n]: the kernel lets the memory grow by [n] bytes. *)
Class Os := { granted : Z -> Z -> bool; base : Z }.

Section code.
Context {OS : Os}.

(** The [for] loop of [free]. *)
Fixpoint free_scan (fuel : nat) (h : heap) (bp p : Z) : option Z :=
  match fuel with
  | O => None
  | S n =>
      if (p <? bp) && (bp <? ptr h p) then Some p
      else if (ptr h p <=? p) && ((p <? bp) || (bp <? ptr h p)) then Some p
      else free_scan n h bp (ptr h p)
  end.

(** What follows the loop: the block is joined to its successor or linked to
    it, then the same for the predecessor [p]. *)
Definition link_next (h : heap) (bp p : Z) : heap :=
  if bp + size h bp =? ptr h p then
    let h := set_size bp (u32 (size h bp + size h (ptr h p))) h in
    set_ptr bp (ptr h (ptr h p)) h
  else set_ptr bp (ptr h p) h.
Definition link_prev (h : heap) (bp p : Z) : heap :=
  if p + size h p =? bp then
    let h := set_size p (u32 (size h p + size h bp)) h in
    set_ptr p (ptr h bp) h
  else set_ptr p bp h.

Definition free (fuel : nat) (h : heap) (ap : Z) : option heap :=
  let bp := ap - 1 in
  match free_scan fuel h bp (freep h) with
  | None => None
  | Some p => Some (set_freep p (link_prev (link_next h bp p) bp p))
  end.

(** [sbrk(n)] with [n] an [int]: the old break in bytes, or the error. *)
Definition sbrk (h : heap) (n : Z) : option Z * heap :=
  let n := i32 n in
  if granted (brk h) n then (Some (brk h), set_brk (brk h + n) h) else (None, h).

Definition morecore (fuel : nat) (h : heap) (nu : Z) : option (heap * Z) :=
  let nu := if nu <? 4096 then 4096 else nu in
  match sbrk h (nu * header_bytes) with
  | (None, h) => Some (h, 0)
  | (Some p, h) =>
      let hp := p / header_bytes in
      let h := set_size hp nu h in
      match free fuel h (hp + 1) with
      | None => None
      | Some h => Some (h, freep h)
      end
  end.

(** A block found: cut to size. *)
Definition take_block (h : heap) (nunits prevp p : Z) : heap * Z :=
  let '(h, p) :=
    if size h p =? nunits then (set_ptr prevp (ptr h p) h, p)
    else
      let h := set_size p (u32 (size h p - nunits)) h in
      let p := p + size h p in
      (set_size p nunits h, p) in
  (set_freep prevp h, p + 1).

Fixpoint malloc_loop (fuel : nat) (h : heap) (nunits prevp p : Z) : option (heap * Z) :=
  match fuel with
  | O => None
  | S n =>
      if nunits <=? size h p then Some (take_block h nunits prevp p)
      else if p =? freep h then
        match morecore fuel h nunits with
        | None => None
        | Some (h, p) => if p =? 0 then Some (h, 0) else malloc_loop n h nunits p (ptr h p)
        end
      else malloc_loop n h nunits p (ptr h p)
  end.

Definition nunits_of (nbytes : Z) : Z := u32 ((nbytes + header_bytes - 1) / header_bytes + 1).

Definition malloc (fuel : nat) (h : heap) (nbytes : Z) : option (heap * Z) :=
  let nunits := nunits_of nbytes in
  let h := if freep h =? 0 then set_size base 0 (set_freep base (set_ptr base base h)) else h in
  malloc_loop fuel h nunits (freep h) (ptr h (freep h)).
End code.

(** ** Blocks *)

Implicit Types (h : heap) (L X : list (Z * Z)) (u x s : Z).

(** How many of the blocks (address and size) contain the unit [u]. *)
Definition covers (u : Z) (b : Z * Z) : Z := if (b.1 <=? u) && (u <? b.1 + b.2) then 1 else 0.
Definition occ (bs : list (Z * Z)) (u : Z) : Z := foldr (fun b n => covers u b + n) 0 bs.

Lemma occ_app bs1 bs2 u : occ (bs1 ++ bs2) u = occ bs1 u + occ bs2 u.
Proof. unfold occ. induction bs1 as [|b bs1 IH]; cbn; lia. Qed.
Lemma occ_cons b bs u : occ (b :: bs) u = covers u b + occ bs u.
Proof. done. Qed.
Lemma occ_perm bs1 bs2 u : bs1 ≡ₚ bs2 -> occ bs1 u = occ bs2 u.
Proof. induction 1; rewrite ?occ_cons; lia. Qed.
Lemma covers_nonneg u b : 0 <= covers u b <= 1.
Proof. unfold covers. destruct (_ && _); lia. Qed.
Lemma occ_nonneg bs u : 0 <= occ bs u.
Proof. induction bs as [|b bs IH]; [done|]. rewrite occ_cons. pose proof (covers_nonneg u b). lia. Qed.
Lemma occ_elem b bs u : b ∈ bs -> covers u b <= occ bs u.
Proof.
  intros (bs1 & bs2 & ->)%list_elem_of_split. rewrite occ_app, occ_cons. pose proof (occ_nonneg bs1 u). pose proof (occ_nonneg bs2 u). lia.
Qed.
Lemma covers_join u x a b : 0 <= a -> 0 <= b -> covers u (x, a) + covers u (x + a, b) = covers u (x, a + b).
Proof. intros. unfold covers. cbn. destruct (Z.leb_spec x u), (Z.ltb_spec u (x + a)), (Z.leb_spec (x + a) u), (Z.ltb_spec u (x + a + b)), (Z.ltb_spec u (x + (a + b))); cbn; lia. Qed.
Lemma covers_at u x s : x <= u < x + s -> covers u (x, s) = 1.
Proof. intros. unfold covers. cbn. destruct (Z.leb_spec x u), (Z.ltb_spec u (x + s)); cbn; lia. Qed.

(** Two blocks of a family that covers nothing twice do not meet. *)
Lemma occ_apart b1 b2 bs1 bs2 : (forall u, occ (bs1 ++ bs2) u <= 1) -> b1 ∈ bs1 -> b2 ∈ bs2 -> 0 < b1.2 -> 0 < b2.2 ->
  b1.1 + b1.2 <= b2.1 \/ b2.1 + b2.2 <= b1.1.
Proof.
  intros H H1 H2 Hp1 Hp2. destruct b1 as [x1 s1], b2 as [x2 s2]. cbn in *.
  destruct (decide (x1 + s1 <= x2 \/ x2 + s2 <= x1)) as [|Hn]; [done|]. exfalso.
  specialize (H (Z.max x1 x2)). rewrite occ_app in H. apply (occ_elem _ _ (Z.max x1 x2)) in H1, H2. rewrite covers_at in H1, H2 by lia. lia.
Qed.

(** ** The free list *)

(** From [a] the pointers lead through the blocks of [L] to [b]. *)
Fixpoint seg h (a : Z) L (b : Z) : Prop :=
  match L with [] => a = b | (x, s) :: L => a = x /\ size h x = s /\ seg h (ptr h x) L b end.

(** The blocks of [L] come one after the other above [lo], with gaps. *)
Fixpoint spaced (lo : Z) L : Prop :=
  match L with [] => True | (x, s) :: L => lo < x /\ 0 <= s /\ spaced (x + s) L end.
Fixpoint last_end (lo : Z) L : Z :=
  match L with [] => lo | (x, s) :: L => last_end (x + s) L end.

Lemma free_seg_app h a L1 L2 b : seg h a (L1 ++ L2) b <-> exists c, seg h a L1 c /\ seg h c L2 b.
Proof.
  revert a. induction L1 as [|[x s] L1 IH]; intros a; cbn; [naive_solver|]. rewrite IH. naive_solver.
Qed.
Lemma spaced_app lo L1 L2 : spaced lo (L1 ++ L2) <-> spaced lo L1 /\ spaced (last_end lo L1) L2.
Proof. revert lo. induction L1 as [|[x s] L1 IH]; intros lo; cbn; [naive_solver|]. rewrite IH. naive_solver. Qed.
Lemma last_end_app lo L1 L2 : last_end lo (L1 ++ L2) = last_end (last_end lo L1) L2.
Proof. revert lo. induction L1 as [|[x s] L1 IH]; intros lo; cbn; [done|]. apply IH. Qed.
Lemma spaced_above lo L x s : spaced lo L -> (x, s) ∈ L -> lo < x /\ 0 <= s.
Proof.
  revert lo. induction L as [|[y t] L IH]; intros lo; [set_solver|]. cbn. intros (H1 & H2 & H3) [[= -> ->]|Hin]%elem_of_cons; [lia|].
  destruct (IH _ H3 Hin). lia.
Qed.
Lemma spaced_below lo L x s : spaced lo L -> (x, s) ∈ L -> x + s <= last_end lo L.
Proof.
  intros H (L1 & L2 & ->)%list_elem_of_split. apply spaced_app in H as [_ H]. cbn in H. destruct H as (_ & _ & H). rewrite last_end_app. cbn.
  clear -H. revert H. generalize (x + s). induction L2 as [|[y t] L2 IH]; intros e; cbn; [lia|]. intros (? & ? & H). specialize (IH _ H). lia.
Qed.
Lemma last_end_ge lo L : spaced lo L -> lo <= last_end lo L.
Proof. revert lo. induction L as [|[x s] L IH]; intros lo; cbn; [lia|]. intros (? & ? & H). specialize (IH _ H). lia. Qed.

(** Only the headers in the list matter. *)
Lemma seg_frame h h' a L b : (forall x s, (x, s) ∈ L -> hdr h' x = hdr h x) -> seg h a L b -> seg h' a L b.
Proof.
  revert a. induction L as [|[x s] L IH]; intros a Hf; cbn; [done|]. intros (-> & Hs & H). unfold size, ptr in *.
  rewrite (Hf x s) by (by left). split_and!; try done. apply IH; [|done]. intros y t Hin. apply (Hf y t). by right.
Qed.

Lemma seg_size h a L b x s : seg h a L b -> (x, s) ∈ L -> size h x = s.
Proof. revert a. induction L as [|[y t] L IH]; intros a; cbn; [set_solver|]. intros (-> & H1 & H2) [[= -> ->]|Hin]%elem_of_cons; [done|]. by eapply IH. Qed.

(** ** The search of free *)

Section free.
Context {OS : Os}.

Lemma seg_start h c X b x s : seg h c X x -> c = match X ++ [(x, s)] with [] => b | (y, _) :: _ => y end.
Proof. destruct X as [|[y t] X]; cbn; [done|]. by intros (-> & _). Qed.

Lemma scan_low h bp p s lo X n q : seg h q X p -> spaced lo (X ++ [(p, s)]) -> (forall x t, (x, t) ∈ X -> x < bp) -> p < bp ->
  free_scan (length X + n) h bp q = free_scan n h bp p.
Proof.
  revert lo q. induction X as [|[x t] X IH]; intros lo q Hs Hsp Hlow Hp; cbn in *; [by subst|]. destruct Hs as (-> & Ht & Hs), Hsp as (H1 & H2 & H3).
  assert (x < ptr h x < bp) as [Hn1 Hn2].
  { rewrite (seg_start _ _ _ base _ s Hs). destruct X as [|[y r] X]; cbn in *; [lia|]. destruct H3 as (? & ? & _). specialize (Hlow y r ltac:(set_solver)). lia. }
  rewrite (proj2 (Z.ltb_ge bp (ptr h x))), andb_false_r by lia. rewrite (proj2 (Z.leb_gt (ptr h x) x)) by lia. cbn [andb].
  eapply IH; [done..| |done]. intros. eapply Hlow. by right.
Qed.

Lemma scan_high h bp lo X n q : seg h q X base -> spaced lo X -> (forall x t, (x, t) ∈ X -> bp < x) -> base < bp ->
  free_scan (length X + n) h bp q = free_scan n h bp base.
Proof.
  revert lo q. induction X as [|[x t] X IH]; intros lo q Hs Hsp Hhigh Hb; cbn in *; [by subst|]. destruct Hs as (-> & Ht & Hs), Hsp as (H1 & H2 & H3).
  assert (bp < x) by (apply (Hhigh x t); by left). assert (x < ptr h x \/ ptr h x < bp) as Hn.
  { destruct X as [|[y r] X]; cbn in *; [right; lia|left]. destruct Hs as (-> & _), H3 as (? & _). lia. }
  rewrite (proj2 (Z.ltb_ge x bp)) by lia. cbn [andb orb].
  assert (((ptr h x <=? x) && (bp <? ptr h x)) = false) as -> by (apply andb_false_iff; destruct Hn; [left; apply Z.leb_gt; lia|right; apply Z.ltb_ge; lia]).
  eapply IH; [done..| |done]. intros. eapply Hhigh. by right.
Qed.

Lemma scan_stop h bp p lo L2 n : seg h (ptr h p) L2 base -> p < bp -> base <= p -> spaced lo L2 -> (forall x t, (x, t) ∈ L2 -> bp < x) ->
  free_scan (S n) h bp p = Some p.
Proof.
  intros Hs Hp Hb Hsp Hhigh. cbn [free_scan]. rewrite (proj2 (Z.ltb_lt p bp)) by done. cbn [andb orb]. destruct L2 as [|[y t] L2]; cbn in Hs.
  - rewrite Hs. rewrite (proj2 (Z.ltb_ge bp base)), (proj2 (Z.leb_le base p)) by lia. done.
  - destruct Hs as (-> & _). by rewrite (proj2 (Z.ltb_lt bp y)) by (apply (Hhigh y t); by left).
Qed.

Lemma free_scan_spec h bp L1 p s L2 f sf fuel : let L := L1 ++ (p, s) :: L2 in
  seg h base L base -> spaced (base - 1) L -> (exists B, L = (base, 0) :: B) -> (f, sf) ∈ L ->
  (forall x t, (x, t) ∈ L1 ++ [(p, s)] -> x < bp) -> (forall x t, (x, t) ∈ L2 -> bp < x) -> (length L < fuel)%nat ->
  free_scan fuel h bp f = Some p.
Proof.
  intros L Hseg Hsp [B HB] Hf Hlow Hhigh Hfuel. unfold L in *. clear L.
  assert (p < bp) as Hp by (apply (Hlow p s); set_solver).
  pose proof Hseg as (c & Hs1 & Hs2)%free_seg_app. cbn in Hs2. destruct Hs2 as (-> & Hps & Hs2).
  pose proof (proj1 (spaced_app _ _ _) Hsp) as [Hsp1 Hsp2]. cbn in Hsp2. destruct Hsp2 as (Hp1 & Hp2 & Hsp2).
  assert (base <= p) as Hbp by (pose proof (last_end_ge _ _ Hsp1); lia).
  assert (forall n, free_scan (S n) h bp p = Some p) as Hstop by (intros; by eapply scan_stop).
  assert (forall n A q, (exists A', L1 = A' ++ A) -> seg h q A p -> free_scan (length A + S n) h bp q = Some p) as Hlow'.
  { intros n A q [A' ->] HA. rewrite app_assoc_reverse, spaced_app in Hsp. destruct Hsp as [_ Hsp]. change (A ++ (p, s) :: L2) with (A ++ [(p, s)] ++ L2) in Hsp.
    rewrite app_assoc, spaced_app in Hsp. rewrite (scan_low h bp p s (last_end (base - 1) A') A (S n) q); [apply Hstop|done|apply Hsp| |done].
    intros x t Hx. apply (Hlow x t). set_solver. }
  rewrite length_app in Hfuel. cbn in Hfuel. apply elem_of_app in Hf as [Hf|Hf].
  - apply list_elem_of_split in Hf as (A & A' & ->). apply free_seg_app in Hs1 as (c & _ & Hs1). assert (c = f) as -> by apply Hs1.
    rewrite length_app in Hfuel. cbn in Hfuel. replace fuel with (length ((f, sf) :: A') + S (fuel - length A' - 2))%nat by (cbn; lia).
    apply Hlow'; [by exists A|done].
  - apply elem_of_cons in Hf as [[= -> ->]|Hf].
    { destruct fuel; [lia|]. apply Hstop. }
    apply list_elem_of_split in Hf as (A & A' & ->). apply free_seg_app in Hs2 as (c & _ & Hs2). assert (c = f) as -> by apply Hs2.
    rewrite length_app in Hfuel. cbn in Hfuel. replace fuel with (length ((f, sf) :: A') + (length L1 + S (fuel - length A' - length L1 - 2)))%nat by (cbn; lia).
    apply spaced_app in Hsp2 as [_ Hsp2].
    rewrite (scan_high h bp _ _ _ _ Hs2 Hsp2); [|intros x t Hx; apply (Hhigh x t); set_solver|].
    + apply Hlow'; [by exists []|done].
    + apply (Hlow base 0). destruct L1; cbn in HB; [injection HB as -> -> _|injection HB as -> _]; by left.
Qed.
End free.

(** ** Linking a block *)

Lemma hdr_set_ptr h p v x : hdr (set_ptr p v h) x = if decide (x = p) then (v, size h p) else hdr h x.
Proof. cbn [set_ptr set_size hdr]. case_decide; [subst; by rewrite fn_lookup_insert|by rewrite fn_lookup_insert_ne]. Qed.
Lemma hdr_set_size h p v x : hdr (set_size p v h) x = if decide (x = p) then (ptr h p, v) else hdr h x.
Proof. cbn [set_ptr set_size hdr]. case_decide; [subst; by rewrite fn_lookup_insert|by rewrite fn_lookup_insert_ne]. Qed.

Lemma ptr_set_size h p v x : ptr (set_size p v h) x = ptr h x.
Proof. unfold ptr at 1. rewrite hdr_set_size. by case_decide; subst. Qed.
Lemma size_set_ptr h p v x : size (set_ptr p v h) x = size h x.
Proof. unfold size at 1. rewrite hdr_set_ptr. by case_decide; subst. Qed.
Lemma ptr_set_ptr h p v : ptr (set_ptr p v h) p = v.
Proof. unfold ptr. by rewrite hdr_set_ptr, decide_True. Qed.
Lemma size_set_size h p v : size (set_size p v h) p = v.
Proof. unfold size. by rewrite hdr_set_size, decide_True. Qed.

Section link.
Context {OS : Os}.

(** Only [base] is empty. *)
Definition blocks_pos L : Prop := forall x s, (x, s) ∈ L -> (x = base /\ s = 0) \/ (x <> base /\ 0 < s).

(** [h'] differs from [h] in the header at [p] only. *)
Definition but_at (p : Z) h h' : Prop := freep h' = freep h /\ brk h' = brk h /\ forall x, x <> p -> hdr h' x = hdr h x.

Lemma link_next_spec h bp p sz lo L2 top : seg h (ptr h p) L2 base -> spaced lo L2 -> size h bp = sz -> 0 < sz -> 0 <= base < bp -> bp <> p ->
  last_end lo L2 <= top -> bp + sz <= top -> top < 2 ^ 32 -> (forall x t, (x, t) ∈ L2 -> bp + sz <= x) ->
  let h' := link_next h bp p in
  exists sz' L2', but_at bp h h' /\ seg h' bp ((bp, sz') :: L2') base /\ spaced (bp - 1) ((bp, sz') :: L2') /\ sz <= sz' /\
    (last_end (bp - 1) ((bp, sz') :: L2') <= top) /\ (forall b, b ∈ L2' -> b ∈ L2) /\ (length L2' <= length L2)%nat /\
    (forall u, covers u (bp, sz) + occ L2 u = covers u (bp, sz') + occ L2' u).
Proof.
  intros Hs Hsp Hsz Hpos Hb Hne Htop Htop2 Hmax Hafter h'. unfold h', link_next. rewrite Hsz. destruct (Z.eqb_spec (bp + sz) (ptr h p)) as [E|E].
  - destruct L2 as [|[y t] L2]; cbn in Hs; [lia|]. destruct Hs as (Ey & Et & Hs). cbn in Hsp. destruct Hsp as (Hy1 & Ht0 & Hsp). rewrite <- E in Ey. subst y.
    rewrite <- E. rewrite Et. pose proof (last_end_ge _ _ Hsp) as Hle. cbn in Htop. exists (sz + t), L2.
    assert (forall x r, (x, r) ∈ L2 -> x <> bp) as Hfr by (intros x r Hx; destruct (spaced_above _ _ _ _ Hsp Hx); lia).
    split_and!.
    + split_and!; [done|done|]. intros x Hx. rewrite hdr_set_ptr, hdr_set_size, !decide_False; done.
    + cbn [seg]. split_and!; [done| |].
      * rewrite size_set_ptr, size_set_size, u32_id; lia.
      * rewrite ptr_set_ptr, !ptr_set_size, <- E. eapply seg_frame; [|exact Hs].
        intros x r Hx. rewrite hdr_set_ptr, hdr_set_size, !decide_False by (by eapply Hfr). done.
    + cbn. split_and!; [lia|lia|]. by replace (bp + (sz + t)) with (bp + sz + t) by lia.
    + lia.
    + cbn. by replace (bp + (sz + t)) with (bp + sz + t) by lia.
    + intros b Hb'. by right.
    + cbn. lia.
    + intros u. rewrite occ_cons. rewrite <- (covers_join u bp sz t) by lia. lia.
  - exists sz, L2. assert (forall x r, (x, r) ∈ L2 -> x <> bp) as Hfr by (intros x r Hx; specialize (Hafter _ _ Hx); lia).
    assert (spaced (bp + sz) L2) as Hsp'.
    { destruct L2 as [|[y t] L2]; [done|]. cbn in *. destruct Hs as (<- & _), Hsp as (? & ? & ?). split_and!; try done. specialize (Hafter (ptr h p) t ltac:(by left)). lia. }
    split_and!.
    + split_and!; [done|done|]. intros x Hx. rewrite hdr_set_ptr, decide_False; done.
    + cbn [seg]. split_and!; [done| |].
      * by rewrite size_set_ptr.
      * rewrite ptr_set_ptr. eapply seg_frame; [|exact Hs]. intros x r Hx. rewrite hdr_set_ptr, decide_False by (by eapply Hfr). done.
    + cbn. split_and!; [lia|lia|done].
    + lia.
    + cbn. destruct L2 as [|[y t] L2]; [done|]. cbn in *. done.
    + done.
    + done.
    + done.
Qed.

Lemma link_prev_spec h bp p s sz L1 L2 top : seg h base (L1 ++ [(p, s)]) (ptr h p) -> spaced (base - 1) (L1 ++ [(p, s)]) -> 0 <= base -> p < bp -> p + s <= bp ->
  blocks_pos (L1 ++ [(p, s)]) -> blocks_pos L2 -> seg h bp ((bp, sz) :: L2) base -> spaced (bp - 1) ((bp, sz) :: L2) -> 0 < sz ->
  last_end (bp - 1) ((bp, sz) :: L2) <= top -> top < 2 ^ 32 ->
  let h' := link_prev h bp p in
  exists L', but_at p h h' /\ seg h' base L' base /\ spaced (base - 1) L' /\ last_end (base - 1) L' <= top /\ (exists t, (p, t) ∈ L') /\ blocks_pos L' /\
    (exists x t, (x, t) ∈ L' /\ sz <= t) /\ (length L' <= length L1 + 2 + length L2)%nat /\
    (forall u, occ L' u = occ (L1 ++ (p, s) :: (bp, sz) :: L2) u).
Proof.
  intros Hs Hsp Hb Hp Hps Hpos1 Hpos2 Hs2 Hsp2 Hsz Htop Hmax h'. unfold h', link_prev.
  apply free_seg_app in Hs as (c & Hs1 & Hs). cbn in Hs. destruct Hs as (-> & Hsize & _). rewrite Hsize.
  apply spaced_app in Hsp as [Hsp1 Hsp]. cbn in Hsp. destruct Hsp as (Hp1 & Hs0' & _). pose proof (last_end_ge _ _ Hsp1).
  assert (forall x r, (x, r) ∈ L1 -> x <> p) as Hfr1 by (intros x r Hx; pose proof (spaced_below _ _ _ _ Hsp1 Hx); destruct (spaced_above _ _ _ _ Hsp1 Hx); lia).
  assert (forall x r, (x, r) ∈ (bp, sz) :: L2 -> x <> p) as Hfr2 by (intros x r Hx; destruct (spaced_above _ _ _ _ Hsp2 Hx); lia).
  cbn in Hs2, Hsp2, Htop. destruct Hs2 as (_ & Hsz2 & Hs2), Hsp2 as (_ & _ & Hsp2). pose proof (last_end_ge _ _ Hsp2) as Hge. destruct (Z.eqb_spec (p + s) bp) as [E|E].
  - exists (L1 ++ (p, s + sz) :: L2). split_and!.
    + split_and!; [done|done|]. intros x Hx. rewrite hdr_set_ptr, hdr_set_size, !decide_False; done.
    + apply free_seg_app. exists p. split.
      * eapply seg_frame; [|exact Hs1]. intros x r Hx. rewrite hdr_set_ptr, hdr_set_size, !decide_False by (by eapply Hfr1). done.
      * cbn [seg]. split_and!; [done| |].
        -- rewrite size_set_ptr, size_set_size, Hsz2, u32_id; lia.
        -- rewrite ptr_set_ptr, ptr_set_size.
           eapply seg_frame; [|exact Hs2]. intros x r Hx. rewrite hdr_set_ptr, hdr_set_size, !decide_False by (eapply Hfr2; by right). done.
    + apply spaced_app. split; [done|]. cbn. split_and!; [lia|lia|]. by replace (p + (s + sz)) with (bp + sz) by lia.
    + rewrite last_end_app. cbn. by replace (p + (s + sz)) with (bp + sz) by lia.
    + eexists. apply elem_of_app. right. by left.
    + intros x r [Hx|[[= -> ->]|Hx]%elem_of_cons]%elem_of_app; [apply Hpos1; set_solver| |by apply Hpos2].
      right. destruct (Hpos1 p s ltac:(set_solver)); lia.
    + exists p, (s + sz). split; [apply elem_of_app; right; by left|lia].
    + rewrite length_app. cbn. lia.
    + intros u. rewrite !occ_app, !occ_cons, <- E, <- (covers_join u p s sz) by lia. lia.
  - exists (L1 ++ (p, s) :: (bp, sz) :: L2). split_and!.
    + split_and!; [done|done|]. intros x Hx. rewrite hdr_set_ptr, !decide_False; done.
    + apply free_seg_app. exists p. split.
      * eapply seg_frame; [|exact Hs1]. intros x r Hx. rewrite hdr_set_ptr, !decide_False by (by eapply Hfr1). done.
      * cbn [seg]. rewrite !size_set_ptr, ptr_set_ptr. split_and!; [done|done|done|done|].
        unfold ptr at 1. rewrite hdr_set_ptr, decide_False by lia.
        eapply seg_frame; [|exact Hs2]. intros x r Hx. rewrite hdr_set_ptr, !decide_False by (eapply Hfr2; by right). done.
    + apply spaced_app. split; [done|]. cbn. split_and!; try done; lia.
    + rewrite last_end_app. done.
    + eexists. apply elem_of_app. right. by left.
    + intros x r [Hx|[Hx|[[= -> ->]|Hx]%elem_of_cons]%elem_of_cons]%elem_of_app; [apply Hpos1; set_solver..| |by apply Hpos2]. right. lia.
    + exists bp, sz. split; [apply elem_of_app; right; right; by left|lia].
    + rewrite length_app. cbn. lia.
    + done.
Qed.
End link.

(** ** The invariant *)

Section correct.
Context {OS : Os}.

(** The free blocks [L] and the blocks [live] of the program tile the memory
    from [start] to the break. *)
Record heap_ok (start : Z) h L (live : list (Z * Z)) : Prop := {
  ok_base : 0 < base < start;
  ok_seg : seg h base L base;
  ok_spaced : spaced (base - 1) L;
  ok_pos : blocks_pos L;
  ok_freep : exists s, (freep h, s) ∈ L;
  ok_brk : brk h = brk h / header_bytes * header_bytes;
  ok_top : start <= brk h / header_bytes < 2 ^ 32;
  ok_tiles : forall u, occ (L ++ live) u = if (start <=? u) && (u <? brk h / header_bytes) then 1 else 0;
  ok_live : forall b s, (b, s) ∈ live -> size h b = s /\ 0 < s;
}.

Section inv.
Context {start : Z} {h : heap} {L live : list (Z * Z)} (Hok : heap_ok start h L live).

Lemma ok_once u : occ (L ++ live) u <= 1.
Proof. rewrite (ok_tiles _ _ _ _ Hok). destruct (_ && _); lia. Qed.

Lemma ok_in b s : (b, s) ∈ L ++ live -> 0 < s -> start <= b /\ b + s <= brk h / header_bytes.
Proof.
  intros Hin Hs. pose proof (ok_tiles _ _ _ _ Hok) as Ht.
  assert (forall u, b <= u < b + s -> start <= u < brk h / header_bytes) as H.
  { intros u Hu. apply (occ_elem _ _ u) in Hin. rewrite covers_at, Ht in Hin by done. destruct (Z.leb_spec start u), (Z.ltb_spec u (brk h / header_bytes)); cbn in Hin; lia. }
  pose proof (H b). pose proof (H (b + s - 1)). lia.
Qed.

Lemma ok_head : exists B, L = (base, 0) :: B.
Proof.
  destruct (ok_freep _ _ _ _ Hok) as [s Hf]. pose proof (ok_seg _ _ _ _ Hok) as Hseg. destruct L as [|[x t] B]; [set_solver|].
  destruct Hseg as (<- & _). exists B. destruct (ok_pos _ _ _ _ Hok base t); [by left|naive_solver|naive_solver].
Qed.

End inv.

Lemma ok_end {start h L live} : heap_ok start h L live -> last_end (base - 1) L <= brk h / header_bytes.
Proof.
  intros Hok. pose proof (ok_base _ _ _ _ Hok). pose proof (ok_top _ _ _ _ Hok). destruct L as [|[x t] B _] using rev_ind; [cbn; lia|].
  rewrite last_end_app. cbn. destruct (ok_pos _ _ _ _ Hok x t) as [[-> ->]|[_ Ht]]; [set_solver|lia|]. apply (ok_in Hok); [set_solver|done].
Qed.

(** Different blocks have different headers. *)
Lemma free_apart {start h L live} : heap_ok start h L live -> forall p s b t, (p, s) ∈ L -> (b, t) ∈ live -> b <> p.
Proof.
  intros Hok p s b t Hp Hb. destruct (ok_live _ _ _ _ Hok b t Hb) as [_ Ht]. pose proof (ok_base _ _ _ _ Hok).
  destruct (ok_in Hok b t) as [Hb1 _]; [apply elem_of_app; by right|done|]. destruct (ok_pos _ _ _ _ Hok p s Hp) as [[-> _]|[_ Hs]]; [lia|].
  destruct (occ_apart (p, s) (b, t) L live (ok_once Hok) Hp Hb Hs Ht); cbn in *; lia.
Qed.
Lemma live_apart {start h L live bp sz} : heap_ok start h L ((bp, sz) :: live) -> forall b t, (b, t) ∈ live -> b <> bp.
Proof.
  intros Hok b t Hb. destruct (ok_live _ _ _ _ Hok b t) as [_ Ht]; [by right|]. destruct (ok_live _ _ _ _ Hok bp sz) as [_ Hsz]; [by left|].
  destruct (occ_apart (bp, sz) (b, t) (L ++ [(bp, sz)]) live) as [H|H]; [|apply elem_of_app; right; by left|done|done|done|cbn in H; lia|cbn in H; lia].
  intros u. rewrite <- app_assoc. apply (ok_once Hok).
Qed.

Lemma spaced_split bp lo L : spaced lo L -> exists A B, L = A ++ B /\ (forall x s, (x, s) ∈ A -> x < bp) /\ (forall x s, (x, s) ∈ B -> bp <= x).
Proof.
  revert lo. induction L as [|[x s] L IH]; intros lo Hsp; [exists [], []; set_solver|]. cbn in Hsp. destruct Hsp as (H1 & H2 & H3).
  destruct (decide (x < bp)) as [Hx|Hx].
  - destruct (IH _ H3) as (A & B & -> & HA & HB). exists ((x, s) :: A), B. split_and!; [done| |done].
    intros y t [[= -> ->]|Hy]%elem_of_cons; [done|by eapply HA].
  - exists [], ((x, s) :: L). split_and!; [done|set_solver|]. intros y t [[= -> ->]|Hy]%elem_of_cons; [lia|].
    destruct (spaced_above _ _ _ _ H3 Hy). lia.
Qed.

(** Where a block of the program lies between the free ones. *)
Lemma live_between start h L live bp sz : heap_ok start h L ((bp, sz) :: live) ->
  exists L1 p s L2, L = L1 ++ (p, s) :: L2 /\ (forall x t, (x, t) ∈ L1 ++ [(p, s)] -> x < bp /\ x + t <= bp) /\
    (forall x t, (x, t) ∈ L2 -> bp + sz <= x).
Proof.
  intros Hok. destruct (ok_live _ _ _ _ Hok bp sz) as [_ Hsz]; [by left|]. destruct (ok_in Hok bp sz) as [Hbp Htop]; [set_solver|done|].
  pose proof (ok_base _ _ _ _ Hok) as Hb. destruct (spaced_split bp _ _ (ok_spaced _ _ _ _ Hok)) as (A & L2 & E & HA & HB).
  assert (forall x t, (x, t) ∈ L -> 0 < t -> x + t <= bp \/ bp + sz <= x) as Hap.
  { intros x t Hx Ht. apply (occ_apart (x, t) (bp, sz) L ((bp, sz) :: live)); [apply (ok_once Hok)|done|by left|done|done]. }
  destruct A as [|[p s] L1 _] using rev_ind.
  { exfalso. destruct (ok_head Hok) as [B EB]. rewrite E in EB. cbn in EB. specialize (HB base 0). rewrite EB in HB. specialize (HB ltac:(by left)). lia. }
  exists L1, p, s, L2. rewrite E, <- app_assoc in *. split_and!; [done| |].
  - intros x t Hx. specialize (HA x t Hx). split; [done|].
    destruct (ok_pos _ _ _ _ Hok x t) as [[-> ->]|[_ Ht]]; [set_solver|lia|]. destruct (Hap x t); [set_solver|done|lia|lia].
  - intros x t Hx. specialize (HB x t Hx). destruct (ok_pos _ _ _ _ Hok x t) as [[-> ->]|[_ Ht]]; [set_solver|lia|]. destruct (Hap x t); [set_solver|done|lia|lia].
Qed.

Lemma free_ok start h L live live' bp sz fuel : heap_ok start h L live -> live ≡ₚ (bp, sz) :: live' -> (length L < fuel)%nat ->
  exists h' L', free fuel h (bp + 1) = Some h' /\ heap_ok start h' L' live' /\ brk h' = brk h /\
    (exists x t, (x, t) ∈ L' /\ sz <= t) /\ (length L' <= length L + 1)%nat.
Proof.
  intros Hok' Hperm Hfuel. assert (heap_ok start h L ((bp, sz) :: live')) as Hok.
  { destruct Hok'. split; try done; intros; [rewrite <- (occ_perm (L ++ live)) by (by rewrite Hperm); done|]. apply ok_live0. by rewrite Hperm. }
  clear Hok' Hperm live. destruct (live_between _ _ _ _ _ _ Hok) as (L1 & p & s & L2 & -> & Hlow & Hhigh).
  destruct (ok_live _ _ _ _ Hok bp sz) as [Hsize Hsz]; [by left|]. destruct (ok_in Hok bp sz) as [Hbp Htop]; [set_solver|done|].
  pose proof (ok_base _ _ _ _ Hok) as Hb. pose proof (ok_end Hok) as Hend. destruct (ok_top _ _ _ _ Hok) as [_ Hmax].
  unfold free. replace (bp + 1 - 1) with bp by lia. destruct (ok_freep _ _ _ _ Hok) as [sf Hf].
  rewrite (free_scan_spec h bp L1 p s L2 (freep h) sf fuel); [|apply Hok|apply Hok|apply (ok_head Hok)|done|intros; by eapply Hlow|intros x t Hx; specialize (Hhigh x t Hx); lia|done].
  eexists. pose proof (ok_seg _ _ _ _ Hok) as (c & Hs1 & Hs2)%free_seg_app. cbn in Hs2. destruct Hs2 as (-> & Hps & Hs2).
  pose proof (ok_spaced _ _ _ _ Hok) as Hsp. pose proof (proj1 (spaced_app _ _ _) Hsp) as [Hsp1 Hsp2]. cbn in Hsp2. destruct Hsp2 as (Hp1 & Hs0 & Hsp2).
  rewrite last_end_app in Hend. cbn in Hend. destruct (Hlow p s ltac:(set_solver)) as [Hpb Hpsb].
  destruct (link_next_spec h bp p sz (p + s) L2 (brk h / header_bytes)) as (sz' & L2' & Hbut & Hseg' & Hsp' & Hle & Hend' & Hsub & Hlen & Hocc); [done..|lia|lia|lia|done|done|done|].
  set (h1 := link_next h bp p) in *. destruct Hbut as (Hfp1 & Hbrk1 & Hfr1).
  destruct (link_prev_spec h1 bp p s sz' L1 L2' (brk h / header_bytes)) as (L' & Hbut2 & Hseg2 & Hsp'' & Hend2 & Hin & Hpos & (xb & tb & Hbig & Hbigs) & Hlen2 & Hocc2); [| | | | | | |done|done|lia|done|done|].
  { apply (seg_frame h); [|apply free_seg_app; exists p; split; [done|]; cbn; split_and!; [done|done|unfold ptr; by rewrite Hfr1 by lia]].
    intros x t Hx. apply Hfr1. destruct (Hlow x t Hx). lia. }
  { change (L1 ++ (p, s) :: L2) with (L1 ++ [(p, s)] ++ L2) in Hsp. rewrite app_assoc, spaced_app in Hsp. apply Hsp. }
  { lia. } { lia. } { lia. }
  { intros x t Hx. apply (ok_pos _ _ _ _ Hok). set_solver. }
  { intros x t Hx. apply (ok_pos _ _ _ _ Hok). apply elem_of_app. right. right. by apply Hsub. }
  destruct Hbut2 as (Hfp2 & Hbrk2 & Hfr2). set (h2 := link_prev h1 bp p) in *. exists L'. split; [done|].
  split; [|split; [exact (eq_trans Hbrk2 Hbrk1)|split; [exists xb, tb; split; [done|lia]|rewrite length_app; cbn; lia]]].
  fold h1. fold h2. clearbody h2 h1. split; cbn [set_freep brk freep]; rewrite ?Hbrk2, ?Hbrk1; try apply Hok; try done.
  - by apply (seg_frame h2).
  - intros u. rewrite <- (ok_tiles _ _ _ _ Hok). rewrite !occ_app, Hocc2, !occ_app, !occ_cons. specialize (Hocc u). lia.
  - intros b t Hb'. destruct (ok_live _ _ _ _ Hok b t) as [H1 H2]; [by right|]. split; [|done]. rewrite <- H1. unfold size. cbn [set_freep hdr].
    rewrite Hfr2, Hfr1; [done|by apply (live_apart Hok b t)|]. apply (free_apart Hok p s b t); [set_solver|by right].
Qed.

(** ** malloc *)

(** More memory becomes a block of the program, which [free] adds to the list. *)
Lemma ok_grow start h L live nu : heap_ok start h L live -> 0 < nu -> brk h / header_bytes + nu < 2 ^ 32 ->
  let hp := brk h / header_bytes in
  heap_ok start (set_size hp nu (set_brk (brk h + nu * header_bytes) h)) L ((hp, nu) :: live).
Proof.
  intros Hok Hnu Hmax hp. pose proof (ok_top _ _ _ _ Hok) as Htop. pose proof (ok_base _ _ _ _ Hok) as Hb.
  assert ((brk h + nu * header_bytes) / header_bytes = hp + nu) as E by (rewrite Z.div_add; done).
  assert (forall x s, (x, s) ∈ L -> x <> hp) as HfL.
  { intros x s Hx. destruct (ok_pos _ _ _ _ Hok x s Hx) as [[-> _]|[_ Hs]]; [unfold hp; lia|]. destruct (ok_in Hok x s) as [_ ?]; [apply elem_of_app; by left|done|unfold hp; lia]. }
  split; cbn [set_size set_brk brk freep hdr].
  - done.
  - eapply seg_frame; [|apply Hok]. intros x s Hx. rewrite hdr_set_size, decide_False by (by eapply HfL). done.
  - apply Hok.
  - apply Hok.
  - apply Hok.
  - rewrite E. pose proof (ok_brk _ _ _ _ Hok). unfold hp in *. lia.
  - rewrite E. unfold hp in *. lia.
  - intros u. rewrite E, occ_app, occ_cons. pose proof (ok_tiles _ _ _ _ Hok u) as Ht. rewrite occ_app in Ht. unfold covers. cbn [fst snd]. fold hp in Ht, Htop.
    destruct (Z.leb_spec start u), (Z.leb_spec hp u), (Z.ltb_spec u (hp + nu)), (Z.ltb_spec u hp); cbn in *; lia.
  - intros b s [[= -> ->]|Hin]%elem_of_cons; [by rewrite size_set_size|]. destruct (ok_live _ _ _ _ Hok b s Hin) as [H1 H2]. split; [|done].
    destruct (ok_in Hok b s) as [_ ?]; [apply elem_of_app; by right|done|]. unfold size. rewrite hdr_set_size, decide_False by (unfold hp; lia). done.
Qed.

(** What the program relies on of the kernel: no more memory than there is. *)
Class OsLaws := { granted_limit : forall b n, granted b n = true -> b + n <= 0x8000000 }.
Context {HOS : OsLaws}.

Lemma ok_freep_pos {start h L live} : heap_ok start h L live -> 0 < freep h.
Proof.
  intros Hok. destruct (ok_freep _ _ _ _ Hok) as [s Hs]. pose proof (ok_base _ _ _ _ Hok). destruct (spaced_above _ _ _ _ (ok_spaced _ _ _ _ Hok) Hs). lia.
Qed.

Lemma morecore_ok start h L live nunits fuel : heap_ok start h L live -> 0 < nunits -> nunits * header_bytes < 2 ^ 31 -> (length L < fuel)%nat ->
  (morecore fuel h nunits = Some (h, 0) /\ exists n, granted (brk h) n = false) \/
  exists h' L', morecore fuel h nunits = Some (h', freep h') /\ heap_ok start h' L' live /\ (exists x t, (x, t) ∈ L' /\ nunits <= t) /\ (length L' <= length L + 1)%nat.
Proof.
  intros Hok Hn Hmax Hfuel. unfold morecore. set (nu := if nunits <? 4096 then 4096 else nunits).
  assert (nunits <= nu /\ 0 < nu /\ nu * header_bytes < 2 ^ 31) as (Hnu1 & Hnu2 & Hnu3) by (unfold nu, header_bytes in *; destruct (Z.ltb_spec nunits 4096); lia).
  unfold sbrk. rewrite i32_id by (unfold header_bytes in *; lia). destruct (granted (brk h) (nu * header_bytes)) eqn:Eg; [right|left; eauto].
  apply granted_limit in Eg. set (hp := brk h / header_bytes).
  assert (hp + nu < 2 ^ 32) as Hlim by (pose proof (ok_brk _ _ _ _ Hok); unfold hp, header_bytes in *; lia).
  destruct (free_ok start _ L _ live hp nu fuel (ok_grow start h L live nu Hok Hnu2 Hlim)) as (h' & L' & E & Hok' & _ & (x & t & Hx & Ht) & Hlen); [done|done|].
  fold hp in E. rewrite E. exists h', L'. split_and!; try done. exists x, t. split; [done|lia].
Qed.

(** The block found is cut: the rest stays where it is. *)
Lemma take_block_ok start h L live nunits y x t sy : heap_ok start h L live -> (y, sy) ∈ L -> ptr h y = x -> (x, t) ∈ L -> 0 < nunits <= t ->
  exists h' L' a, take_block h nunits y x = (h', a) /\ heap_ok start h' L' ((a - 1, nunits) :: live) /\ a <> 0 /\ brk h' = brk h.
Proof.
  intros Hok Hy Hptr Hx Hn. pose proof (ok_base _ _ _ _ Hok) as Hb. pose proof (seg_size _ _ _ _ _ _ (ok_seg _ _ _ _ Hok) Hx) as Hsx.
  apply list_elem_of_split in Hy as (A & R & ->). pose proof (ok_seg _ _ _ _ Hok) as (c & Hs1 & Hs2)%free_seg_app. cbn in Hs2. destruct Hs2 as (-> & Hsy & Hs2). rewrite Hptr in Hs2.
  destruct (ok_pos _ _ _ _ Hok x t Hx) as [[-> ->]|[Hxb Ht]]; [lia|]. destruct R as [|[x' t'] B]; [cbn in Hs2; done|]. cbn in Hs2. destruct Hs2 as (<- & Ht' & HsB). assert (t' = t) as -> by congruence.
  pose proof (ok_spaced _ _ _ _ Hok) as Hsp. apply spaced_app in Hsp as [HspA Hsp]. cbn in Hsp. destruct Hsp as (Hy1 & Hsy0 & Hx1 & _ & HspB).
  assert (forall z r, (z, r) ∈ A -> z < y) as HA by (intros z r Hz; pose proof (spaced_below _ _ _ _ HspA Hz); destruct (spaced_above _ _ _ _ HspA Hz); lia).
  assert (forall z r, (z, r) ∈ B -> x + t < z) as HB by (intros z r Hz; destruct (spaced_above _ _ _ _ HspB Hz); lia).
  destruct (ok_in Hok x t) as [Hx0 Hxt]; [apply elem_of_app; by left|done|]. pose proof (last_end_ge _ _ HspA) as HlA. unfold take_block. rewrite Hsx. destruct (Z.eqb_spec t nunits) as [->|Hne].
  - eexists _, (A ++ (y, sy) :: B), _. split; [done|]. replace (x + 1 - 1) with x by lia. split; [|split; [lia|done]]. split; cbn [set_freep set_ptr brk freep]; try apply Hok.
    + apply (seg_frame (set_ptr y (ptr h x) h)); [done|]. apply free_seg_app. exists y. split.
      * eapply seg_frame; [|exact Hs1]. intros z r Hz. rewrite hdr_set_ptr, decide_False by (specialize (HA z r Hz); lia). done.
      * cbn [seg]. rewrite size_set_ptr, ptr_set_ptr. split_and!; [done|done|]. eapply seg_frame; [|exact HsB].
        intros z r Hz. rewrite hdr_set_ptr, decide_False by (specialize (HB z r Hz); lia). done.
    + apply spaced_app. split; [done|]. cbn. split_and!; [done|done|]. destruct B as [|[z r] B]; [done|]. cbn in *. destruct HspB as (? & ? & ?). split_and!; [lia|done..].
    + intros z r [Hz|[Hz|Hz]%elem_of_cons]%elem_of_app; apply (ok_pos _ _ _ _ Hok); apply elem_of_app; [by left|right; rewrite Hz; by left|right; right; by right].
    + exists sy. apply elem_of_app. right. by left.
    + intros u. rewrite <- (ok_tiles _ _ _ _ Hok). rewrite !occ_app, !occ_cons. lia.
    + intros b s [[= -> ->]|Hin]%elem_of_cons; unfold size; cbn [hdr set_freep]; [fold (size (set_ptr y (ptr h x) h) x); by rewrite size_set_ptr|].
      fold (size (set_ptr y (ptr h x) h) b). rewrite size_set_ptr. by apply (ok_live _ _ _ _ Hok).
  - rewrite size_set_size, u32_id by (pose proof (ok_top _ _ _ _ Hok); lia). set (r := t - nunits). set (p := x + r). set (h1 := set_size p nunits (set_size x r h)).
    assert (forall z, z <> x -> z <> p -> hdr h1 z = hdr h z) as Hfr by (intros z H1 H2; unfold h1; by rewrite !hdr_set_size, !decide_False).
    eexists _, (A ++ (y, sy) :: (x, r) :: B), _. split; [done|]. replace (p + 1 - 1) with p by lia. split; [|split; [unfold p; lia|done]]. split; cbn [set_freep brk freep]; try apply Hok.
    + apply (seg_frame h1); [done|]. apply free_seg_app. exists y. split.
      * eapply seg_frame; [|exact Hs1]. intros z q Hz. specialize (HA z q Hz). apply Hfr; unfold p; lia.
      * cbn [seg]. unfold size at 1, ptr at 1. rewrite Hfr by (unfold p; lia). split_and!; [done|done|done| |].
        -- unfold h1, size. rewrite hdr_set_size, decide_False by (unfold p; lia). by rewrite hdr_set_size, decide_True.
        -- unfold h1. rewrite !ptr_set_size. eapply seg_frame; [|exact HsB]. intros z q Hz. specialize (HB z q Hz). apply Hfr; unfold p, r; lia.
    + apply spaced_app. split; [done|]. cbn. split_and!; [done|done|done|unfold r; lia|]. destruct B as [|[z q] B]; [done|]. cbn in *. destruct HspB as (? & ? & ?). split_and!; [unfold r; lia|done..].
    + intros z q [Hz|[Hz|[[= -> ->]|Hz]%elem_of_cons]%elem_of_cons]%elem_of_app; [apply (ok_pos _ _ _ _ Hok); apply elem_of_app; by left| |right; unfold r; lia|].
      * apply (ok_pos _ _ _ _ Hok), elem_of_app. right. rewrite Hz. by left.
      * apply (ok_pos _ _ _ _ Hok), elem_of_app. right. right. by right.
    + exists sy. apply elem_of_app. right. by left.
    + intros u. rewrite <- (ok_tiles _ _ _ _ Hok). rewrite !occ_app, !occ_cons. pose proof (covers_join u x r nunits) as Hj.
      replace (r + nunits) with t in Hj by (unfold r; lia). fold p in Hj. specialize (Hj ltac:(unfold r; lia) ltac:(lia)). lia.
    + intros b s [[= -> ->]|Hin]%elem_of_cons; unfold size; cbn [hdr set_freep]; [fold (size h1 p); unfold h1; rewrite size_set_size; lia|].
      destruct (ok_live _ _ _ _ Hok b s Hin) as [H1 H2]. split; [|done]. rewrite Hfr; [done| |].
      * by apply (free_apart Hok x t b s).
      * intros ->. destruct (occ_apart (x, t) (p, s) (A ++ (y, sy) :: (x, t) :: B) live (ok_once Hok) Hx Hin Ht H2) as [H|H]; cbn in H; unfold p, r in H; lia.
Qed.

Lemma malloc_scan h nunits X prevp p q n : seg h p X q -> ptr h prevp = p ->
  (forall Y s, X = Y ++ [(freep h, s)] -> forall x t, (x, t) ∈ Y -> x <> freep h) -> (exists Y s, X = Y ++ [(freep h, s)]) ->
  (exists y x t, malloc_loop (length X + n) h nunits prevp p = Some (take_block h nunits y x) /\ ptr h y = x /\ (y = prevp \/ y ∈ X.*1) /\ (x, t) ∈ X /\ nunits <= t) \/
  ((forall x t, (x, t) ∈ X -> t < nunits) /\
   malloc_loop (length X + n) h nunits prevp p =
     match morecore (S n) h nunits with
     | None => None
     | Some (h, p) => if p =? 0 then Some (h, 0) else malloc_loop n h nunits p (ptr h p)
     end).
Proof.
  revert prevp p. induction X as [|[x t] X IH]; intros prevp p Hs Hprev Hne (Y & s & E); [by destruct Y|].
  cbn in Hs. destruct Hs as (-> & Ht & Hs). cbn [length Nat.add malloc_loop]. rewrite Ht. destruct (Z.leb_spec nunits t) as [Hle|Hgt].
  { left. exists prevp, x, t. split_and!; try done; [by left|by left]. }
  destruct Y as [|b Y].
  - cbn in E. injection E as -> -> ->. right. rewrite Z.eqb_refl. split; [|done]. intros x r [[= -> ->]|?]%elem_of_cons; [done|set_solver].
  - cbn in E. injection E as <- EX. assert (x <> freep h) as Hx by (apply (Hne ((x, t) :: Y) s) with t; [by rewrite EX|by left]). rewrite (proj2 (Z.eqb_neq _ _)) by done.
    destruct (IH x (ptr h x) Hs eq_refl) as [(y & z & r & -> & H1 & H2 & H3 & H4)|[H1 ->]].
    + intros Y' s' E' z r Hz. apply (Hne ((x, t) :: Y') s') with r; [by rewrite E'|by right].
    + by exists Y, s.
    + left. exists y, z, r. split_and!; try done; [|by right]. right. cbn. apply elem_of_cons. destruct H2 as [->|H2]; [by left|by right].
    + right. split; [|done]. intros z r [[= -> ->]|Hz]%elem_of_cons; [done|by eapply H1].
Qed.

(** The list from the block after [freep] on, once around. *)
Lemma ok_rotate {start h L live} : heap_ok start h L live -> exists X, X ≡ₚ L /\ seg h (ptr h (freep h)) X (ptr h (freep h)) /\
  (exists Y s, X = Y ++ [(freep h, s)]) /\ (forall Y s, X = Y ++ [(freep h, s)] -> forall x t, (x, t) ∈ Y -> x <> freep h).
Proof.
  intros Hok. destruct (ok_freep _ _ _ _ Hok) as [s Hf]. apply list_elem_of_split in Hf as (L1 & L2 & ->).
  pose proof (ok_seg _ _ _ _ Hok) as (c & Hs1 & Hs2)%free_seg_app. cbn in Hs2. destruct Hs2 as (-> & Hsf & Hs2). exists (L2 ++ L1 ++ [(freep h, s)]). split_and!.
  - rewrite app_assoc, (Permutation_app_comm L2 L1), <- app_assoc. apply Permutation_app_head. apply Permutation_sym, Permutation_cons_append.
  - apply free_seg_app. exists base. split; [done|]. apply free_seg_app. exists (freep h). split; [done|]. done.
  - exists (L2 ++ L1), s. by rewrite app_assoc.
  - intros Y s' E x t Hx ->. rewrite app_assoc in E. apply app_inj_tail in E as [<- _].
    pose proof (ok_spaced _ _ _ _ Hok) as [Hsp1 Hsp2]%spaced_app. cbn in Hsp2. destruct Hsp2 as (H1 & H2 & H3). apply elem_of_app in Hx as [Hx|Hx].
    + destruct (spaced_above _ _ _ _ H3 Hx). lia.
    + pose proof (spaced_below _ _ _ _ Hsp1 Hx). destruct (spaced_above _ _ _ _ Hsp1 Hx). lia.
Qed.

Lemma elem_fst (y : Z) L : y ∈ L.*1 -> exists s, (y, s) ∈ L.
Proof. intros ([y' s] & -> & H)%list_elem_of_fmap. by exists s. Qed.

(** Once there is a block that fits, it is found within one turn of the list. *)
Lemma malloc_found start h L live nunits n : heap_ok start h L live -> 0 < nunits -> (exists x t, (x, t) ∈ L /\ nunits <= t) ->
  exists h' L' a, malloc_loop (length L + n) h nunits (freep h) (ptr h (freep h)) = Some (h', a) /\ heap_ok start h' L' ((a - 1, nunits) :: live) /\ a <> 0 /\ brk h' = brk h.
Proof.
  intros Hok Hn (xb & tb & Hb & Htb). destruct (ok_rotate Hok) as (X & HX & Hs & Hlast & Hne). rewrite <- (Permutation_length HX).
  destruct (malloc_scan h nunits X (freep h) _ _ n Hs eq_refl Hne Hlast) as [(y & x & t & -> & Hp & Hy & Hx & Ht)|[Hsmall _]].
  - assert (exists sy, (y, sy) ∈ L) as [sy Hsy].
    { destruct Hy as [->|Hy]; [apply Hok|]. apply elem_fst in Hy as [sy Hy]. exists sy. by rewrite <- HX. }
    rewrite HX in Hx. destruct (take_block_ok start h L live nunits y x t sy Hok Hsy Hp Hx ltac:(lia)) as (h' & L' & a & -> & ?). by exists h', L', a.
  - rewrite <- HX in Hb. specialize (Hsmall _ _ Hb). lia.
Qed.

Lemma malloc_loop_ok start h L live nunits fuel : heap_ok start h L live -> 0 < nunits -> nunits * header_bytes < 2 ^ 31 -> (2 * length L + 1 < fuel)%nat ->
  (malloc_loop fuel h nunits (freep h) (ptr h (freep h)) = Some (h, 0) /\ exists n, granted (brk h) n = false) \/
  exists h' L' a, malloc_loop fuel h nunits (freep h) (ptr h (freep h)) = Some (h', a) /\ heap_ok start h' L' ((a - 1, nunits) :: live) /\ a <> 0.
Proof.
  intros Hok Hn Hmax Hfuel. destruct (decide (Exists (fun b => nunits <= b.2) L)) as [Hfit|Hfit].
  { right. replace fuel with (length L + (fuel - length L))%nat by lia. apply Exists_exists in Hfit as ([x t] & Hx & Ht).
    destruct (malloc_found start h L live nunits (fuel - length L) Hok Hn) as (h' & L' & a & H1 & H2 & H3 & _); [by exists x, t|]. by exists h', L', a. }
  destruct (ok_rotate Hok) as (X & HX & Hs & Hlast & Hne). replace fuel with (length X + (fuel - length X))%nat by (rewrite (Permutation_length HX); lia). set (n := (fuel - length X)%nat).
  assert (length L < n)%nat as Hn' by (unfold n; rewrite (Permutation_length HX); lia). clearbody n.
  destruct (malloc_scan h nunits X (freep h) _ _ n Hs eq_refl Hne Hlast) as [(y & x & t & _ & _ & _ & Hx & Ht)|[_ ->]].
  { destruct Hfit. apply Exists_exists. exists (x, t). split; [by rewrite <- HX|done]. }
  destruct (morecore_ok start h L live nunits (S n) Hok Hn Hmax ltac:(lia)) as [[-> ?]|(h' & L' & -> & Hok' & Hfit' & Hlen)]; [by left|right].
  rewrite (proj2 (Z.eqb_neq _ _)) by (pose proof (ok_freep_pos Hok'); lia). replace n with (length L' + (n - length L'))%nat by lia.
  destruct (malloc_found start h' L' live nunits (n - length L') Hok' Hn Hfit') as (h2 & L2 & a & H1 & H2 & H3 & _). by exists h2, L2, a.
Qed.

(** ** Programs *)

(** Before the first [malloc]: the program's own data ends at [start]. *)
Definition heap_start (start : Z) h : Prop :=
  freep h = 0 /\ brk h = start * header_bytes /\ 0 < base < start /\ brk h <= 0x8000000.

(** Requests whose size in bytes, with the header, is an [int]. *)
Definition request (nbytes : Z) : Prop := 0 <= nbytes < 2 ^ 31 - 32.

(** A program with the blocks [live] calls [malloc] and [free], and writes what
    it likes into its blocks. *)
Inductive ustep : heap * list (Z * Z) -> heap * list (Z * Z) -> Prop :=
  | us_malloc fuel h live n h' a :
      request n -> malloc fuel h n = Some (h', a) -> a <> 0 -> ustep (h, live) (h', (a - 1, nunits_of n) :: live)
  | us_malloc_fails fuel h live n h' :
      request n -> malloc fuel h n = Some (h', 0) -> ustep (h, live) (h', live)
  | us_free fuel h live live' bp sz h' :
      live ≡ₚ (bp, sz) :: live' -> free fuel h (bp + 1) = Some h' -> ustep (h, live) (h', live')
  | us_write h live b s u v :
      (b, s) ∈ live -> b < u < b + s -> ustep (h, live) (Heap (<[u := v]> (hdr h)) (freep h) (brk h), live).

Definition prog_ok (start : Z) (st : heap * list (Z * Z)) : Prop :=
  (heap_start start st.1 /\ st.2 = []) \/ exists L, heap_ok start st.1 L st.2.

Lemma nunits_spec n : request n -> n + header_bytes <= nunits_of n * header_bytes /\ 0 < nunits_of n /\ nunits_of n * header_bytes < 2 ^ 31.
Proof. unfold request, nunits_of, header_bytes. intros H. rewrite u32_id; zlia. Qed.

Lemma malloc_ok start h live n : prog_ok start (h, live) -> request n ->
  exists F, forall fuel, (F <= fuel)%nat -> exists h' a, malloc fuel h n = Some (h', a) /\
    if a =? 0 then prog_ok start (h', live) /\ exists m, granted (brk h) m = false
    else exists L', heap_ok start h' L' ((a - 1, nunits_of n) :: live).
Proof.
  intros Hp Hn. destruct (nunits_spec n Hn) as (_ & Hn1 & Hn2). unfold malloc. set (h1 := if freep h =? 0 then _ else h).
  assert (exists L, heap_ok start h1 L live /\ brk h1 = brk h) as (L & Hok & Hbrk).
  { destruct Hp as [[(Hf & Hb & Hbase & Hlim) E]|[L Hok]]; cbn [fst snd] in *.
    - subst live. exists [(base, 0)]. assert (brk h / header_bytes = start) as Ed by (rewrite Hb; by apply Z.div_mul).
      unfold h1. rewrite Hf. cbn [Z.eqb]. split; [|done]. split; cbn [set_size set_freep set_ptr brk freep]; rewrite ?Ed; try done.
      + cbn [seg]. rewrite size_set_size, ptr_set_size. split_and!; [done|done|]. unfold ptr. cbn [hdr set_freep]. fold (ptr (set_ptr base base h) base). apply ptr_set_ptr.
      + cbn. lia.
      + intros x s [[= -> ->]|?]%elem_of_cons; [by left|set_solver].
      + exists 0. by left.
      + unfold header_bytes in *. lia.
      + intros u. cbn. unfold covers. cbn. destruct (Z.leb_spec base u), (Z.ltb_spec u (base + 0)), (Z.leb_spec start u), (Z.ltb_spec u start); cbn; lia.
      + set_solver.
    - exists L. unfold h1. rewrite (proj2 (Z.eqb_neq _ _)) by (pose proof (ok_freep_pos Hok); lia). done. }
  clearbody h1. exists (2 * length L + 2)%nat. intros fuel Hfuel.
  destruct (malloc_loop_ok start h1 L live (nunits_of n) fuel Hok Hn1 Hn2 ltac:(lia)) as [[-> Hg]|(h' & L' & a & -> & Hok' & Ha)].
  - exists h1, 0. split; [done|]. cbn. rewrite <- Hbrk. split; [|done]. right. by exists L.
  - exists h', a. split; [done|]. rewrite (proj2 (Z.eqb_neq _ _)) by done. by exists L'.
Qed.

Lemma write_ok start h L live b s u v : heap_ok start h L live -> (b, s) ∈ live -> b < u < b + s ->
  heap_ok start (Heap (<[u := v]> (hdr h)) (freep h) (brk h)) L live.
Proof.
  intros Hok Hb Hu. destruct (ok_live _ _ _ _ Hok b s Hb) as [_ Hs]. pose proof (ok_base _ _ _ _ Hok). destruct (ok_in Hok b s) as [Hb1 _]; [apply elem_of_app; by right|done|].
  assert (forall x t, (x, t) ∈ L -> x <> u) as HL.
  { intros x t Hx ->. destruct (ok_pos _ _ _ _ Hok u t Hx) as [[-> _]|[_ Ht]]; [lia|]. destruct (occ_apart (u, t) (b, s) L live (ok_once Hok) Hx Hb Ht Hs); cbn in *; lia. }
  split; cbn [brk freep]; try apply Hok.
  - eapply seg_frame; [|apply Hok]. intros x t Hx. cbn [hdr]. by rewrite fn_lookup_insert_ne by (apply not_eq_sym; by eapply HL).
  - intros b' s' Hb'. destruct (ok_live _ _ _ _ Hok b' s' Hb') as [H1 H2]. split; [|done]. unfold size in *. cbn [hdr]. rewrite fn_lookup_insert_ne; [done|].
    intros ->. apply list_elem_of_split in Hb as (l1 & l2 & ->). assert ((b', s') ∈ l1 ++ l2) as Hin.
    { apply elem_of_app in Hb' as [?|[[= -> ->]|?]%elem_of_cons]; [apply elem_of_app; by left|lia|apply elem_of_app; by right]. }
    assert (l1 ++ (b, s) :: l2 ≡ₚ [(b, s)] ++ (l1 ++ l2)) as Hperm by (cbn; symmetry; apply Permutation_middle).
    destruct (occ_apart (b, s) (b', s') (L ++ [(b, s)]) (l1 ++ l2)) as [Hx|Hx]; [|apply elem_of_app; right; by left|done|done|done|cbn in Hx; lia|cbn in Hx; lia].
    intros z. rewrite <- app_assoc, <- (occ_perm (L ++ l1 ++ (b, s) :: l2)) by (by rewrite Hperm). apply (ok_once Hok).
Qed.

(** More fuel changes nothing. *)
Lemma free_scan_mono n m h bp p r : (n <= m)%nat -> free_scan n h bp p = Some r -> free_scan m h bp p = Some r.
Proof.
  revert m p. induction n as [|n IH]; intros m p Hm; [done|]. destruct m as [|m]; [lia|]. cbn. destruct (_ && _); [done|]. destruct (_ && _); [done|]. apply IH. lia.
Qed.
Lemma free_mono n m h ap h' : (n <= m)%nat -> free n h ap = Some h' -> free m h ap = Some h'.
Proof. intros Hm. unfold free. destruct (free_scan n _ _ _) eqn:E; [|done]. by rewrite (free_scan_mono _ _ _ _ _ _ Hm E). Qed.
Lemma morecore_mono n m h nu r : (n <= m)%nat -> morecore n h nu = Some r -> morecore m h nu = Some r.
Proof. intros Hm. unfold morecore. destruct (sbrk _ _) as [[b|] h1]; [|done]. destruct (free n _ _) eqn:E; [|done]. by rewrite (free_mono _ _ _ _ _ Hm E). Qed.
Lemma malloc_loop_mono n m h nu prevp p r : (n <= m)%nat -> malloc_loop n h nu prevp p = Some r -> malloc_loop m h nu prevp p = Some r.
Proof.
  revert m h prevp p. induction n as [|n IH]; intros m h prevp p Hm; [done|]. destruct m as [|m]; [lia|]. cbn [malloc_loop]. destruct (_ <=? _); [done|].
  destruct (_ =? _); [|apply IH; lia]. destruct (morecore (S n) h nu) as [[h1 p1]|] eqn:E; [|done]. rewrite (morecore_mono _ (S m) _ _ _ Hm E).
  destruct (p1 =? 0); [done|]. apply IH. lia.
Qed.

Lemma malloc_result start fuel h live n h' a : prog_ok start (h, live) -> request n -> malloc fuel h n = Some (h', a) ->
  if a =? 0 then prog_ok start (h', live) else prog_ok start (h', (a - 1, nunits_of n) :: live).
Proof.
  intros Hp Hn E. destruct (malloc_ok start h live n Hp Hn) as [F HF]. destruct (HF (fuel + F)%nat ltac:(lia)) as (h2 & a2 & E2 & H).
  unfold malloc in *. rewrite (malloc_loop_mono fuel (fuel + F) _ _ _ _ _ ltac:(lia) E) in E2. injection E2 as <- <-.
  destruct (a =? 0); [by destruct H|by right].
Qed.

Lemma ustep_ok start st st' : ustep st st' -> prog_ok start st -> prog_ok start st'.
Proof.
  intros Hs Hp. inversion Hs as [fuel h live n h' a Hn E Ha|fuel h live n h' Hn E|fuel h live live' bp sz h' Hl E|h live b s u v Hb Hu]; subst.
  - pose proof (malloc_result _ _ _ _ _ _ _ Hp Hn E) as H. by rewrite (proj2 (Z.eqb_neq _ _)) in H.
  - exact (malloc_result _ _ _ _ _ _ _ Hp Hn E).
  - destruct Hp as [[_ E']|[L Hok]]; cbn in *; [rewrite E' in Hl; by apply Permutation_nil_cons in Hl|].
    destruct (free_ok start h L live live' bp sz (fuel + S (length L)) Hok Hl ltac:(lia)) as (h2 & L2 & E2 & Hok2 & _).
    rewrite (free_mono fuel (fuel + S (length L)) _ _ _ ltac:(lia) E) in E2. injection E2 as <-. right. by exists L2.
  - destruct Hp as [[_ E']|[L Hok]]; cbn in *; [subst; set_solver|]. right. exists L. by eapply write_ok.
Qed.

End correct.

(** ** Concrete runs *)

(** A kernel with 128 Mbyte, and the program's data from unit 1 to unit 16. *)
#[local] Instance ex_os : Os := {| granted b n := (0 <=? b + n) && (b + n <=? 0x8000000); base := 1 |}.
#[local] Instance ex_os_laws : OsLaws.
Proof. split. intros b n H. cbn in H. apply andb_prop in H as [_ H]. by apply Z.leb_le in H. Qed.
Definition ex_heap : heap := Heap (fun _ => (0, 0)) 0 256.


(** A request of 4 Gbyte: [nu * sizeof(Header)] does not fit the [int] that
    [sbrk] takes, which gets 16; [malloc] returns a block all the same. *)
Theorem malloc_too_large : exists h, malloc (OS := ex_os) 10 ex_heap 0xffffffff = Some (h, 17) /\ brk h = brk ex_heap + 16.
Proof. eexists. vm_compute. split; reflexivity. Qed.
