(* ===== verification/Sh.v ===== *)
(** * user/sh.c: the parser of the shell

    A pointer into the command line is the rest of the line from there on, and
    a pointer kept in a command is the distance from it to the end of the line
    ([es]).  A command is a tree; [parseexec] fills in [argv] of the [execcmd]
    at the bottom of the tree while [parseredirs] wraps the tree, so that it
    carries the arguments and the wrapped redirections separately and builds
    the tree at the end.  The constructors' [malloc] is taken to succeed. *)
From S2P Require Import Prelude FsLayout Ulib.

Definition MAXARGS : nat := 10.

(** A counted string: the distances of its start and its end from [es]. *)
Definition span : Type := nat * nat.

Inductive cmd :=
  | EXEC (argv : list span)
  | REDIR (c : cmd) (file : span) (mode fd : Z)
  | PIPE (left right : cmd)
  | LIST (left right : cmd)
  | BACK (c : cmd).

Definition whitespace : list Z := [32; 9; 13; 10; 11].
Definition symbols : list Z := [60; 124; 62; 38; 59; 40; 41].   (* <|>&;() *)

Definition in_set (toks : list Z) (c : Z) : bool := match strchr toks c with Some _ => true | None => false end.

Definition ch_pipe : Z := 124.
Definition ch_lpar : Z := 40.
Definition ch_rpar : Z := 41.
Definition ch_semi : Z := 59.
Definition ch_amp : Z := 38.
Definition ch_lt : Z := 60.
Definition ch_gt : Z := 62.
Definition ch_plus : Z := 43.
Definition ch_a : Z := 97.

(** [while(s < es && strchr(whitespace, *s)) s++] *)
Fixpoint skip_ws (s : list Z) : list Z :=
  match s with c :: s' => if in_set whitespace c then skip_ws s' else s | [] => [] end.
(** The loop over the characters of a word. *)
Fixpoint word_end (s : list Z) : list Z :=
  match s with c :: s' => if negb (in_set whitespace c) && negb (in_set symbols c) then word_end s' else s | [] => [] end.

(** The token, where it starts and ends, and what follows it. *)
Definition gettoken (s : list Z) : Z * span * list Z :=
  let s := skip_ws s in
  let q := length s in
  let '(ret, s) :=
    match s with
    | [] => (0, s)
    | c :: s1 =>
        if (c =? ch_pipe) || (c =? ch_lpar) || (c =? ch_rpar) || (c =? ch_semi) || (c =? ch_amp) || (c =? ch_lt) then (c, s1)
        else if c =? ch_gt then
          match s1 with c1 :: s2 => if c1 =? ch_gt then (ch_plus, s2) else (c, s1) | [] => (c, s1) end
        else (ch_a, word_end s)
    end in
  let eq := length s in
  (ret, (q, eq), skip_ws s).

Definition peek (s toks : list Z) : bool * list Z :=
  let s := skip_ws s in
  (match s with [] => false | c :: _ => in_set toks c end, s).

(** How a parsing function ends: it returns, the shell panics (and exits), or
    the model runs out of fuel. *)
Inductive parse (A : Type) := Parsed (a : A) (s : list Z) | Syntax | OutOfFuel.
Arguments Parsed {A}. Arguments Syntax {A}. Arguments OutOfFuel {A}.

Definition then_ {A B} (p : parse A) (f : A -> list Z -> parse B) : parse B :=
  match p with Parsed a s => f a s | Syntax => Syntax | OutOfFuel => OutOfFuel end.

(** A redirection: the file, the mode and the descriptor. *)
Definition redir : Type := span * Z * Z.
Definition redircmd (c : cmd) (r : redir) : cmd := let '(f, m, d) := r in REDIR c f m d.

(** The loop of [parseredirs]: the redirections, first to last. *)
Fixpoint parseredirs (fuel : nat) (s : list Z) : parse (list redir) :=
  match fuel with
  | O => OutOfFuel
  | S n =>
      let '(b, s) := peek s [ch_lt; ch_gt] in
      if b then
        let '(tok, _, s) := gettoken s in
        let '(tok2, w, s) := gettoken s in
        if negb (tok2 =? ch_a) then Syntax
        else
          let rs := if tok =? ch_lt then [(w, O_RDONLY, 0)]
                    else if tok =? ch_gt then [(w, Z.lor (Z.lor O_WRONLY O_CREATE) O_TRUNC, 1)]
                    else if tok =? ch_plus then [(w, Z.lor O_WRONLY O_CREATE, 1)]
                    else [] in
          then_ (parseredirs n s) (fun rs' s => Parsed (rs ++ rs') s)
      else Parsed [] s
  end.

(** The loop of [parseexec]: [argv] so far, and the redirections so far. *)
Fixpoint exec_args (fuel : nat) (argv : list span) (rs : list redir) (s : list Z) : parse (list span * list redir) :=
  match fuel with
  | O => OutOfFuel
  | S n =>
      let '(b, s) := peek s [ch_pipe; ch_rpar; ch_amp; ch_semi] in
      if b then Parsed (argv, rs) s
      else
        let '(tok, w, s) := gettoken s in
        if tok =? 0 then Parsed (argv, rs) s
        else if negb (tok =? ch_a) then Syntax
        else
          let argv := argv ++ [w] in
          if (MAXARGS <=? length argv)%nat then Syntax
          else then_ (parseredirs (length s + 1) s) (fun rs' s => exec_args n argv (rs ++ rs') s)
  end.

(** The loop over [&] in [parseline]. *)
Fixpoint back_loop (fuel : nat) (c : cmd) (s : list Z) : parse cmd :=
  match fuel with
  | O => OutOfFuel
  | S n =>
      let '(b, s) := peek s [ch_amp] in
      if b then let '(_, _, s) := gettoken s in back_loop n (BACK c) s
      else Parsed c s
  end.

Fixpoint parseline (fuel : nat) (s : list Z) : parse cmd :=
  match fuel with
  | O => OutOfFuel
  | S n =>
      then_ (parsepipe n s) (fun c s =>
      then_ (back_loop (length s + 1) c s) (fun c s =>
      let '(b, s) := peek s [ch_semi] in
      if b then
        let '(_, _, s) := gettoken s in
        then_ (parseline n s) (fun c2 s => Parsed (LIST c c2) s)
      else Parsed c s))
  end
with parsepipe (fuel : nat) (s : list Z) : parse cmd :=
  match fuel with
  | O => OutOfFuel
  | S n =>
      then_ (parseexec n s) (fun c s =>
      let '(b, s) := peek s [ch_pipe] in
      if b then
        let '(_, _, s) := gettoken s in
        then_ (parsepipe n s) (fun c2 s => Parsed (PIPE c c2) s)
      else Parsed c s)
  end
with parseblock (fuel : nat) (s : list Z) : parse cmd :=
  match fuel with
  | O => OutOfFuel
  | S n =>
      let '(b, s) := peek s [ch_lpar] in
      if negb b then Syntax
      else
        let '(_, _, s) := gettoken s in
        then_ (parseline n s) (fun c s =>
        let '(b, s) := peek s [ch_rpar] in
        if negb b then Syntax
        else
          let '(_, _, s) := gettoken s in
          then_ (parseredirs (length s + 1) s) (fun rs s => Parsed (foldl redircmd c rs) s))
  end
with parseexec (fuel : nat) (s : list Z) : parse cmd :=
  match fuel with
  | O => OutOfFuel
  | S n =>
      let '(b, s) := peek s [ch_lpar] in
      if b then parseblock n s
      else
        then_ (parseredirs (length s + 1) s) (fun rs s =>
        then_ (exec_args (length s + 1) [] rs s) (fun '(argv, rs) s => Parsed (foldl redircmd (EXEC argv) rs) s))
  end.

(** [*eq = 0] in the array of [total] characters before the NUL. *)
Definition put_nul (total : nat) (w : span) (buf : list Z) : list Z := <[(total - snd w)%nat := 0]> buf.

Fixpoint nulterminate (total : nat) (c : cmd) (buf : list Z) : list Z :=
  match c with
  | EXEC argv => foldl (fun buf w => put_nul total w buf) buf argv
  | REDIR c f _ _ => put_nul total f (nulterminate total c buf)
  | PIPE l r => nulterminate total r (nulterminate total l buf)
  | LIST l r => nulterminate total r (nulterminate total l buf)
  | BACK c => nulterminate total c buf
  end.

(** The command, and the array [s] afterwards ([line] and its NUL before). *)
Definition parsecmd (line : list Z) : parse (cmd * list Z) :=
  then_ (parseline (4 * length line + 4) line) (fun c s =>
  let '(_, s) := peek s [] in
  if negb (bool_decide (s = [])) then Syntax
  else Parsed (c, nulterminate (length line) c (line ++ [0])) s).

(** ** What a command line says *)

Inductive rkind := RIn | ROut | RApp.
Inductive ast :=
  | AExec (ws : list (list Z))
  | ARedir (a : ast) (k : rkind) (file : list Z)
  | APipe (l r : ast)
  | AList (l r : ast)
  | ABack (a : ast).

Definition kmode (k : rkind) : Z :=
  match k with RIn => O_RDONLY | ROut => Z.lor (Z.lor O_WRONLY O_CREATE) O_TRUNC | RApp => Z.lor O_WRONLY O_CREATE end.
Definition kfd (k : rkind) : Z := match k with RIn => 0 | _ => 1 end.

Inductive tok := Word (w : list Z) | Sym (c : Z) | Append.
Definition tok_text (t : tok) : list Z := match t with Word w => w | Sym c => [c] | Append => [ch_gt; ch_gt] end.
Definition tok_code (t : tok) : Z := match t with Word _ => ch_a | Sym c => c | Append => ch_plus end.

Definition breaks (c : Z) : bool := in_set whitespace c || in_set symbols c.
Definition word_char (c : Z) : Prop := c <> 0 /\ breaks c = false.
Definition word_ok (w : list Z) : Prop := w <> [] /\ Forall word_char w.
Definition all_ws (s : list Z) : Prop := Forall (fun c => in_set whitespace c = true) s.

(** Tokens written down: white space is free, except that something must part
    two words, and [>] from [>]. *)
Definition parted (t : tok) (s : list Z) : Prop :=
  match t with
  | Word _ => match s with [] => True | c :: _ => breaks c = true end
  | Sym c => c = ch_gt -> hd 0 s <> ch_gt
  | Append => True
  end.
Definition tok_ok (t : tok) : Prop :=
  match t with Word w => word_ok w | Sym c => in_set symbols c = true | Append => True end.
Inductive spells : list tok -> list Z -> Prop :=
  | sp_nil ws : all_ws ws -> spells [] ws
  | sp_tok ws t ts s : all_ws ws -> tok_ok t -> parted t s -> spells ts s -> spells (t :: ts) (ws ++ tok_text t ++ s).

(** How a tree is written: at level 0 as an operand of a pipe, at level 1 as a
    pipe, at level 2 before [&] or [;], at level 3 as a whole line; in
    parentheses where its own level is higher. *)
Definition parens (b : bool) (ts : list tok) : list tok := if b then Sym ch_lpar :: ts ++ [Sym ch_rpar] else ts.
Definition ktok (k : rkind) : tok := match k with RIn => Sym ch_lt | ROut => Sym ch_gt | RApp => Append end.
Fixpoint print (lvl : nat) (a : ast) : list tok :=
  match a with
  | AExec ws => Word <$> ws
  | ARedir a k f => print 0 a ++ [ktok k; Word f]
  | APipe l r => parens (lvl <? 1)%nat (print 0 l ++ Sym ch_pipe :: print 1 r)
  | ABack a => parens (lvl <? 2)%nat (print 2 a ++ [Sym ch_amp])
  | AList l r => parens (lvl <? 3)%nat (print 2 l ++ Sym ch_semi :: print 3 r)
  end.

Fixpoint ast_ok (a : ast) : Prop :=
  match a with
  | AExec ws => Forall word_ok ws /\ (length ws < MAXARGS)%nat
  | ARedir a _ f => ast_ok a /\ word_ok f
  | APipe l r | AList l r => ast_ok l /\ ast_ok r
  | ABack a => ast_ok a
  end.

(** The counted string is the word, and what follows it does not continue it. *)
Definition span_is (total : list Z) (w : span) (word : list Z) : Prop :=
  exists pre post, total = pre ++ word ++ post /\ fst w = length (word ++ post) /\ snd w = length post /\ parted (Word word) post.

(** The command is the tree, up to the strings. *)
Fixpoint cmd_rel (P : span -> list Z -> Prop) (c : cmd) (a : ast) : Prop :=
  match c, a with
  | EXEC argv, AExec ws => Forall2 P argv ws
  | REDIR c f m d, ARedir a k file => cmd_rel P c a /\ P f file /\ m = kmode k /\ d = kfd k
  | PIPE l r, APipe l' r' => cmd_rel P l l' /\ cmd_rel P r r'
  | LIST l r, AList l' r' => cmd_rel P l l' /\ cmd_rel P r r'
  | BACK c, ABack a => cmd_rel P c a
  | _, _ => False
  end.
Definition cmd_is (total : list Z) : cmd -> ast -> Prop := cmd_rel (span_is total).

(** The C string at the start of [w], in the array. *)
Definition reads (total : nat) (buf : list Z) (w : span) (word : list Z) : Prop :=
  before_nul (drop (total - fst w) buf) = word.

(** ** Tokens *)

Lemma in_set_elem toks c : (forall x, x ∈ toks -> x <> 0) -> in_set toks c = true <-> c ∈ toks.
Proof.
  unfold in_set. induction toks as [|x toks IH]; intros Hnz; cbn; [split; [done|set_solver]|].
  rewrite (proj2 (Z.eqb_neq x 0)) by (apply Hnz; by left). destruct (Z.eqb_spec x c) as [->|Hne]; [split; [by left|done]|].
  specialize (IH ltac:(intros y Hy; apply Hnz; by right)). rewrite elem_of_cons.
  destruct (strchr toks c); cbn; split; intros H; try done; [right; by apply IH|]. destruct H as [->|H]; [done|]. by apply IH in H.
Qed.

Lemma skip_ws_ws ws s : all_ws ws -> skip_ws (ws ++ s) = skip_ws s.
Proof. induction 1 as [|c ws Hc _ IH]; cbn; [done|]. by rewrite Hc. Qed.
Lemma skip_ws_suffix s : exists pre, s = pre ++ skip_ws s.
Proof. induction s as [|c s [pre IH]]; cbn; [by exists []|]. destruct (in_set _ _); [exists (c :: pre); cbn; by f_equal|by exists []]. Qed.
Lemma skip_ws_len s : (length (skip_ws s) <= length s)%nat.
Proof. induction s as [|c s IH]; cbn; [lia|]. destruct (in_set _ _); cbn; lia. Qed.
Lemma skip_ws_idem s : skip_ws (skip_ws s) = skip_ws s.
Proof. induction s as [|c s IH]; cbn; [done|]. destruct (in_set whitespace c) eqn:E; [done|]. cbn. by rewrite E. Qed.

Lemma sym_not_ws c : in_set symbols c = true -> in_set whitespace c = false.
Proof.
  intros H. assert (c ∈ symbols) as Hin by (apply in_set_elem; [|done]; intros x Hx; unfold symbols in Hx; set_solver by lia).
  unfold symbols in Hin. repeat (apply elem_of_cons in Hin as [->|Hin]; [reflexivity|]). by apply elem_of_nil in Hin.
Qed.

(** A token's text starts with no white space. *)
Lemma tok_start t s : tok_ok t -> exists c r, tok_text t ++ s = c :: r /\ in_set whitespace c = false /\ c <> 0.
Proof.
  destruct t as [w|c|]; cbn; intros Hok.
  - destruct Hok as [Hne Hw]. destruct Hw as [|c w (H1 & H2) _]; [done|]. apply orb_false_iff in H2 as [H2 _]. by exists c, (w ++ s).
  - exists c, s. split_and!; [done|by apply sym_not_ws|]. intros ->. by vm_compute in Hok.
  - exists ch_gt, (ch_gt :: s). by split_and!.
Qed.

Lemma spells_skip ts s : spells ts s -> spells ts (skip_ws s) /\
  (ts = [] -> skip_ws s = []) /\ (forall t ts', ts = t :: ts' -> exists r, skip_ws s = tok_text t ++ r /\ parted t r /\ spells ts' r /\ tok_ok t).
Proof.
  intros [ws Hws|ws t ts' r Hws Ht Hp Hs].
  - rewrite <- (app_nil_r ws), skip_ws_ws by done. cbn. split_and!; [apply sp_nil; by constructor|done|done].
  - rewrite skip_ws_ws by done. destruct (tok_start t r Ht) as (c & r' & E & Hc & _). rewrite E. cbn. rewrite Hc, <- E. split_and!; [|done|].
    + apply (sp_tok []); [by constructor|done..].
    + intros ? ? [= <- <-]. by exists r.
Qed.

Lemma peek_spells ts s toks : spells ts s -> (forall c, in_set toks c = true -> in_set symbols c = true) ->
  exists s', peek s toks = (match ts with Sym c :: _ => in_set toks c | Append :: _ => in_set toks ch_gt | _ => false end, s') /\
    spells ts s' /\ (exists pre, s = pre ++ s') /\ (length s' <= length s)%nat.
Proof.
  intros Hs Htoks. destruct (spells_skip ts s Hs) as (Hs' & Hnil & Hcons). exists (skip_ws s). unfold peek.
  split_and!; [|done|apply skip_ws_suffix|apply skip_ws_len]. f_equal. destruct ts as [|t ts]; [by rewrite Hnil|].
  destruct (Hcons t ts eq_refl) as (r & -> & _ & _ & Hok). destruct t as [w|c|]; [|done|done]. cbn. destruct Hok as [Hne Hw]. destruct Hw as [|c w [_ Hc] _]; [done|]. apply orb_false_iff in Hc as [_ Hc]. cbn.
  destruct (in_set toks c) eqn:E; [|done]. apply Htoks in E. congruence.
Qed.

Lemma word_end_word w s : Forall word_char w -> parted (Word w) s -> word_end (w ++ s) = s.
Proof.
  induction 1 as [|c w [_ Hc] _ IH]; intros Hp; cbn.
  - destruct s as [|c s]; [done|]. cbn in Hp |- *. unfold breaks in Hp. by rewrite <- negb_orb, Hp.
  - unfold breaks in Hc. rewrite <- negb_orb, Hc. by apply IH.
Qed.

(** The suffixes the parser works on. *)
Definition tail_of (total s : list Z) : Prop := exists pre, total = pre ++ s.
Lemma tail_trans a b c : tail_of a b -> tail_of b c -> tail_of a c.
Proof. intros [x ->] [y ->]. exists (x ++ y). by rewrite app_assoc. Qed.
Lemma tail_skip s : tail_of s (skip_ws s).
Proof. apply skip_ws_suffix. Qed.
Lemma tail_len a b : tail_of a b -> (length b <= length a)%nat.
Proof. intros [x ->]. rewrite length_app. lia. Qed.
Lemma tail_app a b : tail_of (a ++ b) b.
Proof. by exists a. Qed.

Lemma gettoken_spells total t ts s : tail_of total s -> spells (t :: ts) s ->
  exists w s', gettoken s = (tok_code t, w, s') /\ spells ts s' /\ tail_of s s' /\ (length s' < length s)%nat /\ forall word, t = Word word -> span_is total w word.
Proof.
  intros Ht Hs. destruct (spells_skip _ _ Hs) as (_ & _ & Hcons). destruct (Hcons t ts eq_refl) as (r & E & Hp & Hr & Hok).
  destruct (spells_skip _ _ Hr) as (Hr' & _ & _). unfold gettoken. rewrite E.
  assert (tail_of s (tok_text t ++ r)) as Htr by (rewrite <- E; apply tail_skip).
  assert (tail_of s (skip_ws r)) as Hts by (eapply tail_trans; [exact Htr|]; eapply tail_trans; [apply tail_app|apply tail_skip]).
  assert (length (skip_ws r) < length s)%nat as Hlen.
  { apply tail_len in Htr. rewrite length_app in Htr. pose proof (skip_ws_len r). destruct t as [w|c|]; cbn in *; try lia. destruct Hok as [Hne _]. destruct w; [done|cbn in *; lia]. }
  destruct t as [w|c|]; cbn [tok_text tok_code app] in *.
  - destruct Hok as [Hne Hw]. pose proof Hw as Hw'. destruct Hw as [|c w [Hc0 Hc] Hw]; [done|]. cbn [app].
    assert (in_set symbols c = false) as Hsym by (by apply orb_false_iff in Hc as [_ ?]).
    assert (forall x, in_set symbols x = true -> (c =? x) = false) as Hx by (intros x Hx; apply Z.eqb_neq; intros ->; congruence).
    rewrite !Hx by reflexivity. cbn [orb]. change (c :: w ++ r) with ((c :: w) ++ r). rewrite (word_end_word (c :: w) r) by done.
    eexists _, _. split_and!; [done|done|done|done|]. intros word [= <-]. destruct (tail_trans _ _ _ Ht Htr) as [pre Epre]. by exists pre, r.
  - assert (c ∈ symbols) as Hin by (apply in_set_elem; [|done]; intros x Hx; unfold symbols in Hx; set_solver by lia).
    assert (forall X, c <> ch_gt -> (if (c =? ch_pipe) || (c =? ch_lpar) || (c =? ch_rpar) || (c =? ch_semi) || (c =? ch_amp) || (c =? ch_lt) then (c, r) else X) = (c, r)) as Hone.
    { intros X Hgt. unfold symbols in Hin. repeat (apply elem_of_cons in Hin as [->|Hin]; [done|]). by apply elem_of_nil in Hin. }
    destruct (decide (c = ch_gt)) as [->|Hgt].
    + specialize (Hp eq_refl). cbn -[skip_ws]. destruct r as [|c1 r1]; [|cbn [hd] in Hp; rewrite (proj2 (Z.eqb_neq _ _)) by done]; by eexists _, _.
    + rewrite Hone by done. by eexists _, _.
  - cbn -[skip_ws]. by eexists _, _.
Qed.

Lemma gettoken_end s : spells [] s -> exists w, gettoken s = (0, w, []).
Proof. intros Hs. destruct (spells_skip _ _ Hs) as (_ & Hnil & _). unfold gettoken. rewrite Hnil by done. by eexists. Qed.

(** ** Redirections and arguments *)

Section grammar.
Context (total : list Z).

Definition redir_is (r : redir) (kf : rkind * list Z) : Prop :=
  let '(w, m, d) := r in span_is total w kf.2 /\ m = kmode kf.1 /\ d = kfd kf.1.
Definition rtoks (rk : list (rkind * list Z)) : list tok := concat ((fun kf => [ktok kf.1; Word kf.2]) <$> rk).
Definition aredirs (a : ast) (rk : list (rkind * list Z)) : ast := foldl (fun a kf => ARedir a kf.1 kf.2) a rk.

(** What may follow an operand of a pipe. *)
Definition stops : list Z := [ch_pipe; ch_rpar; ch_amp; ch_semi].
Definition follow (cs : list Z) (K : list tok) : Prop :=
  match K with [] => True | Sym c :: _ => in_set cs c = true | _ => False end.
Definition no_redir (K : list tok) : Prop :=
  match K with Sym c :: _ => in_set [ch_lt; ch_gt] c = false | Append :: _ => False | _ => True end.

Lemma follow_elem cs K : (forall x, x ∈ cs -> x <> 0) -> follow cs K -> K = [] \/ exists c K', K = Sym c :: K' /\ c ∈ cs.
Proof. intros Hnz. destruct K as [|[w|c|] K]; cbn; intros H; try done; [by left|right]. exists c, K. split; [done|]. by apply in_set_elem. Qed.

(** All of them are symbols. *)
Ltac sym_toks := repeat (constructor; [by split|]); constructor.

Lemma sub_symbols cs : Forall (fun c => in_set symbols c = true /\ c <> 0) cs -> forall c, in_set cs c = true -> in_set symbols c = true.
Proof.
  rewrite Forall_forall. intros H c Hc. apply in_set_elem in Hc; [by apply H|]. intros x Hx. by apply H.
Qed.

Lemma follow_no_redir K : follow stops K -> no_redir K.
Proof.
  destruct K as [|[w|c|] K]; cbn; try done. intros H. apply in_set_elem in H; [|unfold stops; set_solver by lia].
  unfold stops in H. repeat (apply elem_of_cons in H as [->|H]; [reflexivity|]). by apply elem_of_nil in H.
Qed.

Lemma peek_tok ts s toks b : spells ts s -> Forall (fun c => in_set symbols c = true /\ c <> 0) toks ->
  b = (match ts with Sym c :: _ => in_set toks c | Append :: _ => in_set toks ch_gt | _ => false end) ->
  exists s', peek s toks = (b, s') /\ spells ts s' /\ tail_of s s' /\ (length s' <= length s)%nat.
Proof. intros Hs Hf ->. apply peek_spells; [done|]. by apply sub_symbols. Qed.

Lemma parseredirs_spells rk K fuel s : no_redir K -> tail_of total s -> spells (rtoks rk ++ K) s -> (length s < fuel)%nat ->
  exists rs s', parseredirs fuel s = Parsed rs s' /\ spells K s' /\ tail_of s s' /\ Forall2 redir_is rs rk.
Proof.
  intros HK. revert fuel s. induction rk as [|[k f] rk IH]; intros fuel s Ht Hs Hf; (destruct fuel as [|fuel]; [lia|]); cbn [parseredirs].
  - destruct (peek_tok _ s [ch_lt; ch_gt] false Hs) as (s1 & -> & H1 & H2 & _); [sym_toks| |by exists [], s1].
    cbn. by destruct K as [|[w|c|] K]; cbn in *.
  - cbn in Hs. destruct (peek_tok _ s [ch_lt; ch_gt] true Hs) as (s1 & -> & H1 & H2 & H3); [sym_toks|by destruct k|].
    pose proof (tail_trans _ _ _ Ht H2) as Ht1. destruct (gettoken_spells total _ _ _ Ht1 H1) as (w1 & s2 & -> & Hs2 & Ht2 & Hl2 & _). pose proof (tail_trans _ _ _ Ht1 Ht2) as Ht2'.
    destruct (gettoken_spells total _ _ _ Ht2' Hs2) as (w2 & s3 & -> & Hs3 & Ht3 & Hl3 & Hw). cbn [tok_code]. rewrite Z.eqb_refl. cbn [negb].
    destruct (IH fuel s3) as (rs & s4 & -> & Hs4 & Ht4 & Hrs); [by eapply tail_trans|done|lia|]. cbn [then_]. exists ((w2, kmode k, kfd k) :: rs), s4.
    split; [by destruct k|]. split; [done|]. split; [do 3 (eapply tail_trans; [done|]); done|]. constructor; [|done]. cbn. split; [by apply Hw|done].
Qed.

Lemma exec_args_spells ws rk K fuel argv rs s : follow stops K -> ws <> [] \/ rk = [] -> (length argv + length ws < MAXARGS)%nat ->
  tail_of total s -> spells ((Word <$> ws) ++ rtoks rk ++ K) s -> (length s < fuel)%nat ->
  exists sps rs' s', exec_args fuel argv rs s = Parsed (argv ++ sps, rs ++ rs') s' /\ spells K s' /\ tail_of s s' /\
    Forall2 (span_is total) sps ws /\ Forall2 redir_is rs' rk.
Proof.
  intros HK. revert fuel argv rs rk s. induction ws as [|w ws IH]; intros fuel argv rs rk s Hne Hmax Ht Hs Hf; (destruct fuel as [|fuel]; [lia|]); cbn [exec_args]; fold stops.
  - destruct Hne as [?| ->]; [done|]. cbn in Hs. destruct K as [|[w|c|] K]; cbn in HK; try done.
    + destruct (peek_tok _ s stops false Hs) as (s1 & -> & H1 & H2 & _); [sym_toks|done|].
      destruct (gettoken_end s1 H1) as [w' ->]. cbn. exists [], [], []. rewrite !app_nil_r. split_and!; try done; [apply sp_nil; constructor|]. exists s. by rewrite app_nil_r.
    + destruct (peek_tok _ s stops true Hs) as (s1 & -> & H1 & H2 & _); [sym_toks|done|].
      exists [], [], s1. by rewrite !app_nil_r.
  - cbn in Hs. destruct (peek_tok _ s stops false Hs) as (s1 & -> & H1 & H2 & H3); [sym_toks|done|].
    pose proof (tail_trans _ _ _ Ht H2) as Ht1. destruct (gettoken_spells total _ _ _ Ht1 H1) as (sp & s2 & -> & Hs2 & Ht2 & Hl2 & Hw). pose proof (tail_trans _ _ _ Ht1 Ht2) as Ht2'. cbn [tok_code].
    change (ch_a =? 0) with false. rewrite Z.eqb_refl. cbn [negb]. cbn [length] in Hmax. rewrite (proj2 (Nat.leb_gt _ _)) by (rewrite length_app; cbn; lia).
    set (rk1 := if decide (ws = []) then rk else []). set (rk2 := if decide (ws = []) then [] else rk).
    destruct (parseredirs_spells rk1 ((Word <$> ws) ++ rtoks rk2 ++ K) (length s2 + 1) s2) as (rs1 & s3 & -> & Hs3 & Ht3 & Hrs1); [|done| |lia|].
    { unfold rk2. destruct ws as [|w' ws]; cbn; [by apply follow_no_redir|done]. }
    { unfold rk1, rk2. case_decide as E; [by rewrite E in *|done]. }
    cbn [then_]. destruct (IH fuel (argv ++ [sp]) (rs ++ rs1) rk2 s3) as (sps & rs2 & s4 & -> & Hs4 & Ht4 & Hsps & Hrs2); [|rewrite length_app; cbn; lia|by eapply tail_trans|done|apply tail_len in Ht3; lia|].
    { unfold rk2. case_decide; [by right|by left]. }
    exists (sp :: sps), (rs1 ++ rs2), s4. rewrite <- !app_assoc. split_and!; try done.
    + do 3 (eapply tail_trans; [done|]). done.
    + constructor; [by apply Hw|done].
    + unfold rk1, rk2 in *. case_decide; [|by apply Forall2_nil_inv_r in Hrs1 as ->]. apply Forall2_nil_inv_r in Hrs2 as ->. by rewrite app_nil_r.
Qed.

(** ** Commands *)

Definition parses (r : parse cmd) (a : ast) (K : list tok) (s : list Z) : Prop :=
  exists c s', r = Parsed c s' /\ spells K s' /\ tail_of s s' /\ cmd_is total c a.

Definition exec_ok (a : ast) : Prop := forall K s n, follow stops K -> tail_of total s -> spells (print 0 a ++ K) s -> (4 * length s + 2 <= n)%nat ->
  parses (parseexec n s) a K s.
Definition pipe_ok (a : ast) : Prop := forall K s n, follow [ch_rpar; ch_amp; ch_semi] K -> tail_of total s -> spells (print 1 a ++ K) s -> (4 * length s + 3 <= n)%nat ->
  parses (parsepipe n s) a K s.
Definition line_ok (a : ast) : Prop := forall K s n, follow [ch_rpar] K -> tail_of total s -> spells (print 3 a ++ K) s -> (4 * length s + 4 <= n)%nat ->
  parses (parseline n s) a K s.

Lemma follow_mono cs cs' K : (forall c, in_set cs c = true -> in_set cs' c = true) -> follow cs K -> follow cs' K.
Proof. intros H. destruct K as [|[w|c|] K]; cbn; auto. Qed.
Lemma follow_pipe K : follow [ch_rpar; ch_amp; ch_semi] K -> follow stops K.
Proof.
  apply follow_mono. intros c Hc. apply in_set_elem in Hc; [|set_solver by lia].
  repeat (apply elem_of_cons in Hc as [->|Hc]; [reflexivity|]). by apply elem_of_nil in Hc.
Qed.
Lemma follow_line K : follow [ch_rpar] K -> follow [ch_rpar; ch_amp; ch_semi] K.
Proof. apply follow_mono. intros c Hc. apply in_set_elem in Hc; [|set_solver by lia]. apply list_elem_of_singleton in Hc as ->. reflexivity. Qed.

Fixpoint backs (j : nat) (a : ast) : ast := match j with O => a | S j => ABack (backs j a) end.

Lemma back_loop_spells j K fuel s c b : match K with Sym x :: _ => x <> ch_amp | _ => True end -> tail_of total s -> spells (replicate j (Sym ch_amp) ++ K) s -> (length s < fuel)%nat ->
  cmd_is total c b -> parses (back_loop fuel c s) (backs j b) K s.
Proof.
  intros HK. revert fuel s c b. induction j as [|j IH]; intros fuel s c b Ht Hs Hf Hc; (destruct fuel as [|fuel]; [lia|]); cbn [back_loop].
  - destruct (peek_tok _ s [ch_amp] false Hs) as (s1 & -> & H1 & H2 & _); [sym_toks| |by exists c, s1].
    cbn. destruct K as [|[w|x|] K]; try done. symmetry. apply not_true_is_false. intros Hx. apply in_set_elem in Hx; [|set_solver by lia]. set_solver.
  - cbn in Hs. destruct (peek_tok _ s [ch_amp] true Hs) as (s1 & -> & H1 & H2 & H3); [sym_toks|done|].
    pose proof (tail_trans _ _ _ Ht H2) as Ht1. destruct (gettoken_spells total _ _ _ Ht1 H1) as (w & s2 & -> & Hs2 & Ht2 & Hl2 & _).
    destruct (IH fuel s2 (BACK c) (ABack b)) as (c' & s3 & -> & Hs3 & Ht3 & Hc3); [by eapply tail_trans|done|lia|done|].
    exists c', s3. split_and!; try done; [do 2 (eapply tail_trans; [done|]); done|].
    replace (backs (S j) b) with (backs j (ABack b)); [done|]. clear. induction j as [|j IH]; [done|]. cbn in *. by rewrite IH.
Qed.

(** A line: a pipe, some [&], and perhaps [;] and another line. *)
Lemma line_parts b j r K s n : pipe_ok b -> match r with Some r => line_ok r | None => True end -> follow [ch_rpar] K -> tail_of total s ->
  spells (print 1 b ++ replicate j (Sym ch_amp) ++ match r with Some r => Sym ch_semi :: print 3 r ++ K | None => K end) s -> (4 * length s + 4 <= n)%nat ->
  parses (parseline n s) (match r with Some r => AList (backs j b) r | None => backs j b end) K s.
Proof.
  intros Hb Hr HK Ht Hs Hn. destruct n as [|n]; [lia|]. cbn [parseline]. set (K1 := match r with Some r => _ | None => K end) in *.
  destruct (Hb (replicate j (Sym ch_amp) ++ K1) s n) as (c & s1 & -> & Hs1 & Ht1 & Hc); [|done|done|lia|].
  { destruct j; [|done]. cbn. unfold K1. destruct r; [done|by apply follow_line]. }
  cbn [then_]. destruct (back_loop_spells j K1 (length s1 + 1) s1 c b) as (c2 & s2 & -> & Hs2 & Ht2 & Hc2); [|by eapply tail_trans|done|lia|done|].
  { unfold K1. destruct r; [done|]. destruct K as [|[w|x|] K]; try done. cbn in HK. apply in_set_elem in HK; [|set_solver by lia]. apply list_elem_of_singleton in HK as ->. done. }
  cbn [then_]. destruct r as [r|]; unfold K1 in *.
  - destruct (peek_tok _ s2 [ch_semi] true Hs2) as (s3 & -> & H1 & H2 & H3); [sym_toks|done|].
    assert (tail_of total s3) as Ht3 by (do 3 (eapply tail_trans; [done|]); done). destruct (gettoken_spells total _ _ _ Ht3 H1) as (w & s4 & -> & Hs4 & Ht4 & Hl4 & _).
    assert (length s4 < length s)%nat by (apply tail_len in Ht1; apply tail_len in Ht2; lia).
    destruct (Hr K s4 n) as (c5 & s5 & -> & Hs5 & Ht5 & Hc5); [done|by eapply tail_trans|done|lia|]. cbn [then_]. exists (LIST c2 c5), s5.
    split_and!; try done. do 4 (eapply tail_trans; [done|]). done.
  - destruct (peek_tok _ s2 [ch_semi] false Hs2) as (s3 & -> & H1 & H2 & H3); [sym_toks| |].
    { destruct K as [|[w|x|] K]; try done. cbn in HK. apply in_set_elem in HK; [|set_solver by lia]. apply list_elem_of_singleton in HK as ->. done. }
    exists c2, s3. split_and!; try done. do 2 (eapply tail_trans; [done|]). done.
Qed.

Fixpoint asize (a : ast) : nat :=
  match a with AExec _ => 1 | ARedir a _ _ => S (asize a) | APipe l r | AList l r => S (asize l + asize r) | ABack a => S (asize a) end.

Lemma print2 a : exists j b, a = backs j b /\ print 2 a = print 1 b ++ replicate j (Sym ch_amp) /\ (asize b <= asize a)%nat /\ (ast_ok a -> ast_ok b).
Proof.
  induction a as [ws|a _ k f|l _ r _|l _ r _|a (j & b & -> & E & Hs & Hok)].
  5: { exists (S j), b. cbn [print parens Nat.ltb Nat.leb backs asize ast_ok]. rewrite E, <- app_assoc. split_and!; [done| |lia|done]. f_equal. symmetry. apply (replicate_S_end j). }
  all: eexists 0%nat, _; split; [reflexivity|]; cbn [replicate]; rewrite app_nil_r; done.
Qed.

Lemma pipe_of_pipe l r : exec_ok l -> pipe_ok r -> pipe_ok (APipe l r).
Proof.
  intros Hl Hr K s n HK Ht Hs Hn. cbn [print parens Nat.ltb Nat.leb] in Hs. rewrite <- app_assoc, <- app_comm_cons in Hs. destruct n as [|n]; [lia|]. cbn [parsepipe].
  destruct (Hl (Sym ch_pipe :: print 1 r ++ K) s n) as (c & s1 & -> & Hs1 & Ht1 & Hc); [done|done|done|lia|]. cbn [then_].
  destruct (peek_tok _ s1 [ch_pipe] true Hs1) as (s2 & -> & H1 & H2 & H3); [sym_toks|done|].
  assert (tail_of total s2) as Ht2 by (do 2 (eapply tail_trans; [done|]); done). destruct (gettoken_spells total _ _ _ Ht2 H1) as (w & s4 & -> & Hs4 & Ht4 & Hl4 & _).
  apply tail_len in Ht1 as Hlen. destruct (Hr K s4 n) as (c5 & s5 & -> & Hs5 & Ht5 & Hc5); [done|by eapply tail_trans|done|lia|]. cbn [then_]. exists (PIPE c c5), s5.
  split_and!; try done. do 3 (eapply tail_trans; [done|]). done.
Qed.

Lemma pipe_of_exec a : exec_ok a -> print 1 a = print 0 a -> pipe_ok a.
Proof.
  intros Ha E K s n HK Ht Hs Hn. rewrite E in Hs. destruct n as [|n]; [lia|]. cbn [parsepipe].
  destruct (Ha K s n) as (c & s1 & -> & Hs1 & Ht1 & Hc); [by apply follow_pipe|done|done|lia|]. cbn [then_].
  destruct (peek_tok _ s1 [ch_pipe] false Hs1) as (s2 & -> & H1 & H2 & H3); [sym_toks| |exists c, s2; split_and!; try done; by eapply tail_trans].
  destruct K as [|[w|x|] K]; try done. cbn in HK. apply in_set_elem in HK; [|set_solver by lia].
  repeat (apply elem_of_cons in HK as [->|HK]; [reflexivity|]). by apply elem_of_nil in HK.
Qed.

Lemma line_of_pipe a : pipe_ok a -> print 3 a = print 1 a -> line_ok a.
Proof. intros Ha E K s n HK Ht Hs Hn. rewrite E in Hs. by apply (line_parts a 0 None). Qed.

(** The redirections around a command. *)
Lemma split_redirs a : exists core rk, a = aredirs core rk /\ print 0 a = print 0 core ++ rtoks rk /\ (asize core <= asize a)%nat /\
  (rk <> [] -> asize core < asize a)%nat /\ (forall x k f, core <> ARedir x k f) /\ (ast_ok a -> ast_ok core).
Proof.
  induction a as [ws|a (core & rk & -> & E & Hs & Hlt & Hc & Hok) k f|l _ r _|l _ r _|a _].
  2: { exists core, (rk ++ [(k, f)]). unfold aredirs in *. rewrite foldl_app. cbn [foldl fst snd print asize ast_ok]. rewrite E. unfold rtoks. rewrite fmap_app, concat_app, app_assoc. cbn.
       split_and!; try done; [lia|lia|]. intros [? _]. by apply Hok. }
  all: eexists _, []; split; [reflexivity|]; cbn [rtoks fmap list_fmap concat]; rewrite app_nil_r; done.
Qed.

Lemma cmd_redirs c a rs rk : cmd_is total c a -> Forall2 redir_is rs rk -> cmd_is total (foldl redircmd c rs) (aredirs a rk).
Proof.
  intros Hc Hr. revert c a Hc. induction Hr as [|[[w m] d] [k f] rs rk (H1 & H2 & H3) _ IH]; intros c a Hc; [done|]. cbn. by apply IH.
Qed.

Lemma exec_of_words ws rk : Forall word_ok ws -> (length ws < MAXARGS)%nat -> exec_ok (aredirs (AExec ws) rk).
Proof.
  intros Hws Hmax K s n HK Ht Hs Hn. destruct n as [|n]; [lia|]. cbn [parseexec].
  assert (print 0 (aredirs (AExec ws) rk) = (Word <$> ws) ++ rtoks rk) as E.
  { clear. unfold aredirs, rtoks. induction rk as [|[k f] rk IH] using rev_ind; [by rewrite app_nil_r|]. rewrite foldl_app, fmap_app, concat_app. cbn. by rewrite IH, <- app_assoc. }
  rewrite E, <- app_assoc in Hs. destruct (peek_tok _ s [ch_lpar] false Hs) as (s1 & -> & H1 & H2 & H3); [sym_toks| |].
  { destruct ws; [|done]. destruct rk as [|[[] f] rk]; [|done..]. cbn. destruct K as [|[w|x|] K]; try done. cbn in HK. apply in_set_elem in HK; [|unfold stops; set_solver by lia].
    unfold stops in HK. repeat (apply elem_of_cons in HK as [->|HK]; [reflexivity|]). by apply elem_of_nil in HK. }
  pose proof (tail_trans _ _ _ Ht H2) as Ht1. set (rk1 := if decide (ws = []) then rk else []). set (rk2 := if decide (ws = []) then [] else rk).
  destruct (parseredirs_spells rk1 ((Word <$> ws) ++ rtoks rk2 ++ K) (length s1 + 1) s1) as (rs1 & s2 & -> & Hs2 & Ht2 & Hrs1); [|done| |lia|].
  { unfold rk2. destruct ws as [|w ws]; cbn; [by apply follow_no_redir|done]. }
  { unfold rk1, rk2. case_decide as Ew; [by rewrite Ew in *|done]. }
  cbn [then_]. destruct (exec_args_spells ws rk2 K (length s2 + 1) [] rs1 s2) as (sps & rs2 & s3 & -> & Hs3 & Ht3 & Hsps & Hrs2); [done| |done|by eapply tail_trans|done|lia|].
  { unfold rk2. case_decide; [by right|by left]. }
  cbn [then_]. eexists _, s3. split; [done|]. split; [done|]. split; [do 2 (eapply tail_trans; [done|]); done|]. apply cmd_redirs; [done|].
  unfold rk1, rk2 in *. case_decide; [apply Forall2_nil_inv_r in Hrs2 as ->; by rewrite app_nil_r|by apply Forall2_nil_inv_r in Hrs1 as ->].
Qed.

Lemma exec_of_block core rk : line_ok core -> print 0 core = Sym ch_lpar :: print 3 core ++ [Sym ch_rpar] -> exec_ok (aredirs core rk).
Proof.
  intros Hline Ep K s n HK Ht Hs Hn. destruct n as [|[|n]]; [lia|lia|]. cbn [parseexec].
  assert (print 0 (aredirs core rk) = print 0 core ++ rtoks rk) as E.
  { clear. unfold aredirs, rtoks. induction rk as [|[k f] rk IH] using rev_ind; [by rewrite app_nil_r|]. rewrite foldl_app, fmap_app, concat_app. cbn. by rewrite IH, <- app_assoc. }
  rewrite E, Ep, <- app_assoc, <- app_comm_cons, <- app_assoc in Hs. cbn [app] in Hs.
  destruct (peek_tok _ s [ch_lpar] true Hs) as (s1 & -> & H1 & H2 & H3); [sym_toks|done|]. cbn [parseblock].
  destruct (peek_tok _ s1 [ch_lpar] true H1) as (s2 & -> & H4 & H5 & H6); [sym_toks|done|]. cbn [negb].
  assert (tail_of total s2) as Ht2 by (do 2 (eapply tail_trans; [done|]); done). destruct (gettoken_spells total _ _ _ Ht2 H4) as (w & s3 & -> & Hs3 & Ht3 & Hl3 & _).
  destruct (Hline (Sym ch_rpar :: rtoks rk ++ K) s3 n) as (c & s4 & -> & Hs4 & Ht4 & Hc); [done|by eapply tail_trans|done|lia|]. cbn [then_].
  destruct (peek_tok _ s4 [ch_rpar] true Hs4) as (s5 & -> & H7 & H8 & H9); [sym_toks|done|]. cbn [negb].
  assert (tail_of total s5) as Ht5 by (do 3 (eapply tail_trans; [done|]); done). destruct (gettoken_spells total _ _ _ Ht5 H7) as (w' & s6 & -> & Hs6 & Ht6 & Hl6 & _).
  destruct (parseredirs_spells rk K (length s6 + 1) s6) as (rs & s7 & -> & Hs7 & Ht7 & Hrs); [by apply follow_no_redir|by eapply tail_trans|done|lia|]. cbn [then_].
  eexists _, s7. split; [done|]. split; [done|]. split; [do 6 (eapply tail_trans; [done|]); done|]. by apply cmd_redirs.
Qed.

Lemma all_ok a : ast_ok a -> exec_ok a /\ pipe_ok a /\ line_ok a.
Proof.
  induction a as [a IH] using (induction_ltof1 _ asize). unfold ltof in IH. intros Hok.
  assert (match a with AExec _ | ARedir _ _ _ => True | _ => line_ok a /\ (match a with APipe _ _ => pipe_ok a | _ => True end) end) as Hbody.
  { destruct a as [ws|a k f|l r|l r|b]; try done; cbn [ast_ok asize] in *.
    - destruct Hok as [Hl Hr]. assert (pipe_ok (APipe l r)) as Hp by (apply pipe_of_pipe; apply IH; done || lia). split; [|done]. by apply line_of_pipe.
    - destruct Hok as [Hl Hr]. split; [|done]. intros K s n HK Ht Hs Hn. destruct (print2 l) as (j & b & -> & E & Hsz & Hokb).
      cbn [print parens Nat.ltb Nat.leb] in Hs. rewrite E, <- !app_assoc, <- app_comm_cons in Hs. apply (line_parts b j (Some r)); try done; apply IH; try lia; [by apply Hokb|done].
    - split; [|done]. intros K s n HK Ht Hs Hn. destruct (print2 b) as (j & b' & -> & E & Hsz & Hokb). cbn [print parens Nat.ltb Nat.leb] in Hs. rewrite E, <- !app_assoc in Hs.
      change (ABack (backs j b')) with (backs (S j) b'). apply (line_parts b' (S j) None); try done; [apply IH; [lia|by apply Hokb]|].
      rewrite (replicate_S_end j), <- app_assoc. done. }
  assert (exec_ok a) as Hexec.
  { destruct (split_redirs a) as (core & rk & -> & _ & Hsz & Hlt & Hcore & Hokc). specialize (Hokc Hok).
    assert (line_ok core \/ exists ws, core = AExec ws) as [Hl|[ws ->]].
    { destruct core as [ws|x k f|l r|l r|b]; [right; by exists ws|by destruct (Hcore x k f)|left..].
      all: destruct rk as [|kf rk]; [apply Hbody|apply IH; [by apply Hlt|done]]. }
    - destruct core as [ws|x k f|l r|l r|b]; [|by destruct (Hcore x k f)|apply exec_of_block; done..]. destruct Hokc. by apply exec_of_words.
    - destruct Hokc. by apply exec_of_words. }
  split; [done|]. destruct a as [ws|a k f|l r|l r|b]; cbn in Hbody.
  - assert (pipe_ok (AExec ws)) by (by apply pipe_of_exec). split; [done|by apply line_of_pipe].
  - assert (pipe_ok (ARedir a k f)) by (by apply pipe_of_exec). split; [done|by apply line_of_pipe].
  - by destruct Hbody.
  - split; [by apply pipe_of_exec|by destruct Hbody].
  - split; [by apply pipe_of_exec|by destruct Hbody].
Qed.
End grammar.

(** ** The NULs *)

Fixpoint nul_ends (n : nat) (c : cmd) : list nat :=
  match c with
  | EXEC argv => (fun w => n - snd w)%nat <$> argv
  | REDIR c f _ _ => (n - snd f)%nat :: nul_ends n c
  | PIPE l r | LIST l r => nul_ends n l ++ nul_ends n r
  | BACK c => nul_ends n c
  end.

Lemma put_nul_lookup n w buf i : put_nul n w buf !! i = if decide (i = (n - snd w)%nat) then (fun _ => 0) <$> buf !! i else buf !! i.
Proof.
  unfold put_nul. case_decide as E; [subst|by rewrite list_lookup_insert_ne]. destruct (decide (n - snd w < length buf)%nat) as [Hl|Hl].
  - rewrite list_lookup_insert_eq by done. by destruct (lookup_lt_is_Some_2 _ _ Hl) as [x ->].
  - rewrite !lookup_ge_None_2 by (rewrite ?length_insert; lia). done.
Qed.

Lemma nulterminate_lookup n c buf i : nulterminate n c buf !! i = if decide (i ∈ nul_ends n c) then (fun _ => 0) <$> buf !! i else buf !! i.
Proof.
  revert buf. induction c as [argv|c IH f m d|l IHl r IHr|l IHl r IHr|c IH]; intros buf; cbn [nulterminate nul_ends].
  - revert buf. induction argv as [|w argv IH]; intros buf; cbn [foldl fmap list_fmap]; [by rewrite decide_False by set_solver|].
    rewrite IH, put_nul_lookup. repeat case_decide; try done; try set_solver. by destruct (buf !! i).
  - rewrite put_nul_lookup, IH. repeat case_decide; try done; try set_solver. by destruct (buf !! i).
  - rewrite IHr, IHl. repeat case_decide; try done; try set_solver. by destruct (buf !! i).
  - rewrite IHr, IHl. repeat case_decide; try done; try set_solver. by destruct (buf !! i).
  - apply IH.
Qed.

(** The NULs go where no word has a character. *)
Lemma ends_break total c a i : cmd_is total c a -> i ∈ nul_ends (length total) c -> i = length total \/ exists ch, total !! i = Some ch /\ breaks ch = true.
Proof.
  assert (forall w word, span_is total w word -> (length total - snd w)%nat = length total \/ exists ch, total !! (length total - snd w)%nat = Some ch /\ breaks ch = true) as Hw.
  { intros w word (pre & post & -> & _ & -> & Hp). rewrite !length_app. replace (length pre + (length word + length post) - length post)%nat with (length pre + length word)%nat by lia.
    destruct post as [|ch post]; [left; cbn; lia|right]. exists ch. split; [|done]. rewrite app_assoc, lookup_app_r by (rewrite length_app; lia). rewrite length_app, Nat.sub_diag. done. }
  revert a. induction c as [argv|c IH f m d|l IHl r IHr|l IHl r IHr|c IH]; intros [ws|a k file|l' r'|l' r'|a]; cbn; try done.
  - intros H (w & -> & Hin)%list_elem_of_fmap. apply list_elem_of_lookup in Hin as [k Hk]. destruct (Forall2_lookup_l _ _ _ _ _ H Hk) as (word & _ & Hs). by eapply Hw.
  - intros (H1 & H2 & _) [->|Hin]%elem_of_cons; [by eapply Hw|by eapply IH].
  - intros [H1 H2] [Hin|Hin]%elem_of_app; [by eapply IHl|by eapply IHr].
  - intros [H1 H2] [Hin|Hin]%elem_of_app; [by eapply IHl|by eapply IHr].
  - apply IH.
Qed.

Lemma cmd_rel_impl n (P Q : span -> list Z -> Prop) (E : list nat) c a : (forall i, i ∈ nul_ends n c -> i ∈ E) -> ast_ok a -> cmd_rel P c a ->
  (forall w word, word_ok word -> P w word -> (n - snd w)%nat ∈ E -> Q w word) -> cmd_rel Q c a.
Proof.
  intros HE Hok Hrel HPQ. revert a HE Hok Hrel. induction c as [argv|c IH f m d|l IHl r IHr|l IHl r IHr|c IH]; intros [ws|a k file|l' r'|l' r'|a]; cbn; try done; intros HE Hok Hrel.
  - destruct Hok as [Hok _]. revert HE Hok. induction Hrel as [|w word argv ws H _ IH]; intros HE Hok; [done|]. apply Forall_cons in Hok as [Hw Hok]. constructor.
    + apply HPQ; [done|done|]. apply HE. cbn. by left.
    + apply IH; [|done]. intros i Hi. apply HE. cbn. by right.
  - destruct Hok, Hrel as (H1 & H2 & H3). split_and!; try apply H3; [apply IH; [|done|done]|apply HPQ; [done|done|apply HE; by left]]. intros i Hi. apply HE. by right.
  - destruct Hok, Hrel. split; [apply IHl; [intros i Hi; apply HE, elem_of_app; by left|done|done]|apply IHr; [intros i Hi; apply HE, elem_of_app; by right|done|done]].
  - destruct Hok, Hrel. split; [apply IHl; [intros i Hi; apply HE, elem_of_app; by left|done|done]|apply IHr; [intros i Hi; apply HE, elem_of_app; by right|done|done]].
  - by apply IH.
Qed.

Lemma nulterminate_reads total c a : ast_ok a -> cmd_is total c a ->
  cmd_rel (reads (length total) (nulterminate (length total) c (total ++ [0]))) c a.
Proof.
  intros Hok Hc. set (n := length total). apply (cmd_rel_impl n (span_is total) _ (nul_ends n c)); [done..|]. intros w word [Hne Hword] (pre & post & E & Hq & He & Hp) Hin.
  unfold reads. set (buf := nulterminate n c (total ++ [0])). assert (n = length pre + length word + length post)%nat as En by (unfold n; rewrite E, !length_app; lia).
  rewrite length_app in Hq. replace (n - fst w)%nat with (length pre) by lia. replace (n - snd w)%nat with (length pre + length word)%nat in Hin by lia.
  assert (exists tl, drop (length pre) buf = word ++ 0 :: tl) as [tl ->]; [|apply before_nul_app; eapply Forall_impl; [done|]; by intros ch [? _]].
  exists (drop (length pre + length word + 1) buf). apply list_eq. intros j. rewrite lookup_drop. unfold buf at 1. rewrite nulterminate_lookup.
  destruct (decide (j < length word)%nat) as [Hj|Hj]; [|destruct (decide (j = length word)) as [->|Hj2]].
  - rewrite (lookup_app_l word) by done. assert ((total ++ [0]) !! (length pre + j)%nat = word !! j) as Ej.
    { rewrite E, <- !app_assoc, lookup_app_r by lia. replace (length pre + j - length pre)%nat with j by lia. by rewrite lookup_app_l. }
    rewrite Ej. rewrite decide_False; [done|]. intros [Hn|(ch & Hch & Hb)]%(ends_break total c a _ Hc); [fold n in Hn; lia|].
    rewrite lookup_app_l in Ej by (fold n; lia). rewrite Hch in Ej. symmetry in Ej. apply (Forall_lookup_1 _ _ _ _ Hword) in Ej as [_ ?]. congruence.
  - rewrite decide_True by done. rewrite (list_lookup_middle word) by done. destruct (lookup_lt_is_Some_2 (total ++ [0]) (length pre + length word)%nat) as [x ->]; [rewrite length_app; fold n; cbn; lia|done].
  - rewrite (lookup_app_r word) by lia. rewrite lookup_cons_ne_0, lookup_drop by lia.
    unfold buf. rewrite nulterminate_lookup. by replace (length pre + length word + 1 + pred (j - length word))%nat with (length pre + j)%nat by lia.
Qed.

(** ** Termination *)

(** The function returns or panics, and does not go back. *)
Definition ends {A} (r : parse A) (s : list Z) : Prop :=
  match r with Parsed _ s' => (length s' <= length s)%nat | Syntax => True | OutOfFuel => False end.

Lemma ends_then {A B} (r : parse A) (f : A -> list Z -> parse B) s : ends r s ->
  (forall a s', (length s' <= length s)%nat -> ends (f a s') s) -> ends (then_ r f) s.
Proof. destruct r; cbn; auto. Qed.
Lemma ends_le {A} (r : parse A) s s' : ends r s -> (length s <= length s')%nat -> ends r s'.
Proof. destruct r; cbn; [lia|done..]. Qed.

Lemma word_end_len s : (length (word_end s) <= length s)%nat.
Proof. induction s as [|c s IH]; cbn; [lia|]. destruct (_ && _); cbn; lia. Qed.

Lemma gettoken_len s : forall t w s', gettoken s = (t, w, s') -> (length s' <= length s)%nat /\ (t <> 0 -> (length s' < length s)%nat) /\ (skip_ws s <> [] -> length s' < length s)%nat.
Proof.
  unfold gettoken. intros t w s'. pose proof (skip_ws_len s) as Hs. pose proof (skip_ws_idem s) as Hi. destruct (skip_ws s) as [|c s1] eqn:E; cbn [length] in *.
  { intros [= <- _ <-]. split; [cbn; lia|done]. }
  assert (forall r x, (r, (S (length s1), length x), skip_ws x) = (t, w, s') -> (length x <= length s1)%nat -> (length s' < length s)%nat) as Hgo.
  { intros r x [= _ _ <-] Hx. pose proof (skip_ws_len x). lia. }
  destruct (_ || _) eqn:E1; [intros H; apply Hgo in H; [lia|done]|].
  destruct (c =? ch_gt) eqn:E2.
  { destruct s1 as [|c1 s2]; [intros H; apply Hgo in H; [lia|done]|]. destruct (c1 =? ch_gt); intros H; apply Hgo in H; cbn in *; lia. }
  intros H. apply Hgo in H; [lia|]. cbn in Hi. destruct (in_set whitespace c) eqn:Ew; [apply (f_equal length) in Hi; pose proof (skip_ws_len s1); cbn in *; lia|].
  cbn. rewrite Ew. assert (in_set symbols c = false) as Hsym.
  { apply not_true_is_false. intros Hsym. apply in_set_elem in Hsym; [|intros x Hx; unfold symbols in Hx; set_solver by lia].
    unfold symbols in Hsym. repeat (apply elem_of_cons in Hsym as [->|Hsym]; [by vm_compute in E1, E2|]). by apply elem_of_nil in Hsym. }
  rewrite Hsym. cbn. apply word_end_len.
Qed.

Lemma peek_len s toks b s' : peek s toks = (b, s') -> (length s' <= length s)%nat /\ (b = true -> skip_ws s' <> []).
Proof. unfold peek. intros [= <- <-]. split; [apply skip_ws_len|]. rewrite skip_ws_idem. by destruct (skip_ws s). Qed.

(** The next token, after a [peek] that has seen it. *)
Lemma token_after s : skip_ws s <> [] -> exists t w s', gettoken s = (t, w, s') /\ (length s' < length s)%nat.
Proof. intros H. destruct (gettoken s) as [[t w] s'] eqn:E. exists t, w, s'. split; [done|]. by apply (gettoken_len s t w s' E). Qed.

Lemma parseredirs_ends fuel s : (length s < fuel)%nat -> ends (parseredirs fuel s) s.
Proof.
  revert s. induction fuel as [|fuel IH]; intros s Hf; [lia|]. cbn [parseredirs]. destruct (peek s _) as [b s1] eqn:E1. apply peek_len in E1 as [H1 Hb]. destruct b; [|done].
  destruct (token_after s1 (Hb eq_refl)) as (t & w & s2 & -> & H2). destruct (gettoken s2) as [[t2 w2] s3] eqn:E3. apply gettoken_len in E3 as (H3 & _ & _).
  destruct (negb _); [done|]. apply ends_le with s3; [|lia]. apply ends_then; [apply IH; lia|]. done.
Qed.

Lemma exec_args_ends fuel argv rs s : (length s < fuel)%nat -> ends (exec_args fuel argv rs s) s.
Proof.
  revert argv rs s. induction fuel as [|fuel IH]; intros argv rs s Hf; [lia|]. cbn [exec_args]. destruct (peek s _) as [b s1] eqn:E1. apply peek_len in E1 as [H1 _]. destruct b; [done|].
  destruct (gettoken s1) as [[t w] s2] eqn:E2. apply gettoken_len in E2 as (H2 & H2' & _). destruct (Z.eqb_spec t 0) as [->|Ht]; [cbn; lia|]. specialize (H2' Ht).
  destruct (negb _); [done|]. destruct (_ <=? _)%nat; [done|]. apply ends_le with s2; [|lia]. apply ends_then; [apply parseredirs_ends; lia|].
  intros rs' s3 H3. apply ends_le with s3; [|done]. apply IH. lia.
Qed.

Lemma back_loop_ends fuel c s : (length s < fuel)%nat -> ends (back_loop fuel c s) s.
Proof.
  revert c s. induction fuel as [|fuel IH]; intros c s Hf; [lia|]. cbn [back_loop]. destruct (peek s _) as [b s1] eqn:E1. apply peek_len in E1 as [H1 Hb]. destruct b; [|done].
  destruct (token_after s1 (Hb eq_refl)) as (t & w & s2 & -> & H2). apply ends_le with s2; [|lia]. apply IH. lia.
Qed.

Lemma parser_ends n : (forall s, (4 * length s + 4 <= n)%nat -> ends (parseline n s) s) /\ (forall s, (4 * length s + 3 <= n)%nat -> ends (parsepipe n s) s) /\
  (forall s, (4 * length s + 2 <= n)%nat -> ends (parseexec n s) s) /\ (forall s, (4 * length s + 1 <= n)%nat -> ends (parseblock n s) s).
Proof.
  induction n as [|n (IHl & IHp & IHe & IHb)]; [split_and!; intros; lia|]. split_and!; intros s Hn.
  - cbn [parseline]. apply ends_then; [apply IHp; lia|]. intros c s1 H1. apply ends_then; [apply ends_le with s1; [apply back_loop_ends; lia|done]|]. intros c2 s2 H2.
    destruct (peek s2 _) as [b s3] eqn:E. apply peek_len in E as [H3 Hb]. destruct b; [|cbn; lia]. destruct (token_after s3 (Hb eq_refl)) as (t & w & s4 & -> & H4).
    apply ends_le with s4; [|lia]. apply ends_then; [apply IHl; lia|done].
  - cbn [parsepipe]. apply ends_then; [apply IHe; lia|]. intros c s1 H1. destruct (peek s1 _) as [b s2] eqn:E. apply peek_len in E as [H2 Hb]. destruct b; [|cbn; lia].
    destruct (token_after s2 (Hb eq_refl)) as (t & w & s3 & -> & H3). apply ends_le with s3; [|lia]. apply ends_then; [apply IHp; lia|done].
  - cbn [parseexec]. destruct (peek s _) as [b s1] eqn:E. apply peek_len in E as [H1 Hb]. destruct b; [apply ends_le with s1; [apply IHb; lia|done]|].
    apply ends_le with s1; [|done]. apply ends_then; [apply parseredirs_ends; lia|]. intros rs s2 H2. apply ends_le with s2; [|done]. apply ends_then; [apply exec_args_ends; lia|]. by intros [argv rs'] s3 H3.
  - cbn [parseblock]. destruct (peek s _) as [b s1] eqn:E. apply peek_len in E as [H1 Hb]. destruct b; [|done]. cbn [negb].
    destruct (token_after s1 (Hb eq_refl)) as (t & w & s2 & -> & H2). apply ends_le with s2; [|lia]. apply ends_then; [apply IHl; lia|]. intros c s3 H3.
    destruct (peek s3 _) as [b s4] eqn:E4. apply peek_len in E4 as [H4 Hb4]. destruct b; [|done]. cbn [negb]. destruct (token_after s4 (Hb4 eq_refl)) as (t' & w' & s5 & -> & H5).
    apply ends_le with s5; [|lia]. apply ends_then; [apply parseredirs_ends; lia|done].
Qed.

(** C16: The shell's parser.  Every tree of commands, written down with any
    spacing (and in parentheses where needed), is parsed back to that tree,
    and after [nulterminate] its strings are the words that were written:
    the NULs cut no word short.  On every other line, too, the parser ends. *)
Theorem parsecmd_roundtrip a line : ast_ok a -> spells (print 3 a) line ->
  (exists c buf, parsecmd line = Parsed (c, buf) [] /\ cmd_rel (reads (length line) buf) c a) /\
  (forall other, parsecmd other <> OutOfFuel).
Proof.
  intros Hok Hs. split.
  - destruct (all_ok line a Hok) as (_ & _ & Hline). destruct (Hline [] line (4 * length line + 4)%nat) as (c & s & E & Hs' & _ & Hc); [done|by exists []|by rewrite app_nil_r|lia|].
    unfold parsecmd. rewrite E. cbn [then_]. destruct (spells_skip _ _ Hs') as (_ & Hnil & _). unfold peek. rewrite Hnil by done.
    rewrite bool_decide_true by done. cbn [negb]. eexists _, _. split; [done|]. by apply nulterminate_reads.
  - intros other. destruct (parser_ends (4 * length other + 4)) as (Hl & _). specialize (Hl other ltac:(lia)). unfold parsecmd.
    destruct (parseline _ other); cbn in *; try done. by destruct (negb _).
Qed.

(** One way to write tokens down: a blank before each. *)
Definition spaced_out (ts : list tok) : list Z := concat ((fun t => 32 :: tok_text t) <$> ts).
Lemma spaced_out_spells ts : Forall tok_ok ts -> spells ts (spaced_out ts).
Proof.
  induction 1 as [|t ts Ht Hts IH]; [apply sp_nil; constructor|]. unfold spaced_out. cbn [fmap list_fmap concat].
  apply (sp_tok [32]); [by repeat constructor|done| |done]. destruct ts as [|t' ts]; [by destruct t|]. by destruct t.
Qed.

(** ( a ; b > f ) | c d & ; e *)
Definition ex_ast : ast :=
  AList (ABack (APipe (AList (AExec [[97]]) (ARedir (AExec [[98]]) ROut [102])) (AExec [[99]; [100]]))) (AExec [[101]]).

Lemma parsecmd_roundtrip_witness : exists c buf, parsecmd (spaced_out (print 3 ex_ast)) = Parsed (c, buf) [] /\
  cmd_rel (reads (length (spaced_out (print 3 ex_ast))) buf) c ex_ast.
Proof.
  refine (proj1 (parsecmd_roundtrip ex_ast (spaced_out (print 3 ex_ast)) _ _)).
  - cbn. unfold MAXARGS, word_ok. repeat (split || constructor || done || lia).
  - apply spaced_out_spells. cbn. unfold word_ok. repeat (split || constructor || done || lia).
Defined.
